(** * AZSL language tooling: a shallow embedding of [extension.js]

    The extension analyses shader source text with line-oriented regular
    expression scanners, keeps the results in process-wide symbol tables and
    answers completion and validation requests from them.  This file embeds
    the parts of [src/extension.js] that build the symbol index
    ([indexHeaders], [indexDocumentMacros], the scanners), that infer
    variable types ([getVariableTypeAtPosition], [getSwizzleProperties],
    [getExpressionType]) and that validate a document ([validateDocument]),
    and proves properties of them.

    Conventions of the embedding:
    - a JavaScript string is a [string] of code units below 256;
    - a JavaScript [Map] is an insertion-ordered association list with
      unique keys ([JsMap.t]), a [Set] an insertion-ordered duplicate-free
      list, since the source iterates over both;
    - a regular expression literal is kept as its source text and parsed by
      [Regex.parse] into a syntax tree that a backtracking matcher runs with
      the priorities of the ECMAScript matcher (leftmost start, alternatives
      left to right, greedy or lazy quantifiers);
    - the module-level tables of the extension are the fields of [Index],
      threaded explicitly through every function that reads or writes them. *)

From Stdlib Require Import String Ascii List ZArith Bool Arith Lia.
Import ListNotations.

Open Scope list_scope.
Open Scope string_scope.
Open Scope nat_scope.

(* ===================================================================== *)
(** ** JavaScript string primitives *)
(* ===================================================================== *)

Module JS.

(** [WhiteSpace] and [LineTerminator] code units below 256: what [\s] matches
    and what [trim] removes. *)
Definition isSpace (c : ascii) : bool :=
  let n := nat_of_ascii c in
  (n =? 9) || (n =? 10) || (n =? 11) || (n =? 12) || (n =? 13) || (n =? 32) || (n =? 160).

Definition isDigit (c : ascii) : bool :=
  let n := nat_of_ascii c in (48 <=? n) && (n <=? 57).

Definition isUpper (c : ascii) : bool :=
  let n := nat_of_ascii c in (65 <=? n) && (n <=? 90).

Definition isLower (c : ascii) : bool :=
  let n := nat_of_ascii c in (97 <=? n) && (n <=? 122).

(** [\w] *)
Definition isWord (c : ascii) : bool :=
  isUpper c || isLower c || isDigit c || (nat_of_ascii c =? 95).

Definition isLineTerminator (c : ascii) : bool :=
  let n := nat_of_ascii c in (n =? 10) || (n =? 13).

Definition lf : ascii := ascii_of_nat 10.
Definition cr : ascii := ascii_of_nat 13.
Definition dquote : ascii := ascii_of_nat 34.
Definition backslash : ascii := ascii_of_nat 92.

Fixpoint startsWith (p s : string) : bool :=
  match p, s with
  | EmptyString, _ => true
  | String a p', String b s' => Ascii.eqb a b && startsWith p' s'
  | String _ _, EmptyString => false
  end.

(** [s.substring(n)] for a natural [n]. *)
Fixpoint drop (n : nat) (s : string) : string :=
  match n, s with
  | O, _ => s
  | S n', String _ s' => drop n' s'
  | S _, EmptyString => EmptyString
  end.

(** [s.substring(0, n)] for a natural [n]. *)
Fixpoint take (n : nat) (s : string) : string :=
  match n, s with
  | O, _ => EmptyString
  | S n', String c s' => String c (take n' s')
  | S _, EmptyString => EmptyString
  end.

(** [String.prototype.substring]: negative arguments count as 0, arguments
    beyond the length as the length, and the two are swapped when the first
    exceeds the second. *)
Definition clampIndex (s : string) (i : Z) : nat :=
  Nat.min (Z.to_nat i) (String.length s).

Definition substring (s : string) (a b : Z) : string :=
  let a' := clampIndex s a in
  let b' := clampIndex s b in
  let lo := Nat.min a' b' in
  let hi := Nat.max a' b' in
  take (hi - lo) (drop lo s).

Definition substringFrom (s : string) (a : Z) : string :=
  drop (clampIndex s a) s.

(** First position at or after [pos] (counted from the start of the string
    that [s] is a suffix of) where [p] occurs. *)
Fixpoint indexOfAt (p s : string) (pos : nat) : option nat :=
  if startsWith p s then Some pos
  else match s with
       | EmptyString => None
       | String _ s' => indexOfAt p s' (S pos)
       end.

Definition ofOption (o : option nat) : Z :=
  match o with Some n => Z.of_nat n | None => (-1)%Z end.

(** [s.indexOf(p, from)]; the result is [-1] when [p] does not occur. *)
Definition indexOfFrom (s p : string) (from : Z) : Z :=
  let k := clampIndex s from in
  ofOption (indexOfAt p (drop k s) k).

Definition indexOf (s p : string) : Z := indexOfFrom s p 0.

Fixpoint lastIndexOfAt (p s : string) (pos : nat) (best : option nat) : option nat :=
  let best' := if startsWith p s then Some pos else best in
  match s with
  | EmptyString => best'
  | String _ s' => lastIndexOfAt p s' (S pos) best'
  end.

(** [s.lastIndexOf(p)] *)
Definition lastIndexOf (s p : string) : Z := ofOption (lastIndexOfAt p s 0 None).

Definition includes (s p : string) : bool :=
  match indexOfAt p s 0 with Some _ => true | None => false end.

Definition endsWith (s p : string) : bool :=
  let n := String.length s in
  let m := String.length p in
  (m <=? n) && String.eqb (drop (n - m) s) p.

Fixpoint trimStart (s : string) : string :=
  match s with
  | String c s' => if isSpace c then trimStart s' else s
  | EmptyString => EmptyString
  end.

Fixpoint trimEnd (s : string) : string :=
  match s with
  | EmptyString => EmptyString
  | String c s' =>
      match trimEnd s' with
      | EmptyString => if isSpace c then EmptyString else String c EmptyString
      | t => String c t
      end
  end.

Definition trim (s : string) : string := trimEnd (trimStart s).

(** [text.split(/\r?\n/)]: the pieces between line breaks; a carriage return
    directly before a line feed belongs to the break. *)
Fixpoint splitLines (s : string) : list string :=
  match s with
  | EmptyString => [EmptyString]
  | String c s' =>
      if Ascii.eqb c lf then EmptyString :: splitLines s'
      else
        match s' with
        | String d s'' =>
            if Ascii.eqb c cr && Ascii.eqb d lf then EmptyString :: splitLines s''
            else match splitLines s' with
                 | l :: ls => String c l :: ls
                 | [] => [String c EmptyString]
                 end
        | EmptyString => [String c EmptyString]
        end
  end.

(** [s.split(sep)] for a one-character separator. *)
Fixpoint splitChar (sep : ascii) (s : string) : list string :=
  match s with
  | EmptyString => [EmptyString]
  | String c s' =>
      if Ascii.eqb c sep then EmptyString :: splitChar sep s'
      else match splitChar sep s' with
           | l :: ls => String c l :: ls
           | [] => [String c EmptyString]
           end
  end.

(** [parts.join(sep)] *)
Fixpoint join (sep : string) (parts : list string) : string :=
  match parts with
  | [] => EmptyString
  | [p] => p
  | p :: ps => p ++ sep ++ join sep ps
  end.

(** Truthiness of a string: the empty string is falsy. *)
Definition truthy (s : string) : bool :=
  match s with EmptyString => false | _ => true end.

(** [(line.match(/c/g) || []).length] for a one-character pattern. *)
Fixpoint countChar (c : ascii) (s : string) : nat :=
  match s with
  | EmptyString => 0
  | String d s' => (if Ascii.eqb c d then 1 else 0) + countChar c s'
  end.

Definition charAt (s : string) (i : nat) : option ascii := String.get i s.

Definition len (s : string) : Z := Z.of_nat (String.length s).

End JS.

(* ===================================================================== *)
(** ** Regular expressions *)
(* ===================================================================== *)

Module Regex.

(** An item of a character class. *)
Inductive citem : Type :=
| CChar (c : ascii)
| CRange (lo hi : ascii)
| CWord            (* \w *)
| CSpace           (* \s *)
| CNotSpace        (* \S *)
| CDigit.          (* \d *)

Inductive re : Type :=
| Empty
| Chr (c : ascii)
| Any                                 (* .  : any unit but a line terminator *)
| Class (negated : bool) (items : list citem)
| Cat (a b : re)
| Alt (a b : re)
| Rep (greedy : bool) (a : re)        (* a*  and  a*?  *)
| Grp (n : nat) (a : re)              (* the n-th capturing group *)
| Bol                                 (* ^ *)
| Eol                                 (* $ *)
| WordB                               (* \b *)
| NLook (a : re).                     (* (?!a) *)

Definition citemMatches (c : ascii) (i : citem) : bool :=
  match i with
  | CChar d => Ascii.eqb c d
  | CRange lo hi =>
      (nat_of_ascii lo <=? nat_of_ascii c) && (nat_of_ascii c <=? nat_of_ascii hi)
  | CWord => JS.isWord c
  | CSpace => JS.isSpace c
  | CNotSpace => negb (JS.isSpace c)
  | CDigit => JS.isDigit c
  end.

Definition classMatches (negated : bool) (items : list citem) (c : ascii) : bool :=
  xorb negated (existsb (citemMatches c) items).

(** The matcher's state: the code unit before the current position, the
    text from the current position on, the position, and the captures made
    so far (most recent first). *)
Record mstate : Type := MState {
  ms_prev : option ascii;
  ms_rest : string;
  ms_pos : nat;
  ms_caps : list (nat * string)
}.

Definition advance (st : mstate) (c : ascii) (rest : string) : mstate :=
  MState (Some c) rest (S (ms_pos st)) (ms_caps st).

Definition setCapture (n : nat) (text : string) (st : mstate) : mstate :=
  MState (ms_prev st) (ms_rest st) (ms_pos st) ((n, text) :: ms_caps st).

Definition isWordOpt (o : option ascii) : bool :=
  match o with Some c => JS.isWord c | None => false end.

Definition nextChar (st : mstate) : option ascii :=
  match ms_rest st with String c _ => Some c | EmptyString => None end.

Definition orElse {R : Type} (a : option R) (b : option R) : option R :=
  match a with Some x => Some x | None => b end.

(** Backtracking matcher in continuation-passing style: [run r R st k] tries
    the ways [r] can match at [st] in priority order and returns the first
    for which the continuation [k] succeeds.  An iteration of a quantifier
    that consumes nothing is rejected, as in ECMAScript, so the loop of
    [Rep] runs at most once per remaining code unit. *)
Fixpoint run (r : re) (R : Type) (st : mstate) (k : mstate -> option R) {struct r} : option R :=
  match r with
  | Empty => k st
  | Chr c =>
      match ms_rest st with
      | String d rest => if Ascii.eqb c d then k (advance st d rest) else None
      | EmptyString => None
      end
  | Any =>
      match ms_rest st with
      | String d rest => if JS.isLineTerminator d then None else k (advance st d rest)
      | EmptyString => None
      end
  | Class negated items =>
      match ms_rest st with
      | String d rest => if classMatches negated items d then k (advance st d rest) else None
      | EmptyString => None
      end
  | Cat a b => run a R st (fun st' => run b R st' k)
  | Alt a b => orElse (run a R st k) (run b R st k)
  | Rep greedy a =>
      (fix loop (n : nat) (st0 : mstate) {struct n} : option R :=
         match n with
         | O => k st0
         | S n' =>
             let again :=
               run a R st0 (fun st' =>
                 if ms_pos st0 <? ms_pos st' then loop n' st' else None) in
             if greedy then orElse again (k st0) else orElse (k st0) again
         end) (S (String.length (ms_rest st))) st
  | Grp n a =>
      run a R st (fun st' =>
        k (setCapture n (JS.take (ms_pos st' - ms_pos st) (ms_rest st)) st'))
  | Bol => match ms_prev st with None => k st | Some _ => None end
  | Eol => match ms_rest st with EmptyString => k st | String _ _ => None end
  | WordB =>
      if xorb (isWordOpt (ms_prev st)) (isWordOpt (nextChar st)) then k st else None
  | NLook a =>
      match run a unit st (fun _ => Some tt) with
      | Some _ => None
      | None => k st
      end
  end.

(** The result of a successful match: [m.index], [m[0]], the captures and
    the end position. *)
Record rmatch : Type := RMatch {
  m_index : nat;
  m_text : string;
  m_caps : list (nat * string);
  m_end : nat
}.

(** [m[n]]: [None] stands for [undefined] (the group did not take part). *)
Fixpoint lookupCapture (n : nat) (caps : list (nat * string)) : option string :=
  match caps with
  | [] => None
  | (i, t) :: rest => if i =? n then Some t else lookupCapture n rest
  end.

Definition group (n : nat) (m : rmatch) : option string := lookupCapture n (m_caps m).

(** [m[n]] where the group always takes part in a match. *)
Definition grp (n : nat) (m : rmatch) : string :=
  match group n m with Some t => t | None => EmptyString end.

Definition matchAt (r : re) (prev : option ascii) (s : string) (pos : nat) : option rmatch :=
  match run r mstate (MState prev s pos []) (fun st' => Some st') with
  | Some st' => Some (RMatch pos (JS.take (ms_pos st' - pos) s) (ms_caps st') (ms_pos st'))
  | None => None
  end.

(** Search for the leftmost match starting at [s], which begins at position
    [pos] of the whole text and is preceded by [prev]. *)
Fixpoint execAt (r : re) (prev : option ascii) (s : string) (pos : nat) : option rmatch :=
  match matchAt r prev s pos with
  | Some m => Some m
  | None =>
      match s with
      | String c s' => execAt r (Some c) s' (S pos)
      | EmptyString => None
      end
  end.

(** [s.match(r)] and [r.exec(s)] for a regular expression without the [g] flag. *)
Definition exec (r : re) (s : string) : option rmatch := execAt r None s 0.

(** [r.test(s)] *)
Definition test (r : re) (s : string) : bool :=
  match exec r s with Some _ => true | None => false end.

(** The code unit before position [n] of [s] and the text from [n] on. *)
Fixpoint seek (prev : option ascii) (s : string) (n : nat) : option ascii * string :=
  match n, s with
  | O, _ => (prev, s)
  | S n', String c s' => seek (Some c) s' n'
  | S _, EmptyString => (prev, EmptyString)
  end.

(** All matches of a [g] regular expression, left to right, each search
    resuming where the previous match ended (one unit further after an empty
    match): the matches seen by a [while ((m = r.exec(s)) !== null)] loop, by
    [s.match(r)] and by [s.replace(r, ...)]. *)
Fixpoint execAllAt (fuel : nat) (r : re) (prev : option ascii) (s : string) (pos : nat)
  : list rmatch :=
  match fuel with
  | O => []
  | S fuel' =>
      match execAt r prev s pos with
      | None => []
      | Some m =>
          let next := if m_end m =? m_index m then S (m_end m) else m_end m in
          if String.length s + pos <? next then [m]
          else
            let '(prev', s') := seek prev s (next - pos) in
            m :: execAllAt fuel' r prev' s' next
      end
  end.

Definition execAll (r : re) (s : string) : list rmatch :=
  execAllAt (S (String.length s)) r None s 0.

(** [(s.match(r) || []).length] for a [g] regular expression. *)
Definition countMatches (r : re) (s : string) : nat := List.length (execAll r s).

(** [s.replace(r, by)] for a [g] regular expression and a replacement text
    without [$] patterns. *)
Fixpoint replaceFrom (s : string) (pos : nat) (ms : list rmatch) (by_ : string) : string :=
  match ms with
  | [] => s
  | m :: ms' =>
      JS.take (m_index m - pos) s ++ by_ ++
      replaceFrom (JS.drop (m_end m - pos) s) (m_end m) ms' by_
  end.

Definition replaceAll (r : re) (s by_ : string) : string :=
  replaceFrom s 0 (execAll r s) by_.

(** [s.replace(r, by)] without the [g] flag: the first match only. *)
Definition replaceFirst (r : re) (s by_ : string) : string :=
  match exec r s with
  | None => s
  | Some m => JS.take (m_index m) s ++ by_ ++ JS.drop (m_end m) s
  end.

(** *** Reading a regular expression literal

    [parse] reads the text between the slashes of a literal of the source.
    A double quote inside a literal is written [\x22] here. *)

Definition tab : ascii := ascii_of_nat 9.

Definition hexDigit (c : ascii) : option nat :=
  let n := nat_of_ascii c in
  if JS.isDigit c then Some (n - 48)
  else if (97 <=? n) && (n <=? 102) then Some (n - 87)
  else if (65 <=? n) && (n <=? 70) then Some (n - 55)
  else None.

(** The class item an escape [\c] stands for. *)
Definition escapeItem (c : ascii) : citem :=
  match c with
  | "w"%char => CWord
  | "s"%char => CSpace
  | "S"%char => CNotSpace
  | "d"%char => CDigit
  | "t"%char => CChar tab
  | "n"%char => CChar JS.lf
  | "r"%char => CChar JS.cr
  | _ => CChar c
  end.

Definition isPlainClassChar (c : ascii) : bool :=
  negb (Ascii.eqb c "]"%char) && negb (Ascii.eqb c JS.backslash).

(** The items of a character class up to the closing bracket. *)
Fixpoint parseClassItems (s : list ascii) (acc : list citem)
  : option (list citem * list ascii) :=
  match s with
  | [] => None
  | c :: rest =>
      if Ascii.eqb c "]"%char then Some (rev acc, rest)
      else if Ascii.eqb c JS.backslash then
        match rest with
        | "x"%char :: h1 :: h2 :: rest' =>
            match hexDigit h1, hexDigit h2 with
            | Some a, Some b => parseClassItems rest' (CChar (ascii_of_nat (16 * a + b)) :: acc)
            | _, _ => None
            end
        | e :: rest' => parseClassItems rest' (escapeItem e :: acc)
        | [] => None
        end
      else
        match rest with
        | "-"%char :: d :: rest' =>
            if isPlainClassChar d then parseClassItems rest' (CRange c d :: acc)
            else parseClassItems rest (CChar c :: acc)
        | _ => parseClassItems rest (CChar c :: acc)
        end
  end.

Fixpoint parseDigits (s : list ascii) (acc : option nat) : option nat * list ascii :=
  match s with
  | c :: rest =>
      if JS.isDigit c then
        parseDigits rest (Some (10 * match acc with Some n => n | None => 0 end
                                + (nat_of_ascii c - 48)))
      else (acc, s)
  | [] => (acc, s)
  end.

Fixpoint repeatExact (n : nat) (a : re) : re :=
  match n with
  | O => Empty
  | S O => a
  | S n' => Cat a (repeatExact n' a)
  end.

(** Up to [n] further iterations, tried greedily or lazily. *)
Fixpoint repeatUpTo (greedy : bool) (n : nat) (a : re) : re :=
  match n with
  | O => Empty
  | S n' =>
      let more := match n' with O => a | _ => Cat a (repeatUpTo greedy n' a) end in
      if greedy then Alt more Empty else Alt Empty more
  end.

Definition cat (a b : re) : re :=
  match a, b with
  | Empty, _ => b
  | _, Empty => a
  | _, _ => Cat a b
  end.

(** A quantifier. *)
Inductive quant : Type :=
| QStar | QPlus | QOpt | QRange (lo : nat) (hi : option nat).

Definition applyQuant (q : quant) (greedy : bool) (a : re) : re :=
  match q with
  | QStar => Rep greedy a
  | QPlus => Cat a (Rep greedy a)
  | QOpt => if greedy then Alt a Empty else Alt Empty a
  | QRange lo None => cat (repeatExact lo a) (Rep greedy a)
  | QRange lo (Some hi) => cat (repeatExact lo a) (repeatUpTo greedy (hi - lo) a)
  end.

(** A quantifier at the head of [s], if there is one; a brace that does not
    open a well-formed bound is an ordinary character. *)
Definition parseQuant (s : list ascii) : option (quant * list ascii) :=
  match s with
  | "*"%char :: rest => Some (QStar, rest)
  | "+"%char :: rest => Some (QPlus, rest)
  | "?"%char :: rest => Some (QOpt, rest)
  | "{"%char :: rest =>
      match parseDigits rest None with
      | (Some lo, "}"%char :: rest') => Some (QRange lo (Some lo), rest')
      | (Some lo, ","%char :: rest') =>
          match parseDigits rest' None with
          | (hi, "}"%char :: rest'') => Some (QRange lo hi, rest'')
          | _ => None
          end
      | _ => None
      end
  | _ => None
  end.

Definition quantified (a : re) (s : list ascii) : re * list ascii :=
  match parseQuant s with
  | Some (q, "?"%char :: rest) => (applyQuant q false a, rest)
  | Some (q, rest) => (applyQuant q true a, rest)
  | None => (a, s)
  end.

(** Recursive descent over alternatives, sequences and atoms; [g] counts the
    capturing groups opened so far, so that groups are numbered by their
    opening parenthesis. *)
Fixpoint parseAlt (fuel : nat) (s : list ascii) (g : nat) {struct fuel}
  : option (re * list ascii * nat) :=
  match fuel with
  | O => None
  | S fuel' =>
      match parseSeq fuel' s g with
      | Some (a, "|"%char :: rest, g1) =>
          match parseAlt fuel' rest g1 with
          | Some (b, rest', g2) => Some (Alt a b, rest', g2)
          | None => None
          end
      | other => other
      end
  end
with parseSeq (fuel : nat) (s : list ascii) (g : nat) {struct fuel}
  : option (re * list ascii * nat) :=
  match fuel with
  | O => None
  | S fuel' =>
      match s with
      | [] => Some (Empty, s, g)
      | c :: _ =>
          if Ascii.eqb c "|"%char || Ascii.eqb c ")"%char then Some (Empty, s, g)
          else
            match parseAtom fuel' s g with
            | Some (a, rest, g1) =>
                let '(a', rest') := quantified a rest in
                match parseSeq fuel' rest' g1 with
                | Some (b, rest'', g2) => Some (cat a' b, rest'', g2)
                | None => None
                end
            | None => None
            end
      end
  end
with parseAtom (fuel : nat) (s : list ascii) (g : nat) {struct fuel}
  : option (re * list ascii * nat) :=
  match fuel with
  | O => None
  | S fuel' =>
      match s with
      | [] => None
      | "("%char :: "?"%char :: ":"%char :: rest =>
          match parseAlt fuel' rest g with
          | Some (a, ")"%char :: rest', g1) => Some (a, rest', g1)
          | _ => None
          end
      | "("%char :: "?"%char :: "!"%char :: rest =>
          match parseAlt fuel' rest g with
          | Some (a, ")"%char :: rest', g1) => Some (NLook a, rest', g1)
          | _ => None
          end
      | "("%char :: rest =>
          match parseAlt fuel' rest (S g) with
          | Some (a, ")"%char :: rest', g1) => Some (Grp (S g) a, rest', g1)
          | _ => None
          end
      | "["%char :: "^"%char :: rest =>
          match parseClassItems rest [] with
          | Some (items, rest') => Some (Class true items, rest', g)
          | None => None
          end
      | "["%char :: rest =>
          match parseClassItems rest [] with
          | Some (items, rest') => Some (Class false items, rest', g)
          | None => None
          end
      | "."%char :: rest => Some (Any, rest, g)
      | "^"%char :: rest => Some (Bol, rest, g)
      | "$"%char :: rest => Some (Eol, rest, g)
      | c :: rest =>
          if Ascii.eqb c JS.backslash then
            match rest with
            | "b"%char :: rest' => Some (WordB, rest', g)
            | "x"%char :: h1 :: h2 :: rest' =>
                match hexDigit h1, hexDigit h2 with
                | Some a, Some b => Some (Chr (ascii_of_nat (16 * a + b)), rest', g)
                | _, _ => None
                end
            | e :: rest' =>
                match escapeItem e with
                | CChar d => Some (Chr d, rest', g)
                | item => Some (Class false [item], rest', g)
                end
            | [] => None
            end
          else Some (Chr c, rest, g)
      end
  end.

Definition parse (src : string) : option re :=
  let s := list_ascii_of_string src in
  match parseAlt (S (S (3 * List.length s))) s 0 with
  | Some (r, [], _) => Some r
  | _ => None
  end.

End Regex.

(** The regular expression a literal of the source denotes. *)
Notation "'rx' src" :=
  (ltac:(let r := eval vm_compute in (Regex.parse src) in
         match r with Some ?x => exact x end))
  (at level 10, src at level 9, only parsing).

(* ===================================================================== *)
(** ** Maps and sets with insertion order *)
(* ===================================================================== *)

(** A JavaScript [Set] of strings: [add] appends a new element at the end, and
    iteration follows insertion order. *)
Module JsSet.

Definition t : Type := list string.

Definition empty : t := [].

Definition has (x : string) (s : t) : bool := existsb (String.eqb x) s.

Definition add (x : string) (s : t) : t := if has x s then s else (s ++ [x])%list.

(** [for (const x of xs) s.add(x)] *)
Definition addAll (xs : list string) (s : t) : t := fold_left (fun acc x => add x acc) xs s.

(** [new Set([...])] *)
Definition ofList (xs : list string) : t := addAll xs empty.

Definition size (s : t) : nat := List.length s.

End JsSet.

(** A JavaScript [Map] with string keys: [set] replaces the value of a
    present key in place and appends an absent key at the end. *)
Module JsMap.

Definition t (V : Type) : Type := list (string * V).

Definition empty {V : Type} : t V := [].

Fixpoint get {V : Type} (k : string) (m : t V) : option V :=
  match m with
  | [] => None
  | (k', v) :: m' => if String.eqb k k' then Some v else get k m'
  end.

Definition has {V : Type} (k : string) (m : t V) : bool :=
  match get k m with Some _ => true | None => false end.

Fixpoint set {V : Type} (k : string) (v : V) (m : t V) : t V :=
  match m with
  | [] => [(k, v)]
  | (k', v') :: m' =>
      if String.eqb k k' then (k', v) :: m' else (k', v') :: set k v m'
  end.

Definition keys {V : Type} (m : t V) : list string := map fst m.

Definition size {V : Type} (m : t V) : nat := List.length m.

End JsMap.

(* ===================================================================== *)
(** ** The symbol index *)
(* ===================================================================== *)

(** A [vscode.Uri], up to the equality of its [toString()]: the [file] Uri of
    a path, or a parsed Uri text. *)
Inductive Uri : Type :=
| UriFile (fsPath : string)
| UriParse (text : string).

Definition Uri_eqb (a b : Uri) : bool :=
  match a, b with
  | UriFile p, UriFile q => String.eqb p q
  | UriParse p, UriParse q => String.eqb p q
  | _, _ => false
  end.

Record Location : Type := mkLocation { loc_uri : Uri; loc_line : nat }.

Record Position : Type := mkPosition { pos_uri : Uri; pos_line : nat; pos_column : nat }.

Record MacroEntry : Type := mkMacroEntry {
  macro_value : string;
  macro_doc : string;
  macro_uri : Uri;
  macro_line : nat
}.

Record OptionEntry : Type := mkOptionEntry {
  option_uri : Uri;
  option_line : nat;
  option_isStatic : bool
}.

Record SrgMemberInfo : Type := mkSrgMemberInfo {
  member_uri : Uri;
  member_line : nat;
  member_srgName : string;
  member_memberName : string
}.

(** The module-level tables of the extension. *)
Record Index : Type := mkIndex {
  indexedSymbols : JsSet.t;
  headersPathIndex : JsMap.t string;
  headersBasenameIndex : JsMap.t (list string);
  macroIndex : JsMap.t MacroEntry;
  atomMethodIndex : JsMap.t Position;
  atomTypeMembers : JsMap.t JsSet.t;
  srgSemanticIndex : JsMap.t Location;
  srgMembers : JsMap.t JsSet.t;
  srgMemberIndex : JsMap.t SrgMemberInfo;
  srgIndex : JsMap.t Location;
  structIndex : JsMap.t Location;
  structMembers : JsMap.t JsSet.t;
  functionIndex : JsMap.t Position;
  optionIndex : JsMap.t OptionEntry
}.

(** The tables as they are when the module is loaded: [new Map()] and
    [new Set()] throughout. *)
Definition initialIndex : Index :=
  mkIndex JsSet.empty JsMap.empty JsMap.empty JsMap.empty JsMap.empty JsMap.empty
          JsMap.empty JsMap.empty JsMap.empty JsMap.empty JsMap.empty JsMap.empty
          JsMap.empty JsMap.empty.

Definition setIndexedSymbols (v : JsSet.t) (st : Index) : Index :=
  mkIndex v (headersPathIndex st) (headersBasenameIndex st) (macroIndex st)
    (atomMethodIndex st) (atomTypeMembers st) (srgSemanticIndex st) (srgMembers st)
    (srgMemberIndex st) (srgIndex st) (structIndex st) (structMembers st)
    (functionIndex st) (optionIndex st).

Definition setHeadersPathIndex (v : JsMap.t string) (st : Index) : Index :=
  mkIndex (indexedSymbols st) v (headersBasenameIndex st) (macroIndex st)
    (atomMethodIndex st) (atomTypeMembers st) (srgSemanticIndex st) (srgMembers st)
    (srgMemberIndex st) (srgIndex st) (structIndex st) (structMembers st)
    (functionIndex st) (optionIndex st).

Definition setHeadersBasenameIndex (v : JsMap.t (list string)) (st : Index) : Index :=
  mkIndex (indexedSymbols st) (headersPathIndex st) v (macroIndex st)
    (atomMethodIndex st) (atomTypeMembers st) (srgSemanticIndex st) (srgMembers st)
    (srgMemberIndex st) (srgIndex st) (structIndex st) (structMembers st)
    (functionIndex st) (optionIndex st).

Definition setMacroIndex (v : JsMap.t MacroEntry) (st : Index) : Index :=
  mkIndex (indexedSymbols st) (headersPathIndex st) (headersBasenameIndex st) v
    (atomMethodIndex st) (atomTypeMembers st) (srgSemanticIndex st) (srgMembers st)
    (srgMemberIndex st) (srgIndex st) (structIndex st) (structMembers st)
    (functionIndex st) (optionIndex st).

Definition setAtomMethodIndex (v : JsMap.t Position) (st : Index) : Index :=
  mkIndex (indexedSymbols st) (headersPathIndex st) (headersBasenameIndex st) (macroIndex st)
    v (atomTypeMembers st) (srgSemanticIndex st) (srgMembers st)
    (srgMemberIndex st) (srgIndex st) (structIndex st) (structMembers st)
    (functionIndex st) (optionIndex st).

Definition setAtomTypeMembers (v : JsMap.t JsSet.t) (st : Index) : Index :=
  mkIndex (indexedSymbols st) (headersPathIndex st) (headersBasenameIndex st) (macroIndex st)
    (atomMethodIndex st) v (srgSemanticIndex st) (srgMembers st)
    (srgMemberIndex st) (srgIndex st) (structIndex st) (structMembers st)
    (functionIndex st) (optionIndex st).

Definition setSrgSemanticIndex (v : JsMap.t Location) (st : Index) : Index :=
  mkIndex (indexedSymbols st) (headersPathIndex st) (headersBasenameIndex st) (macroIndex st)
    (atomMethodIndex st) (atomTypeMembers st) v (srgMembers st)
    (srgMemberIndex st) (srgIndex st) (structIndex st) (structMembers st)
    (functionIndex st) (optionIndex st).

Definition setSrgMembers (v : JsMap.t JsSet.t) (st : Index) : Index :=
  mkIndex (indexedSymbols st) (headersPathIndex st) (headersBasenameIndex st) (macroIndex st)
    (atomMethodIndex st) (atomTypeMembers st) (srgSemanticIndex st) v
    (srgMemberIndex st) (srgIndex st) (structIndex st) (structMembers st)
    (functionIndex st) (optionIndex st).

Definition setSrgMemberIndex (v : JsMap.t SrgMemberInfo) (st : Index) : Index :=
  mkIndex (indexedSymbols st) (headersPathIndex st) (headersBasenameIndex st) (macroIndex st)
    (atomMethodIndex st) (atomTypeMembers st) (srgSemanticIndex st) (srgMembers st)
    v (srgIndex st) (structIndex st) (structMembers st)
    (functionIndex st) (optionIndex st).

Definition setSrgIndex (v : JsMap.t Location) (st : Index) : Index :=
  mkIndex (indexedSymbols st) (headersPathIndex st) (headersBasenameIndex st) (macroIndex st)
    (atomMethodIndex st) (atomTypeMembers st) (srgSemanticIndex st) (srgMembers st)
    (srgMemberIndex st) v (structIndex st) (structMembers st)
    (functionIndex st) (optionIndex st).

Definition setStructIndex (v : JsMap.t Location) (st : Index) : Index :=
  mkIndex (indexedSymbols st) (headersPathIndex st) (headersBasenameIndex st) (macroIndex st)
    (atomMethodIndex st) (atomTypeMembers st) (srgSemanticIndex st) (srgMembers st)
    (srgMemberIndex st) (srgIndex st) v (structMembers st)
    (functionIndex st) (optionIndex st).

Definition setStructMembers (v : JsMap.t JsSet.t) (st : Index) : Index :=
  mkIndex (indexedSymbols st) (headersPathIndex st) (headersBasenameIndex st) (macroIndex st)
    (atomMethodIndex st) (atomTypeMembers st) (srgSemanticIndex st) (srgMembers st)
    (srgMemberIndex st) (srgIndex st) (structIndex st) v
    (functionIndex st) (optionIndex st).

Definition setFunctionIndex (v : JsMap.t Position) (st : Index) : Index :=
  mkIndex (indexedSymbols st) (headersPathIndex st) (headersBasenameIndex st) (macroIndex st)
    (atomMethodIndex st) (atomTypeMembers st) (srgSemanticIndex st) (srgMembers st)
    (srgMemberIndex st) (srgIndex st) (structIndex st) (structMembers st)
    v (optionIndex st).

Definition setOptionIndex (v : JsMap.t OptionEntry) (st : Index) : Index :=
  mkIndex (indexedSymbols st) (headersPathIndex st) (headersBasenameIndex st) (macroIndex st)
    (atomMethodIndex st) (atomTypeMembers st) (srgSemanticIndex st) (srgMembers st)
    (srgMemberIndex st) (srgIndex st) (structIndex st) (structMembers st)
    (functionIndex st) v.

(** [if (!m.has(k)) m.set(k, new Set()); for (const x of xs) m.get(k).add(x)] *)
Definition addMembers (k : string) (xs : list string) (m : JsMap.t JsSet.t) : JsMap.t JsSet.t :=
  let existing := match JsMap.get k m with Some s => s | None => JsSet.empty end in
  JsMap.set k (JsSet.addAll xs existing) m.

(** [if (!m.has(k)) m.set(k, v)] *)
Definition setIfAbsent {V : Type} (k : string) (v : V) (m : JsMap.t V) : JsMap.t V :=
  if JsMap.has k m then m else JsMap.set k v m.

(** A text document of the editor.  [doc_fileName] is [document.fileName],
    which is also [document.uri.fsPath]. *)
Record Document : Type := mkDocument {
  doc_languageId : string;
  doc_fileName : string;
  doc_uri : Uri;
  doc_text : string
}.

(* ===================================================================== *)
(** ** Lexical scanners *)
(* ===================================================================== *)

(** [for (let i = 0; i < lines.length; i++)] threading a state: the body [f]
    receives the index and the line. *)
Fixpoint foldLinesFrom {S : Type} (i : nat) (ls : list string)
  (f : nat -> string -> S -> S) (s : S) : S :=
  match ls with
  | [] => s
  | l :: ls' => foldLinesFrom (Datatypes.S i) ls' f (f i l s)
  end.

Definition foldLines {S : Type} (ls : list string) (f : nat -> string -> S -> S) (s : S) : S :=
  foldLinesFrom 0 ls f s.

Definition lineAt (lines : list string) (i : nat) : option string := nth_error lines i.

(** Net number of opening braces on a line: the difference of
    [(line.match(/{/g) || []).length] and [(line.match(/}/g) || []).length]. *)
Definition braceDelta (line : string) : Z :=
  (Z.of_nat (Regex.countMatches (rx "{") line)
   - Z.of_nat (Regex.countMatches (rx "}") line))%Z.

(** *** [extractSymbolsFromText] *)

Definition symbolRegexes : list Regex.re :=
  [ rx "\bSRG_[A-Za-z0-9_]+\b";
    rx "\[\[[A-Za-z0-9_:\s,()]+\]\]";
    rx "\[(unroll|loop|flatten|branch|allow_uav_condition)\]";
    rx "\b[A-Z][A-Za-z0-9_]+\b";
    rx "\b(Sample|SampleCmp|GetDimensions)\b";
    rx ":[ \t]*(SV_[A-Za-z0-9_]+|TEXCOORD[0-9]+|POSITION|NORMAL)\b";
    rx "\bo_[A-Za-z0-9_]+\b" ].

(** [m[1] || m[0]] *)
Definition firstGroupOrWhole (m : Regex.rmatch) : string :=
  match Regex.group 1 m with
  | Some t => if JS.truthy t then t else Regex.m_text m
  | None => Regex.m_text m
  end.

Definition extractSymbolsFromText (text : string) : JsSet.t :=
  fold_left
    (fun found re =>
       fold_left
         (fun found' m =>
            let val := firstGroupOrWhole m in
            if String.length val <=? 64 then JsSet.add val found' else found')
         (Regex.execAll re text) found)
    symbolRegexes JsSet.empty.

(** *** [extractMacrosWithComments] *)

Record MacroDef : Type := mkMacroDef {
  def_name : string;
  def_value : string;
  def_line : nat;
  def_doc : string
}.

Definition reBlankLine := rx "^\s*$".
Definition reLineComment := rx "^\s*\/\/".
Definition reBlockEnd := rx "\*\/\s*$".
Definition reBlockStart := rx "^\s*\/\*".
Definition reStarPrefix := rx "^\s*\*\s?".
Definition reDefineOptValue :=
  rx "^\s*#\s*define\s+([A-Za-z_][A-Za-z0-9_]*)(?:\s+(.*?))?(?:\s*\/\/\s*(.*))?\s*$".
Definition reDefineValue :=
  rx "^\s*#\s*define\s+([A-Za-z_][A-Za-z0-9_]*)\s+(.*?)(?:\s*\/\/\s*(.*))?\s*$".
Definition reIfndef := rx "^\s*#\s*ifndef\s+([A-Za-z_][A-Za-z0-9_]*)\s*$".

Fixpoint dropWhile {A : Type} (p : A -> bool) (l : list A) : list A :=
  match l with
  | x :: l' => if p x then dropWhile p l' else l
  | [] => []
  end.

Fixpoint takeWhile {A : Type} (p : A -> bool) (l : list A) : list A :=
  match l with
  | x :: l' => if p x then x :: takeWhile p l' else []
  | [] => []
  end.

(** The lines of a block comment found by walking upwards: every line up to
    and including the first that opens the comment, or all lines when none
    does.  [above] lists the lines from the current one upwards; the result
    is in document order. *)
Fixpoint blockUpwards (above : list string) (acc : list string) : list string :=
  match above with
  | [] => acc
  | l :: above' =>
      if Regex.test reBlockStart l then l :: acc else blockUpwards above' (l :: acc)
  end.

(** [collectPrecedingComment(fromIndex)] as the lines of documentation;
    [above] lists [lines[fromIndex]], [lines[fromIndex - 1]], ... down to
    [lines[0]]. *)
Definition precedingCommentLines (above : list string) : list string :=
  let above1 := dropWhile (Regex.test reBlankLine) above in
  let comments := takeWhile (Regex.test reLineComment) above1 in
  let docLines :=
    rev (map (fun l => JS.trim (Regex.replaceFirst reLineComment l "")) comments) in
  let above2 := dropWhile (Regex.test reLineComment) above1 in
  match above2 with
  | l :: _ =>
      if Regex.test reBlockEnd l then
        let block := blockUpwards above2 [] in
        let text :=
          Regex.replaceFirst reBlockEnd
            (Regex.replaceFirst reBlockStart (JS.join (String JS.lf "") block) "") "" in
        let cleaned :=
          map (fun s => JS.trim (Regex.replaceFirst reStarPrefix s ""))
              (JS.splitChar JS.lf text) in
        (cleaned ++ docLines)%list
      else docLines
  | [] => docLines
  end.

(** The lines above line [i], nearest first. *)
Definition linesAbove (lines : list string) (i : nat) : list string := rev (firstn i lines).

(** [collectPrecedingComment(i - 1)] *)
Definition collectPrecedingComment (lines : list string) (i : nat) : string :=
  JS.join (String JS.lf "") (precedingCommentLines (linesAbove lines i)).

(** [[a, b].filter(Boolean).join('\n')] *)
Definition joinTruthy (parts : list string) : string :=
  JS.join (String JS.lf "") (filter JS.truthy parts).

(** [(m[n] || '').trim()] *)
Definition groupTrimmed (n : nat) (m : Regex.rmatch) : string :=
  JS.trim (match Regex.group n m with Some t => t | None => "" end).

(** The first [#define] of [name] among the [count] lines that start at
    line [k]. *)
Fixpoint findGuardedDefine (name : string) (k : nat) (ls : list string) (count : nat)
  : option (nat * Regex.rmatch) :=
  match count, ls with
  | S count', l :: ls' =>
      match Regex.exec reDefineValue l with
      | Some m =>
          if String.eqb (Regex.grp 1 m) name then Some (k, m)
          else findGuardedDefine name (S k) ls' count'
      | None => findGuardedDefine name (S k) ls' count'
      end
  | _, _ => None
  end.

Definition extractMacrosWithComments (text : string) : list MacroDef :=
  let lines := JS.splitLines text in
  let defines :=
    foldLines lines
      (fun i line results =>
         match Regex.exec reDefineOptValue line with
         | Some m =>
             let docHead := collectPrecedingComment lines i in
             let doc := joinTruthy [docHead; groupTrimmed 3 m] in
             (results ++ [mkMacroDef (Regex.grp 1 m) (groupTrimmed 2 m) i doc])%list
         | None => results
         end) [] in
  foldLines lines
    (fun i line results =>
       match Regex.exec reIfndef line with
       | Some ifndef =>
           let name := Regex.grp 1 ifndef in
           match findGuardedDefine name (S i) (skipn (S i) lines) 15 with
           | Some (defLine, m) =>
               let docHead := collectPrecedingComment lines i in
               let doc := joinTruthy [docHead; groupTrimmed 3 m] in
               (results ++ [mkMacroDef name (JS.trim (Regex.grp 2 m)) defLine doc])%list
           | None => results
           end
       | None => results
       end) defines.

(** *** [extractSrgSemantics] *)

Record SemanticDecl : Type := mkSemanticDecl {
  sem_name : string;
  sem_line : nat;
  sem_uri : Uri
}.

Definition reSrgSemantic := rx "^\s*ShaderResourceGroupSemantic\s+([A-Za-z_][A-Za-z0-9_]*)\s*\{".

Definition extractSrgSemantics (text filePath : string) : list SemanticDecl :=
  foldLines (JS.splitLines text)
    (fun i line results =>
       match Regex.exec reSrgSemantic line with
       | Some m => (results ++ [mkSemanticDecl (Regex.grp 1 m) i (UriFile filePath)])%list
       | None => results
       end) [].

(** *** [extractStructDeclarations] *)

Record StructInfo : Type := mkStructInfo {
  struct_name : string;
  struct_uri : Uri;
  struct_line : nat
}.

(** The scanner's result: [structs] and [members]. *)
Record StructDecls : Type := mkStructDecls {
  sd_structs : JsMap.t StructInfo;
  sd_members : JsMap.t JsSet.t
}.

Definition reStructDecl :=
  rx "^\s*(?:struct|class)\s+([A-Za-z_][A-Za-z0-9_]*)\s*(?::\s*[A-Za-z_][A-Za-z0-9_]*)?".
Definition reTypedefStruct :=
  rx "^\s*typedef\s+(?:struct|class)\s+([A-Za-z_][A-Za-z0-9_]*)\s*(?::\s*[A-Za-z_][A-Za-z0-9_]*)?".
Definition reTypedefSimple :=
  rx "^\s*typedef\s+[A-Za-z_][A-Za-z0-9_<>,\s]+\s+([A-Za-z_][A-Za-z0-9_]*)\s*;".
Definition reTypedefAlias := rx "}\s+([A-Za-z_][A-Za-z0-9_]*)\s*;".
Definition reSingleLineMember :=
  rx "^\s*(?:precise\s+|noperspective\s+)*(?:precise\s+|noperspective\s+)?(?:(?:float(?:[1-4](?:x[1-4])?)?|real(?:[1-4](?:x[1-4])?)?|int(?:[1-4])?|uint(?:[1-4])?|bool|half|double|matrix(?:[1-4]x[1-4])?|Texture\w*|Sampler(?:State|ComparisonState|\w*)?|[A-Z][A-Za-z0-9_<>,\s]*))\s+([A-Za-z_][A-Za-z0-9_]*)\s*[;:]?".
Definition reSingleLineMemberLoose :=
  rx "^\s*(?:precise\s+|noperspective\s+)*(?:precise\s+|noperspective\s+)?([A-Za-z_][A-Za-z0-9_<>,\s]*)\s+([A-Za-z_][A-Za-z0-9_]*)\s*[;:]?".
Definition reStructMember :=
  rx "^\s*(?:noperspective\s+)?(?:(?:float(?:[1-4](?:x[1-4])?)?|real(?:[1-4](?:x[1-4])?)?|int(?:[1-4])?|uint(?:[1-4])?|bool|half|double|matrix(?:[1-4]x[1-4])?|Texture\w*|Sampler(?:State|ComparisonState|\w*)?|[A-Z][A-Za-z0-9_<>,\s]*))\s+([A-Za-z_][A-Za-z0-9_]*)\s*[;:]".
Definition reStructMemberLoose :=
  rx "^\s*(?:noperspective\s+)?([A-Za-z_][A-Za-z0-9_<>,\s]*)\s+([A-Za-z_][A-Za-z0-9_]*)\s*[;:]".

(** The character loop that counts braces outside string literals and
    comments: a double quote not preceded by a backslash toggles the string
    state, [//] ends the scan, [/*] and [*/] switch the comment state and
    consume two characters.  The result is the net change of [braceDepth]. *)
Fixpoint scanBracesFrom (prev : option ascii) (s : string) (inString inComment : bool)
  (acc : Z) : Z :=
  match s with
  | EmptyString => acc
  | String c rest =>
      let escaped :=
        match prev with Some p => Ascii.eqb p JS.backslash | None => false end in
      let inString' :=
        if Ascii.eqb c JS.dquote && negb escaped then negb inString else inString in
      let count :=
        if inComment then acc
        else if Ascii.eqb c "{"%char then (acc + 1)%Z
        else if Ascii.eqb c "}"%char then (acc - 1)%Z
        else acc in
      if inString' then scanBracesFrom (Some c) rest inString' inComment acc
      else
        match rest with
        | String d rest' =>
            if Ascii.eqb c "/"%char && Ascii.eqb d "/"%char then acc
            else if Ascii.eqb c "/"%char && Ascii.eqb d "*"%char then
              scanBracesFrom (Some d) rest' inString' true acc
            else if inComment && Ascii.eqb c "*"%char && Ascii.eqb d "/"%char then
              scanBracesFrom (Some d) rest' inString' false acc
            else scanBracesFrom (Some c) rest inString' inComment count
        | EmptyString => count
        end
  end.

Definition scanBraces (line : string) : Z := scanBracesFrom None line false false 0.

(** A line that mentions a parenthesis, [enum], [struct] or [class] does not
    declare a plain field. *)
Definition notAField (s : string) : bool :=
  JS.includes s "(" || JS.includes s ")" || JS.includes s "enum"
  || JS.includes s "struct" || JS.includes s "class".

(** [currentMembers.add(memberName)], where [currentMembers] is
    [structMembersMap.get(structName)]: a [TypeError] ([None]) when the name
    has no member set. *)
Definition addStructMember (structName memberName : string) (members : JsMap.t JsSet.t)
  : option (JsMap.t JsSet.t) :=
  match JsMap.get structName members with
  | Some s => Some (JsMap.set structName (JsSet.add memberName s) members)
  | None => None
  end.

(** The member names found in [struct Name { ... };] written on one line. *)
Definition singleLineMembers (line : string) : list string :=
  let trimmed := JS.trim line in
  let braceStart := JS.indexOf trimmed "{" in
  let braceEnd := JS.indexOf trimmed "}" in
  if ((0 <=? braceStart) && (braceStart <? braceEnd))%Z then
    let structContent := JS.trim (JS.substring trimmed (braceStart + 1) braceEnd) in
    let memberDecls :=
      filter (fun s => 0 <? String.length (JS.trim s)) (JS.splitChar ";"%char structContent) in
    flat_map
      (fun memberDecl =>
         let memberTrimmed := JS.trim memberDecl in
         let memberName :=
           match Regex.exec reSingleLineMember memberTrimmed with
           | Some m => Some (Regex.grp 1 m)
           | None =>
               match Regex.exec reSingleLineMemberLoose memberTrimmed with
               | Some m => Some (Regex.grp 2 m)
               | None => None
               end
           end in
         match memberName with
         | Some name => if notAField memberTrimmed then [] else [name]
         | None => []
         end)
      memberDecls
  else [].

(** The member a line inside a struct body declares, if any. *)
Definition structLineMember (structLine : string) : option string :=
  let trimmed := JS.trim structLine in
  if JS.startsWith "//" trimmed || JS.startsWith "/*" trimmed
     || (String.length trimmed =? 0) then None
  else
    let memberName :=
      match Regex.exec reStructMember trimmed with
      | Some m => Some (Regex.grp 1 m)
      | None =>
          match Regex.exec reStructMemberLoose trimmed with
          | Some m => Some (Regex.grp 2 m)
          | None => None
          end
      end in
    match memberName with
    | Some name =>
        if JS.includes trimmed "{" || notAField trimmed then None else Some name
    | None => None
    end.

(** The loop over the lines after the opening line of a struct, while
    [braceDepth > 0]; [declLine] is the line of the declaration and
    [onTypedefLine] tells whether that line mentions [typedef]. *)
Fixpoint scanStructBody (uri : Uri) (declLine : nat) (onTypedefLine : bool)
  (structName : string) (ls : list string) (braceDepth : Z)
  (results : JsMap.t StructInfo) (members : JsMap.t JsSet.t)
  : option (JsMap.t StructInfo * JsMap.t JsSet.t) :=
  match ls with
  | [] => Some (results, members)
  | structLine :: ls' =>
      if (braceDepth <=? 0)%Z then Some (results, members)
      else
        let results1 :=
          if (braceDepth =? 1)%Z && JS.includes structLine "}" then
            match Regex.exec reTypedefAlias structLine with
            | Some a =>
                let aliasName := Regex.grp 1 a in
                setIfAbsent aliasName (mkStructInfo aliasName uri declLine) results
            | None => results
            end
          else results in
        let braceDepth' := (braceDepth + scanBraces structLine)%Z in
        let members1 :=
          if (0 <? braceDepth')%Z then
            match structLineMember structLine with
            | Some memberName => addStructMember structName memberName members
            | None => Some members
            end
          else Some members in
        match members1 with
        | None => None
        | Some members1 =>
            let '(results2, members2) :=
              if (braceDepth' =? 0)%Z && onTypedefLine then
                match Regex.exec reTypedefAlias structLine with
                | Some a =>
                    let aliasName := Regex.grp 1 a in
                    if JsMap.has aliasName results1 then (results1, members1)
                    else
                      (JsMap.set aliasName (mkStructInfo aliasName uri declLine) results1,
                       JsMap.set aliasName
                         (match JsMap.get structName members1 with
                          | Some s => s
                          | None => JsSet.empty
                          end) members1)
                | None => (results1, members1)
                end
              else (results1, members1) in
            scanStructBody uri declLine onTypedefLine structName ls' braceDepth'
              results2 members2
        end
  end.

Definition matchStructDecl (line : string) : option Regex.rmatch :=
  Regex.orElse (Regex.exec reStructDecl line)
    (Regex.orElse (Regex.exec reTypedefStruct line) (Regex.exec reTypedefSimple line)).

Definition nextLineOpensBrace (lines : list string) (i : nat) : bool :=
  match lineAt lines (S i) with
  | Some next => JS.startsWith "{" (JS.trim next)
  | None => false
  end.

(** The body of the scanner's loop for line [i]; [None] is a thrown
    [TypeError]. *)
Definition structDeclStep (lines : list string) (uri : Uri) (i : nat) (line : string)
  (st : option (JsMap.t StructInfo * JsMap.t JsSet.t))
  : option (JsMap.t StructInfo * JsMap.t JsSet.t) :=
  match st with
  | None => None
  | Some (results, members) =>
      match matchStructDecl line with
      | None => st
      | Some m =>
          let structName := Regex.grp 1 m in
          let typedefAliasAfterBrace :=
            if JS.includes line "typedef" then
              match Regex.exec reTypedefAlias line with
              | Some a => Some (Regex.grp 1 a)
              | None => None
              end
            else None in
          let braceOnLine := JS.includes line "{" in
          let isSingleLineStruct :=
            braceOnLine && JS.includes line "}" && JS.includes line ";" in
          if braceOnLine || nextLineOpensBrace lines i then
            let startLine := if braceOnLine then i else S i in
            let '(results1, members1) :=
              if JsMap.has structName results then (results, members)
              else (JsMap.set structName (mkStructInfo structName uri i) results,
                    JsMap.set structName JsSet.empty members) in
            if isSingleLineStruct then
              match
                fold_left
                  (fun acc memberName =>
                     match acc with
                     | Some ms => addStructMember structName memberName ms
                     | None => None
                     end)
                  (singleLineMembers line) (Some members1)
              with
              | Some members2 => Some (results1, members2)
              | None => None
              end
            else
              scanStructBody uri i (JS.includes line "typedef") structName
                (skipn (S startLine) lines) (1 + scanBraces line)%Z results1 members1
          else
            match typedefAliasAfterBrace with
            | Some _ => st
            | None =>
                if JS.includes line "typedef" && negb (JS.includes line "struct")
                   && negb (JS.includes line "class")
                then Some (setIfAbsent structName (mkStructInfo structName uri i) results,
                           members)
                else st
            end
      end
  end.

(** [None] when the scan throws. *)
Definition extractStructDeclarations (text filePath : string) : option StructDecls :=
  let lines := JS.splitLines text in
  match foldLines lines (structDeclStep lines (UriFile filePath))
          (Some (JsMap.empty, JsMap.empty)) with
  | Some (results, members) => Some (mkStructDecls results members)
  | None => None
  end.

(** *** [extractFunctionDeclarations] *)

Definition reStructOrClass := rx "\b(?:struct|class)\s+([A-Za-z_][A-Za-z0-9_]*)\s*[:\{]?".
Definition reFunctionDecl :=
  rx "^\s*(?:static\s+)?(?:inline\s+)?(?:void|real(?:[1-4](?:x[1-4])?)?|float(?:[1-4](?:x[1-4])?)?|int(?:[1-4])?|uint(?:[1-4])?|bool|half|double|matrix(?:[1-4]x[1-4])?|[A-Z][A-Za-z0-9_<>,\s]*)\s+([A-Za-z_][A-Za-z0-9_]*)\s*\(".

Definition isOneOf (x : string) (xs : list string) : bool := existsb (String.eqb x) xs.

(** The loop state of the function scanner. *)
Record FunctionScan : Type := mkFunctionScan {
  fs_results : JsMap.t Position;
  fs_braceDepth : Z;
  fs_inStructOrClass : bool;
  fs_structClassDepth : Z
}.

Definition functionDeclStep (uri : Uri) (i : nat) (line : string) (st : FunctionScan)
  : FunctionScan :=
  let trimmed := JS.trim line in
  if JS.startsWith "//" trimmed || JS.startsWith "/*" trimmed then st
  else
    let braceDepth := (fs_braceDepth st + braceDelta line)%Z in
    let '(inStruct1, depth1) :=
      match Regex.exec reStructOrClass line with
      | Some _ => (true, braceDepth)
      | None => (fs_inStructOrClass st, fs_structClassDepth st)
      end in
    let inStruct2 := if inStruct1 && (braceDepth <? depth1)%Z then false else inStruct1 in
    let st' := mkFunctionScan (fs_results st) braceDepth inStruct2 depth1 in
    if inStruct2 then st'
    else
      match Regex.exec reFunctionDecl line with
      | Some m =>
          let funcName := Regex.grp 1 m in
          if isOneOf funcName
               ["ShaderResourceGroup"; "partial"; "static"; "const"; "if"; "for"; "while"]
          then st'
          else
            let funcStart := JS.indexOf line funcName in
            if (0 <=? funcStart)%Z then
              mkFunctionScan
                (setIfAbsent funcName (mkPosition uri i (Z.to_nat funcStart)) (fs_results st))
                braceDepth inStruct2 depth1
            else st'
      | None => st'
      end.

Definition extractFunctionDeclarations (text filePath : string) : JsMap.t Position :=
  fs_results
    (foldLines (JS.splitLines text) (functionDeclStep (UriFile filePath))
       (mkFunctionScan JsMap.empty 0 false 0)).

(** *** Comment stripping

    The prologue shared by the loop of [extractOptionDeclarations] and the
    option and SRG loop of [validateDocument]: given whether the previous
    line ended inside a multi-line comment, the new comment state and the
    trimmed line without comments; [None] when the loop continues at once
    because the whole line is inside a comment. *)
Definition stripComments (inMultiLineComment : bool) (line0 : string)
  : bool * option string :=
  let afterOpen :=
    if inMultiLineComment then
      let commentEnd := JS.indexOf line0 "*/" in
      if (commentEnd =? -1)%Z then None
      else Some (JS.substringFrom line0 (commentEnd + 2))
    else Some line0 in
  match afterOpen with
  | None => (true, None)
  | Some line1 =>
      let multiLineStart := JS.indexOf line1 "/*" in
      let '(inComment, line2) :=
        if (multiLineStart =? -1)%Z then (false, line1)
        else
          let commentEnd := JS.indexOfFrom line1 "*/" (multiLineStart + 2) in
          if (commentEnd =? -1)%Z then (true, JS.substring line1 0 multiLineStart)
          else (false, JS.substring line1 0 multiLineStart
                       ++ JS.substringFrom line1 (commentEnd + 2)) in
      let singleLineComment := JS.indexOf line2 "//" in
      let line3 :=
        if (singleLineComment =? -1)%Z then line2
        else JS.substring line2 0 singleLineComment in
      (inComment, Some (JS.trim line3))
  end.

(** *** [extractOptionDeclarations] *)

Record OptionDecl : Type := mkOptionDecl {
  opt_name : string;
  opt_isStatic : bool;
  opt_uri : Uri;
  opt_line : nat
}.

Definition reOptionDecl :=
  rx "^\s*option\s+(?:static\s+)?(bool|int|uint)\s+([A-Za-z_][A-Za-z0-9_]*)\s*[=;]".

Definition optionDeclStep (uri : Uri) (i : nat) (line : string)
  (st : bool * JsMap.t OptionDecl) : bool * JsMap.t OptionDecl :=
  let '(inMultiLineComment, results) := st in
  match stripComments inMultiLineComment line with
  | (inComment, None) => (inComment, results)
  | (inComment, Some processedLine) =>
      if negb (JS.truthy processedLine) then (inComment, results)
      else
        match Regex.exec reOptionDecl processedLine with
        | Some optionMatch =>
            let isStatic := JS.includes processedLine "static" in
            let optionName := Regex.grp 2 optionMatch in
            (inComment, setIfAbsent optionName (mkOptionDecl optionName isStatic uri i) results)
        | None => (inComment, results)
        end
  end.

Definition extractOptionDeclarations (text filePath : string) : JsMap.t OptionDecl :=
  snd (foldLines (JS.splitLines text) (optionDeclStep (UriFile filePath))
         (false, JsMap.empty)).

(* ===================================================================== *)
(** ** Building the index: [indexHeaders] *)
(* ===================================================================== *)

(** What [extractAtomMethods] finds in a file: the method sites and, per Atom
    type, the property names. *)
Record AtomMethod : Type := mkAtomMethod {
  am_key : string;
  am_uri : Uri;
  am_line : nat;
  am_column : nat
}.

Record AtomData : Type := mkAtomData {
  atom_methods : list AtomMethod;
  atom_properties : JsMap.t JsSet.t
}.

Record SrgInfo : Type := mkSrgInfo {
  srg_name : string;
  srg_uri : Uri;
  srg_line : nat;
  srg_members : JsSet.t
}.

Record SrgDecls : Type := mkSrgDecls {
  srgInfo : JsMap.t SrgInfo;
  memberLocations : JsMap.t SrgMemberInfo
}.

(** The environment of the indexer: the file system as Node's [fs] and [path]
    modules show it, the list of files the corpus walker [walkDirCollect]
    returns for a root, and the line scans of [extractAtomMethods] and
    [extractSrgDeclarations], whose heuristics no property below depends on.
    [readFileSync] is [None] when reading throws. *)
Record Host : Type := mkHost {
  existsSync : string -> bool;
  walkDirCollect : string -> list string;
  readFileSync : string -> option string;
  pathRelative : string -> string -> string;
  pathBasename : string -> string;
  scanAtomMethods : string -> string -> AtomData;
  extractSrgDeclarations : string -> string -> SrgDecls
}.

Definition builtinSrgSemantics : list string :=
  [ "SRG_PerDraw"; "SRG_PerMaterial"; "SRG_PerPass"; "SRG_PerPass_WithFallback";
    "SRG_PerScene"; "SRG_PerView"; "SRG_PerSubMesh"; "SRG_RayTracingGlobal";
    "SRG_RayTracingLocal" ].

Definition builtinSemanticLocation : Location :=
  mkLocation (UriParse "azsl-builtin://srg-semantics") 0.

Definition surfaceBaseline : list string :=
  [ "CalculateRoughnessA"; "SetAlbedoAndSpecularF0"; "GetDefaultNormal"; "GetSpecularF0" ].

Definition lightingDataBaseline : list string :=
  [ "Init"; "FinalizeLighting"; "CalculateMultiscatterCompensation"; "GetSpecularNdotV" ].

(** The opening statements of [indexHeaders]: the [clear()] calls, the
    built-in SRG semantics and the Atom member baselines.  [functionIndex] is
    not among the tables the source clears. *)
Definition clearAndSeed (st : Index) : Index :=
  mkIndex
    JsSet.empty                                   (* indexedSymbols.clear() *)
    JsMap.empty                                   (* headersPathIndex.clear() *)
    JsMap.empty                                   (* headersBasenameIndex.clear() *)
    JsMap.empty                                   (* macroIndex.clear() *)
    JsMap.empty                                   (* atomMethodIndex.clear() *)
    (JsMap.set "LightingData" (JsSet.ofList lightingDataBaseline)
       (JsMap.set "Surface" (JsSet.ofList surfaceBaseline) JsMap.empty))
    (fold_left (fun m semantic => JsMap.set semantic builtinSemanticLocation m)
       builtinSrgSemantics JsMap.empty)
    JsMap.empty                                   (* srgMembers.clear() *)
    JsMap.empty                                   (* srgMemberIndex.clear() *)
    JsMap.empty                                   (* srgIndex.clear() *)
    JsMap.empty                                   (* structIndex.clear() *)
    JsMap.empty                                   (* structMembers.clear() *)
    (functionIndex st)
    JsMap.empty.                                  (* optionIndex.clear() *)

(** The merge rule of the corpus scan for one macro definition: an entry is
    written when the name is new, or when the new documentation is non-empty
    and the present one is empty or shorter. *)
Definition richerDoc (newDoc : string) (existing : MacroEntry) : bool :=
  JS.truthy newDoc
  && (negb (JS.truthy (macro_doc existing))
      || (String.length (macro_doc existing) <? String.length newDoc)).

Definition mergeMacro (uri : Uri) (d : MacroDef) (m : JsMap.t MacroEntry)
  : JsMap.t MacroEntry :=
  let write :=
    match JsMap.get (def_name d) m with
    | None => true
    | Some existing => richerDoc (def_doc d) existing
    end in
  if write then
    JsMap.set (def_name d) (mkMacroEntry (def_value d) (def_doc d) uri (def_line d)) m
  else m.

Definition ingestMacros (uri : Uri) (defs : list MacroDef) (st : Index) : Index :=
  setMacroIndex (fold_left (fun m d => mergeMacro uri d m) defs (macroIndex st)) st.

(** [extractAtomMethods]: the scan, and its closing loop that merges the
    properties found into [atomTypeMembers]. *)
Definition extractAtomMethods (h : Host) (text filePath : string) (st : Index)
  : AtomData * Index :=
  let data := scanAtomMethods h text filePath in
  (data,
   setAtomTypeMembers
     (fold_left (fun m entry => addMembers (fst entry) (snd entry) m)
        (atom_properties data) (atomTypeMembers st)) st).

Definition ingestAtomMethods (methods : list AtomMethod) (st : Index) : Index :=
  setAtomMethodIndex
    (fold_left
       (fun m a => JsMap.set (am_key a) (mkPosition (am_uri a) (am_line a) (am_column a)) m)
       methods (atomMethodIndex st)) st.

Definition ingestSrgSemantics (decls : list SemanticDecl) (st : Index) : Index :=
  setSrgSemanticIndex
    (fold_left (fun m s => JsMap.set (sem_name s) (mkLocation (sem_uri s) (sem_line s)) m)
       decls (srgSemanticIndex st)) st.

Definition ingestSrgs (decls : SrgDecls) (st : Index) : Index :=
  let st1 :=
    fold_left
      (fun acc entry =>
         let srgName := fst entry in
         let info := snd entry in
         setSrgMembers (addMembers srgName (srg_members info) (srgMembers acc))
           (setSrgIndex
              (setIfAbsent srgName (mkLocation (srg_uri info) (srg_line info)) (srgIndex acc))
              acc))
      (srgInfo decls) st in
  setSrgMemberIndex
    (fold_left (fun m entry => setIfAbsent (fst entry) (snd entry) m)
       (memberLocations decls) (srgMemberIndex st1)) st1.

(** The struct part of the per-file loop: the location of a name is kept from
    its first file, the members found are added to the member set. *)
Definition ingestStruct (decls : StructDecls) (st : Index) (entry : string * StructInfo)
  : Index :=
  let structName := fst entry in
  let structInfo := snd entry in
  let members :=
    match JsMap.get structName (sd_members decls) with
    | Some ms => ms
    | None => []
    end in
  setStructMembers (addMembers structName members (structMembers st))
    (setStructIndex
       (setIfAbsent structName
          (mkLocation (struct_uri structInfo) (struct_line structInfo)) (structIndex st))
       st).

Definition ingestStructs (decls : StructDecls) (st : Index) : Index :=
  fold_left (ingestStruct decls) (sd_structs decls) st.

Definition ingestFunctions (decls : JsMap.t Position) (st : Index) : Index :=
  setFunctionIndex
    (fold_left (fun m entry => setIfAbsent (fst entry) (snd entry) m)
       decls (functionIndex st)) st.

Definition ingestOptions (decls : JsMap.t OptionDecl) (st : Index) : Index :=
  setOptionIndex
    (fold_left
       (fun m entry =>
          let o := snd entry in
          setIfAbsent (fst entry)
            (mkOptionEntry (opt_uri o) (opt_line o) (opt_isStatic o)) m)
       decls (optionIndex st)) st.

(** The [try] block of the per-file loop.  A file that cannot be read leaves
    the tables as they are; a struct scan that throws leaves the merges made
    before it and skips the struct, function and option merges. *)
Definition ingestFile (h : Host) (f : string) (st : Index) : Index :=
  match readFileSync h f with
  | None => st
  | Some buf =>
      let st1 := setIndexedSymbols
                   (JsSet.addAll (extractSymbolsFromText buf) (indexedSymbols st)) st in
      let st2 := ingestMacros (UriFile f) (extractMacrosWithComments buf) st1 in
      let '(atomData, st3) := extractAtomMethods h buf f st2 in
      let st4 := ingestAtomMethods (atom_methods atomData) st3 in
      let st5 := ingestSrgSemantics (extractSrgSemantics buf f) st4 in
      let st6 := ingestSrgs (extractSrgDeclarations h buf f) st5 in
      match extractStructDeclarations buf f with
      | None => st6
      | Some structDecls =>
          let st7 := ingestStructs structDecls st6 in
          let st8 := ingestFunctions (extractFunctionDeclarations buf f) st7 in
          ingestOptions (extractOptionDeclarations buf f) st8
      end
  end.

(** The statements after the [try] block: the path and base name indexes. *)
Definition recordPath (h : Host) (rootPath f : string) (st : Index) : Index :=
  let rel := pathRelative h rootPath f in
  let base := pathBasename h f in
  let list :=
    match JsMap.get base (headersBasenameIndex st) with
    | Some l => l
    | None => []
    end in
  setHeadersBasenameIndex (JsMap.set base (list ++ [f])%list (headersBasenameIndex st))
    (setHeadersPathIndex (JsMap.set rel f (headersPathIndex st)) st).

(** *** [indexShaderQualityMacros] *)

Fixpoint getFileBySuffix (entries : JsMap.t string) (relSuffix : string) : option string :=
  match entries with
  | [] => None
  | (rel, abs) :: rest =>
      if JS.endsWith rel relSuffix then Some abs else getFileBySuffix rest relSuffix
  end.

Definition qualityMacroSuffixes : list string :=
  [ "Atom/Features/ShaderQualityOptions.azsli";
    "Feature/Common/Assets/ShaderLib/Atom/Features/ShaderQualityOptions.azsli" ].

Fixpoint firstTruthyBySuffix (entries : JsMap.t string) (suffixes : list string)
  : option string :=
  match suffixes with
  | [] => None
  | s :: rest =>
      match getFileBySuffix entries s with
      | Some found => if JS.truthy found then Some found else firstTruthyBySuffix entries rest
      | None => firstTruthyBySuffix entries rest
      end
  end.

Definition qualityMacroTarget (st : Index) : option string :=
  match firstTruthyBySuffix (headersPathIndex st) qualityMacroSuffixes with
  | Some t => Some t
  | None =>
      match JsMap.get "ShaderQualityOptions.azsli" (headersBasenameIndex st) with
      | Some (first :: _) => if JS.truthy first then Some first else None
      | _ => None
      end
  end.

(** [[...docLines, inlineComment].filter(Boolean).join('\n')] *)
Definition qualityDoc (lines : list string) (i : nat) (inlineComment : string) : string :=
  joinTruthy (precedingCommentLines (linesAbove lines i) ++ [inlineComment])%list.

Definition mergeGuardedQualityMacro (uri : Uri) (name value doc : string) (line : nat)
  (m : JsMap.t MacroEntry) : JsMap.t MacroEntry :=
  let write :=
    match JsMap.get name m with
    | None => true
    | Some existing => JS.truthy doc && (String.length (macro_doc existing) =? 0)
    end in
  if write then JsMap.set name (mkMacroEntry value doc uri line) m else m.

Definition indexShaderQualityMacros (h : Host) (st : Index) : Index :=
  match qualityMacroTarget st with
  | None => st
  | Some target =>
      match readFileSync h target with
      | None => st
      | Some text =>
          let lines := JS.splitLines text in
          let uri := UriFile target in
          let m1 :=
            foldLines lines
              (fun i line m =>
                 match Regex.exec reDefineValue line with
                 | Some dm =>
                     let doc := qualityDoc lines i (groupTrimmed 3 dm) in
                     mergeMacro uri
                       (mkMacroDef (Regex.grp 1 dm) (JS.trim (Regex.grp 2 dm)) i doc) m
                 | None => m
                 end) (macroIndex st) in
          let m2 :=
            foldLines lines
              (fun i line m =>
                 match Regex.exec reIfndef line with
                 | Some ifndef =>
                     let name := Regex.grp 1 ifndef in
                     match findGuardedDefine name (S i) (skipn (S i) lines) 11 with
                     | Some (defLine, dm) =>
                         let doc := qualityDoc lines i (groupTrimmed 3 dm) in
                         mergeGuardedQualityMacro uri name (JS.trim (Regex.grp 2 dm)) doc
                           defLine m
                     | None => m
                     end
                 | None => m
                 end) m1 in
          setMacroIndex m2 st
      end
  end.

(** [indexHeaders(rootPath)]; [rootPath] is [None] for [undefined]. *)
Definition indexHeaders (h : Host) (rootPath : option string) (st : Index) : Index :=
  let st0 := clearAndSeed st in
  match rootPath with
  | None => st0
  | Some root =>
      if negb (JS.truthy root) || negb (existsSync h root) then st0
      else
        let files := walkDirCollect h root in
        let st1 :=
          fold_left (fun acc f => recordPath h root f (ingestFile h f acc)) files st0 in
        indexShaderQualityMacros h st1
  end.

(** [indexDocumentMacros(document)]: the live-document scan.  An entry is
    also replaced when the document itself produced the present one. *)
Definition mergeDocumentMacro (uri : Uri) (d : MacroDef) (m : JsMap.t MacroEntry)
  : JsMap.t MacroEntry :=
  let write :=
    match JsMap.get (def_name d) m with
    | None => true
    | Some existing => Uri_eqb uri (macro_uri existing) || richerDoc (def_doc d) existing
    end in
  if write then
    JsMap.set (def_name d) (mkMacroEntry (def_value d) (def_doc d) uri (def_line d)) m
  else m.

Definition indexDocumentMacros (document : Document) (st : Index) : Index :=
  if negb (String.eqb (doc_languageId document) "azsl") then st
  else
    setMacroIndex
      (fold_left (fun m d => mergeDocumentMacro (doc_uri document) d m)
         (extractMacrosWithComments (doc_text document)) (macroIndex st)) st.

(* ===================================================================== *)
(** ** Type and scope inference *)
(* ===================================================================== *)

(** A recorded declaration of a variable: its type, its line and the brace
    depth after that line. *)
Record VarDecl : Type := mkVarDecl {
  vd_type : string;
  vd_line : nat;
  vd_braceDepth : Z
}.

Definition inScope (lineNum : nat) (depth : Z) (d : VarDecl) : bool :=
  (vd_line d <=? lineNum) && (vd_braceDepth d <=? depth)%Z.

(** One iteration of the selection loop over the declarations of a name,
    with the loop variables [bestMatch] and [bestBraceDepth]. *)
Definition selectStep (lineNum : nat) (depth : Z) (st : option VarDecl * Z) (decl : VarDecl)
  : option VarDecl * Z :=
  let '(bestMatch, bestBraceDepth) := st in
  if inScope lineNum depth decl then
    if (bestBraceDepth <? vd_braceDepth decl)%Z then (Some decl, vd_braceDepth decl)
    else if (vd_braceDepth decl =? bestBraceDepth)%Z
            && (match bestMatch with
                | Some b => Z.of_nat (vd_line b)
                | None => (-1)%Z
                end <? Z.of_nat (vd_line decl))%Z
    then (Some decl, bestBraceDepth)
    else st
  else st.

(** The selection loop of [getVariableTypeAtPosition] and of
    [getVariableTypeAtLine] (the two copies in the source are the same
    statements): [bestMatch] after the loop, starting from [bestMatch = null]
    and [bestBraceDepth = -1]. *)
Definition selectDeclaration (declarations : list VarDecl) (lineNum : nat) (depth : Z)
  : option VarDecl :=
  fst (fold_left (selectStep lineNum depth) declarations (None, (-1)%Z)).

(** [m.get(k).push(d)], after [if (!m.has(k)) m.set(k, [])] *)
Definition pushDecl (k : string) (d : VarDecl) (m : JsMap.t (list VarDecl))
  : JsMap.t (list VarDecl) :=
  JsMap.set k (match JsMap.get k m with Some l => l | None => [] end ++ [d])%list m.

Definition positionAtomTypes : list string :=
  [ "Surface"; "LightingData"; "DirectionalLight"; "SimplePointLight"; "PointLight";
    "SimpleSpotLight"; "DiskLight"; "ForwardPassOutput"; "VertexShaderOutput";
    "VertexShaderInput" ].

Definition textureTypes : list string :=
  [ "Texture2D"; "Texture3D"; "TextureCube"; "Texture2DArray"; "RWTexture2D";
    "RWTexture3D"; "Texture1D"; "Texture2DMS"; "RWTexture1D" ].

Definition reVarDeclAtPosition := rx "\b((?:float(?:[1-4](?:x[1-4])?)?|real(?:[1-4](?:x[1-4])?)?|int(?:[1-4])?|uint(?:[1-4])?|bool|half|double|matrix|Texture\w*|Sampler\w*|RWTexture\w*|[A-Z][A-Za-z0-9_]*))\s+([A-Za-z_][A-Za-z0-9_]*)\s*[;=]".

(** The loop state of the declaration scan of [getVariableTypeAtPosition]. *)
Record DeclScan : Type := mkDeclScan {
  ds_declarations : JsMap.t (list VarDecl);
  ds_types : JsMap.t string;
  ds_braceDepth : Z
}.

Definition declScanStep (st : Index) (i : nat) (line : string) (s : DeclScan) : DeclScan :=
  let braceDepth := (ds_braceDepth s + braceDelta line)%Z in
  match Regex.exec reVarDeclAtPosition line with
  | Some m =>
      let fullType := Regex.grp 1 m in
      let vName := Regex.grp 2 m in
      mkDeclScan
        (pushDecl vName (mkVarDecl fullType i braceDepth) (ds_declarations s))
        (if isOneOf fullType positionAtomTypes || isOneOf fullType textureTypes
            || JsMap.has fullType (structIndex st) || JsMap.has fullType (structMembers st)
         then JsMap.set vName fullType (ds_types s) else ds_types s)
        braceDepth
  | None => mkDeclScan (ds_declarations s) (ds_types s) braceDepth
  end.

(** [targetBraceDepth]: the brace depth after line [lineNum] (after the last
    line when [lineNum] is beyond it). *)
Definition braceDepthAt (lines : list string) (lineNum : nat) : Z :=
  fold_left (fun acc line => (acc + braceDelta line)%Z) (firstn (S lineNum) lines) 0%Z.

(** [getVariableTypeAtPosition(document, varName, lineNum)]; [None] is
    [null]. *)
Definition getVariableTypeAtPosition (st : Index) (document : Document)
  (varName : string) (lineNum : nat) : option string :=
  let lines := JS.splitLines (doc_text document) in
  let scan := foldLines lines (declScanStep st) (mkDeclScan JsMap.empty JsMap.empty 0) in
  let fallback := JsMap.get varName (ds_types scan) in
  match JsMap.get varName (ds_declarations scan) with
  | Some declarations =>
      match selectDeclaration declarations lineNum (braceDepthAt lines lineNum) with
      | Some bestMatch => Some (vd_type bestMatch)
      | None => fallback
      end
  | None => fallback
  end.

(** [isVectorType(type)] for a type that is not [null]. *)
Definition reVectorType := rx "^(float|int|uint|bool|real|half)[2-4]$".

Definition isVectorType (type : string) : bool := Regex.test reVectorType type.

(** *** [getSwizzleProperties] *)

Definition components : list string := ["x"; "y"; "z"; "w"].
Definition colorComponents : list string := ["r"; "g"; "b"; "a"].

(** [components[i]]; an index beyond the array reads [undefined], which the
    string concatenations of the source print as the text [undefined] (no
    vector type has such a dimension). *)
Definition componentAt (table : list string) (i : nat) : string := nth i table "undefined".

Definition reLastDigit := rx "(\d)$".

(** [parseInt] of a one-digit text. *)
Definition digitValue (s : string) : nat :=
  match s with
  | String c _ => nat_of_ascii c - 48
  | EmptyString => 0
  end.

(** The pairs, triples and quadruples of the nested loops, in loop order. *)
Definition indexPairs (dim : nat) : list (nat * nat) :=
  flat_map (fun i => map (fun j => (i, j)) (seq 0 dim)) (seq 0 dim).

Definition indexTriples (dim : nat) : list (nat * nat * nat) :=
  flat_map (fun ij => map (fun k => (ij, k)) (seq 0 dim)) (indexPairs dim).

Definition indexQuadruples (dim : nat) : list (nat * nat * nat * nat) :=
  flat_map (fun ijk => map (fun l => (ijk, l)) (seq 0 dim)) (indexTriples dim).

Definition addBoth (names : list nat) (props : JsSet.t) : JsSet.t :=
  JsSet.add (String.concat "" (map (componentAt colorComponents) names))
    (JsSet.add (String.concat "" (map (componentAt components) names)) props).

Definition swizzleSet (dim : nat) : JsSet.t :=
  let p1 := fold_left (fun props i => addBoth [i] props) (seq 0 dim) JsSet.empty in
  let p2 :=
    fold_left
      (fun props '(i, j) => if negb (i =? j) then addBoth [i; j] props else props)
      (indexPairs dim) p1 in
  let p3 :=
    if 3 <=? dim then
      fold_left
        (fun props '(i, j, k) =>
           if negb (i =? j) && negb (j =? k) && negb (i =? k)
           then addBoth [i; j; k] props else props)
        (indexTriples dim) p2
    else p2 in
  if dim =? 4 then
    fold_left
      (fun props '(i, j, k, l) =>
         if negb (i =? j) && negb (j =? k) && negb (k =? l)
            && negb (i =? k) && negb (i =? l) && negb (j =? l)
         then addBoth [i; j; k; l] props else props)
      (indexQuadruples dim) p3
  else p3.

(** [Array.prototype.sort()] on distinct strings: ascending code unit order. *)
Fixpoint insertSorted (x : string) (l : list string) : list string :=
  match l with
  | [] => [x]
  | y :: l' => if String.leb x y then x :: l else y :: insertSorted x l'
  end.

Definition sortStrings (l : list string) : list string := fold_right insertSorted [] l.

Definition getSwizzleProperties (type : string) : list string :=
  match Regex.exec reLastDigit type with
  | None => []
  | Some dimMatch => sortStrings (swizzleSet (digitValue (Regex.grp 1 dimMatch)))
  end.

(** *** [extractFunctionCallArgs] and [getExpressionType] *)

(** The scan over the argument text: [depth] counts the open parentheses,
    [current] is the argument being read and [args] the arguments read so
    far. *)
Fixpoint scanCallArgs (s : string) (depth : nat) (current : string) (args : list string)
  : option (list string) :=
  match s with
  | EmptyString => None
  | String c rest =>
      if Ascii.eqb c "("%char then
        scanCallArgs rest (S depth) (current ++ String c "") args
      else if Ascii.eqb c ")"%char then
        match depth with
        | 1 => Some (args ++ [JS.trim current])%list
        | _ => scanCallArgs rest (depth - 1) (current ++ String c "") args
        end
      else if Ascii.eqb c ","%char && (depth =? 1) then
        scanCallArgs rest depth "" (args ++ [JS.trim current])%list
      else scanCallArgs rest depth (current ++ String c "") args
  end.

Fixpoint literal (s : string) : Regex.re :=
  match s with
  | EmptyString => Regex.Empty
  | String c EmptyString => Regex.Chr c
  | String c s' => Regex.Cat (Regex.Chr c) (literal s')
  end.

(** [extractFunctionCallArgs(text, funcName)] for a [funcName] made of word
    characters: the arguments of the last call of [funcName] in [text], or
    [None] ([null]) when there is none or its parenthesis is not closed. *)
Definition extractFunctionCallArgs (text funcName : string) : option (list string) :=
  let funcPattern :=
    Regex.Cat Regex.WordB (Regex.Cat (literal funcName) (rx "\s*\(")) in
  match last (map Some (Regex.execAll funcPattern text)) None with
  | None => None
  | Some lastMatch => scanCallArgs (JS.drop (Regex.m_end lastMatch) text) 1 "" []
  end.

Definition reMulCall := rx "\bmul\s*\(".
Definition reVectorConstructor := rx "(float|int|uint|bool|real|half)([2-4])\s*\(".
Definition reLeadingIdentifier := rx "^([A-Za-z_][A-Za-z0-9_]*)".

Definition vectorConstructorType (s : string) : option string :=
  match Regex.exec reVectorConstructor s with
  | Some m => Some (Regex.grp 1 m ++ Regex.grp 2 m)
  | None => None
  end.

(** The type of the second argument of [mul], when the expression is a call
    of [mul] that determines it. *)
Definition mulResultType (st : Index) (document : Document) (trimmedExpr : string)
  (lineNum : nat) : option string :=
  if Regex.test reMulCall trimmedExpr then
    match extractFunctionCallArgs trimmedExpr "mul" with
    | Some (_ :: arg2 :: _) =>
        let secondArg := JS.trim arg2 in
        match vectorConstructorType secondArg with
        | Some t => Some t
        | None =>
            match Regex.exec reLeadingIdentifier secondArg with
            | Some varMatch =>
                match getVariableTypeAtPosition st document (Regex.grp 1 varMatch) lineNum with
                | Some varType =>
                    if JS.truthy varType && isVectorType varType then Some varType else None
                | None => None
                end
            | None => None
            end
        end
    | _ => None
    end
  else None.

(** [getExpressionType(document, expression, lineNum)] *)
Definition getExpressionType (st : Index) (document : Document) (expression : string)
  (lineNum : nat) : option string :=
  if negb (JS.truthy expression) then None
  else
    let trimmedExpr := JS.trim expression in
    match mulResultType st document trimmedExpr lineNum with
    | Some t => Some t
    | None => vectorConstructorType trimmedExpr
    end.

(* ===================================================================== *)
(** ** Validation: [extractDeclarations] *)
(* ===================================================================== *)

(** The result of [extractDeclarations]. *)
Record DeclInfo : Type := mkDeclInfo {
  di_declarations : JsSet.t;
  di_knownStructs : JsSet.t;
  di_classMembers : JsMap.t JsSet.t;
  di_variableTypes : JsMap.t string
}.

Definition reStructName := rx "\bstruct\s+([A-Za-z_][A-Za-z0-9_]*)\b".
Definition reConstDecl := rx "\bconst\s+(?:float(?:[1-4](?:x[1-4])?)?|real(?:[1-4](?:x[1-4])?)?|int(?:[1-4])?|uint(?:[1-4])?|bool|half|double|matrix|Texture\w*|Sampler(?:State|ComparisonState|\w*)?|[A-Z][A-Za-z0-9_]*)\s+([A-Za-z_][A-Za-z0-9_]*)\s*(?:\[[^\]]*\]\s*)?[;=]".
Definition rePlainDecl := rx "\b(?:float(?:[1-4](?:x[1-4])?)?|real(?:[1-4](?:x[1-4])?)?|int(?:[1-4])?|uint(?:[1-4])?|bool|half|double|matrix|Texture\w*|Sampler(?:State|ComparisonState|\w*)?|[A-Z][A-Za-z0-9_]*)\s+([A-Za-z_][A-Za-z0-9_]*)\s*(?:\[[^\]]*\]\s*)?[;=]".
Definition reFunctionHead := rx "\b(?:float(?:[1-4](?:x[1-4])?)?|real(?:[1-4](?:x[1-4])?)?|int(?:[1-4])?|uint(?:[1-4])?|bool|half|double|void|[A-Z][A-Za-z0-9_]*)\s+([A-Za-z_][A-Za-z0-9_]*)\s*\(([^)]*)\)\s*\{?".
Definition reParameter := rx "^(?:(?:in|out|inout)\s+)?(?:float(?:[1-4](?:x[1-4])?)?|real(?:[1-4](?:x[1-4])?)?|int(?:[1-4])?|uint(?:[1-4])?|bool|half|double|matrix|Texture\w*|Sampler\w*|[A-Z][A-Za-z0-9_]*)\s+([A-Za-z_][A-Za-z0-9_]*)(?:\s*:|$)".
Definition reSrgHead := rx "\bShaderResourceGroup\s+([A-Za-z_][A-Za-z0-9_]*)\s*:".
Definition reSrgMember := rx "^\s*(?:(?:float(?:[1-4](?:x[1-4])?)?|real(?:[1-4](?:x[1-4])?)?|int(?:[1-4])?|uint(?:[1-4])?|bool|half|double|matrix|(Texture\w*)|(Sampler(?:State|ComparisonState|\w*)?)|([A-Z][A-Za-z0-9_]*)))\s+([A-Za-z_][A-Za-z0-9_]*)\s*[;{]".
Definition reSrgMemberOpen := rx "^\s*(?:(?:float(?:[1-4](?:x[1-4])?)?|real(?:[1-4](?:x[1-4])?)?|int(?:[1-4])?|uint(?:[1-4])?|bool|half|double|matrix|(Texture\w*)|(Sampler(?:State|ComparisonState|\w*)?)|([A-Z][A-Za-z0-9_]*)))\s+([A-Za-z_][A-Za-z0-9_]*)\s*$".
Definition reDefineName := rx "#\s*define\s+([A-Za-z_][A-Za-z0-9_]*)".
Definition reSemanticMember := rx "^\s*(?:float|int|uint|bool|half|double|noperspective|[A-Z][A-Za-z0-9_]*)\s+([A-Za-z_][A-Za-z0-9_]*)\s*:".
Definition reClassName := rx "\bclass\s+([A-Za-z_][A-Za-z0-9_]*)\b".
Definition reDirective := rx "^\s*#".
Definition reClassMember := rx "^\s*(?:precise\s+)?(?:float(?:[1-4](?:x[1-4])?)?|real(?:[1-4](?:x[1-4])?)?|int(?:[1-4])?|uint(?:[1-4])?|bool|half|double|Texture\w*|Sampler(?:State|ComparisonState|\w*)?|[A-Z][A-Za-z0-9_]*)\s+([A-Za-z_][A-Za-z0-9_]*)\s*[;=\(]".

(** [declarations.add(m[1])] when the pattern matches with a non-empty
    first group. *)
Definition addFirstGroup (re : Regex.re) (line : string) (decls : JsSet.t) : JsSet.t :=
  match Regex.exec re line with
  | Some m =>
      match Regex.group 1 m with
      | Some t => if JS.truthy t then JsSet.add t decls else decls
      | None => decls
      end
  | None => decls
  end.

(** The names of the parameters in the text between the parentheses of a
    function head. *)
Definition parameterNames (paramsStr : string) : list string :=
  if JS.truthy paramsStr && JS.truthy (JS.trim paramsStr) then
    flat_map
      (fun param =>
         match Regex.exec reParameter param with
         | Some pm =>
             match Regex.group 1 pm with
             | Some t => if JS.truthy t then [t] else []
             | None => []
             end
         | None => []
         end)
      (filter JS.truthy (map JS.trim (JS.splitChar ","%char paramsStr)))
  else [].

(** First loop: struct names, variables, functions with their parameters,
    SRG names. *)
Definition declareLine (line : string) (st : JsSet.t * JsSet.t) : JsSet.t * JsSet.t :=
  let '(declarations, knownStructs) := st in
  let '(d1, known1) :=
    match Regex.exec reStructName line with
    | Some m => (JsSet.add (Regex.grp 1 m) declarations, JsSet.add (Regex.grp 1 m) knownStructs)
    | None => (declarations, knownStructs)
    end in
  let d2 := addFirstGroup rePlainDecl line (addFirstGroup reConstDecl line d1) in
  let d3 :=
    match Regex.exec reFunctionHead line with
    | Some m =>
        JsSet.addAll (parameterNames (Regex.grp 2 m)) (JsSet.add (Regex.grp 1 m) d2)
    | None => d2
    end in
  let d4 :=
    match Regex.exec reSrgHead line with
    | Some m => JsSet.add (Regex.grp 1 m) d3
    | None => d3
    end in
  (d4, known1).

(** Second loop: the members of the SRG blocks of the document. *)
Record SrgScan : Type := mkSrgScan {
  ss_declarations : JsSet.t;
  ss_variableTypes : JsMap.t string;
  ss_inSrg : bool;
  ss_currentSrg : string
}.

Definition groupTruthy (n : nat) (m : Regex.rmatch) : option string :=
  match Regex.group n m with
  | Some t => if JS.truthy t then Some t else None
  | None => None
  end.

Definition srgMemberStep (lines : list string) (i : nat) (line : string) (s : SrgScan)
  : SrgScan :=
  let '(inSrg1, current1) :=
    match Regex.exec reSrgHead line with
    | Some m => (true, Regex.grp 1 m)
    | None => (ss_inSrg s, ss_currentSrg s)
    end in
  let '(inSrg2, current2) :=
    if JS.includes line "}" && inSrg1 then (false, "") else (inSrg1, current1) in
  if inSrg2 && JS.truthy current2 then
    let memberMatch :=
      match Regex.exec reSrgMember line with
      | Some m => Some m
      | None =>
          match lineAt lines (S i) with
          | Some nextLine =>
              if JS.startsWith "{" (JS.trim nextLine) then Regex.exec reSrgMemberOpen line
              else None
          | None => None
          end
      end in
    match memberMatch with
    | Some m =>
        let key := current2 ++ "::" ++ Regex.grp 4 m in
        let types :=
          match groupTruthy 1 m, groupTruthy 2 m, groupTruthy 3 m with
          | Some textureType, _, _ => JsMap.set key textureType (ss_variableTypes s)
          | None, Some samplerType, _ =>
              JsMap.set key
                (if String.eqb samplerType "Sampler" then "SamplerState" else samplerType)
                (ss_variableTypes s)
          | None, None, Some typeName => JsMap.set key typeName (ss_variableTypes s)
          | None, None, None => ss_variableTypes s
          end in
        mkSrgScan (JsSet.add key (ss_declarations s)) types inSrg2 current2
    | None => mkSrgScan (ss_declarations s) (ss_variableTypes s) inSrg2 current2
    end
  else mkSrgScan (ss_declarations s) (ss_variableTypes s) inSrg2 current2.

(** Fourth loop: the members with a semantic of the struct blocks. *)
Record StructScan : Type := mkStructScan {
  sts_declarations : JsSet.t;
  sts_inStruct : bool;
  sts_currentStruct : string
}.

Definition structMemberStep (knownStructs : JsSet.t) (line : string) (s : StructScan)
  : StructScan :=
  let '(in1, current1) :=
    match Regex.exec reStructName line with
    | Some m =>
        if JsSet.has (Regex.grp 1 m) knownStructs then (true, Regex.grp 1 m)
        else (sts_inStruct s, sts_currentStruct s)
    | None => (sts_inStruct s, sts_currentStruct s)
    end in
  let '(in2, current2) :=
    if JS.includes line "}" && in1 then (false, "") else (in1, current1) in
  if in2 && JS.truthy current2 then
    match Regex.exec reSemanticMember line with
    | Some m =>
        mkStructScan (JsSet.add (current2 ++ "." ++ Regex.grp 1 m) (sts_declarations s))
          in2 current2
    | None => mkStructScan (sts_declarations s) in2 current2
    end
  else mkStructScan (sts_declarations s) in2 current2.

(** Fifth loop: the members of the class blocks. *)
Record ClassScan : Type := mkClassScan {
  cs_knownStructs : JsSet.t;
  cs_classMembers : JsMap.t JsSet.t;
  cs_inClass : bool;
  cs_currentClass : string;
  cs_braceDepth : Z
}.

(** [(line.match(/\{/g) || []).length - (line.match(/\}/g) || []).length] *)
Definition escapedBraceDelta (line : string) : Z :=
  (Z.of_nat (Regex.countMatches (rx "\{") line)
   - Z.of_nat (Regex.countMatches (rx "\}") line))%Z.

Definition classMemberStep (line : string) (s : ClassScan) : ClassScan :=
  let s1 :=
    match Regex.exec reClassName line with
    | Some m =>
        let currentClass := Regex.grp 1 m in
        mkClassScan (JsSet.add currentClass (cs_knownStructs s))
          (setIfAbsent currentClass JsSet.empty (cs_classMembers s))
          true currentClass (escapedBraceDelta line)
    | None => s
    end in
  if cs_inClass s1 && JS.truthy (cs_currentClass s1) then
    let braceDepth :=
      if negb (Regex.test reDirective line)
      then (cs_braceDepth s1 + escapedBraceDelta line)%Z
      else cs_braceDepth s1 in
    let members :=
      match Regex.exec reClassMember line with
      | Some m => addMembers (cs_currentClass s1) [Regex.grp 1 m] (cs_classMembers s1)
      | None => cs_classMembers s1
      end in
    if (braceDepth <=? 0)%Z && JS.includes line "}" then
      mkClassScan (cs_knownStructs s1) members false "" 0
    else mkClassScan (cs_knownStructs s1) members true (cs_currentClass s1) braceDepth
  else s1.

Definition extractDeclarations (text : string) : DeclInfo :=
  let lines := JS.splitLines text in
  let '(d1, known1) :=
    fold_left (fun st line => declareLine line st) lines (JsSet.empty, JsSet.empty) in
  let srg := foldLines lines (srgMemberStep lines) (mkSrgScan d1 JsMap.empty false "") in
  let d3 :=
    fold_left (fun d line => addFirstGroup reDefineName line d) lines (ss_declarations srg) in
  let sts :=
    fold_left (fun s line => structMemberStep known1 line s) lines
      (mkStructScan d3 false "") in
  let cls :=
    fold_left (fun s line => classMemberStep line s) lines
      (mkClassScan known1 JsMap.empty false "" 0) in
  mkDeclInfo (sts_declarations sts) (cs_knownStructs cls) (cs_classMembers cls)
    (ss_variableTypes srg).

(* ===================================================================== *)
(** ** Validation: the passes of [validateDocument] before the sweep *)
(* ===================================================================== *)

Record Range : Type := mkRange {
  range_startLine : nat;
  range_startCharacter : Z;
  range_endLine : nat;
  range_endCharacter : Z
}.

(** A [vscode.Diagnostic]; every diagnostic of the extension has the severity
    [Error]. *)
Record Diagnostic : Type := mkDiagnostic {
  diag_range : Range;
  diag_message : string
}.

(** The diagnostic [new vscode.Diagnostic(new vscode.Range(i, a, i, b), message,
    vscode.DiagnosticSeverity.Error)] *)
Definition diagnosticAt (i : nat) (a b : Z) (message : string) : Diagnostic :=
  mkDiagnostic (mkRange i a i b) message.

Definition builtinIdentifiers : list string :=
  [ "max"; "min"; "saturate"; "clamp"; "smoothstep"; "normalize"; "length"; "dot"; "cross";
    "pow"; "floor"; "ceil"; "frac"; "lerp"; "step"; "ddx"; "ddy"; "abs"; "mul"; "round";
    "sin"; "cos"; "sqrt"; "fmod";
    "Sample"; "SampleCmp"; "GetDimensions";
    "float"; "float2"; "float3"; "float4"; "float2x2"; "float3x3"; "float4x4";
    "real"; "real2"; "real3"; "real4"; "real3x3"; "real3x4"; "real4x4";
    "int"; "int2"; "int3"; "int4"; "uint"; "uint2"; "uint3"; "uint4"; "bool";
    "half"; "double"; "matrix"; "void";
    "Texture2D"; "Texture3D"; "TextureCube"; "Texture2DArray"; "RWTexture2D";
    "Sampler"; "SamplerState"; "SamplerComparisonState";
    "if"; "else"; "for"; "while"; "do"; "switch"; "case"; "default"; "break"; "continue";
    "return";
    "true"; "false";
    "struct"; "cbuffer"; "tbuffer"; "namespace"; "class"; "static"; "const"; "groupshared";
    "uniform"; "volatile"; "option"; "noperspective"; "inline";
    "POSITION"; "NORMAL"; "TEXCOORD0"; "TEXCOORD1"; "TEXCOORD2"; "TEXCOORD3"; "TEXCOORD4";
    "TEXCOORD5"; "TEXCOORD6";
    "UV0"; "UV1"; "UV2"; "UV3";
    "SV_Position"; "SV_Target"; "SV_Target0"; "SV_InstanceID"; "SV_VertexID";
    "COLOR0"; "COLOR1"; "TANGENT"; "BINORMAL" ].

(** The [atomTypes] of [validateDocument]. *)
Definition atomTypes : list string :=
  [ "ForwardPassOutput"; "Surface"; "LightingData";
    "DirectionalLight"; "SimplePointLight"; "PointLight"; "SimpleSpotLight"; "DiskLight";
    "ViewSrg"; "SceneSrg"; "ObjectSrg" ].

Definition rePascalVariable := rx "\b([A-Z][A-Za-z0-9_]+)\s+[A-Za-z_][A-Za-z0-9_]*\s*[;=,\[\(]".
Definition rePascalFunction := rx "\b([A-Z][A-Za-z0-9_]+)\s+[A-Za-z_][A-Za-z0-9_]*\s*\(".

Definition addPascalCase (re : Regex.re) (line : string) (types : JsSet.t) : JsSet.t :=
  match Regex.exec re line with
  | Some m =>
      if negb (isOneOf (Regex.grp 1 m) builtinIdentifiers)
      then JsSet.add (Regex.grp 1 m) types else types
  | None => types
  end.

Definition collectPascalCaseTypes (lines : list string) : JsSet.t :=
  fold_left
    (fun types line => addPascalCase rePascalFunction line (addPascalCase rePascalVariable line types))
    lines JsSet.empty.

(** The set [declarations] as it stands before the passes over the lines. *)
Definition initialDeclarations (st : Index) (info : DeclInfo) (pascalCaseTypes : JsSet.t)
  : JsSet.t :=
  JsSet.addAll atomTypes
    (JsSet.addAll pascalCaseTypes
       (JsSet.addAll (JsMap.keys (macroIndex st))
          (JsSet.addAll (indexedSymbols st)
             (JsSet.addAll builtinIdentifiers (di_declarations info))))).

(** The structs of the open document are merged like those of a corpus
    file: a location only for a name not yet indexed, the members always. *)
Definition ingestDocumentStructs (currentDocStructs : StructDecls) (st : Index) : Index :=
  ingestStructs currentDocStructs st.

Definition surfaceMembers : list string :=
  [ "position"; "normal"; "vertexNormal"; "metallic"; "roughnessLinear";
    "opacityAffectsSpecularFactor"; "opacityAffectsEmissiveFactor";
    "albedo"; "roughnessA";
    "CalculateRoughnessA"; "SetAlbedoAndSpecularF0"; "GetDefaultNormal"; "GetSpecularF0" ].

Definition lightingDataMembers : list string :=
  [ "diffuseResponse"; "specularResponse"; "diffuseLighting"; "specularLighting";
    "diffuseAmbientOcclusion"; "specularOcclusion";
    "Init"; "FinalizeLighting" ].

Definition forwardPassOutputMembers : list string :=
  [ "m_color"; "m_diffuseColor"; "m_specularColor"; "m_albedo";
    "m_specularF0"; "m_normal"; "m_scatterDistance"; "m_depth" ].

Definition directionalLightMembers : list string :=
  [ "m_direction"; "m_angularRadius"; "m_rgbIntensityLux";
    "m_affectsGIFactor"; "m_affectsGI"; "m_lightingChannelMask"; "m_padding" ].

(** The [if (!table.has(name)) table.set(name, new Set([...]))] statements
    that follow the struct merge. *)
Definition seedKnownMembers (st : Index) : Index :=
  let atom :=
    setIfAbsent "ForwardPassOutput" (JsSet.ofList forwardPassOutputMembers)
      (setIfAbsent "LightingData" (JsSet.ofList lightingDataMembers)
         (setIfAbsent "Surface" (JsSet.ofList surfaceMembers) (atomTypeMembers st))) in
  let structs :=
    setIfAbsent "DirectionalLight" (JsSet.ofList directionalLightMembers)
      (setIfAbsent "ForwardPassOutput" (JsSet.ofList forwardPassOutputMembers)
         (structMembers st)) in
  setStructMembers structs (setAtomTypeMembers atom st).

(** *** Function scopes *)

Record FunctionScope : Type := mkFunctionScope {
  scope_startLine : nat;
  scope_returnType : string;
  scope_firstParamType : option string;
  scope_endLine : option nat
}.

Definition reFunctionSignature := rx "^\s*((?:float(?:[1-4](?:x[1-4])?)?|real(?:[1-4](?:x[1-4])?)?|int(?:[1-4])?|uint(?:[1-4])?|bool|half|double|matrix(?:[1-4]x[1-4])?|Texture\w*|Sampler\w*|[A-Z][A-Za-z0-9_]*))\s+([A-Za-z_][A-Za-z0-9_]*)\s*\(".
Definition reParameterFollowed := rx "\b((?:float(?:[1-4](?:x[1-4])?)?|real(?:[1-4](?:x[1-4])?)?|int(?:[1-4])?|uint(?:[1-4])?|bool|half|double|matrix(?:[1-4]x[1-4])?|Texture\w*|Sampler\w*|[A-Z][A-Za-z0-9_]*))\s+([A-Za-z_][A-Za-z0-9_]*)\s*(?:[,:)]|$)".
Definition reTypeAndName := rx "\b((?:float(?:[1-4](?:x[1-4])?)?|real(?:[1-4](?:x[1-4])?)?|int(?:[1-4])?|uint(?:[1-4])?|bool|half|double|matrix(?:[1-4]x[1-4])?|Texture\w*|Sampler\w*|[A-Z][A-Za-z0-9_]*))\s+([A-Za-z_][A-Za-z0-9_]*)".

(** The loop variables of the first pass: [currentFunctionStart] ([None] for
    [-1]), the return type and first parameter type of the current
    signature, the brace depth and the scopes found. *)
Record ScopeScan : Type := mkScopeScan {
  sc_start : option nat;
  sc_returnType : option string;
  sc_firstParamType : option string;
  sc_braceDepth : Z;
  sc_scopes : list FunctionScope
}.

Definition hasScopeAt (start : nat) (scopes : list FunctionScope) : bool :=
  existsb (fun s => scope_startLine s =? start) scopes.

(** [scope.endLine = i] on the first scope that starts at [start]. *)
Fixpoint closeScope (start i : nat) (scopes : list FunctionScope) : list FunctionScope :=
  match scopes with
  | [] => []
  | s :: rest =>
      if scope_startLine s =? start
      then mkFunctionScope (scope_startLine s) (scope_returnType s)
             (scope_firstParamType s) (Some i) :: rest
      else s :: closeScope start i rest
  end.

Definition firstParamTypeOf (line : string) : option string :=
  match Regex.exec reParameterFollowed line with
  | Some funcParams =>
      match Regex.exec reTypeAndName (Regex.m_text funcParams) with
      | Some paramMatch => Some (Regex.grp 1 paramMatch)
      | None => None
      end
  | None => None
  end.

Definition scopeStep (i : nat) (line : string) (s : ScopeScan) : ScopeScan :=
  let '(start1, ret1, param1) :=
    match Regex.exec reFunctionSignature line with
    | Some funcSigMatch =>
        if negb (JS.startsWith "//" (JS.trim line)) then
          (Some i, Some (Regex.grp 1 funcSigMatch),
           match firstParamTypeOf line with
           | Some t => Some t
           | None => sc_firstParamType s
           end)
        else (sc_start s, sc_returnType s, sc_firstParamType s)
    | None => (sc_start s, sc_returnType s, sc_firstParamType s)
    end in
  let prevBraceDepth := sc_braceDepth s in
  let currentBraceDepth := (prevBraceDepth + braceDelta line)%Z in
  let scopes1 :=
    match start1 with
    | Some start =>
        if (prevBraceDepth =? 0)%Z && (0 <? currentBraceDepth)%Z
           && negb (hasScopeAt start (sc_scopes s))
        then (sc_scopes s ++
              [mkFunctionScope start (match ret1 with Some t => t | None => "" end)
                 param1 None])%list
        else sc_scopes s
    | None => sc_scopes s
    end in
  match start1 with
  | Some start =>
      if (prevBraceDepth =? 1)%Z && (currentBraceDepth =? 0)%Z then
        mkScopeScan None None None currentBraceDepth (closeScope start i scopes1)
      else mkScopeScan start1 ret1 param1 currentBraceDepth scopes1
  | None => mkScopeScan start1 ret1 param1 currentBraceDepth scopes1
  end.

Definition functionScopesOf (lines : list string) : list FunctionScope :=
  sc_scopes (foldLines lines scopeStep (mkScopeScan None None None 0 [])).

(** [scope.startLine <= lineNum && (!scope.endLine || lineNum <= scope.endLine)] *)
Definition scopeContains (lineNum : nat) (s : FunctionScope) : bool :=
  (scope_startLine s <=? lineNum)
  && match scope_endLine s with
     | None => true
     | Some e => (e =? 0) || (lineNum <=? e)
     end.

(** The last scope of the list that contains the line. *)
Definition currentScope (scopes : list FunctionScope) (lineNum : nat) : option FunctionScope :=
  find (scopeContains lineNum) (rev scopes).

Definition getCurrentFunctionReturnType (scopes : list FunctionScope) (lineNum : nat)
  : option string :=
  match currentScope scopes lineNum with
  | Some s => Some (scope_returnType s)
  | None => None
  end.

Definition getCurrentFunctionParameterType (scopes : list FunctionScope) (lineNum : nat)
  : option string :=
  match currentScope scopes lineNum with
  | Some s => scope_firstParamType s
  | None => None
  end.

(** *** Options, SRG semantics and the fallback rule *)

Definition variantFallbackSemantics : list string :=
  [ "SRG_PerDraw"; "SRG_PerPass_WithFallback"; "SRG_RayTracingGlobal" ].

Definition reNonStaticOption := rx "^\s*option\s+(?:bool|int|uint)\s+([A-Za-z_][A-Za-z0-9_]*)\s*[=;]".
Definition reSrgWithSemantic := rx "(?:partial\s+)?ShaderResourceGroup\s+([A-Za-z_][A-Za-z0-9_]*)\s*:\s*([A-Za-z_][A-Za-z0-9_]*)".

(** [document.fileName.split(/[/\\]/).pop()] *)
Fixpoint baseNameFrom (s : string) (current : string) : string :=
  match s with
  | EmptyString => current
  | String c rest =>
      if Ascii.eqb c "/"%char || Ascii.eqb c JS.backslash then baseNameFrom rest ""
      else baseNameFrom rest (current ++ String c "")
  end.

Definition fileNameOf (document : Document) : string := baseNameFrom (doc_fileName document) "".

Definition isAzslFile (fileName : string) : bool :=
  JS.endsWith fileName ".azsl" && negb (JS.endsWith fileName ".azsli").

(** The names of the non-static options of the index, in table order. *)
Definition indexedNonStaticOptions (st : Index) : list string :=
  map fst (filter (fun entry => negb (option_isStatic (snd entry))) (optionIndex st)).

Definition fallbackMessage : string :=
  "If you have non-static options, one SRG must be designated as the default ShaderVariantFallback".

Definition semanticMessage (semanticName srgName : string) : string :=
  "Declaration for semantic " ++ semanticName ++ " used in SRG " ++ srgName ++ " was not found".

(** The loop variables of the option and SRG pass. *)
Record OptionScan : Type := mkOptionScan {
  os_inMultiLineComment : bool;
  os_nonStaticOptions : list string;
  os_hasShaderVariantFallback : bool;
  os_diagnostics : list Diagnostic
}.

Definition optionScanStep (st : Index) (i : nat) (line : string) (s : OptionScan)
  : OptionScan :=
  match stripComments (os_inMultiLineComment s) line with
  | (inComment, None) =>
      mkOptionScan inComment (os_nonStaticOptions s) (os_hasShaderVariantFallback s)
        (os_diagnostics s)
  | (inComment, Some processedLine) =>
      if negb (JS.truthy processedLine) then
        mkOptionScan inComment (os_nonStaticOptions s) (os_hasShaderVariantFallback s)
          (os_diagnostics s)
      else
        let options :=
          match Regex.exec reNonStaticOption processedLine with
          | Some optionMatch =>
              let optionName := Regex.grp 1 optionMatch in
              if negb (JS.includes processedLine "static")
                 && negb (isOneOf optionName (os_nonStaticOptions s))
              then (os_nonStaticOptions s ++ [optionName])%list
              else os_nonStaticOptions s
          | None => os_nonStaticOptions s
          end in
        match Regex.exec reSrgWithSemantic processedLine with
        | Some srgMatch =>
            let srgName := Regex.grp 1 srgMatch in
            let semanticName := Regex.grp 2 srgMatch in
            mkOptionScan inComment options
              (os_hasShaderVariantFallback s || isOneOf semanticName variantFallbackSemantics)
              (if negb (JsMap.has semanticName (srgSemanticIndex st))
               then (os_diagnostics s ++
                     [diagnosticAt i 0 (JS.len line) (semanticMessage semanticName srgName)])%list
               else os_diagnostics s)
        | None =>
            mkOptionScan inComment options (os_hasShaderVariantFallback s) (os_diagnostics s)
        end
  end.

Definition scanOptions (st : Index) (fileName : string) (lines : list string) : OptionScan :=
  foldLines lines (optionScanStep st)
    (mkOptionScan false (if isAzslFile fileName then indexedNonStaticOptions st else [])
       false []).

(** [new vscode.Range(0, 0, 0, lines[0] ? lines[0].length : 0)] with the
    message of the fallback rule. *)
Definition fallbackDiagnostic (lines : list string) : Diagnostic :=
  diagnosticAt 0 0 (match lines with l :: _ => JS.len l | [] => 0%Z end) fallbackMessage.

(** The diagnostics after the option and SRG pass and the fallback rule. *)
Definition optionDiagnostics (st : Index) (fileName : string) (lines : list string)
  : list Diagnostic :=
  let s := scanOptions st fileName lines in
  if isAzslFile fileName
     && (0 <? List.length (os_nonStaticOptions s))
     && negb (os_hasShaderVariantFallback s)
  then (os_diagnostics s ++ [fallbackDiagnostic lines])%list
  else os_diagnostics s.

(** *** Parameter and variable types *)

(** What the passes before the sweep compute from the document and the
    index: the sets and maps the sweep reads. *)
Record Scope : Type := mkScope {
  env_index : Index;
  env_document : Document;
  env_lines : list string;
  env_knownStructs : JsSet.t;
  env_classMembers : JsMap.t JsSet.t;
  env_pascalCaseTypes : JsSet.t;
  env_functionScopes : list FunctionScope;
  env_variableTypes : JsMap.t string;
  env_variableDeclarations : JsMap.t (list VarDecl);
  env_methodClassContext : list (nat * string)
}.

Definition reTextureType := rx "^Texture".
Definition reSamplerType := rx "^Sampler".
Definition reNumericType := rx "^(float|int|uint|real|half|double)([2-4])?$".

(** The types whose variables are entered in [variableTypes]: textures,
    samplers, scalars and vectors, and the names known as structs or types. *)
Definition isTrackedType (st : Index) (knownStructs pascalCaseTypes : JsSet.t)
  (fullType : string) : bool :=
  Regex.test reTextureType fullType
  || Regex.test reSamplerType fullType
  || Regex.test reNumericType fullType
  || JsSet.has fullType knownStructs || isOneOf fullType atomTypes
  || JsSet.has fullType pascalCaseTypes
  || JsMap.has fullType (structIndex st) || JsMap.has fullType (structMembers st).

Definition reParameterFollowedAll := rx "\b((?:float(?:[1-4](?:x[1-4])?)?|real(?:[1-4](?:x[1-4])?)?|int(?:[1-4])?|uint(?:[1-4])?|bool|half|double|matrix(?:[1-4]x[1-4])?|Texture\w*|Sampler\w*|[A-Z][A-Za-z0-9_]*))\s+([A-Za-z_][A-Za-z0-9_]*)\s*(?:[,:)]|$)".
Definition reParameterTypeAndName := rx "\b((?:float(?:[1-4](?:x[1-4])?)?|real(?:[1-4](?:x[1-4])?)?|int(?:[1-4])?|uint(?:[1-4])?|bool|half|double|matrix(?:[1-4]x[1-4])?|Texture\w*|Sampler\w*|[A-Z][A-Za-z0-9_]*))\s+([A-Za-z_][A-Za-z0-9_]*)".

(** Second pass: the parameters of the lines with a parenthesis. *)
Definition parameterTypesStep (st : Index) (knownStructs pascalCaseTypes : JsSet.t)
  (line : string) (variableTypes : JsMap.t string) : JsMap.t string :=
  if JS.includes line "(" && negb (JS.startsWith "//" (JS.trim line)) then
    fold_left
      (fun types funcParam =>
         match Regex.exec reParameterTypeAndName (Regex.m_text funcParam) with
         | Some paramMatch =>
             let fullType := Regex.grp 1 paramMatch in
             let varName := Regex.grp 2 paramMatch in
             if isTrackedType st knownStructs pascalCaseTypes fullType
             then JsMap.set varName fullType types else types
         | None => types
         end)
      (Regex.execAll reParameterFollowedAll line) variableTypes
  else variableTypes.

Definition reConstVarDecl := rx "\bconst\s+((?:float(?:[1-4](?:x[1-4])?)?|real(?:[1-4](?:x[1-4])?)?|int(?:[1-4])?|uint(?:[1-4])?|bool|half|double|matrix|Texture\w*|Sampler\w*|[A-Z][A-Za-z0-9_]*))\s+([A-Za-z_][A-Za-z0-9_]*)\s*[;=]".
Definition reVarDecl := rx "\b((?:float(?:[1-4](?:x[1-4])?)?|real(?:[1-4](?:x[1-4])?)?|int(?:[1-4])?|uint(?:[1-4])?|bool|half|double|matrix|Texture\w*|Sampler\w*|[A-Z][A-Za-z0-9_]*))\s+([A-Za-z_][A-Za-z0-9_]*)\s*[;=]".

(** The loop variables of the declaration pass. *)
Record VarScan : Type := mkVarScan {
  vs_braceDepth : Z;
  vs_declarations : JsMap.t (list VarDecl);
  vs_types : JsMap.t string
}.

Definition recordDeclaration (st : Index) (knownStructs pascalCaseTypes : JsSet.t)
  (fullType varName : string) (i : nat) (s : VarScan) : VarScan :=
  mkVarScan (vs_braceDepth s)
    (pushDecl varName (mkVarDecl fullType i (vs_braceDepth s)) (vs_declarations s))
    (if isTrackedType st knownStructs pascalCaseTypes fullType
     then JsMap.set varName fullType (vs_types s) else vs_types s).

(** [if (t) fullType = t], where [None] and the empty text are falsy. *)
Definition overrideType (t : option string) (fullType : string) : string :=
  match t with
  | Some t' => if JS.truthy t' then t' else fullType
  | None => fullType
  end.

Definition varDeclStep (st : Index) (knownStructs pascalCaseTypes : JsSet.t)
  (scopes : list FunctionScope) (i : nat) (line : string) (s : VarScan) : VarScan :=
  let s0 := mkVarScan (vs_braceDepth s + braceDelta line)%Z (vs_declarations s) (vs_types s) in
  let s1 :=
    match Regex.exec reConstVarDecl line with
    | Some m =>
        recordDeclaration st knownStructs pascalCaseTypes (Regex.grp 1 m) (Regex.grp 2 m) i s0
    | None => s0
    end in
  match Regex.exec reVarDecl line with
  | Some m =>
      let varName := Regex.grp 2 m in
      let t0 := Regex.grp 1 m in
      let t1 :=
        if String.eqb varName "OUT" || String.eqb varName "out"
        then overrideType (getCurrentFunctionReturnType scopes i) t0 else t0 in
      let t2 :=
        if String.eqb varName "IN" || String.eqb varName "in"
        then overrideType (getCurrentFunctionParameterType scopes i) t1 else t1 in
      recordDeclaration st knownStructs pascalCaseTypes t2 varName i s1
  | None => s1
  end.

(** *** The class context of method bodies *)

Definition reMethodDefinition := rx "\b([A-Za-z_][A-Za-z0-9_]*)\s*::\s*([A-Za-z_][A-Za-z0-9_]*)\s*\(".

(** [methodClassContext.set(j, className)] for the lines of a method body,
    from line [j] on, until the brace depth is back at 0 on a line with a
    closing brace. *)
Fixpoint markMethodLines (className : string) (j : nat) (ls : list string) (braceDepth : Z)
  (context : list (nat * string)) : list (nat * string) :=
  match ls with
  | [] => context
  | methodLine :: ls' =>
      let braceDepth' :=
        if negb (Regex.test reDirective methodLine)
        then (braceDepth + escapedBraceDelta methodLine)%Z else braceDepth in
      let context' := (j, className) :: filter (fun e => negb (fst e =? j)) context in
      if (braceDepth' <=? 0)%Z && JS.includes methodLine "}" then context'
      else markMethodLines className (S j) ls' braceDepth' context'
  end.

Definition methodContextStep (classMembers : JsMap.t JsSet.t) (lines : list string)
  (i : nat) (line : string) (context : list (nat * string)) : list (nat * string) :=
  match Regex.exec reMethodDefinition line with
  | Some methodMatch =>
      let className := Regex.grp 1 methodMatch in
      if JsMap.has className classMembers then
        let braceDepth := escapedBraceDelta line in
        let methodStart :=
          if (braceDepth =? 0)%Z && negb (JS.includes line "{") then S i else i in
        markMethodLines className methodStart (skipn methodStart lines) braceDepth context
      else context
  | None => context
  end.

(** [methodClassContext.get(i)] *)
Fixpoint contextAt (i : nat) (context : list (nat * string)) : option string :=
  match context with
  | [] => None
  | (j, c) :: rest => if j =? i then Some c else contextAt i rest
  end.

(** The passes of [validateDocument] between the fallback rule and the
    sweep, run on the index as it is after the struct merge. *)
Definition buildScope (st : Index) (document : Document) (info : DeclInfo) : Scope :=
  let lines := JS.splitLines (doc_text document) in
  let pascalCaseTypes := collectPascalCaseTypes lines in
  let knownStructs := di_knownStructs info in
  let scopes := functionScopesOf lines in
  let types1 :=
    fold_left (fun types line => parameterTypesStep st knownStructs pascalCaseTypes line types)
      lines (di_variableTypes info) in
  let vars :=
    foldLines lines (varDeclStep st knownStructs pascalCaseTypes scopes)
      (mkVarScan 0 JsMap.empty types1) in
  mkScope st document lines knownStructs (di_classMembers info) pascalCaseTypes scopes
    (vs_types vars) (vs_declarations vars)
    (foldLines lines (methodContextStep (di_classMembers info) lines) []).

(** [getVariableTypeAtLine(varName, lineNum, currentBraceDepth)] *)
Definition getVariableTypeAtLine (env : Scope) (varName : string) (lineNum : nat)
  (currentBraceDepth : Z) : option string :=
  let fallback := JsMap.get varName (env_variableTypes env) in
  match JsMap.get varName (env_variableDeclarations env) with
  | None => fallback
  | Some declarations =>
      match selectDeclaration declarations lineNum currentBraceDepth with
      | Some bestMatch => Some (vd_type bestMatch)
      | None => fallback
      end
  end.

(* ===================================================================== *)
(** ** Validation: the sweep over the identifiers *)
(* ===================================================================== *)

(** What the body of the identifier loop does with an identifier: it ends
    the iteration with [continue] after pushing the given diagnostics, or it
    goes on to the next statement. *)
Inductive Verdict : Type :=
| Continue (pushed : list Diagnostic)
| GoOn.

(** Truthiness of a value that is a non-empty text, [null] or [undefined]. *)
Definition known (t : option string) : bool :=
  match t with Some s => JS.truthy s | None => false end.

Definition reHasDot := rx "\.".
Definition reHasScope := rx "::".
Definition reSrgQualifier := rx "([A-Za-z_][A-Za-z0-9_]*)::\s*$".
Definition reSrgMemberAccess := rx "([A-Za-z_][A-Za-z0-9_]*)::([A-Za-z_][A-Za-z0-9_]*)\s*\.(?![^.]*\.)".
Definition reVariableAccess := rx "([A-Za-z_][A-Za-z0-9_]*)\s*\.".
Definition reCallBeforeDot := rx "([A-Za-z_][A-Za-z0-9_]*)\s*\([^)]*\)\s*\.".
Definition reSwizzle := rx "^[xyzwrgba]{1,4}$".

Definition textureMethods : list string :=
  [ "Sample"; "SampleLevel"; "SampleBias"; "SampleGrad"; "SampleCmp"; "SampleCmpLevelZero";
    "Load"; "GetDimensions"; "Gather"; "GatherRed"; "GatherGreen"; "GatherBlue";
    "GatherAlpha"; "GatherCmp"; "GatherCmpRed" ].

Definition noSrgMemberMessage (member srgName : string) : string :=
  "no member named '" ++ member ++ "' in SRG '" ++ srgName ++ "'".

Definition noTypeMemberMessage (member type : string) : string :=
  "no member named '" ++ member ++ "' in type '" ++ type ++ "'".

Definition noStructMemberMessage (member type : string) : string :=
  "no member named '" ++ member ++ "' in struct '" ++ type ++ "'".

Definition invalidSwizzleMessage (member : string) : string :=
  "invalid swizzle property '" ++ member ++ "'".

Definition undeclaredMessage (identifier : string) : string :=
  "use of undeclared identifier '" ++ identifier ++ "'".

(** [members.has(x)] for [members = table.get(k)], false when the key is
    absent. *)
Definition memberOf (k x : string) (table : JsMap.t JsSet.t) : bool :=
  match JsMap.get k table with
  | Some members => JsSet.has x members
  | None => false
  end.

(** [atomTypes.has(srgName) || declarations.has(srgName) || srgMembers.has(srgName)] *)
Definition srgIsKnown (env : Scope) (declarations : JsSet.t) (srgName : string) : bool :=
  isOneOf srgName atomTypes || JsSet.has srgName declarations
  || JsMap.has srgName (srgMembers (env_index env)).

(** The diagnostic on the identifier at column [pos]. *)
Definition diagnosticOn (i : nat) (pos : nat) (identifier message : string) : Diagnostic :=
  diagnosticAt i (Z.of_nat pos) (Z.of_nat (pos + String.length identifier)) message.

(** The block for an identifier right after [Name::]. *)
Definition checkSrgQualifier (env : Scope) (declarations : JsSet.t) (i pos : nat)
  (identifier beforeAccess : string) : Verdict :=
  match Regex.exec reSrgQualifier beforeAccess with
  | None => GoOn
  | Some srgBeforeMemberMatch =>
      let srgName := Regex.grp 1 srgBeforeMemberMatch in
      let fullSrgMember := srgName ++ "::" ++ identifier in
      let st := env_index env in
      let memberFound :=
        if JsSet.has fullSrgMember declarations then true
        else if JsMap.has srgName (srgMembers st) then memberOf srgName identifier (srgMembers st)
        else JsMap.has fullSrgMember (srgMemberIndex st) in
      if memberFound then Continue []
      else if srgIsKnown env declarations srgName then
        Continue [diagnosticOn i pos identifier (noSrgMemberMessage identifier srgName)]
      else GoOn
  end.

(** [memberExists] for [Srg::member]. *)
Definition srgMemberExists (env : Scope) (declarations : JsSet.t) (srgName memberName : string)
  : bool :=
  let fullName := srgName ++ "::" ++ memberName in
  let st := env_index env in
  JsSet.has fullName declarations || JsMap.has fullName (srgMemberIndex st)
  || memberOf srgName memberName (srgMembers st).

(** [beforeAccess.substring(0, beforeAccess.lastIndexOf('.'))] *)
Definition expressionBeforeDot (beforeAccess : string) : string :=
  JS.substring beforeAccess 0 (JS.lastIndexOf beforeAccess ".").

(** The type of a call of [mul] directly before the dot, from its second
    argument. *)
Definition mulCallType (env : Scope) (i : nat) (depth : Z) (beforeAccess : string)
  : option string :=
  match Regex.exec reCallBeforeDot beforeAccess with
  | Some exprMatch =>
      if String.eqb (Regex.grp 1 exprMatch) "mul" then
        match extractFunctionCallArgs (expressionBeforeDot beforeAccess) "mul" with
        | Some (_ :: arg2 :: _) =>
            let secondArg := JS.trim arg2 in
            match vectorConstructorType secondArg with
            | Some t => Some t
            | None =>
                match Regex.exec reLeadingIdentifier secondArg with
                | Some varMatch2 =>
                    let argVarType := getVariableTypeAtLine env (Regex.grp 1 varMatch2) i depth in
                    if known argVarType
                       && isVectorType (match argVarType with Some t => t | None => "" end)
                    then argVarType else None
                | None => None
                end
            end
        | _ => None
        end
      else None
  | None => None
  end.

(** The first SRG in table order that has [varName] as a member and whose
    member has a type in [variableTypes]. *)
Fixpoint srgMemberType (entries : JsMap.t JsSet.t) (variableTypes : JsMap.t string)
  (varName : string) : option string :=
  match entries with
  | [] => None
  | (srgName, members) :: rest =>
      if JsSet.has varName members then
        match JsMap.get (srgName ++ "::" ++ varName) variableTypes with
        | Some t => Some t
        | None => srgMemberType rest variableTypes varName
        end
      else srgMemberType rest variableTypes varName
  end.

Definition firstKnown (a b : option string) : option string := if known a then a else b.

(** The type of the operand [varName] of a member access [varName.], as the
    [else if (varMatch)] block assigns it to [varType]; [exprType] is the
    type found for a call expression before the dot. *)
Definition variableOperandType (env : Scope) (i : nat) (depth : Z)
  (beforeAccess varName : string) (exprType : option string) : option string :=
  let st := env_index env in
  let t1 :=
    match getExpressionType st (env_document env) (expressionBeforeDot beforeAccess) i with
    | Some t => Some t
    | None => firstKnown (mulCallType env i depth beforeAccess) exprType
    end in
  let t2 :=
    if negb (known t1) && (String.eqb varName "OUT" || String.eqb varName "out")
    then firstKnown (getCurrentFunctionReturnType (env_functionScopes env) i) t1 else t1 in
  let t3 :=
    if negb (known t2) && (String.eqb varName "IN" || String.eqb varName "in")
    then firstKnown (getCurrentFunctionParameterType (env_functionScopes env) i) t2 else t2 in
  let t4 := if negb (known t3) then getVariableTypeAtLine env varName i depth else t3 in
  if negb (known t4) then
    let t5 := srgMemberType (srgMembers st) (env_variableTypes env) varName in
    if negb (known t5)
       && (isOneOf varName atomTypes || JsSet.has varName (env_pascalCaseTypes env)
           || JsSet.has varName (env_knownStructs env) || JsMap.has varName (structIndex st))
    then Some varName else t5
  else t4.

(** The checks of an accessed member against a resolved operand type. *)
Definition checkMemberOfType (env : Scope) (i pos : nat) (identifier varType : string)
  : list Diagnostic :=
  let st := env_index env in
  if isVectorType varType && Regex.test reSwizzle identifier then []
  else if JsMap.has varType (atomTypeMembers st) then
    if memberOf varType identifier (atomTypeMembers st) then []
    else [diagnosticOn i pos identifier (noTypeMemberMessage identifier varType)]
  else if JsMap.has varType (structMembers st) then
    if memberOf varType identifier (structMembers st) then []
    else [diagnosticOn i pos identifier (noStructMemberMessage identifier varType)]
  else if isOneOf varType atomTypes then
    [diagnosticOn i pos identifier
       (noStructMemberMessage identifier varType ++ " (type found but members not indexed)")]
  else if JsMap.has varType (srgMembers st) then
    if memberOf varType identifier (srgMembers st) then []
    else [diagnosticOn i pos identifier (noTypeMemberMessage identifier varType)]
  else if Regex.test reTextureType varType && negb (isOneOf identifier textureMethods) then
    [diagnosticOn i pos identifier
       (noTypeMemberMessage identifier varType ++ ". Valid methods: "
        ++ JS.join ", " textureMethods)]
  else [].

(** The member access of the form [Srg::member.identifier]. *)
Definition checkSrgMemberAccess (env : Scope) (declarations : JsSet.t) (i pos : nat)
  (line identifier srgName memberName : string) (exprType : option string) : Verdict :=
  let fullName := srgName ++ "::" ++ memberName in
  let memberExists := srgMemberExists env declarations srgName memberName in
  if negb memberExists && srgIsKnown env declarations srgName then
    let memberNamePos := JS.indexOfFrom line memberName (Z.of_nat pos - 100) in
    Continue
      (if (0 <=? memberNamePos)%Z
       then [diagnosticAt i memberNamePos (memberNamePos + JS.len memberName)
               (noSrgMemberMessage memberName srgName)]
       else [])
  else
    let varType :=
      match JsMap.get fullName (env_variableTypes env) with
      | Some t => Some t
      | None => exprType
      end in
    if negb (known varType) then
      if memberExists then
        Continue
          (if negb (Regex.test reSwizzle identifier)
           then [diagnosticOn i pos identifier (invalidSwizzleMessage identifier)]
           else [])
      else Continue []
    else
      Continue (checkMemberOfType env i pos identifier
                  (match varType with Some t => t | None => "" end)).

(** The last match of the global pattern [reVariableAccess] in
    [beforeAccess]. *)
Definition lastVariableAccess (beforeAccess : string) : option string :=
  match last (map Some (Regex.execAll reVariableAccess beforeAccess)) None with
  | Some m => Some (Regex.grp 1 m)
  | None => None
  end.

(** [exprType]: the type of a call expression that ends right before the
    last dot. *)
Definition callExpressionType (env : Scope) (i : nat) (beforeAccess : string)
  : option string :=
  let exprBefore := expressionBeforeDot beforeAccess in
  if JS.endsWith (JS.trim exprBefore) ")"
  then getExpressionType (env_index env) (env_document env) exprBefore i
  else None.

(** The block entered when a dot or [::] occurs before the identifier. *)
Definition checkMemberAccess (env : Scope) (declarations : JsSet.t) (i pos : nat) (depth : Z)
  (line identifier beforeMatch : string) : Verdict :=
  let beforeAccess := JS.trim beforeMatch in
  match checkSrgQualifier env declarations i pos identifier beforeAccess with
  | Continue ds => Continue ds
  | GoOn =>
      let exprType := callExpressionType env i beforeAccess in
      match Regex.exec reSrgMemberAccess beforeAccess with
      | Some srgMemberMatch =>
          checkSrgMemberAccess env declarations i pos line identifier
            (Regex.grp 1 srgMemberMatch) (Regex.grp 2 srgMemberMatch) exprType
      | None =>
          let varMatch := if known exprType then None else lastVariableAccess beforeAccess in
          match varMatch with
          | Some varName =>
              match variableOperandType env i depth beforeAccess varName exprType with
              | Some varType =>
                  if JS.truthy varType
                  then Continue (checkMemberOfType env i pos identifier varType)
                  else Continue []
              | None => Continue []
              end
          | None =>
              match exprType with
              | Some varType =>
                  if JS.truthy varType
                  then Continue (checkMemberOfType env i pos identifier varType)
                  else GoOn
              | None => GoOn
              end
          end
      end
  end.

(** *** Identifiers that are not member accesses *)

Definition reUpperStart := rx "^[A-Z]".
Definition reEndsWithColon := rx ":\s*$".
Definition reAfterBlockKeyword := rx "\b(?:struct|ShaderResourceGroup|cbuffer|tbuffer|namespace|class)\s+$".
Definition reAfterBuiltinType := rx "\b(?:float(?:[1-4](?:x[1-4])?)?|int(?:[1-4])?|uint(?:[1-4])?|bool|half|double|void|matrix|Texture\w*|Sampler\w*)\s+$".
Definition reAfterPascalType := rx "\b[A-Z][A-Za-z0-9_]*\s+$".
Definition reOpenParenBefore := rx "\([^)]*$".
Definition reCloseParen := rx "\)".
Definition reQualifiedName := rx "([A-Za-z_][A-Za-z0-9_]*)::([A-Za-z_][A-Za-z0-9_]*)".
Definition reNumberBefore := rx "[\d.eE+-]\s*$".
Definition reOpenAngleBefore := rx "<[^>]*$".
Definition reOpenQuoteBefore := rx "\x22[^\x22]*$".
Definition reNamespaceCall := rx "([A-Z][A-Za-z0-9_]*)::([A-Za-z_][A-Za-z0-9_]*)".
Definition reQuestionMark := rx "\?".
Definition reColon := rx ":".
Definition reFollowedBySemicolon := rx "^\s*;".
Definition reFollowedByOperator := rx "^\s*[+\-*\/%<>!&|=]".
Definition reFollowedByParen := rx "^\s*\(".
Definition reFollowedByBracket := rx "^\s*\[".
Definition reFollowedByComma := rx "^\s*,".
Definition reFollowedByClosing := rx "^\s*[\)\]]".
Definition reLowerStart := rx "^[a-z_]".

Definition atomFunctions : list string :=
  [ "GetObjectToWorldMatrix"; "GetObjectToWorldMatrixInverseTranspose";
    "ApplyIblForward"; "ComputeShadowIndex"; "EncodeNormalSignedOctahedron";
    "GetVisibility"; "Init"; "FinalizeLighting"; "CalculateRoughnessA";
    "SetAlbedoAndSpecularF0"; "GetSpecularF0"; "GetDefaultNormal" ].

(** [line.substring(Math.max(0, pos - 50), pos + identifier.length)] *)
Definition windowBefore (line : string) (pos : nat) (identifier : string) : string :=
  JS.substring line (Z.max 0 (Z.of_nat pos - 50)) (Z.of_nat (pos + String.length identifier)).

(** The identifier is the member of a qualified name [Owner::identifier]
    whose owner or member is known. *)
Definition isKnownQualified (env : Scope) (declarations : JsSet.t) (line : string) (pos : nat)
  (identifier : string) : bool :=
  match Regex.exec reQualifiedName (windowBefore line pos identifier) with
  | Some m =>
      if String.eqb (Regex.grp 2 m) identifier then
        JsSet.has (Regex.grp 1 m ++ "::" ++ Regex.grp 2 m) declarations
        || isOneOf (Regex.grp 1 m) atomTypes || JsSet.has (Regex.grp 1 m) declarations
        || memberOf (Regex.grp 1 m) identifier (srgMembers (env_index env))
      else false
  | None => false
  end.

(** Some declaration is a qualified name that ends in [::identifier]. *)
Definition isDeclaredSrgMember (declarations : JsSet.t) (identifier : string) : bool :=
  existsb (fun decl => JS.includes decl "::" && JS.endsWith decl ("::" ++ identifier))
    declarations.

Definition isNamespaceCall (line : string) (pos : nat) (identifier : string) : bool :=
  match Regex.exec reNamespaceCall (windowBefore line pos identifier) with
  | Some m => String.eqb (Regex.grp 2 m) identifier
  | None => false
  end.

Definition isUsage (afterMatch : string) : bool :=
  Regex.test reFollowedBySemicolon afterMatch || Regex.test reFollowedByOperator afterMatch
  || Regex.test reFollowedByParen afterMatch || Regex.test reFollowedByBracket afterMatch
  || Regex.test reFollowedByComma afterMatch || Regex.test reFollowedByClosing afterMatch.

(** The statements after the member-access block: the diagnostics pushed
    for an identifier that none of the exclusions covers. *)
Definition checkUndeclared (env : Scope) (declarations : JsSet.t) (i pos : nat)
  (line identifier beforeMatch afterMatch : string) : list Diagnostic :=
  let trimmedBefore := JS.trim beforeMatch in
  if Regex.test reUpperStart identifier
     && (JsSet.has identifier (env_pascalCaseTypes env) || isOneOf identifier atomTypes)
  then []
  else if Regex.test reEndsWithColon beforeMatch then []
  else if Regex.test reAfterBlockKeyword trimmedBefore then []
  else if Regex.test reAfterBuiltinType trimmedBefore then []
  else if Regex.test reAfterPascalType trimmedBefore then []
  else if Regex.test reOpenParenBefore beforeMatch && Regex.test reCloseParen afterMatch then []
  else if isKnownQualified env declarations line pos identifier then []
  else if isDeclaredSrgMember declarations identifier then []
  else if Regex.test reNumberBefore beforeMatch then []
  else if Regex.test reOpenAngleBefore beforeMatch || Regex.test reOpenQuoteBefore beforeMatch
  then []
  else if isOneOf identifier atomFunctions then []
  else if isNamespaceCall line pos identifier then []
  else if Regex.test reUpperStart identifier then []
  else if Regex.test reQuestionMark beforeMatch
          || Regex.test reColon (JS.substring afterMatch 0 5) then []
  else if negb (isUsage afterMatch) then []
  else if Regex.test reLowerStart identifier
  then [diagnosticOn i pos identifier (undeclaredMessage identifier)]
  else [].

(** The body of the identifier loop for the match [m] of the identifier
    pattern in [lineWithoutStrings]. *)
Definition checkIdentifier (env : Scope) (declarations : JsSet.t) (i : nat) (depth : Z)
  (line lineWithoutStrings : string) (m : Regex.rmatch) : list Diagnostic :=
  let identifier := Regex.grp 1 m in
  let pos := Regex.m_index m in
  let beforeMatch := JS.take pos lineWithoutStrings in
  let afterMatch := JS.drop (pos + String.length identifier) lineWithoutStrings in
  if isOneOf identifier builtinIdentifiers then []
  else if JsSet.has identifier declarations then []
  else
    let verdict :=
      if Regex.test reHasDot beforeMatch || Regex.test reHasScope beforeMatch
      then checkMemberAccess env declarations i pos depth line identifier beforeMatch
      else GoOn in
    match verdict with
    | Continue ds => ds
    | GoOn => checkUndeclared env declarations i pos line identifier beforeMatch afterMatch
    end.

(** *** The sweep over the lines *)

Definition reStringLiteral := rx "\x22[^\x22]*\x22".
Definition reHasLineComment := rx "\/\/".
Definition reHasBlockComment := rx "\/\*".
Definition reBlockComment := rx "\/\*[\s\S]*?\*\/".
Definition reLineCommentTail := rx "\/\/.*$".
Definition reDotSemicolonAtEnd := rx "\b([A-Za-z_][A-Za-z0-9_]*)\s*\.\s*;$".
Definition reDotAtEnd := rx "\b([A-Za-z_][A-Za-z0-9_]*)\s*\.\s*$".
Definition reBareType := rx "^\s*(?:float(?:[1-4](?:x[1-4])?)?|real(?:[1-4](?:x[1-4])?)?|int(?:[1-4])?|uint(?:[1-4])?|bool|half|double|matrix(?:[1-4]x[1-4])?|[A-Z][A-Za-z0-9_]*)\s*(?:\/\/.*)?$".
Definition reReturn := rx "\breturn\s+".
Definition reCallAtEnd := rx "\([^)]*\)\s*$".
Definition reBareTypeName := rx "^(?:float(?:[1-4](?:x[1-4])?)?|real(?:[1-4](?:x[1-4])?)?|int(?:[1-4])?|uint(?:[1-4])?|bool|half|double|matrix(?:[1-4]x[1-4])?|[A-Z][A-Za-z0-9_]*)".
Definition reIdentifier := rx "\b([A-Za-z_][A-Za-z0-9_]*)\b".

Definition incompleteAccessMessage : string := "syntax error: incomplete member access".
Definition incompleteDeclarationMessage : string :=
  "syntax error: incomplete variable declaration".

(** [inBlockComment] after a line, from the positions of the first comment
    opener and closer of the line without its string literals. *)
Definition blockCommentAfter (inBlockComment : bool) (lineWithoutStrings : string) : bool :=
  let blockCommentStart := JS.indexOf lineWithoutStrings "/*" in
  let blockCommentEnd := JS.indexOf lineWithoutStrings "*/" in
  if (0 <=? blockCommentStart)%Z then
    negb ((0 <=? blockCommentEnd)%Z && (blockCommentStart <? blockCommentEnd)%Z)
  else if (0 <=? blockCommentEnd)%Z && inBlockComment then false
  else inBlockComment.

(** The diagnostic for [identifier.] or [identifier.;] at the end of a
    line: on the first occurrence of the identifier's text. *)
Definition incompleteAccessDiagnostic (re : Regex.re) (i : nat)
  (lineWithoutStrings trimmedAfterComments : string) : list Diagnostic :=
  match Regex.exec re trimmedAfterComments with
  | Some m =>
      let varName := Regex.grp 1 m in
      let pos := JS.indexOf lineWithoutStrings varName in
      if (0 <=? pos)%Z
      then [diagnosticAt i pos (pos + JS.len varName) incompleteAccessMessage]
      else []
  | None => []
  end.

Definition syntaxDiagnostics (i : nat) (line lineWithoutStrings : string)
  (inBlockComment : bool) : list Diagnostic :=
  let originalHasComment :=
    Regex.test reHasLineComment line || Regex.test reHasBlockComment line || inBlockComment in
  let trimmedAfterComments := JS.trim lineWithoutStrings in
  if (0 <? String.length trimmedAfterComments) && negb originalHasComment
     && negb inBlockComment
  then
    (incompleteAccessDiagnostic reDotSemicolonAtEnd i lineWithoutStrings trimmedAfterComments
     ++ incompleteAccessDiagnostic reDotAtEnd i lineWithoutStrings trimmedAfterComments)%list
  else [].

Definition incompleteDeclarationDiagnostics (i : nat) (lineWithoutStrings : string)
  : list Diagnostic :=
  if Regex.test reBareType lineWithoutStrings then
    let trimmed := JS.trim lineWithoutStrings in
    if negb (Regex.test reReturn trimmed) && negb (Regex.test reCallAtEnd trimmed)
       && negb (Regex.test reLineComment trimmed)
    then
      match Regex.exec reBareTypeName trimmed with
      | Some typeMatch =>
          let typeName := Regex.m_text typeMatch in
          let pos := JS.indexOf lineWithoutStrings typeName in
          [diagnosticAt i pos (pos + JS.len typeName) incompleteDeclarationMessage]
      | None => []
      end
    else []
  else [].

(** The loop variables of the sweep. *)
Record Sweep : Type := mkSweep {
  sw_braceDepth : Z;
  sw_inBlockComment : bool;
  sw_declarations : JsSet.t;
  sw_diagnostics : list Diagnostic
}.

(** [lineWithoutStrings] when the identifier loop starts: string literals
    emptied, block comments and the line comment removed. *)
Definition withoutStringsAndComments (line : string) : string :=
  Regex.replaceAll reLineCommentTail
    (Regex.replaceAll reBlockComment
       (Regex.replaceAll reStringLiteral line (String JS.dquote (String JS.dquote ""))) "") "".

Definition sweepStep (env : Scope) (i : nat) (line : string) (s : Sweep) : Sweep :=
  let depth := (sw_braceDepth s + braceDelta line)%Z in
  if Regex.test reLineComment line || Regex.test reDirective line then
    mkSweep depth (sw_inBlockComment s) (sw_declarations s) (sw_diagnostics s)
  else
    let declarations :=
      match contextAt i (env_methodClassContext env) with
      | Some className =>
          match JsMap.get className (env_classMembers env) with
          | Some members => JsSet.addAll members (sw_declarations s)
          | None => sw_declarations s
          end
      | None => sw_declarations s
      end in
    let emptied :=
      Regex.replaceAll reStringLiteral line (String JS.dquote (String JS.dquote "")) in
    let inBlockComment := blockCommentAfter (sw_inBlockComment s) emptied in
    let lineWithoutStrings := withoutStringsAndComments line in
    let found :=
      (syntaxDiagnostics i line lineWithoutStrings inBlockComment
       ++ incompleteDeclarationDiagnostics i lineWithoutStrings
       ++ flat_map (checkIdentifier env declarations i depth line lineWithoutStrings)
            (Regex.execAll reIdentifier lineWithoutStrings))%list in
    mkSweep depth inBlockComment declarations (sw_diagnostics s ++ found)%list.

Definition sweepDiagnostics (env : Scope) (declarations : JsSet.t) : list Diagnostic :=
  sw_diagnostics (foldLines (env_lines env) (sweepStep env) (mkSweep 0 false declarations [])).

(** *** The last loop: incomplete accesses and stray punctuation *)

Definition reIncompleteDot := rx "([A-Za-z_][A-Za-z0-9_]*)\s*\.\s*$".
Definition reDeclarationStart := rx "^(float|int|uint|bool|half|double|void|matrix|Texture|Sampler|struct|class|namespace|ShaderResourceGroup|cbuffer|tbuffer|#|\/\/|\/\*)".
Definition rePascalDeclarationStart := rx "^[A-Z][A-Za-z0-9_]*\s+[A-Za-z_]".
Definition reIncompleteScope := rx "([A-Za-z_][A-Za-z0-9_]*)\s*::\s*$".
Definition reDotSemicolon := rx "\b([A-Za-z_][A-Za-z0-9_]*)\s*\.\s*;".
Definition reDoubleDot := rx "\b([A-Za-z_][A-Za-z0-9_]*)\s*\.\s*\.".
Definition reScopeSemicolon := rx "\b([A-Za-z_][A-Za-z0-9_]*)\s*::\s*;".

Definition incompleteMessage : string := "incomplete member access".

(** The next line, trimmed, looks like the start of a declaration, a
    directive or a comment. *)
Definition looksLikeDeclaration (nextLine : string) : bool :=
  Regex.test reDeclarationStart nextLine || Regex.test rePascalDeclarationStart nextLine.

(** The diagnostic for a line that ends in [name.] or [name::]: when the
    line is the last one, or when the next line looks like a declaration.
    [mark] is the punctuation, whose last occurrence in the line is
    reported.  The pattern is matched on the line without its comments and
    the position is looked up in the line as written, so for [::] it is
    [-1] when a block comment separates the colons ([a:/* c */:]); the
    editor's [Range] rejects a negative column with an exception, which this
    function does not follow: it returns the diagnostic with the column as
    computed. *)
Definition incompleteAtEnd (re : Regex.re) (mark : string) (lines : list string) (i : nat)
  (line trimmedLine : string) : list Diagnostic :=
  match Regex.exec re trimmedLine with
  | Some _ =>
      let markPos := JS.lastIndexOf line mark in
      let report := [diagnosticAt i markPos (markPos + JS.len mark) incompleteMessage] in
      match lineAt lines (S i) with
      | Some next => if looksLikeDeclaration (JS.trim next) then report else []
      | None => report
      end
  | None => []
  end.

(** The diagnostics of the matches of a global pattern [name <mark> <second>]:
    from the end of the name to the end given by [endOf]. *)
Definition strayDiagnostics (re : Regex.re) (i : nat) (lineWithoutComments : string)
  (endOf : nat -> Z) (message : string) : list Diagnostic :=
  map (fun m =>
         let markPos := Regex.m_index m + String.length (Regex.grp 1 m) in
         diagnosticAt i (Z.of_nat markPos) (endOf markPos) message)
      (Regex.execAll re lineWithoutComments).

Definition lastLoopStep (lines : list string) (i : nat) (line : string) : list Diagnostic :=
  if Regex.test reLineComment line || Regex.test reDirective line then []
  else
    let withoutBlocks := Regex.replaceAll reBlockComment line "" in
    let commentIndex := JS.indexOf withoutBlocks "//" in
    let lineWithoutComments :=
      if (commentIndex =? -1)%Z then withoutBlocks
      else JS.substring withoutBlocks 0 commentIndex in
    let trimmedLine := JS.trim lineWithoutComments in
    let afterSemicolon (from : nat) : Z :=
      (JS.indexOfFrom lineWithoutComments ";" (Z.of_nat from) + 1)%Z in
    (incompleteAtEnd reIncompleteDot "." lines i line trimmedLine
     ++ incompleteAtEnd reIncompleteScope "::" lines i line trimmedLine
     ++ strayDiagnostics reDotSemicolon i lineWithoutComments afterSemicolon
          "syntax error: unexpected ';' after '.'"
     ++ strayDiagnostics reDoubleDot i lineWithoutComments
          (fun firstDotPos => Z.of_nat (firstDotPos + 2))
          "syntax error: unexpected '.' after '.'"
     ++ strayDiagnostics reScopeSemicolon i lineWithoutComments afterSemicolon
          "syntax error: unexpected ';' after '::'")%list.

Definition lastLoopDiagnostics (lines : list string) : list Diagnostic :=
  foldLines lines (fun i line found => (found ++ lastLoopStep lines i line)%list) [].

(* ===================================================================== *)
(** ** [validateDocument] *)
(* ===================================================================== *)

(** What a call of [validateDocument] does besides updating the tables: it
    returns at once, it throws, or it publishes a list of diagnostics with
    [diagnosticCollection.set(document.uri, diagnostics)].  [Threw] is the
    [TypeError] of the struct scan, the one exception that is followed; a
    list with a diagnostic whose column is negative (see [incompleteAtEnd])
    is one that the editor does not get to see. *)
Inductive Outcome : Type :=
| Skipped
| Threw
| Published (diagnostics : list Diagnostic).

(** The diagnostics computed for a document on the index [st] as it is after
    the struct merge and the seeding of the known member sets. *)
Definition computeDiagnostics (st : Index) (document : Document) (info : DeclInfo)
  : list Diagnostic :=
  let env := buildScope st document info in
  let declarations := initialDeclarations st info (env_pascalCaseTypes env) in
  (optionDiagnostics st (fileNameOf document) (env_lines env)
   ++ sweepDiagnostics env declarations
   ++ lastLoopDiagnostics (env_lines env))%list.

Definition validateDocument (st : Index) (document : Document) : Index * Outcome :=
  if negb (String.eqb (doc_languageId document) "azsl") then (st, Skipped)
  else
    let text := doc_text document in
    let info := extractDeclarations text in
    match extractStructDeclarations text (doc_fileName document) with
    | None => (st, Threw)
    | Some currentDocStructs =>
        let st' := seedKnownMembers (ingestDocumentStructs currentDocStructs st) in
        (st', Published (computeDiagnostics st' document info))
    end.

(* ===================================================================== *)
(** ** Completion: [provideCompletionItems] *)
(* ===================================================================== *)

(** The loop variables of the scope scan of
    [getFunctionReturnTypeAtPosition] and [getFunctionParameterTypeAtPosition]:
    the same scan as the first pass of [validateDocument], except that
    a signature is also read on a line that starts with a line comment. *)
Definition positionScopeStep (i : nat) (line : string) (s : ScopeScan) : ScopeScan :=
  let prevBraceDepth := sc_braceDepth s in
  let currentBraceDepth := (prevBraceDepth + braceDelta line)%Z in
  let '(start1, ret1, param1) :=
    match Regex.exec reFunctionSignature line with
    | Some funcMatch =>
        (Some i, Some (JS.trim (Regex.grp 1 funcMatch)),
         match firstParamTypeOf line with
         | Some t => Some t
         | None => sc_firstParamType s
         end)
    | None => (sc_start s, sc_returnType s, sc_firstParamType s)
    end in
  let scopes1 :=
    match start1 with
    | Some start =>
        if (prevBraceDepth =? 0)%Z && (0 <? currentBraceDepth)%Z
           && negb (hasScopeAt start (sc_scopes s))
        then (sc_scopes s ++
              [mkFunctionScope start (match ret1 with Some t => t | None => "" end)
                 param1 None])%list
        else sc_scopes s
    | None => sc_scopes s
    end in
  match start1 with
  | Some start =>
      if (prevBraceDepth =? 1)%Z && (currentBraceDepth =? 0)%Z then
        mkScopeScan None None None currentBraceDepth (closeScope start i scopes1)
      else mkScopeScan start1 ret1 param1 currentBraceDepth scopes1
  | None => mkScopeScan start1 ret1 param1 currentBraceDepth scopes1
  end.

Definition positionScopes (document : Document) : list FunctionScope :=
  sc_scopes (foldLines (JS.splitLines (doc_text document)) positionScopeStep
               (mkScopeScan None None None 0 [])).

Definition getFunctionReturnTypeAtPosition (document : Document) (lineNum : nat)
  : option string :=
  getCurrentFunctionReturnType (positionScopes document) lineNum.

Definition getFunctionParameterTypeAtPosition (document : Document) (lineNum : nat)
  : option string :=
  getCurrentFunctionParameterType (positionScopes document) lineNum.

Inductive CompletionItemKind : Type := KindText | KindMethod | KindProperty.

Record CompletionItem : Type := mkCompletionItem {
  item_label : string;
  item_kind : CompletionItemKind;
  item_sortText : string
}.

(** [toLowerCase] on code units below 256. *)
Definition lowerChar (c : ascii) : ascii :=
  let n := nat_of_ascii c in
  if JS.isUpper c || ((192 <=? n) && (n <=? 222) && negb (n =? 215))
  then ascii_of_nat (n + 32) else c.

Fixpoint toLowerCase (s : string) : string :=
  match s with
  | EmptyString => EmptyString
  | String c s' => String (lowerChar c) (toLowerCase s')
  end.

(** [!current || name.toLowerCase().startsWith(current.toLowerCase())] *)
Definition matchesPrefix (current name : string) : bool :=
  negb (JS.truthy current) || JS.startsWith (toLowerCase current) (toLowerCase name).

Definition memberItems (current : string) (kindOf : string -> CompletionItemKind)
  (names : list string) : list CompletionItem :=
  map (fun name => mkCompletionItem name (kindOf name) ("00_" ++ name))
      (filter (matchesPrefix current) names).

Definition completionAtomTypes : list string :=
  [ "Surface"; "LightingData"; "DirectionalLight"; "SimplePointLight"; "PointLight";
    "SimpleSpotLight"; "DiskLight" ].

Definition reMemberAccessAtCursor := rx "([A-Za-z_][A-Za-z0-9_]*)\s*[\.:]\s*$".
Definition reDotAtCursor := rx "\.\s*$".
Definition reIdentifierAtCursor := rx "([A-Za-z_][A-Za-z0-9_]*)\s*$".

(** The swizzle items offered after a call expression that ends right
    before the last dot. *)
Definition expressionSwizzleItems (st : Index) (document : Document) (lineNum : nat)
  (beforeCursor current : string) : list CompletionItem :=
  let dotIndex := JS.lastIndexOf beforeCursor "." in
  if (0 <=? dotIndex)%Z then
    let expressionBeforeDot := JS.trim (JS.substring beforeCursor 0 dotIndex) in
    if JS.endsWith expressionBeforeDot ")" then
      match getExpressionType st document expressionBeforeDot lineNum with
      | Some exprType =>
          if JS.truthy exprType && isVectorType exprType
          then memberItems current (fun _ => KindProperty) (getSwizzleProperties exprType)
          else []
      | None => []
      end
    else []
  else [].

(** The name before the dot or colon at the cursor. *)
Definition memberAccessAtCursor (beforeCursor : string) (triggerCharacter : option string)
  : option string :=
  match Regex.exec reMemberAccessAtCursor beforeCursor with
  | Some m => Some (Regex.grp 1 m)
  | None =>
      match triggerCharacter with
      | Some t =>
          if String.eqb t "." then
            match Regex.exec reIdentifierAtCursor
                    (Regex.replaceFirst reDotAtCursor beforeCursor "") with
            | Some m => Some (Regex.grp 1 m)
            | None => None
            end
          else None
      | None => None
      end
  end.

Definition completionOperandType (st : Index) (document : Document) (lineNum : nat)
  (varName : string) : option string :=
  let t1 :=
    if String.eqb varName "OUT" || String.eqb varName "out"
    then firstKnown (getFunctionReturnTypeAtPosition document lineNum) None else None in
  let t2 :=
    if negb (known t1) && (String.eqb varName "IN" || String.eqb varName "in")
    then firstKnown (getFunctionParameterTypeAtPosition document lineNum) t1 else t1 in
  let t3 := if negb (known t2) then getVariableTypeAtPosition st document varName lineNum else t2 in
  if negb (known t3) && isOneOf varName completionAtomTypes then Some varName else t3.

Definition symbolItems (st : Index) (current : string) : list CompletionItem :=
  map (fun sym =>
         mkCompletionItem sym KindText
           (if JS.truthy current && JS.startsWith current sym then "0_" ++ sym
            else "1_" ++ sym))
      (indexedSymbols st).

(** [provideCompletionItems(document, position, token, context)].  [current]
    is the word at the cursor as the editor reports it, empty when there is
    none; [None] is a thrown [ReferenceError]: the branch for texture types
    reads [textureTypes], which is not declared in this function. *)
Definition provideCompletionItems (st : Index) (document : Document)
  (line character : nat) (current : string) (triggerCharacter : option string)
  : option (list CompletionItem) :=
  if negb (String.eqb (doc_languageId document) "azsl") then Some []
  else
    let lineText :=
      match lineAt (JS.splitLines (doc_text document)) line with
      | Some l => l
      | None => ""
      end in
    let beforeCursor := JS.take character lineText in
    match expressionSwizzleItems st document line beforeCursor current with
    | item :: items => Some (item :: items)
    | [] =>
        let fallback := Some (symbolItems st current) in
        match memberAccessAtCursor beforeCursor triggerCharacter with
        | None => fallback
        | Some varName =>
            match completionOperandType st document line varName with
            | Some varType =>
                if negb (JS.truthy varType) then fallback
                else
                  match JsMap.get varType (atomTypeMembers st),
                        JsMap.get varType (structMembers st) with
                  | Some members, _ =>
                      Some (memberItems current
                              (fun member =>
                                 if JsMap.has (varType ++ "." ++ member) (atomMethodIndex st)
                                    || JsMap.has (varType ++ "::" ++ member) (atomMethodIndex st)
                                 then KindMethod else KindProperty)
                              members)
                  | None, Some members =>
                      Some (memberItems current (fun _ => KindProperty) members)
                  | None, None =>
                      if isVectorType varType
                      then Some (memberItems current (fun _ => KindProperty)
                                   (getSwizzleProperties varType))
                      else None
                  end
            | None => fallback
            end
        end
    end.

(* ===================================================================== *)
(** ** Fixtures and the notions the properties are stated with *)
(* ===================================================================== *)

(** A text from its lines. *)
Definition textOf (lines : list string) : string := JS.join (String JS.lf "") lines.

(** An indexer environment over a list of files given with their contents;
    every path exists, relative paths and base names are the paths
    themselves, and the two heuristic scans find nothing. *)
Definition findFile (files : list (string * string)) (path : string) : option string :=
  JsMap.get path files.

Definition hostOf (files : list (string * string)) : Host :=
  mkHost (fun _ => true) (fun _ => map fst files) (findFile files)
    (fun _ f => f) (fun f => f)
    (fun _ _ => mkAtomData [] JsMap.empty)
    (fun _ _ => mkSrgDecls JsMap.empty JsMap.empty).

(** The index after [indexHeaders] ran without a configured root: cleared
    and seeded. *)
Definition freshIndex : Index := indexHeaders (hostOf []) None initialIndex.

(** An open document of the language with the given file name and lines. *)
Definition azslDocument (fileName : string) (lines : list string) : Document :=
  mkDocument "azsl" fileName (UriFile fileName) (textOf lines).

(** The diagnostics [validateDocument] publishes; none when it publishes
    nothing. *)
Definition publishedBy (st : Index) (document : Document) : list Diagnostic :=
  match snd (validateDocument st document) with
  | Published ds => ds
  | _ => []
  end.

(** A corpus with one header that declares a function. *)
Definition staleCorpus : list (string * string) :=
  [ ("/gem/lib.azsli", textOf ["float4 helper(float x)"; "{"; "    return x;"; "}"]) ].

(** The loop invariant of the selection: [bestBraceDepth] is at least [-1];
    a chosen declaration is in scope, has that depth, and no declaration in
    scope seen so far is deeper, or as deep and on a later line; while none
    is chosen, every declaration in scope seen so far has a depth below
    [-1]. *)
Definition selectInvariant (lineNum : nat) (depth : Z) (seen : list VarDecl)
  (st : option VarDecl * Z) : Prop :=
  (-1 <= snd st)%Z
  /\ match fst st with
     | Some b =>
         In b seen /\ inScope lineNum depth b = true /\ vd_braceDepth b = snd st
         /\ forall d, In d seen -> inScope lineNum depth d = true ->
                      (vd_braceDepth d < vd_braceDepth b)%Z
                      \/ (vd_braceDepth d = vd_braceDepth b /\ vd_line d <= vd_line b)
     | None =>
         snd st = (-1)%Z
         /\ forall d, In d seen -> inScope lineNum depth d = true -> (vd_braceDepth d < -1)%Z
     end.

(** The scenario of the specification on a document with balanced braces: [x] is
    [Foo] at top level and [Bar] inside the block, from the line of the inner
    declaration to the closing brace. *)
Definition nestedDocument : Document :=
  azslDocument "/shaders/nested.azsl"
    [ "Foo x;"; "void f()"; "{"; "    Bar x;"; "    x.a = 1;"; "}"; "x.b = 2;" ].

(** A document in which two closing braces precede a declaration. *)
Definition unbalancedDocument : Document :=
  azslDocument "/shaders/unbalanced.azsl" [ "}"; "}"; "float3 x;"; "x.y = 1;" ].

(** A document that reads valid and invalid accessors of a [float3]. *)
Definition swizzleDocument : Document :=
  azslDocument "/shaders/swizzle.azsl"
    [ "float3 v;";
      "float a = v.xyz;";
      "float b = v.rgb;";
      "float c = v.xy;";
      "float d = v.xyzw;";
      "float e = v.q;";
      "float f = v.xx;" ].

(** Two headers and a document that each define [S]. *)
Definition structFileAB : string :=
  textOf [ "struct S"; "{"; "    float a;"; "    float b;"; "};" ].

Definition structFileBC : string :=
  textOf [ "struct S"; "{"; "    float b;"; "    float c;"; "};" ].

Definition structCorpus : list (string * string) :=
  [ ("/gem/ab.azsli", structFileAB); ("/gem/bc.azsli", structFileBC) ].

Definition structDocumentBC : Document :=
  mkDocument "azsl" "/shaders/local.azsl" (UriFile "/shaders/local.azsl") structFileBC.

(** The entry of a macro definition as both scans write it. *)
Definition entryOf (uri : Uri) (d : MacroDef) : MacroEntry :=
  mkMacroEntry (def_value d) (def_doc d) uri (def_line d).

(** File A documents [FOO] with a one-line trailing comment, file B with a
    three-line block comment before the definition. *)
Definition macroFileA : string :=
  textOf [ "#define FOO 4 // lights" ].

Definition macroFileB : string :=
  textOf [ "/* Maximum number of lights";
           " * that one pass evaluates";
           " * per pixel. */";
           "#define FOO 8" ].

Definition macroCorpus : list (string * string) :=
  [ ("/gem/a.azsli", macroFileA); ("/gem/b.azsli", macroFileB) ].

Definition blockDoc : string :=
  textOf [ "Maximum number of lights"; "that one pass evaluates"; "per pixel." ].

(** The diagnostics a loop over the lines collects when its body appends
    those of [found i line]. *)
Fixpoint collectFrom (i : nat) (ls : list string) (found : nat -> string -> list Diagnostic)
  : list Diagnostic :=
  match ls with
  | [] => []
  | l :: ls' => (found i l ++ collectFrom (S i) ls' found)%list
  end.

(** The first three characters of a message tell the passes apart. *)
Definition messageHead (d : Diagnostic) : string := JS.take 3 (diag_message d).

Definition sweepHeads : list string := ["syn"; "no "; "inv"; "use"].

(** The two documents of the scenario. *)
Definition incompleteBeforeDeclaration : Document :=
  azslDocument "/shaders/incomplete.azsl" [ "foo."; "float x;" ].

Definition incompleteBeforeCall : Document :=
  azslDocument "/shaders/incomplete.azsl" [ "foo."; "bar();" ].

(** The same line before a call of a function whose name starts with the
    letters of a type keyword. *)
Definition incompleteBeforeInterpolate : Document :=
  azslDocument "/shaders/incomplete.azsl" [ "foo."; "interpolate(a);" ].


(** The lines as the option and SRG pass reads them: for every line that is
    not skipped, its index and its trimmed text without comments. *)
Fixpoint processedLinesFrom (inComment : bool) (i : nat) (ls : list string)
  : list (nat * string) :=
  match ls with
  | [] => []
  | l :: ls' =>
      match stripComments inComment l with
      | (inComment', Some processedLine) =>
          if JS.truthy processedLine
          then (i, processedLine) :: processedLinesFrom inComment' (S i) ls'
          else processedLinesFrom inComment' (S i) ls'
      | (inComment', None) => processedLinesFrom inComment' (S i) ls'
      end
  end.

Definition processedLines (lines : list string) : list string :=
  map snd (processedLinesFrom false 0 lines).

(** The line declares an option without the [static] keyword:
    [option bool|int|uint NAME] followed by [=] or [;]. *)
Definition declaresNonStaticOption (processedLine : string) : bool :=
  match Regex.exec reNonStaticOption processedLine with Some _ => true | None => false end.

(** The line declares an SRG with one of the fallback-capable semantics. *)
Definition usesFallbackSemantic (processedLine : string) : bool :=
  match Regex.exec reSrgWithSemantic processedLine with
  | Some m => isOneOf (Regex.grp 2 m) variantFallbackSemantics
  | None => false
  end.

(** The index holds an option that is not flagged static. *)
Definition indexHasNonStaticOption (st : Index) : bool :=
  existsb (fun entry => negb (option_isStatic (snd entry))) (optionIndex st).

Definition isFallbackDiagnostic (d : Diagnostic) : bool :=
  String.eqb (diag_message d) fallbackMessage.

(** The diagnostics of a list that carry the message of the fallback rule. *)
Definition fallbackDiagnostics (ds : list Diagnostic) : list Diagnostic :=
  filter isFallbackDiagnostic ds.

(** When the fallback rule asks for its diagnostic. *)
Definition fallbackRequired (st : Index) (document : Document) : bool :=
  let processed := processedLines (JS.splitLines (doc_text document)) in
  isAzslFile (fileNameOf document)
  && (indexHasNonStaticOption st || existsb declaresNonStaticOption processed)
  && negb (existsb usesFallbackSemantic processed).

(** A header and a shader that declare one non-static option, and the
    shader with an SRG of a fallback-capable semantic. *)
Definition optionHeader : Document :=
  azslDocument "/shaders/feature.azsli" ["option bool o_useFeature = true;"].

Definition optionShader : Document :=
  azslDocument "/shaders/feature.azsl" ["option bool o_useFeature = true;"].

Definition optionShaderWithSrg : Document :=
  azslDocument "/shaders/feature.azsl"
    [ "option bool o_useFeature = true;";
      "ShaderResourceGroup X : SRG_PerDraw {}" ].

(** *** Notions for the properties of the index *)

(** [if (!m.has(k)) m.set(k, v)] for the entries of a list, in order. *)
Definition addAbsent {V : Type} (entries : list (string * V)) (m : JsMap.t V) : JsMap.t V :=
  fold_left (fun m e => setIfAbsent (fst e) (snd e) m) entries m.

(** The function declarations that the per-file loop of [indexHeaders] merges
    for a file: none when the file cannot be read or the struct scan before
    the function scan throws. *)
Definition functionsOfFile (h : Host) (f : string) : JsMap.t Position :=
  match readFileSync h f with
  | None => []
  | Some buf =>
      match extractStructDeclarations buf f with
      | None => []
      | Some _ => extractFunctionDeclarations buf f
      end
  end.

(** The function declarations that a run of [indexHeaders] merges, in the
    order of the files. *)
Definition corpusFunctions (h : Host) (rootPath : option string) : JsMap.t Position :=
  match rootPath with
  | None => []
  | Some root =>
      if negb (JS.truthy root) || negb (existsSync h root) then []
      else flat_map (functionsOfFile h) (walkDirCollect h root)
  end.

(** A shader whose first line is a comment, and a shader that declares an
    SRG with a semantic that no file declares. *)
Definition commentedOptionShader : Document :=
  azslDocument "/shaders/commented.azsl"
    [ "// options of the pass"; "option bool o_useFeature = true;" ].

Definition customSemanticShader : Document :=
  azslDocument "/shaders/custom.azsl" [ "ShaderResourceGroup X : SRG_Custom {}" ].

(** *** Notions for the properties of the validation *)

(** The built-in entries are held: every built-in SRG semantic is a key of
    [srgSemanticIndex], and [Surface] and [LightingData] have at least their
    baseline members. *)
Definition holdsBuiltins (st : Index) : Prop :=
  Forall (fun semantic => JsMap.has semantic (srgSemanticIndex st) = true) builtinSrgSemantics
  /\ Forall (fun m => memberOf "Surface" m (atomTypeMembers st) = true) surfaceBaseline
  /\ Forall (fun m => memberOf "LightingData" m (atomTypeMembers st) = true)
       lightingDataBaseline.

(** The diagnostic lies on line [i]. *)
Definition onLine (i : nat) (d : Diagnostic) : Prop :=
  range_startLine (diag_range d) = i /\ range_endLine (diag_range d) = i.

Definition isCommentOrDirective (line : string) : bool :=
  Regex.test reLineComment line || Regex.test reDirective line.

(** What a step of the sweep adds to the diagnostics. *)
Definition sweepFound (env : Scope) (i : nat) (line : string) (s : Sweep) : list Diagnostic :=
  skipn (List.length (sw_diagnostics s)) (sw_diagnostics (sweepStep env i line s)).

(** The first characters of the messages of the member checks. *)
Definition accessHeads : list string := ["syn"; "no "; "inv"].

(** A function that uses the undeclared name [b]. *)
Definition undeclaredUseShader : Document :=
  azslDocument "/shaders/use.azsl"
    [ "float f()"; "{"; "    float a = saturate(1.0);"; "    a = b * a;"; "    return a;"; "}" ].

(** *** Regular expressions with finitely many matches *)

Definition allAscii : list ascii := map ascii_of_nat (seq 0 256).

(** The texts that a regular expression without a quantifier can consume,
    the assertions counted as the empty text; [None] for an expression with
    a quantifier. *)
Fixpoint finiteWords (r : Regex.re) : option (list string) :=
  match r with
  | Regex.Empty => Some [""]
  | Regex.Chr c => Some [String c ""]
  | Regex.Any =>
      Some (map (fun c => String c "")
              (filter (fun c => negb (JS.isLineTerminator c)) allAscii))
  | Regex.Class negated items =>
      Some (map (fun c => String c "") (filter (Regex.classMatches negated items) allAscii))
  | Regex.Cat a b =>
      match finiteWords a, finiteWords b with
      | Some wa, Some wb => Some (flat_map (fun x => map (fun y => x ++ y) wb) wa)
      | _, _ => None
      end
  | Regex.Alt a b =>
      match finiteWords a, finiteWords b with
      | Some wa, Some wb => Some (wa ++ wb)%list
      | _, _ => None
      end
  | Regex.Rep _ _ => None
  | Regex.Grp _ a => finiteWords a
  | Regex.Bol | Regex.Eol | Regex.WordB | Regex.NLook _ => Some [""]
  end.

(** Every way through the expression ends with [$]. *)
Fixpoint endsAtEol (r : Regex.re) : bool :=
  match r with
  | Regex.Eol => true
  | Regex.Cat _ b => endsAtEol b
  | Regex.Alt a b => endsAtEol a && endsAtEol b
  | Regex.Grp _ a => endsAtEol a
  | _ => false
  end.

(** Every way through the expression starts with [^]. *)
Fixpoint startsAtBol (r : Regex.re) : bool :=
  match r with
  | Regex.Bol => true
  | Regex.Cat a _ => startsAtBol a
  | Regex.Alt a b => startsAtBol a && startsAtBol b
  | Regex.Grp _ a => startsAtBol a
  | _ => false
  end.

(** The types that [isVectorType] accepts. *)
Definition vectorTypeNames : list string :=
  [ "float2"; "float3"; "float4"; "int2"; "int3"; "int4"; "uint2"; "uint3"; "uint4";
    "bool2"; "bool3"; "bool4"; "real2"; "real3"; "real4"; "half2"; "half3"; "half4" ].

(** The dimension of a vector type: its last digit. *)
Definition dimensionOf (type : string) : nat :=
  match Regex.exec reLastDigit type with
  | Some dimMatch => digitValue (Regex.grp 1 dimMatch)
  | None => 0
  end.

Fixpoint units (s : string) : list ascii :=
  match s with
  | EmptyString => []
  | String c s' => c :: units s'
  end.

Fixpoint distinctUnits (l : list ascii) : bool :=
  match l with
  | [] => true
  | c :: l' => negb (existsb (Ascii.eqb c) l') && distinctUnits l'
  end.

(** An accessor of a vector of dimension [dim]: one to [dim] distinct
    components, all taken from the first [dim] letters of [xyzw] or all from
    the first [dim] letters of [rgba]. *)
Definition isAccessorOf (dim : nat) (s : string) : bool :=
  let from (table : string) :=
    forallb (fun c => existsb (Ascii.eqb c) (units (JS.take dim table))) (units s) in
  (1 <=? String.length s) && (String.length s <=? dim)
  && distinctUnits (units s) && (from "xyzw" || from "rgba").

(** The texts of at most [n] units over the alphabet [A]. *)
Fixpoint wordsUpTo (A : list ascii) (n : nat) : list string :=
  match n with
  | O => [""]
  | S n' => "" :: flat_map (fun c => map (String c) (wordsUpTo A n')) A
  end.

(** The declarations that [getVariableTypeAtPosition] records for a name,
    in the order of their lines. *)
Definition recordedDeclarations (st : Index) (document : Document) (varName : string)
  : list VarDecl :=
  let scan :=
    foldLines (JS.splitLines (doc_text document)) (declScanStep st)
      (mkDeclScan JsMap.empty JsMap.empty 0) in
  match JsMap.get varName (ds_declarations scan) with
  | Some declarations => declarations
  | None => []
  end.

(* ===================================================================== *)
(** ** Include resolution: [readConfigHeadersPath] and [resolveIncludeTarget] *)
(* ===================================================================== *)

(** [readConfigHeadersPath()]: the setting [azsl.gemPath] when it is a text
    that is not blank, the setting [azsl.headersPath] otherwise; [None] is a
    setting that is not set. *)
Definition readConfigHeadersPath (gemPath headersPath : option string) : option string :=
  match gemPath with
  | Some gem =>
      if JS.truthy gem && (0 <? String.length (JS.trim gem)) then Some gem else headersPath
  | None => headersPath
  end.

Definition reBackslash := rx "\\".

(** [text.replace(/\\/g, '/')] *)
Definition normalizeSlashes (text : string) : string := Regex.replaceAll reBackslash text "/".

(** The first entry of [headersPathIndex] whose relative path is [suffix] or
    ends with [/suffix]. *)
Fixpoint findBySuffix (entries : JsMap.t string) (suffix : string) : option string :=
  match entries with
  | [] => None
  | (rel, abs) :: rest =>
      if JS.endsWith rel ("/" ++ suffix) || String.eqb rel suffix then Some abs
      else findBySuffix rest suffix
  end.

(** The loop over the files that share the base name of the include. *)
Fixpoint findByRelativePath (h : Host) (root normalized : string) (byBase : list string)
  : option string :=
  match byBase with
  | [] => None
  | candidate :: rest =>
      let candidateRel := normalizeSlashes (pathRelative h root candidate) in
      if JS.endsWith candidateRel normalized || String.eqb candidateRel normalized
      then Some candidate
      else if JS.startsWith "Atom/" normalized
              && (JS.endsWith candidateRel (JS.substringFrom normalized 5)
                  || String.eqb candidateRel (JS.substringFrom normalized 5))
      then Some candidate
      else findByRelativePath h root normalized rest
  end.

(** [resolveIncludeTarget(includeText)]: the file an [#include] names, as
    its path; [None] is [undefined].  [root] is what
    [readConfigHeadersPath()] returns and [pathJoin] is [path.join]. *)
Definition resolveIncludeTarget (h : Host) (pathJoin : string -> string -> string)
  (root : option string) (st : Index) (includeText : string) : option string :=
  match root with
  | None => None
  | Some root =>
      if negb (JS.truthy root) then None
      else
        let normalized := normalizeSlashes includeText in
        let viaAtom :=
          if JS.startsWith "Atom/" normalized then
            let withoutAtom := JS.substringFrom normalized 5 in
            let candidate := pathJoin root withoutAtom in
            if existsSync h candidate then Some candidate
            else
              match JsMap.get withoutAtom (headersPathIndex st) with
              | Some found => Some found
              | None => findBySuffix (headersPathIndex st) withoutAtom
              end
          else None in
        match viaAtom with
        | Some found => Some found
        | None =>
            match JsMap.get normalized (headersPathIndex st) with
            | Some found => Some found
            | None =>
                match findBySuffix (headersPathIndex st) normalized with
                | Some found => Some found
                | None =>
                    match JsMap.get (pathBasename h normalized) (headersBasenameIndex st) with
                    | Some [only] => Some only
                    | Some byBase => findByRelativePath h root normalized byBase
                    | None => None
                    end
                end
            end
        end
  end.

(** The files that a run of [indexHeaders] reads. *)
Definition corpusFiles (h : Host) (rootPath : option string) : list string :=
  match rootPath with
  | None => []
  | Some root =>
      if negb (JS.truthy root) || negb (existsSync h root) then []
      else walkDirCollect h root
  end.

(** A small corpus with one header below the root [/gem]. *)
Definition includeCorpus : list (string * string) :=
  [ ("Features/PBR.azsli", textOf ["float4 helper(float x)"; "{"; "    return x;"; "}"]) ].

(** The path tables after the per-file loop: one [set] and one [push] per
    file, in the order of the files. *)
Definition recordPaths (h : Host) (root : string) (files : list string)
  (tables : JsMap.t string * JsMap.t (list string)) : JsMap.t string * JsMap.t (list string) :=
  fold_left
    (fun t f =>
       (JsMap.set (pathRelative h root f) f (fst t),
        JsMap.set (pathBasename h f)
          (match JsMap.get (pathBasename h f) (snd t) with Some l => l | None => [] end
           ++ [f])%list (snd t)))
    files tables.

(** [keepsNames a b]: every name that the symbol set, the macro, SRG
    semantic, struct, function or option table of [a] holds is held by the
    same table of [b]. *)
Definition keepsNames (a b : Index) : Prop :=
  forall name : string,
    (JsSet.has name (indexedSymbols a) = true -> JsSet.has name (indexedSymbols b) = true)
    /\ (JsMap.has name (macroIndex a) = true -> JsMap.has name (macroIndex b) = true)
    /\ (JsMap.has name (srgSemanticIndex a) = true
        -> JsMap.has name (srgSemanticIndex b) = true)
    /\ (JsMap.has name (structIndex a) = true -> JsMap.has name (structIndex b) = true)
    /\ (JsMap.has name (functionIndex a) = true -> JsMap.has name (functionIndex b) = true)
    /\ (JsMap.has name (optionIndex a) = true -> JsMap.has name (optionIndex b) = true).

(** The expression has no capturing group. *)
Fixpoint noGroups (r : Regex.re) : bool :=
  match r with
  | Regex.Cat a b | Regex.Alt a b => noGroups a && noGroups b
  | Regex.Rep _ a => noGroups a
  | Regex.Grp _ _ => false
  | Regex.NLook _ => true
  | _ => true
  end.

(** A line without [typedef] and without an alias after a closing brace
    ([} Name;]). *)
Definition isPlainStructLine (line : string) : bool :=
  negb (JS.includes line "typedef") && negb (Regex.test reTypedefAlias line).

(** Every struct that the scan has recorded has a member set. *)
Definition structsHaveMembers (st : JsMap.t StructInfo * JsMap.t JsSet.t) : Prop :=
  forall name, JsMap.has name (fst st) = true -> JsMap.has name (snd st) = true.

(** A document that defines [FOO] twice. *)
Definition redefiningDocument : Document :=
  azslDocument "/shaders/redefine.azsl"
    [ "#define FOO 4 // lights"; "float x;"; "#define FOO 8" ].

(* ===================================================================== *)
(** ** Properties *)
(* ===================================================================== *)

(** *** Language guard (C10) *)

Lemma languageId_guard (id : string) :
  id <> "azsl" -> negb (String.eqb id "azsl") = true.
Proof.
  intros H. apply negb_true_iff. now apply String.eqb_neq.
Qed.

(** C10: for a document whose language id is not [azsl], [validateDocument]
    returns at once: it publishes no diagnostics and leaves every table of
    the index as it was; [provideCompletionItems] returns the empty list
    whatever the position, the word at the cursor and the trigger
    character. *)
Theorem C10_other_languages_are_skipped :
  forall (st : Index) (document : Document),
    doc_languageId document <> "azsl" ->
    validateDocument st document = (st, Skipped)
    /\ (forall line character current triggerCharacter,
          provideCompletionItems st document line character current triggerCharacter
          = Some []).
Proof.
  intros st document H.
  unfold validateDocument, provideCompletionItems.
  rewrite (languageId_guard _ H). split; [reflexivity | intros; reflexivity].
Qed.

Lemma C10_witness :
  let document := mkDocument "hlsl" "/shaders/blur.hlsl" (UriFile "/shaders/blur.hlsl")
                    (textOf ["float3 v;"; "v.q = undeclared;"]) in
  doc_languageId document <> "azsl"
  /\ validateDocument freshIndex document = (freshIndex, Skipped)
  /\ (forall line character current triggerCharacter,
        provideCompletionItems freshIndex document line character current triggerCharacter
        = Some []).
Proof.
  intros document.
  assert (H : doc_languageId document <> "azsl") by (unfold document; simpl; discriminate).
  split; [exact H | exact (C10_other_languages_are_skipped freshIndex document H)].
Defined.

(** *** Maps and sets *)

Lemma get_set_same {V : Type} (k : string) (v : V) (m : JsMap.t V) :
  JsMap.get k (JsMap.set k v m) = Some v.
Proof.
  induction m as [| [k' v'] m IH]; simpl.
  - now rewrite String.eqb_refl.
  - destruct (String.eqb k k') eqn:E; simpl; rewrite E; [reflexivity | exact IH].
Qed.

Lemma get_set_other {V : Type} (k k0 : string) (v : V) (m : JsMap.t V) :
  k0 <> k -> JsMap.get k0 (JsMap.set k v m) = JsMap.get k0 m.
Proof.
  intros Hne. induction m as [| [k' v'] m IH]; simpl.
  - destruct (String.eqb k0 k) eqn:E; [apply String.eqb_eq in E; contradiction | reflexivity].
  - destruct (String.eqb k k') eqn:E; simpl.
    + apply String.eqb_eq in E. subst k'.
      destruct (String.eqb k0 k) eqn:E0; [apply String.eqb_eq in E0; contradiction | reflexivity].
    + destruct (String.eqb k0 k'); [reflexivity | exact IH].
Qed.

Lemma get_setIfAbsent_kept {V : Type} (k k0 : string) (v v0 : V) (m : JsMap.t V) :
  JsMap.get k0 m = Some v0 -> JsMap.get k0 (setIfAbsent k v m) = Some v0.
Proof.
  intros H. unfold setIfAbsent, JsMap.has.
  destruct (JsMap.get k m) eqn:E; [exact H |].
  rewrite get_set_other; [exact H |]. intros ->. congruence.
Qed.

Lemma has_add (x y : string) (s : JsSet.t) :
  JsSet.has x (JsSet.add y s) = JsSet.has x s || String.eqb x y.
Proof.
  unfold JsSet.add. destruct (JsSet.has y s) eqn:E.
  - destruct (String.eqb x y) eqn:Exy; [| now rewrite orb_false_r].
    apply String.eqb_eq in Exy. subst. now rewrite E.
  - unfold JsSet.has. rewrite existsb_app. simpl. now rewrite orb_false_r.
Qed.

Lemma has_addAll (x : string) (ys : list string) (s : JsSet.t) :
  JsSet.has x (JsSet.addAll ys s) = JsSet.has x s || existsb (String.eqb x) ys.
Proof.
  unfold JsSet.addAll. revert s.
  induction ys as [| y ys IH]; intros s; simpl.
  - now rewrite orb_false_r.
  - rewrite IH, has_add. now rewrite orb_assoc.
Qed.

(** *** Reindexing (C3) *)

Lemma functionIndex_ingestStructs (decls : StructDecls) (st : Index) :
  functionIndex (ingestStructs decls st) = functionIndex st.
Proof.
  unfold ingestStructs. revert st.
  induction (sd_structs decls) as [| e es IH]; intros st; simpl; [reflexivity |].
  now rewrite IH.
Qed.

Lemma functionIndex_ingestSrgs (decls : SrgDecls) (st : Index) :
  functionIndex (ingestSrgs decls st) = functionIndex st.
Proof.
  unfold ingestSrgs. simpl.
  generalize (srgInfo decls). intros l. revert st.
  induction l as [| e es IH]; intros st; simpl; [reflexivity |].
  now rewrite IH.
Qed.

Lemma get_ingestFunctions_kept (decls : JsMap.t Position) (st : Index) (name : string)
  (p : Position) :
  JsMap.get name (functionIndex st) = Some p ->
  JsMap.get name (functionIndex (ingestFunctions decls st)) = Some p.
Proof.
  unfold ingestFunctions. simpl. generalize (functionIndex st). clear st.
  induction decls as [| [k v] decls IH]; intros m H; simpl; [exact H |].
  apply IH. now apply get_setIfAbsent_kept.
Qed.

Lemma functionIndex_before_structs (h : Host) (f buf : string) (st : Index) :
  functionIndex
    (ingestSrgs (extractSrgDeclarations h buf f)
       (ingestSrgSemantics (extractSrgSemantics buf f)
          (ingestAtomMethods (atom_methods (fst (extractAtomMethods h buf f
                 (ingestMacros (UriFile f) (extractMacrosWithComments buf)
                    (setIndexedSymbols
                       (JsSet.addAll (extractSymbolsFromText buf) (indexedSymbols st)) st)))))
             (snd (extractAtomMethods h buf f
                 (ingestMacros (UriFile f) (extractMacrosWithComments buf)
                    (setIndexedSymbols
                       (JsSet.addAll (extractSymbolsFromText buf) (indexedSymbols st)) st)))))))
  = functionIndex st.
Proof.
  now rewrite functionIndex_ingestSrgs.
Qed.

Lemma ingestFile_unfold (h : Host) (f buf : string) (st : Index) :
  readFileSync h f = Some buf ->
  ingestFile h f st =
  let st6 :=
    ingestSrgs (extractSrgDeclarations h buf f)
       (ingestSrgSemantics (extractSrgSemantics buf f)
          (ingestAtomMethods (atom_methods (fst (extractAtomMethods h buf f
                 (ingestMacros (UriFile f) (extractMacrosWithComments buf)
                    (setIndexedSymbols
                       (JsSet.addAll (extractSymbolsFromText buf) (indexedSymbols st)) st)))))
             (snd (extractAtomMethods h buf f
                 (ingestMacros (UriFile f) (extractMacrosWithComments buf)
                    (setIndexedSymbols
                       (JsSet.addAll (extractSymbolsFromText buf) (indexedSymbols st)) st)))))) in
  match extractStructDeclarations buf f with
  | None => st6
  | Some structDecls =>
      ingestOptions (extractOptionDeclarations buf f)
        (ingestFunctions (extractFunctionDeclarations buf f) (ingestStructs structDecls st6))
  end.
Proof.
  intros H. unfold ingestFile. rewrite H. reflexivity.
Qed.

Lemma get_ingestFile_kept (h : Host) (f : string) (st : Index) (name : string) (p : Position) :
  JsMap.get name (functionIndex st) = Some p ->
  JsMap.get name (functionIndex (ingestFile h f st)) = Some p.
Proof.
  intros H.
  destruct (readFileSync h f) as [buf |] eqn:Hread.
  - rewrite (ingestFile_unfold h f buf st Hread). cbv zeta.
    destruct (extractStructDeclarations buf f) as [structDecls |].
    + change (functionIndex (ingestOptions ?d ?s)) with (functionIndex s).
      apply get_ingestFunctions_kept.
      now rewrite functionIndex_ingestStructs, functionIndex_before_structs.
    + now rewrite functionIndex_before_structs.
  - unfold ingestFile. now rewrite Hread.
Qed.

(** Every reindex keeps every function entry that the index held before, at
    its old location: [functionIndex] is never cleared and an entry is only
    written for a name that has none. *)
Lemma functionIndex_kept_by_indexHeaders (h : Host) (rootPath : option string) (st : Index)
  (name : string) (p : Position) :
  JsMap.get name (functionIndex st) = Some p ->
  JsMap.get name (functionIndex (indexHeaders h rootPath st)) = Some p.
Proof.
  intros H. unfold indexHeaders.
  assert (H0 : JsMap.get name (functionIndex (clearAndSeed st)) = Some p) by exact H.
  destruct rootPath as [root |]; [| exact H0].
  destruct (negb (JS.truthy root) || negb (existsSync h root)); [exact H0 |].
  assert (H1 : forall files acc,
             JsMap.get name (functionIndex acc) = Some p ->
             JsMap.get name
               (functionIndex
                  (fold_left (fun acc f => recordPath h root f (ingestFile h f acc)) files acc))
             = Some p).
  { induction files as [| f files IH]; intros acc Hacc; simpl; [exact Hacc |].
    apply IH. unfold recordPath. simpl. now apply get_ingestFile_kept. }
  specialize (H1 (walkDirCollect h root) _ H0).
  unfold indexShaderQualityMacros.
  destruct (qualityMacroTarget _); [| exact H1].
  destruct (readFileSync h _); [| exact H1].
  exact H1.
Qed.

(** The tables other than [functionIndex] do not depend on the index before
    the reindex once they are cleared and seeded. *)
Lemma clearAndSeed_resets (st : Index) :
  setFunctionIndex JsMap.empty (clearAndSeed st) = clearAndSeed initialIndex.
Proof. reflexivity. Qed.

(** C3 (the code departs from the specification): a header that declares [helper] is
    indexed, the header is removed from the corpus, and the corpus is
    indexed again.  The second [indexHeaders] resets and reseeds every other
    table, so that they are those of a first index of the empty corpus, but
    [functionIndex] still holds the entry of [helper] from the earlier
    reindex. *)
Theorem C3_function_index_survives_reindex :
  let first := indexHeaders (hostOf staleCorpus) (Some "/gem") initialIndex in
  let second := indexHeaders (hostOf []) (Some "/gem") first in
  JsMap.get "helper" (functionIndex first) = Some (mkPosition (UriFile "/gem/lib.azsli") 0 7)
  /\ JsMap.get "helper" (functionIndex second)
     = Some (mkPosition (UriFile "/gem/lib.azsli") 0 7)
  /\ functionIndex (indexHeaders (hostOf []) (Some "/gem") initialIndex) = JsMap.empty
  /\ setFunctionIndex JsMap.empty second
     = indexHeaders (hostOf []) (Some "/gem") initialIndex
  /\ JsMap.keys (srgSemanticIndex second) = builtinSrgSemantics
  /\ JsMap.get "Surface" (atomTypeMembers second) = Some surfaceBaseline
  /\ JsMap.get "LightingData" (atomTypeMembers second) = Some lightingDataBaseline.
Proof.
  vm_compute. repeat split; reflexivity.
Qed.

(** *** The static flag of an option (C9) *)

(** The flag the scanner records is the occurrence of the text [static]
    anywhere in the line without comments. *)
Lemma optionDeclStep_flag (uri : Uri) (i : nat) (line processedLine : string)
  (inComment inComment' : bool) (m : Regex.rmatch) :
  stripComments inComment line = (inComment', Some processedLine) ->
  JS.truthy processedLine = true ->
  Regex.exec reOptionDecl processedLine = Some m ->
  optionDeclStep uri i line (inComment, JsMap.empty)
  = (inComment',
     [(Regex.grp 2 m,
       mkOptionDecl (Regex.grp 2 m) (JS.includes processedLine "static") uri i)]).
Proof.
  intros Hs Ht Hm. unfold optionDeclStep. rewrite Hs, Ht, Hm. reflexivity.
Qed.

(** C9 (the code departs from the specification): three option declarations are
    scanned.  The first has no [static] keyword but a name that contains the
    text [static], and its flag is true; the second has the keyword and the
    third has neither, and their flags are as specified.  The wrong flag
    reaches the option index. *)
Theorem C9_static_flag_is_a_substring_test :
  let text :=
    textOf [ "option bool o_staticShadows = true;";
             "option static bool o_quality = false;";
             "option int o_mode = 0;" ] in
  map (fun entry => (fst entry, opt_isStatic (snd entry)))
      (extractOptionDeclarations text "/gem/options.azsli")
  = [ ("o_staticShadows", true); ("o_quality", true); ("o_mode", false) ]
  /\ map (fun entry => (fst entry, option_isStatic (snd entry)))
       (optionIndex
          (indexHeaders (hostOf [("/gem/options.azsli", text)]) (Some "/gem") initialIndex))
     = [ ("o_staticShadows", true); ("o_quality", true); ("o_mode", false) ].
Proof.
  vm_compute. split; reflexivity.
Qed.

(** *** Scope-aware variable typing (C5) *)

Lemma selectStep_invariant (lineNum : nat) (depth : Z) (seen : list VarDecl)
  (st : option VarDecl * Z) (decl : VarDecl) :
  selectInvariant lineNum depth seen st ->
  selectInvariant lineNum depth (seen ++ [decl]) (selectStep lineNum depth st decl).
Proof.
  destruct st as [best bestDepth]. unfold selectInvariant, selectStep. simpl.
  intros [Hge Hinv].
  destruct (inScope lineNum depth decl) eqn:Hscope.
  - destruct (bestDepth <? vd_braceDepth decl)%Z eqn:Hlt.
    + apply Z.ltb_lt in Hlt. simpl. split; [lia |].
      split; [apply in_or_app; right; now left |].
      split; [exact Hscope |]. split; [reflexivity |].
      intros d Hd Hsd. apply in_app_or in Hd. destruct Hd as [Hd | [<- | []]].
      * destruct best as [b |].
        -- destruct Hinv as (_ & _ & Hb & Hall).
           destruct (Hall d Hd Hsd) as [H | [H _]]; left; lia.
        -- destruct Hinv as (Hb & Hall). specialize (Hall d Hd Hsd). left; lia.
      * right. split; [reflexivity | lia].
    + apply Z.ltb_ge in Hlt.
      destruct (vd_braceDepth decl =? bestDepth)%Z eqn:Heq; simpl.
      * apply Z.eqb_eq in Heq.
        destruct best as [b |].
        -- destruct Hinv as (Hin & Hsb & Hb & Hall).
           destruct (Z.of_nat (vd_line b) <? Z.of_nat (vd_line decl))%Z eqn:Hline; simpl.
           ++ apply Z.ltb_lt in Hline. split; [lia |].
              split; [apply in_or_app; right; now left |].
              split; [exact Hscope |]. split; [exact Heq |].
              intros d Hd Hsd. apply in_app_or in Hd. destruct Hd as [Hd | [<- | []]].
              ** destruct (Hall d Hd Hsd) as [H | [H1 H2]]; [left; lia | right; split; lia].
              ** right. split; [reflexivity | lia].
           ++ apply Z.ltb_ge in Hline. split; [lia |].
              split; [apply in_or_app; now left |].
              split; [exact Hsb |]. split; [exact Hb |].
              intros d Hd Hsd. apply in_app_or in Hd. destruct Hd as [Hd | [<- | []]].
              ** exact (Hall d Hd Hsd).
              ** right. split; lia.
        -- destruct Hinv as (Hb & Hall). simpl.
           assert (Hline : (-1 <? Z.of_nat (vd_line decl))%Z = true) by (apply Z.ltb_lt; lia).
           rewrite Hline. simpl. split; [lia |].
           split; [apply in_or_app; right; now left |].
           split; [exact Hscope |]. split; [exact Heq |].
           intros d Hd Hsd. apply in_app_or in Hd. destruct Hd as [Hd | [<- | []]].
           ** specialize (Hall d Hd Hsd). left; lia.
           ** right. split; [reflexivity | lia].
      * apply Z.eqb_neq in Heq. split; [exact Hge |].
        destruct best as [b |].
        -- destruct Hinv as (Hin & Hsb & Hb & Hall).
           split; [apply in_or_app; now left |].
           split; [exact Hsb |]. split; [exact Hb |].
           intros d Hd Hsd. apply in_app_or in Hd. destruct Hd as [Hd | [<- | []]].
           ** exact (Hall d Hd Hsd).
           ** left. lia.
        -- destruct Hinv as (Hb & Hall). split; [exact Hb |].
           intros d Hd Hsd. apply in_app_or in Hd. destruct Hd as [Hd | [<- | []]].
           ** exact (Hall d Hd Hsd).
           ** lia.
  - split; [exact Hge |].
    destruct best as [b |].
    + destruct Hinv as (Hin & Hsb & Hb & Hall).
      split; [apply in_or_app; now left |].
      split; [exact Hsb |]. split; [exact Hb |].
      intros d Hd Hsd. apply in_app_or in Hd. destruct Hd as [Hd | [<- | []]].
      * exact (Hall d Hd Hsd).
      * congruence.
    + destruct Hinv as (Hb & Hall). split; [exact Hb |].
      intros d Hd Hsd. apply in_app_or in Hd. destruct Hd as [Hd | [<- | []]].
      * exact (Hall d Hd Hsd).
      * congruence.
Qed.

Lemma selectDeclaration_invariant (lineNum : nat) (depth : Z) (decls : list VarDecl) :
  selectInvariant lineNum depth decls
    (fold_left (selectStep lineNum depth) decls (None, (-1)%Z)).
Proof.
  assert (H : forall rest seen st,
             selectInvariant lineNum depth seen st ->
             selectInvariant lineNum depth (seen ++ rest)
               (fold_left (selectStep lineNum depth) rest st)).
  { induction rest as [| d rest IH]; intros seen st Hinv; simpl.
    - now rewrite app_nil_r.
    - replace (seen ++ d :: rest)%list with ((seen ++ [d]) ++ rest)%list
        by (now rewrite <- app_assoc).
      apply IH. now apply selectStep_invariant. }
  apply (H decls [] (None, (-1)%Z)).
  unfold selectInvariant. simpl. split; [lia |]. split; [reflexivity |]. intros d [].
Qed.

(** A declaration the selection returns is in scope and is the deepest of
    the declarations in scope, the latest among the deepest. *)
Lemma selectDeclaration_some (decls : list VarDecl) (lineNum : nat) (depth : Z)
  (best : VarDecl) :
  selectDeclaration decls lineNum depth = Some best ->
  In best decls /\ inScope lineNum depth best = true
  /\ forall d, In d decls -> inScope lineNum depth d = true ->
               (vd_braceDepth d < vd_braceDepth best)%Z
               \/ (vd_braceDepth d = vd_braceDepth best /\ vd_line d <= vd_line best).
Proof.
  unfold selectDeclaration. intros H.
  pose proof (selectDeclaration_invariant lineNum depth decls) as [_ Hinv].
  rewrite H in Hinv. destruct Hinv as (Hin & Hs & _ & Hall). auto.
Qed.

(** The selection returns nothing exactly when every declaration in scope
    was recorded at a brace depth below [-1]. *)
Lemma selectDeclaration_none (decls : list VarDecl) (lineNum : nat) (depth : Z) :
  selectDeclaration decls lineNum depth = None <->
  forall d, In d decls -> inScope lineNum depth d = true -> (vd_braceDepth d < -1)%Z.
Proof.
  unfold selectDeclaration.
  pose proof (selectDeclaration_invariant lineNum depth decls) as [Hge Hinv].
  destruct (fst (fold_left (selectStep lineNum depth) decls (None, (-1)%Z))) as [b |] eqn:E.
  - destruct Hinv as (Hin & Hs & Hb & _). split; [discriminate |].
    intros Hall. specialize (Hall b Hin Hs). lia.
  - destruct Hinv as (_ & Hall). split; [intros _; exact Hall | reflexivity].
Qed.

Lemma nested_scopes_resolve :
  map (getVariableTypeAtPosition freshIndex nestedDocument "x") [0; 1; 2; 3; 4; 5; 6]
  = [ Some "Foo"; Some "Foo"; Some "Foo"; Some "Bar"; Some "Bar"; Some "Foo"; Some "Foo" ].
Proof. vm_compute. reflexivity. Qed.

(** C5 (the code departs from the specification): in [unbalancedDocument] the
    declaration [float3 x;] on line 2 is recorded at brace depth [-2]; at
    line 3 the brace depth is [-2] as well, so the declaration is on an
    earlier line and not deeper than the query line, and it is the only
    declaration of [x].  [getVariableTypeAtPosition] returns [null] all the
    same: the selection loop starts from [bestBraceDepth = -1] and never
    takes a declaration recorded below that depth. *)
Theorem C5_declaration_below_depth_minus_one_is_missed :
  let lines := JS.splitLines (doc_text unbalancedDocument) in
  let scan :=
    foldLines lines (declScanStep freshIndex) (mkDeclScan JsMap.empty JsMap.empty 0) in
  JsMap.get "x" (ds_declarations scan) = Some [mkVarDecl "float3" 2 (-2)]
  /\ braceDepthAt lines 3 = (-2)%Z
  /\ inScope 3 (-2) (mkVarDecl "float3" 2 (-2)) = true
  /\ selectDeclaration [mkVarDecl "float3" 2 (-2)] 3 (-2) = None
  /\ getVariableTypeAtPosition freshIndex unbalancedDocument "x" 3 = None.
Proof.
  vm_compute. repeat split; reflexivity.
Qed.

(** *** Swizzle accessors (C2) *)

(** The accessors [getSwizzleProperties] lists for [float3]: the
    arrangements of one to three distinct components, in either alphabet. *)
Lemma float3_swizzle_properties :
  getSwizzleProperties "float3"
  = [ "b"; "bg"; "bgr"; "br"; "brg"; "g"; "gb"; "gbr"; "gr"; "grb";
      "r"; "rb"; "rbg"; "rg"; "rgb";
      "x"; "xy"; "xyz"; "xz"; "xzy"; "y"; "yx"; "yxz"; "yz"; "yzx";
      "z"; "zx"; "zxy"; "zy"; "zyx" ].
Proof. vm_compute. reflexivity. Qed.

(** C2 (the code departs from the specification): in [swizzleDocument] the variable
    [v] has the inferred type [float3] on every line.  The completion path
    ([getSwizzleProperties]) lists [xyz], [rgb] and [xy] and leaves out
    [xyzw], [q] and [xx], as specified; the validation sweep, which
    tests the accessor against [/^[xyzwrgba]{1,4}$/] and reports nothing for
    a vector type when the test fails, publishes no diagnostic at all: the
    accesses [.xyzw], [.q] and [.xx] are not rejected. *)
Theorem C2_validation_rejects_no_vector_accessor :
  let info := extractDeclarations (doc_text swizzleDocument) in
  let env := buildScope (fst (validateDocument freshIndex swizzleDocument)) swizzleDocument info in
  map (fun i => getVariableTypeAtLine env "v" i 0) [1; 2; 3; 4; 5; 6]
  = [ Some "float3"; Some "float3"; Some "float3"; Some "float3"; Some "float3";
      Some "float3" ]
  /\ map (fun a => isOneOf a (getSwizzleProperties "float3"))
       [ "xyz"; "rgb"; "xy"; "xyzw"; "q"; "xx" ]
     = [ true; true; true; false; false; false ]
  /\ map (fun a => checkMemberOfType env 5 14 a "float3") [ "xyzw"; "q"; "xx" ]
     = [ []; []; [] ]
  /\ snd (validateDocument freshIndex swizzleDocument) = Published [].
Proof.
  vm_compute. repeat split; reflexivity.
Qed.

(** *** Struct member sets (C4) *)

Lemma has_cons {V : Type} (k k' : string) (v : V) (m : JsMap.t V) :
  JsMap.has k ((k', v) :: m) = String.eqb k k' || JsMap.has k m.
Proof.
  unfold JsMap.has. simpl. now destruct (String.eqb k k').
Qed.

Lemma memberOf_set (S m k : string) (members : JsSet.t) (table : JsMap.t JsSet.t) :
  memberOf S m (JsMap.set k members table)
  = if String.eqb S k then JsSet.has m members else memberOf S m table.
Proof.
  unfold memberOf. destruct (String.eqb S k) eqn:E.
  - apply String.eqb_eq in E. subst. now rewrite get_set_same.
  - apply String.eqb_neq in E. now rewrite get_set_other.
Qed.

(** Adding members to the set of [k] adds them to that set and changes no
    other. *)
Lemma memberOf_addMembers (S m k : string) (xs : list string) (table : JsMap.t JsSet.t) :
  memberOf S m (addMembers k xs table)
  = memberOf S m table || (String.eqb S k && existsb (String.eqb m) xs).
Proof.
  unfold addMembers. rewrite memberOf_set.
  destruct (String.eqb S k) eqn:E; simpl; [| now rewrite orb_false_r].
  apply String.eqb_eq in E. subst. rewrite has_addAll. unfold memberOf.
  now destruct (JsMap.get k table).
Qed.

Lemma memberOf_setIfAbsent_kept (S m k : string) (members : JsSet.t) (table : JsMap.t JsSet.t) :
  memberOf S m table = true -> memberOf S m (setIfAbsent k members table) = true.
Proof.
  unfold memberOf. intros H.
  destruct (JsMap.get S table) as [s |] eqn:E; [| discriminate].
  now rewrite (get_setIfAbsent_kept k S members s table E).
Qed.

Lemma structMembers_ingestStruct (decls : StructDecls) (st : Index) (entry : string * StructInfo)
  (S m : string) :
  memberOf S m (structMembers (ingestStruct decls st entry))
  = memberOf S m (structMembers st)
    || (String.eqb S (fst entry) && memberOf S m (sd_members decls)).
Proof.
  unfold ingestStruct. simpl. rewrite memberOf_addMembers.
  destruct (String.eqb S (fst entry)) eqn:E; simpl; [| reflexivity].
  apply String.eqb_eq in E. subst. unfold memberOf at 3.
  now destruct (JsMap.get (fst entry) (sd_members decls)).
Qed.

(** The member sets after the struct merge are the union of the sets before
    and the sets scanned: a name is a member of [S] afterwards exactly when
    it was one before or the scan found it in a declaration of [S]. *)
Lemma structMembers_ingestStructs (decls : StructDecls) (st : Index) (S m : string) :
  memberOf S m (structMembers (ingestStructs decls st))
  = memberOf S m (structMembers st)
    || (JsMap.has S (sd_structs decls) && memberOf S m (sd_members decls)).
Proof.
  unfold ingestStructs. generalize (sd_structs decls) as entries. intros entries. revert st.
  induction entries as [| [k info] entries IH]; intros st; simpl.
  - now rewrite orb_false_r.
  - rewrite IH, structMembers_ingestStruct, has_cons. simpl.
    destruct (memberOf S m (structMembers st)), (String.eqb S k),
      (JsMap.has S entries), (memberOf S m (sd_members decls)); reflexivity.
Qed.

Lemma structMembers_before_structs (h : Host) (f buf : string) (st : Index) :
  structMembers
    (ingestSrgs (extractSrgDeclarations h buf f)
       (ingestSrgSemantics (extractSrgSemantics buf f)
          (ingestAtomMethods (atom_methods (fst (extractAtomMethods h buf f
                 (ingestMacros (UriFile f) (extractMacrosWithComments buf)
                    (setIndexedSymbols
                       (JsSet.addAll (extractSymbolsFromText buf) (indexedSymbols st)) st)))))
             (snd (extractAtomMethods h buf f
                 (ingestMacros (UriFile f) (extractMacrosWithComments buf)
                    (setIndexedSymbols
                       (JsSet.addAll (extractSymbolsFromText buf) (indexedSymbols st)) st)))))))
  = structMembers st.
Proof.
  unfold ingestSrgs. simpl.
  generalize (srgInfo (extractSrgDeclarations h buf f)) as entries.
  intros entries.
  match goal with
  | |- structMembers (fold_left ?step entries ?init) = _ =>
      assert (H : forall l acc, structMembers (fold_left step l acc) = structMembers acc)
  end.
  { induction l as [| e l IH]; intros acc; simpl; [reflexivity | now rewrite IH]. }
  now rewrite H.
Qed.

(** Ingesting a corpus file never removes a recorded struct member. *)
Lemma structMembers_ingestFile_kept (h : Host) (f : string) (st : Index) (S m : string) :
  memberOf S m (structMembers st) = true ->
  memberOf S m (structMembers (ingestFile h f st)) = true.
Proof.
  intros H.
  destruct (readFileSync h f) as [buf |] eqn:Hread.
  - rewrite (ingestFile_unfold h f buf st Hread). cbv zeta.
    destruct (extractStructDeclarations buf f) as [structDecls |].
    + change (structMembers (ingestOptions ?d (ingestFunctions ?e ?s)))
        with (structMembers s).
      rewrite structMembers_ingestStructs, structMembers_before_structs, H. reflexivity.
    + now rewrite structMembers_before_structs.
  - unfold ingestFile. now rewrite Hread.
Qed.

(** Validating the open document never removes a recorded struct member. *)
Lemma structMembers_validateDocument_kept (st : Index) (document : Document) (S m : string) :
  memberOf S m (structMembers st) = true ->
  memberOf S m (structMembers (fst (validateDocument st document))) = true.
Proof.
  intros H. unfold validateDocument.
  destruct (negb (String.eqb (doc_languageId document) "azsl")); [exact H |].
  destruct (extractStructDeclarations _ _) as [decls |]; [| exact H].
  simpl. unfold ingestDocumentStructs.
  apply memberOf_setIfAbsent_kept, memberOf_setIfAbsent_kept.
  now rewrite structMembers_ingestStructs, H.
Qed.

(** C4: the member set recorded for a struct name only grows.  The struct
    merge of the corpus scan and of the open document yields the union of
    the recorded and the scanned members; ingesting a corpus file or
    validating a document keeps every recorded member; and a file that
    defines [S] with [a], [b] followed by a file or the open document that
    defines [S] with [b], [c] leaves [S] with exactly [a], [b], [c], in
    either order. *)
Theorem C4_struct_members_only_grow :
  (forall decls st S m,
      memberOf S m (structMembers (ingestStructs decls st))
      = memberOf S m (structMembers st)
        || (JsMap.has S (sd_structs decls) && memberOf S m (sd_members decls)))
  /\ (forall h f st S m,
        memberOf S m (structMembers st) = true ->
        memberOf S m (structMembers (ingestFile h f st)) = true)
  /\ (forall st document S m,
        memberOf S m (structMembers st) = true ->
        memberOf S m (structMembers (fst (validateDocument st document))) = true)
  /\ (let h := hostOf structCorpus in
      let abThenBc := ingestFile h "/gem/bc.azsli" (ingestFile h "/gem/ab.azsli" freshIndex) in
      let bcThenAb := ingestFile h "/gem/ab.azsli" (ingestFile h "/gem/bc.azsli" freshIndex) in
      let abThenDocument :=
        fst (validateDocument (ingestFile h "/gem/ab.azsli" freshIndex) structDocumentBC) in
      JsMap.get "S" (structMembers (ingestFile h "/gem/ab.azsli" freshIndex)) = Some ["a"; "b"]
      /\ JsMap.get "S" (structMembers abThenBc) = Some ["a"; "b"; "c"]
      /\ JsMap.get "S" (structMembers bcThenAb) = Some ["b"; "c"; "a"]
      /\ JsMap.get "S" (structMembers abThenDocument) = Some ["a"; "b"; "c"]
      /\ (forall m, memberOf "S" m (structMembers abThenBc)
                    = memberOf "S" m (structMembers bcThenAb))).
Proof.
  split; [exact structMembers_ingestStructs |].
  split; [exact structMembers_ingestFile_kept |].
  split; [exact structMembers_validateDocument_kept |].
  vm_compute. repeat split; try reflexivity.
  intros m.
  destruct m as [| c1 [| c2 m]]; try reflexivity;
    destruct c1 as [[] [] [] [] [] [] [] []]; try reflexivity;
    destruct c2 as [[] [] [] [] [] [] [] []]; reflexivity.
Qed.

Lemma C4_witness :
  let h := hostOf structCorpus in
  let st := ingestFile h "/gem/ab.azsli" freshIndex in
  memberOf "S" "a" (structMembers st) = true
  /\ memberOf "S" "a" (structMembers (ingestFile h "/gem/bc.azsli" st)) = true
  /\ memberOf "S" "a" (structMembers (fst (validateDocument st structDocumentBC))) = true.
Proof.
  intros h st.
  assert (H : memberOf "S" "a" (structMembers st) = true) by (vm_compute; reflexivity).
  split; [exact H |].
  split.
  - exact (proj1 (proj2 C4_struct_members_only_grow) h "/gem/bc.azsli" st "S" "a" H).
  - exact (proj1 (proj2 (proj2 C4_struct_members_only_grow)) st structDocumentBC "S" "a" H).
Defined.

(** *** Macro documentation (C6) *)

Lemma truthy_length (s : string) : JS.truthy s = true <-> 0 < String.length s.
Proof.
  destruct s; simpl; split; intros H; try reflexivity; try discriminate; lia.
Qed.

(** The merge condition holds exactly when the new documentation is
    strictly longer than the present one. *)
Lemma richerDoc_longer (newDoc : string) (existing : MacroEntry) :
  richerDoc newDoc existing = true
  <-> String.length (macro_doc existing) < String.length newDoc.
Proof.
  unfold richerDoc. rewrite andb_true_iff, orb_true_iff, negb_true_iff, Nat.ltb_lt.
  rewrite truthy_length. split.
  - intros [Hnew [Hold | Hlt]]; [| exact Hlt].
    destruct (macro_doc existing); [exact Hnew | discriminate].
  - intros Hlt. split; [lia | now right].
Qed.

Lemma Uri_eqb_eq (a b : Uri) : Uri_eqb a b = true <-> a = b.
Proof.
  destruct a, b; simpl; split; intros H; try discriminate;
    try (apply String.eqb_eq in H; now subst);
    try (injection H as ->; apply String.eqb_refl).
Qed.

(** Corpus scan, one definition: the entry of an indexed name is kept, or
    replaced by the new entry whose documentation is strictly longer. *)
Lemma mergeMacro_overwrites (uri : Uri) (d : MacroDef) (m : JsMap.t MacroEntry)
  (e : MacroEntry) :
  JsMap.get (def_name d) m = Some e ->
  (JsMap.get (def_name d) (mergeMacro uri d m) = Some e
   /\ String.length (def_doc d) <= String.length (macro_doc e))
  \/ (JsMap.get (def_name d) (mergeMacro uri d m) = Some (entryOf uri d)
      /\ String.length (macro_doc e) < String.length (def_doc d)).
Proof.
  intros H. unfold mergeMacro. rewrite H.
  destruct (richerDoc (def_doc d) e) eqn:E.
  - right. split; [apply get_set_same | now apply richerDoc_longer].
  - left. split; [exact H |].
    destruct (Nat.le_gt_cases (String.length (def_doc d)) (String.length (macro_doc e)))
      as [Hle | Hgt]; [exact Hle |].
    apply richerDoc_longer in Hgt. congruence.
Qed.

Lemma mergeMacro_new (uri : Uri) (d : MacroDef) (m : JsMap.t MacroEntry) :
  JsMap.get (def_name d) m = None ->
  JsMap.get (def_name d) (mergeMacro uri d m) = Some (entryOf uri d).
Proof.
  intros H. unfold mergeMacro. rewrite H. apply get_set_same.
Qed.

Lemma mergeMacro_other (uri : Uri) (d : MacroDef) (m : JsMap.t MacroEntry) (name : string) :
  name <> def_name d -> JsMap.get name (mergeMacro uri d m) = JsMap.get name m.
Proof.
  intros H. unfold mergeMacro.
  destruct (match JsMap.get (def_name d) m with
            | Some existing => richerDoc (def_doc d) existing
            | None => true
            end); [now apply get_set_other | reflexivity].
Qed.

(** Live-document scan, one definition: the entry of an indexed name is
    kept, or replaced because the new documentation is strictly longer or
    because the same document produced the present entry. *)
Lemma mergeDocumentMacro_overwrites (uri : Uri) (d : MacroDef) (m : JsMap.t MacroEntry)
  (e : MacroEntry) :
  JsMap.get (def_name d) m = Some e ->
  JsMap.get (def_name d) (mergeDocumentMacro uri d m) = Some e
  \/ (JsMap.get (def_name d) (mergeDocumentMacro uri d m) = Some (entryOf uri d)
      /\ (String.length (macro_doc e) < String.length (def_doc d) \/ macro_uri e = uri)).
Proof.
  intros H. unfold mergeDocumentMacro. rewrite H.
  destruct (Uri_eqb uri (macro_uri e)) eqn:Euri; simpl.
  - right. split; [apply get_set_same |]. right. symmetry. now apply Uri_eqb_eq.
  - destruct (richerDoc (def_doc d) e) eqn:E.
    + right. split; [apply get_set_same |]. left. now apply richerDoc_longer.
    + now left.
Qed.

(** The second loop of [indexShaderQualityMacros]: an indexed entry is
    replaced only when it has no documentation and the new one has some. *)
Lemma mergeGuardedQualityMacro_overwrites (uri : Uri) (name value doc : string) (line : nat)
  (m : JsMap.t MacroEntry) (e : MacroEntry) :
  JsMap.get name m = Some e ->
  JsMap.get name (mergeGuardedQualityMacro uri name value doc line m) = Some e
  \/ (JsMap.get name (mergeGuardedQualityMacro uri name value doc line m)
      = Some (mkMacroEntry value doc uri line)
      /\ String.length (macro_doc e) < String.length doc).
Proof.
  intros H. unfold mergeGuardedQualityMacro. rewrite H.
  destruct (JS.truthy doc && (String.length (macro_doc e) =? 0)) eqn:E.
  - right. split; [apply get_set_same |].
    apply andb_true_iff in E. destruct E as [Ht E0].
    apply truthy_length in Ht. apply Nat.eqb_eq in E0. lia.
  - now left.
Qed.

(** Corpus scan, all definitions of a file: the documentation of an indexed
    name never gets shorter, and the entry changes only to one with a
    strictly longer documentation. *)
Lemma ingestMacros_overwrites (uri : Uri) (defs : list MacroDef) (m : JsMap.t MacroEntry)
  (name : string) (e : MacroEntry) :
  JsMap.get name m = Some e ->
  exists e',
    JsMap.get name (fold_left (fun acc d => mergeMacro uri d acc) defs m) = Some e'
    /\ (e' = e \/ String.length (macro_doc e) < String.length (macro_doc e')).
Proof.
  revert m e. induction defs as [| d defs IH]; intros m e H; simpl.
  - exists e. split; [exact H | now left].
  - destruct (string_dec name (def_name d)) as [-> | Hne].
    + destruct (mergeMacro_overwrites uri d m e H) as [[Hkeep _] | [Hnew Hlt]].
      * exact (IH _ e Hkeep).
      * destruct (IH _ _ Hnew) as (e' & Hget & Hcmp). exists e'. split; [exact Hget |].
        right. destruct Hcmp as [-> | Hcmp]; simpl in *; lia.
    + apply IH. now rewrite mergeMacro_other.
Qed.

(** Two files that define the same macro, with documentations of different
    lengths: after both are ingested the index holds the longer one,
    whichever file comes first. *)
Lemma longer_doc_wins (uriA uriB : Uri) (dA dB : MacroDef) (m : JsMap.t MacroEntry) :
  def_name dA = def_name dB ->
  JsMap.get (def_name dA) m = None ->
  String.length (def_doc dA) < String.length (def_doc dB) ->
  JsMap.get (def_name dA) (mergeMacro uriB dB (mergeMacro uriA dA m)) = Some (entryOf uriB dB)
  /\ JsMap.get (def_name dA) (mergeMacro uriA dA (mergeMacro uriB dB m))
     = Some (entryOf uriB dB).
Proof.
  intros Hname Hnew Hlt. split.
  - pose proof (mergeMacro_new uriA dA m Hnew) as HA.
    rewrite Hname in HA |- *.
    destruct (mergeMacro_overwrites uriB dB _ _ HA) as [[_ Hle] | [Hget _]];
      [simpl in Hle; lia | exact Hget].
  - rewrite Hname in Hnew.
    pose proof (mergeMacro_new uriB dB m Hnew) as HB.
    rewrite <- Hname in HB.
    destruct (mergeMacro_overwrites uriA dA _ _ HB) as [[Hget _] | [_ Hlt']];
      [exact Hget | simpl in Hlt'; lia].
Qed.

(** C6: an indexed macro entry is overwritten during ingestion only by an
    entry with a strictly longer documentation, or, in the live-document
    scan, by the document that produced it.  Hence two files that document
    the same macro with texts of different lengths leave the longer text in
    the index whichever is ingested first; so do file A with its one-line
    trailing comment and file B with its three-line block comment. *)
Theorem C6_macro_entry_keeps_longer_doc :
  (forall uri d m e,
      JsMap.get (def_name d) m = Some e ->
      JsMap.get (def_name d) (mergeMacro uri d m) <> Some e ->
      String.length (macro_doc e) < String.length (def_doc d)
      /\ JsMap.get (def_name d) (mergeMacro uri d m) = Some (entryOf uri d))
  /\ (forall uri d m e,
        JsMap.get (def_name d) m = Some e ->
        JsMap.get (def_name d) (mergeDocumentMacro uri d m) <> Some e ->
        (String.length (macro_doc e) < String.length (def_doc d) \/ macro_uri e = uri)
        /\ JsMap.get (def_name d) (mergeDocumentMacro uri d m) = Some (entryOf uri d))
  /\ (forall uri defs st name e,
        JsMap.get name (macroIndex st) = Some e ->
        exists e',
          JsMap.get name (macroIndex (ingestMacros uri defs st)) = Some e'
          /\ (e' = e \/ String.length (macro_doc e) < String.length (macro_doc e')))
  /\ (forall uriA uriB dA dB m,
        def_name dA = def_name dB ->
        JsMap.get (def_name dA) m = None ->
        String.length (def_doc dA) < String.length (def_doc dB) ->
        JsMap.get (def_name dA) (mergeMacro uriB dB (mergeMacro uriA dA m))
        = Some (entryOf uriB dB)
        /\ JsMap.get (def_name dA) (mergeMacro uriA dA (mergeMacro uriB dB m))
           = Some (entryOf uriB dB))
  /\ (let h := hostOf macroCorpus in
      let aThenB := ingestFile h "/gem/b.azsli" (ingestFile h "/gem/a.azsli" freshIndex) in
      let bThenA := ingestFile h "/gem/a.azsli" (ingestFile h "/gem/b.azsli" freshIndex) in
      map def_doc (extractMacrosWithComments macroFileA) = ["lights"]
      /\ map def_doc (extractMacrosWithComments macroFileB) = [blockDoc]
      /\ JsMap.get "FOO" (macroIndex aThenB)
         = Some (mkMacroEntry "8" blockDoc (UriFile "/gem/b.azsli") 3)
      /\ JsMap.get "FOO" (macroIndex bThenA)
         = Some (mkMacroEntry "8" blockDoc (UriFile "/gem/b.azsli") 3)).
Proof.
  split.
  { intros uri d m e H Hchanged.
    destruct (mergeMacro_overwrites uri d m e H) as [[Hkeep _] | [Hnew Hlt]];
      [contradiction | now split]. }
  split.
  { intros uri d m e H Hchanged.
    destruct (mergeDocumentMacro_overwrites uri d m e H) as [Hkeep | [Hnew Hwhy]];
      [contradiction | now split]. }
  split.
  { intros uri defs st name e H. unfold ingestMacros. simpl.
    now apply ingestMacros_overwrites. }
  split; [exact longer_doc_wins |].
  vm_compute. repeat split; reflexivity.
Qed.

Lemma C6_witness :
  let dA := mkMacroDef "FOO" "4" 0 "lights" in
  let dB := mkMacroDef "FOO" "8" 3 blockDoc in
  let uriA := UriFile "/gem/a.azsli" in
  let uriB := UriFile "/gem/b.azsli" in
  let m := macroIndex freshIndex in
  def_name dA = def_name dB
  /\ JsMap.get (def_name dA) m = None
  /\ String.length (def_doc dA) < String.length (def_doc dB)
  /\ JsMap.get (def_name dA) (mergeMacro uriB dB (mergeMacro uriA dA m))
     = Some (entryOf uriB dB)
  /\ JsMap.get (def_name dA) (mergeMacro uriA dA (mergeMacro uriB dB m))
     = Some (entryOf uriB dB).
Proof.
  intros dA dB uriA uriB m.
  assert (H1 : def_name dA = def_name dB) by reflexivity.
  assert (H2 : JsMap.get (def_name dA) m = None) by reflexivity.
  assert (H3 : String.length (def_doc dA) < String.length (def_doc dB))
    by (vm_compute; lia).
  split; [exact H1 |]. split; [exact H2 |]. split; [exact H3 |].
  exact (proj1 (proj2 (proj2 (proj2 C6_macro_entry_keeps_longer_doc)))
           uriA uriB dA dB m H1 H2 H3).
Defined.

(** *** The diagnostics of a validation, by pass *)

(** A document that [validateDocument] validates to the end publishes the
    diagnostics of the option and SRG pass, of the sweep and of the last
    loop, in this order. *)
Lemma published_diagnostics (st : Index) (document : Document) (ds : list Diagnostic) :
  snd (validateDocument st document) = Published ds ->
  exists st' info,
    fst (validateDocument st document) = st'
    /\ optionIndex st' = optionIndex st
    /\ srgSemanticIndex st' = srgSemanticIndex st
    /\ doc_languageId document = "azsl"
    /\ ds = (optionDiagnostics st' (fileNameOf document) (JS.splitLines (doc_text document))
             ++ sweepDiagnostics (buildScope st' document info)
                  (initialDeclarations st' info
                     (env_pascalCaseTypes (buildScope st' document info)))
             ++ lastLoopDiagnostics (JS.splitLines (doc_text document)))%list.
Proof.
  unfold validateDocument.
  destruct (String.eqb (doc_languageId document) "azsl") eqn:Elang; simpl;
    [| discriminate].
  destruct (extractStructDeclarations _ _) as [decls |]; simpl; [| discriminate].
  intros H. injection H as <-.
  eexists. eexists. split; [reflexivity |].
  assert (Hfold : forall entries acc,
             optionIndex (fold_left (ingestStruct decls) entries acc) = optionIndex acc
             /\ srgSemanticIndex (fold_left (ingestStruct decls) entries acc)
                = srgSemanticIndex acc).
  { induction entries as [| e entries IH]; intros acc; simpl; [now split |].
    destruct (IH (ingestStruct decls acc e)) as [H1 H2]. now rewrite H1, H2. }
  destruct (Hfold (sd_structs decls) st) as [H1 H2].
  split; [exact H1 |]. split; [exact H2 |].
  split; [now apply String.eqb_eq |]. reflexivity.
Qed.

Lemma foldLinesFrom_collect (found : nat -> string -> list Diagnostic) (ls : list string)
  (i : nat) (acc : list Diagnostic) :
  foldLinesFrom i ls (fun i line acc => (acc ++ found i line)%list) acc
  = (acc ++ collectFrom i ls found)%list.
Proof.
  revert i acc. induction ls as [| l ls IH]; intros i acc; simpl.
  - now rewrite app_nil_r.
  - rewrite IH. now rewrite <- app_assoc.
Qed.

Lemma in_collectFrom (found : nat -> string -> list Diagnostic) (ls : list string) (i : nat)
  (d : Diagnostic) :
  In d (collectFrom i ls found)
  <-> exists k line, nth_error ls k = Some line /\ In d (found (i + k) line).
Proof.
  revert i. induction ls as [| l ls IH]; intros i; simpl.
  - split; [intros [] | intros (k & line & H & _); destruct k; discriminate].
  - rewrite in_app_iff, IH. split.
    + intros [H | (k & line & Hk & H)].
      * exists 0, l. rewrite Nat.add_0_r. now split.
      * exists (S k), line. rewrite Nat.add_succ_r. now split.
    + intros (k & line & Hk & H). destruct k as [| k]; simpl in Hk.
      * injection Hk as ->. rewrite Nat.add_0_r in H. now left.
      * right. exists k, line. rewrite Nat.add_succ_r in H. now split.
Qed.

Lemma lastLoopDiagnostics_collect (lines : list string) :
  lastLoopDiagnostics lines = collectFrom 0 lines (lastLoopStep lines).
Proof.
  unfold lastLoopDiagnostics, foldLines. now rewrite foldLinesFrom_collect.
Qed.

Ltac split_conditionals :=
  repeat match goal with
         | |- Forall _ [] => constructor
         | |- Forall _ (_ :: _) => constructor
         | |- Forall _ (_ ++ _)%list => apply Forall_app; split
         | |- Forall _ (if ?c then _ else _) => destruct c
         | |- Forall _ (match ?x with Some _ => _ | None => _ end) => destruct x
         end.

Ltac head_in_list := vm_compute; tauto.

Lemma checkMemberOfType_heads (env : Scope) (i pos : nat) (identifier varType : string) :
  Forall (fun d => In (messageHead d) sweepHeads)
    (checkMemberOfType env i pos identifier varType).
Proof.
  unfold checkMemberOfType. split_conditionals; unfold messageHead; simpl; tauto.
Qed.

Lemma checkMemberAccess_heads (env : Scope) (declarations : JsSet.t) (i pos : nat) (depth : Z)
  (line identifier beforeMatch : string) (ds : list Diagnostic) :
  checkMemberAccess env declarations i pos depth line identifier beforeMatch = Continue ds ->
  Forall (fun d => In (messageHead d) sweepHeads) ds.
Proof.
  unfold checkMemberAccess.
  destruct (checkSrgQualifier _ _ _ _ _ _) as [ds0 |] eqn:Eq.
  - intros H. injection H as <-. revert Eq. unfold checkSrgQualifier.
    destruct (Regex.exec reSrgQualifier _); [| discriminate].
    repeat match goal with
           | |- context [if ?c then _ else _] => destruct c
           end; intros H; try discriminate; injection H as <-;
      split_conditionals; unfold messageHead; simpl; tauto.
  - destruct (Regex.exec reSrgMemberAccess _) as [m |].
    + unfold checkSrgMemberAccess.
      repeat match goal with
             | |- context [if ?c then _ else _] => destruct c
             end; intros H; injection H as <-;
        try apply checkMemberOfType_heads;
        split_conditionals; unfold messageHead; simpl; tauto.
    + repeat match goal with
             | |- context [match ?x with Some _ => _ | None => _ end] => destruct x
             | |- context [if ?c then _ else _] => destruct c
             end; intros H; try discriminate; injection H as <-;
        try apply checkMemberOfType_heads; constructor.
Qed.

Lemma checkUndeclared_heads (env : Scope) (declarations : JsSet.t) (i pos : nat)
  (line identifier beforeMatch afterMatch : string) :
  Forall (fun d => In (messageHead d) sweepHeads)
    (checkUndeclared env declarations i pos line identifier beforeMatch afterMatch).
Proof.
  unfold checkUndeclared. split_conditionals. unfold messageHead; simpl; tauto.
Qed.

Lemma checkIdentifier_heads (env : Scope) (declarations : JsSet.t) (i : nat) (depth : Z)
  (line lineWithoutStrings : string) (m : Regex.rmatch) :
  Forall (fun d => In (messageHead d) sweepHeads)
    (checkIdentifier env declarations i depth line lineWithoutStrings m).
Proof.
  unfold checkIdentifier.
  destruct (isOneOf _ builtinIdentifiers); [constructor |].
  destruct (JsSet.has _ declarations); [constructor |].
  destruct (Regex.test reHasDot _ || Regex.test reHasScope _).
  - destruct (checkMemberAccess _ _ _ _ _ _ _ _) eqn:E.
    + exact (checkMemberAccess_heads _ _ _ _ _ _ _ _ _ E).
    + apply checkUndeclared_heads.
  - apply checkUndeclared_heads.
Qed.

Lemma Forall_flat_map {A B : Type} (P : B -> Prop) (f : A -> list B) (l : list A) :
  (forall x, Forall P (f x)) -> Forall P (flat_map f l).
Proof.
  intros H. induction l as [| x l IH]; simpl; [constructor |].
  apply Forall_app. split; [apply H | exact IH].
Qed.

Lemma sweepStep_heads (env : Scope) (i : nat) (line : string) (s : Sweep) :
  Forall (fun d => In (messageHead d) sweepHeads) (sw_diagnostics s) ->
  Forall (fun d => In (messageHead d) sweepHeads) (sw_diagnostics (sweepStep env i line s)).
Proof.
  intros H. unfold sweepStep.
  destruct (Regex.test reLineComment line || Regex.test reDirective line); [exact H |].
  simpl. apply Forall_app. split; [exact H |].
  apply Forall_app. split.
  - unfold syntaxDiagnostics, incompleteAccessDiagnostic.
    split_conditionals; unfold messageHead; simpl; tauto.
  - apply Forall_app. split.
    + unfold incompleteDeclarationDiagnostics.
      split_conditionals; unfold messageHead; simpl; tauto.
    + apply Forall_flat_map. intros m. apply checkIdentifier_heads.
Qed.

(** Every diagnostic of the sweep is a syntax error, a missing member, an
    invalid swizzle or an undeclared identifier. *)
Lemma sweepDiagnostics_heads (env : Scope) (declarations : JsSet.t) :
  Forall (fun d => In (messageHead d) sweepHeads) (sweepDiagnostics env declarations).
Proof.
  unfold sweepDiagnostics, foldLines.
  assert (H : forall ls i s,
             Forall (fun d => In (messageHead d) sweepHeads) (sw_diagnostics s) ->
             Forall (fun d => In (messageHead d) sweepHeads)
               (sw_diagnostics (foldLinesFrom i ls (sweepStep env) s))).
  { induction ls as [| l ls IH]; intros i s Hs; simpl; [exact Hs |].
    apply IH. now apply sweepStep_heads. }
  apply H. constructor.
Qed.

Lemma hd_of_head (d : Diagnostic) (message : string) (heads : list string) :
  In (messageHead d) heads -> ~ In (JS.take 3 message) heads -> diag_message d <> message.
Proof.
  intros Hin Hnot Heq. apply Hnot. unfold messageHead in Hin. now rewrite Heq in Hin.
Qed.

(** The diagnostics of the option and SRG loop are about semantics. *)
Lemma scanOptions_heads (st : Index) (fileName : string) (lines : list string) :
  Forall (fun d => messageHead d = "Dec") (os_diagnostics (scanOptions st fileName lines)).
Proof.
  unfold scanOptions, foldLines.
  assert (H : forall ls i s,
             Forall (fun d => messageHead d = "Dec") (os_diagnostics s) ->
             Forall (fun d => messageHead d = "Dec")
               (os_diagnostics (foldLinesFrom i ls (optionScanStep st) s))).
  { induction ls as [| l ls IH]; intros i s Hs; simpl; [exact Hs |].
    apply IH. unfold optionScanStep.
    destruct (stripComments _ l) as [inComment [processedLine |]]; [| exact Hs].
    destruct (negb (JS.truthy processedLine)); [exact Hs |].
    destruct (Regex.exec reSrgWithSemantic processedLine); [| exact Hs].
    simpl. destruct (negb (JsMap.has _ _)); [| exact Hs].
    apply Forall_app. split; [exact Hs |]. constructor; [reflexivity | constructor]. }
  apply H. constructor.
Qed.

(** The diagnostics of the last loop are incomplete accesses and stray
    punctuation. *)
Lemma lastLoopStep_heads (lines : list string) (i : nat) (line : string) :
  Forall (fun d => In (messageHead d) ["inc"; "syn"]) (lastLoopStep lines i line).
Proof.
  unfold lastLoopStep.
  destruct (Regex.test reLineComment line || Regex.test reDirective line); [constructor |].
  cbv zeta. unfold incompleteAtEnd, strayDiagnostics.
  repeat (apply Forall_app; split);
    try (apply Forall_forall; intros d Hd; apply in_map_iff in Hd;
         destruct Hd as (m & <- & _); unfold messageHead; simpl; tauto);
    split_conditionals; unfold messageHead; simpl; tauto.
Qed.

(** Every diagnostic of a step of the last loop lies on the line of the
    step. *)
Lemma lastLoopStep_line (lines : list string) (i : nat) (line : string) (d : Diagnostic) :
  In d (lastLoopStep lines i line) -> range_startLine (diag_range d) = i.
Proof.
  unfold lastLoopStep.
  destruct (Regex.test reLineComment line || Regex.test reDirective line); [intros [] |].
  cbv zeta. unfold incompleteAtEnd, strayDiagnostics.
  rewrite !in_app_iff.
  intros [H | [H | [H | [H | H]]]];
    try (apply in_map_iff in H; destruct H as (m & <- & _); reflexivity);
    revert H;
    repeat match goal with
           | |- context [match ?x with Some _ => _ | None => _ end] => destruct x
           | |- context [if ?c then _ else _] => destruct c
           end; simpl; intros H; try contradiction;
    destruct H as [<- | []]; reflexivity.
Qed.

(** *** Incomplete member access (C8) *)

Lemma optionDiagnostics_heads (st : Index) (fileName : string) (lines : list string) :
  Forall (fun d => In (messageHead d) ["Dec"; "If "]) (optionDiagnostics st fileName lines).
Proof.
  assert (H : Forall (fun d => In (messageHead d) ["Dec"; "If "])
                (os_diagnostics (scanOptions st fileName lines))).
  { eapply Forall_impl; [| apply scanOptions_heads]. intros d Hd. simpl. now left. }
  unfold optionDiagnostics.
  destruct (isAzslFile fileName && _ && _); [| exact H].
  apply Forall_app. split; [exact H |].
  constructor; [| constructor]. unfold messageHead. simpl. tauto.
Qed.

(** The last loop on the line [foo.]: the dot, at column 3, is reported
    when the line is the last or the next line looks like a declaration. *)
Lemma lastLoopStep_foo (lines : list string) (i : nat) :
  lastLoopStep lines i "foo."
  = match lineAt lines (S i) with
    | Some next =>
        if looksLikeDeclaration (JS.trim next)
        then [diagnosticAt i 3 4 incompleteMessage] else []
    | None => [diagnosticAt i 3 4 incompleteMessage]
    end.
Proof.
  unfold lastLoopStep, incompleteAtEnd.
  generalize (lineAt lines (S i)) as nextLine. intros [next |].
  - generalize (looksLikeDeclaration (JS.trim next)) as b. intros [|];
      vm_compute; reflexivity.
  - vm_compute. reflexivity.
Qed.

Lemma startsWith_prefix (p s : string) :
  JS.startsWith p s = true -> exists rest, s = p ++ rest.
Proof.
  revert s. induction p as [| a p IH]; intros s H; simpl in *.
  - now exists s.
  - destruct s as [| b s]; [discriminate |].
    apply andb_true_iff in H. destruct H as [Hab H].
    apply Ascii.eqb_eq in Hab. subst b.
    destruct (IH s H) as [rest ->]. now exists rest.
Qed.

Lemma trimEnd_cons (c : ascii) (s : string) :
  JS.isSpace c = false -> JS.trimEnd (String c s) = String c (JS.trimEnd s).
Proof.
  intros H. simpl. rewrite H. now destruct (JS.trimEnd s).
Qed.

(** A line that starts with [float] looks like a declaration, whatever
    follows. *)
Lemma float_looks_like_declaration (next : string) :
  JS.startsWith "float" next = true -> looksLikeDeclaration (JS.trim next) = true.
Proof.
  intros H. destruct (startsWith_prefix _ _ H) as [rest ->].
  unfold JS.trim. simpl JS.trimStart.
  change (JS.isSpace "f") with false. cbv iota.
  change ("float" ++ rest) with
    (String "f" (String "l" (String "o" (String "a" (String "t" rest))))).
  rewrite !trimEnd_cons by reflexivity.
  generalize (JS.trimEnd rest) as tail. intros tail.
  unfold looksLikeDeclaration. apply orb_true_iff. left.
  vm_compute. reflexivity.
Qed.

Lemma nth_error_middle {A : Type} (before after : list A) (x y : A) :
  nth_error (before ++ x :: y :: after) (List.length before) = Some x
  /\ nth_error (before ++ x :: y :: after) (S (List.length before)) = Some y.
Proof.
  induction before as [| b before IH]; simpl; [now split | exact IH].
Qed.

(** In a document that [validateDocument] validates to the end and that
    contains the line [foo.], the diagnostic [incomplete member access] is
    published on the dot of that line (column 3 to 4) whenever the next line
    starts with [float]; when the test of the last loop fails on the next
    line, no diagnostic with that message is published on that line. *)
Lemma incomplete_access_after_foo :
  forall (st : Index) (document : Document) (ds : list Diagnostic)
         (before after : list string) (next : string),
    snd (validateDocument st document) = Published ds ->
    JS.splitLines (doc_text document) = (before ++ "foo." :: next :: after)%list ->
    (JS.startsWith "float" next = true ->
       In (diagnosticAt (List.length before) 3 4 incompleteMessage) ds)
    /\ (looksLikeDeclaration (JS.trim next) = false ->
        forall d, In d ds -> diag_message d = incompleteMessage ->
                  range_startLine (diag_range d) <> List.length before).
Proof.
  intros st document ds before after next Hpub Hlines.
  destruct (published_diagnostics st document ds Hpub)
    as (st' & info & _ & _ & _ & _ & Hds).
  rewrite Hlines in Hds.
  destruct (nth_error_middle before after "foo." next) as [Hfoo Hnext].
  split.
  - intros Hfloat. rewrite Hds. apply in_or_app. right. apply in_or_app. right.
    rewrite lastLoopDiagnostics_collect. apply in_collectFrom.
    exists (List.length before), "foo.". split; [exact Hfoo |].
    rewrite lastLoopStep_foo. simpl Nat.add. unfold lineAt. rewrite Hnext.
    rewrite (float_looks_like_declaration next Hfloat). now left.
  - intros Hnot d Hd Hmsg Hline. rewrite Hds in Hd.
    apply in_app_or in Hd. destruct Hd as [Hd | Hd].
    { pose proof (optionDiagnostics_heads st' (fileNameOf document)
                    (before ++ "foo." :: next :: after)) as Hall.
      rewrite Forall_forall in Hall. specialize (Hall d Hd).
      unfold messageHead in Hall. rewrite Hmsg in Hall. simpl in Hall.
      destruct Hall as [H | [H | []]]; discriminate. }
    apply in_app_or in Hd. destruct Hd as [Hd | Hd].
    { pose proof (sweepDiagnostics_heads (buildScope st' document info)
                    (initialDeclarations st' info
                       (env_pascalCaseTypes (buildScope st' document info)))) as Hall.
      rewrite Forall_forall in Hall. specialize (Hall d Hd).
      unfold messageHead in Hall. rewrite Hmsg in Hall. simpl in Hall.
      destruct Hall as [H | [H | [H | [H | []]]]]; discriminate. }
    rewrite lastLoopDiagnostics_collect in Hd. apply in_collectFrom in Hd.
    destruct Hd as (k & line & Hk & Hd). simpl Nat.add in Hd.
    pose proof (lastLoopStep_line _ _ _ _ Hd) as Hat.
    rewrite Hline in Hat. subst k.
    rewrite Hfoo in Hk. injection Hk as <-.
    rewrite lastLoopStep_foo in Hd. unfold lineAt in Hd. rewrite Hnext, Hnot in Hd.
    exact Hd.
Qed.

(** C8 (the code departs from the specification): the line [foo.] followed
    by the lowercase continuation [interpolate(a);] gets the diagnostic
    [incomplete member access] on its dot, column 3 to 4.  The test of the
    next line, [/^(float|int|uint|...)/], has no word boundary after the
    keyword: it matches the first three letters of [interpolate], so the
    call is taken for a declaration; the second test of the same condition,
    [/^[A-Z][A-Za-z0-9_]*\s+[A-Za-z_]/], does delimit the type name and
    fails here.  On the two documents of the scenario the code does what the
    specification says: the dot is reported before [float x;] and not
    before [bar();] (the sweep reports [foo] itself in all three). *)
Theorem C8_lowercase_continuation_is_reported :
  looksLikeDeclaration (JS.trim "interpolate(a);") = true
  /\ Regex.test rePascalDeclarationStart "interpolate(a);" = false
  /\ option_map Regex.m_text (Regex.exec reDeclarationStart "interpolate(a);") = Some "int"
  /\ snd (validateDocument freshIndex incompleteBeforeInterpolate)
     = Published [ diagnosticAt 0 0 3 incompleteAccessMessage;
                   diagnosticAt 1 0 11 (undeclaredMessage "interpolate");
                   diagnosticAt 0 3 4 incompleteMessage ]
  /\ looksLikeDeclaration (JS.trim "bar();") = false
  /\ snd (validateDocument freshIndex incompleteBeforeCall)
     = Published [ diagnosticAt 0 0 3 incompleteAccessMessage;
                   diagnosticAt 1 0 3 (undeclaredMessage "bar") ]
  /\ snd (validateDocument freshIndex incompleteBeforeDeclaration)
     = Published [ diagnosticAt 0 0 3 incompleteAccessMessage;
                   diagnosticAt 0 3 4 incompleteMessage ].
Proof.
  vm_compute. repeat split; reflexivity.
Qed.

(** *** Member access on an operand of unknown type (C7) *)

Lemma execAt_unfold (r : Regex.re) (prev : option ascii) (s : string) (pos : nat) :
  Regex.execAt r prev s pos
  = match Regex.matchAt r prev s pos with
    | Some m => Some m
    | None =>
        match s with
        | String c s' => Regex.execAt r (Some c) s' (S pos)
        | EmptyString => None
        end
    end.
Proof. destruct s; reflexivity. Qed.



Lemma append_assoc (a b c : string) : (a ++ b) ++ c = a ++ (b ++ c).
Proof.
  induction a as [| x a IH]; simpl; [reflexivity | now rewrite IH].
Qed.







(** *** The fallback rule for non-static options (C1) *)

Lemma fallbackDiagnostics_app (a b : list Diagnostic) :
  fallbackDiagnostics (a ++ b) = (fallbackDiagnostics a ++ fallbackDiagnostics b)%list.
Proof. apply filter_app. Qed.

Lemma fallbackDiagnostics_heads (heads : list string) (ds : list Diagnostic) :
  ~ In "If " heads ->
  Forall (fun d => In (messageHead d) heads) ds -> fallbackDiagnostics ds = [].
Proof.
  intros Hnot H. unfold fallbackDiagnostics.
  induction H as [| d ds Hd _ IH]; simpl; [reflexivity |].
  unfold isFallbackDiagnostic at 1.
  destruct (String.eqb (diag_message d) fallbackMessage) eqn:E; [| exact IH].
  apply String.eqb_eq in E. exfalso. apply Hnot.
  unfold messageHead in Hd. now rewrite E in Hd.
Qed.

Lemma nonempty_filter {A : Type} (f : A -> bool) (g : A -> string) (l : list A) :
  (0 <? List.length (map g (filter f l))) = existsb f l.
Proof.
  induction l as [| x l IH]; simpl; [reflexivity |].
  destruct (f x); simpl; [reflexivity | exact IH].
Qed.

Lemma isOneOf_nonempty (x : string) (l : list string) :
  isOneOf x l = true -> (0 <? List.length l) = true.
Proof. destruct l; [discriminate | reflexivity]. Qed.

Lemma nonempty_app_singleton {A : Type} (l : list A) (x : A) :
  (0 <? List.length (l ++ [x])) = true.
Proof. destruct l; reflexivity. Qed.

(** What the option and SRG loop finds, in terms of the lines it reads: a
    non-static option when one was found before or a line declares an
    option and does not contain the text [static]; a fallback SRG when one
    was found before or a line declares one. *)
Lemma scanOptions_found (st : Index) (ls : list string) (i : nat) (s : OptionScan) :
  let final := foldLinesFrom i ls (optionScanStep st) s in
  let processed := map snd (processedLinesFrom (os_inMultiLineComment s) i ls) in
  (0 <? List.length (os_nonStaticOptions final))
  = (0 <? List.length (os_nonStaticOptions s))
    || existsb (fun p => declaresNonStaticOption p && negb (JS.includes p "static")) processed
  /\ os_hasShaderVariantFallback final
     = os_hasShaderVariantFallback s || existsb usesFallbackSemantic processed.
Proof.
  revert i s. induction ls as [| l ls IH]; intros i s; simpl.
  - now rewrite !orb_false_r.
  - specialize (IH (S i) (optionScanStep st i l s)).
    destruct IH as [IH1 IH2]. rewrite IH1, IH2. clear IH1 IH2.
    unfold optionScanStep.
    destruct (stripComments (os_inMultiLineComment s) l) as [inComment [p |]]; simpl;
      [| now split].
    destruct (JS.truthy p) eqn:Ht; simpl; [| now split].
    unfold declaresNonStaticOption, usesFallbackSemantic.
    destruct (Regex.exec reNonStaticOption p) as [om |];
      destruct (Regex.exec reSrgWithSemantic p) as [sm |]; simpl;
      try (destruct (JS.includes p "static"); simpl);
      try (destruct (isOneOf (Regex.grp 1 om) (os_nonStaticOptions s)) eqn:Eone; simpl);
      try rewrite nonempty_app_singleton;
      try rewrite (isOneOf_nonempty _ _ Eone);
      rewrite ?orb_assoc, ?orb_false_r, ?orb_true_r; simpl; now split.
Qed.

Lemma existsb_ext_in {A : Type} (f g : A -> bool) (l : list A) :
  (forall x, In x l -> f x = g x) -> existsb f l = existsb g l.
Proof.
  intros H. induction l as [| x l IH]; simpl; [reflexivity |].
  rewrite (H x (or_introl eq_refl)), IH; [reflexivity |].
  intros y Hy. apply H. now right.
Qed.

Lemma lastLoopDiagnostics_heads (lines : list string) :
  Forall (fun d => In (messageHead d) ["inc"; "syn"]) (lastLoopDiagnostics lines).
Proof.
  apply Forall_forall. intros d Hd.
  rewrite lastLoopDiagnostics_collect in Hd.
  apply in_collectFrom in Hd. destruct Hd as (k & line & _ & Hd).
  pose proof (lastLoopStep_heads lines (0 + k) line) as H.
  rewrite Forall_forall in H. now apply H.
Qed.

(** The fallback diagnostic can only come from the fallback rule, and the
    rule fires on the file name, the options found and the SRGs found. *)
Lemma fallbackDiagnostics_published (st : Index) (document : Document)
  (ds : list Diagnostic) :
  snd (validateDocument st document) = Published ds ->
  let lines := JS.splitLines (doc_text document) in
  let s := scanOptions (fst (validateDocument st document)) (fileNameOf document) lines in
  fallbackDiagnostics ds
  = if isAzslFile (fileNameOf document)
       && (0 <? List.length (os_nonStaticOptions s))
       && negb (os_hasShaderVariantFallback s)
    then [fallbackDiagnostic lines] else [].
Proof.
  intros H lines s.
  destruct (published_diagnostics st document ds H) as (st' & info & Hst & _ & _ & _ & Hds).
  subst s lines. rewrite Hst. rewrite Hds.
  rewrite !fallbackDiagnostics_app.
  rewrite (fallbackDiagnostics_heads sweepHeads (sweepDiagnostics _ _));
    [| vm_compute; intuition discriminate | apply sweepDiagnostics_heads].
  rewrite (fallbackDiagnostics_heads ["inc"; "syn"] (lastLoopDiagnostics _));
    [| vm_compute; intuition discriminate | apply lastLoopDiagnostics_heads].
  rewrite !app_nil_r.
  assert (Hscan : fallbackDiagnostics
                    (os_diagnostics (scanOptions st' (fileNameOf document)
                                       (JS.splitLines (doc_text document)))) = []).
  { apply (fallbackDiagnostics_heads ["Dec"]); [vm_compute; intuition discriminate |].
    eapply Forall_impl; [| apply scanOptions_heads]. intros d Hd. simpl. now left. }
  unfold optionDiagnostics.
  destruct (isAzslFile (fileNameOf document) && _ && _).
  - rewrite fallbackDiagnostics_app, Hscan. reflexivity.
  - exact Hscan.
Qed.

(** The rule fires exactly when it is required, as long as no line that
    declares an option contains the text [static]. *)
Lemma fallback_fires_when_required (st st' : Index) (document : Document) :
  optionIndex st' = optionIndex st ->
  let lines := JS.splitLines (doc_text document) in
  (forall p, In p (processedLines lines) -> declaresNonStaticOption p = true ->
             JS.includes p "static" = false) ->
  let s := scanOptions st' (fileNameOf document) lines in
  isAzslFile (fileNameOf document)
  && (0 <? List.length (os_nonStaticOptions s))
  && negb (os_hasShaderVariantFallback s)
  = fallbackRequired st document.
Proof.
  intros Hopt lines Hstatic s. subst s. unfold scanOptions, foldLines, fallbackRequired.
  match goal with
  | |- context [foldLinesFrom 0 lines (optionScanStep st') ?s0] =>
      destruct (scanOptions_found st' lines 0 s0) as [Hfound Hsrg]
  end.
  simpl in Hfound, Hsrg. rewrite Hfound, Hsrg. clear Hfound Hsrg.
  fold (processedLines lines). fold lines.
  rewrite (existsb_ext_in
             (fun p => declaresNonStaticOption p && negb (JS.includes p "static"))
             declaresNonStaticOption).
  2: { intros p Hp. destruct (declaresNonStaticOption p) eqn:E; [| reflexivity].
       now rewrite (Hstatic p Hp E). }
  destruct (isAzslFile (fileNameOf document)); simpl; [| reflexivity].
  unfold indexedNonStaticOptions, indexHasNonStaticOption.
  rewrite nonempty_filter, Hopt. reflexivity.
Qed.

(** C1, counterexample: a header [feature.azsli] declares the non-static
    option [o_useFeature] and no SRG at all, so the specification asks for the
    fallback diagnostic; validation publishes no diagnostic, because the
    rule is only checked in files whose name ends in [.azsl]. *)
Lemma C1_counterexample :
  let lines := JS.splitLines (doc_text optionHeader) in
  existsb declaresNonStaticOption (processedLines lines) = true
  /\ existsb usesFallbackSemantic (processedLines lines) = false
  /\ isAzslFile (fileNameOf optionHeader) = false
  /\ indexHasNonStaticOption freshIndex = false
  /\ snd (validateDocument freshIndex optionHeader) = Published [].
Proof. vm_compute. repeat split; reflexivity. Qed.

(** C1, as the code has it: in a published validation, the diagnostics with
    the message of the fallback rule are exactly one, the Error diagnostic
    on line 0 from column 0 to the end of the first line, when the file name
    ends in [.azsl] and not in [.azsli], a non-static option is in the index
    or declared on a line of the document, and no line of the document
    declares an SRG with one of the semantics SRG_PerDraw,
    SRG_PerPass_WithFallback or SRG_RayTracingGlobal; in every other case
    there is none, in particular for every document that declares such an
    SRG.  Lines that declare an option and contain the text [static] are
    left out.  On the shader that declares [option bool o_useFeature = true;]
    the diagnostic is the only one published, and adding the line
    [ShaderResourceGroup X : SRG_PerDraw {}] removes it. *)
Theorem C1_fallback_rule :
  forall (st : Index) (document : Document) (ds : list Diagnostic),
    let lines := JS.splitLines (doc_text document) in
    snd (validateDocument st document) = Published ds ->
    (forall p, In p (processedLines lines) -> declaresNonStaticOption p = true ->
               JS.includes p "static" = false) ->
    fallbackDiagnostics ds
    = (if fallbackRequired st document then [fallbackDiagnostic lines] else [])
    /\ range_startLine (diag_range (fallbackDiagnostic lines)) = 0
    /\ (existsb usesFallbackSemantic (processedLines lines) = true ->
        fallbackDiagnostics ds = [])
    /\ snd (validateDocument freshIndex optionShader)
       = Published [diagnosticAt 0 0 32 fallbackMessage]
    /\ snd (validateDocument freshIndex optionShaderWithSrg) = Published [].
Proof.
  intros st document ds lines Hpublished Hstatic. subst lines.
  assert (Hrule : fallbackDiagnostics ds
                  = if fallbackRequired st document
                    then [fallbackDiagnostic (JS.splitLines (doc_text document))] else []).
  { rewrite (fallbackDiagnostics_published st document ds Hpublished).
    destruct (published_diagnostics st document ds Hpublished)
      as (st' & info & Hst & Hopt & _ & _ & _).
    rewrite Hst.
    now rewrite (fallback_fires_when_required st st' document Hopt Hstatic). }
  split; [exact Hrule |]. split; [reflexivity |]. split.
  - intros Hsrg. rewrite Hrule. unfold fallbackRequired.
    rewrite Hsrg. now rewrite andb_false_r.
  - split; vm_compute; reflexivity.
Qed.

Lemma C1_witness :
  let lines := JS.splitLines (doc_text optionShader) in
  snd (validateDocument freshIndex optionShader)
  = Published [diagnosticAt 0 0 32 fallbackMessage]
  /\ (forall p, In p (processedLines lines) -> declaresNonStaticOption p = true ->
                JS.includes p "static" = false)
  /\ fallbackDiagnostics [diagnosticAt 0 0 32 fallbackMessage]
     = [fallbackDiagnostic lines].
Proof.
  intros lines.
  assert (Hpublished : snd (validateDocument freshIndex optionShader)
                       = Published [diagnosticAt 0 0 32 fallbackMessage])
    by (vm_compute; reflexivity).
  assert (Hstatic : forall p, In p (processedLines lines) ->
                      declaresNonStaticOption p = true -> JS.includes p "static" = false).
  { intros p Hp _. vm_compute in Hp. destruct Hp as [<- | []]. vm_compute. reflexivity. }
  split; [exact Hpublished |]. split; [exact Hstatic |].
  exact (proj1 (C1_fallback_rule freshIndex optionShader
                  [diagnosticAt 0 0 32 fallbackMessage] Hpublished Hstatic)).
Defined.

(* ===================================================================== *)
(** ** Further properties of the index *)
(* ===================================================================== *)

Lemma has_set_same {V : Type} (k : string) (v : V) (m : JsMap.t V) :
  JsMap.has k (JsMap.set k v m) = true.
Proof. unfold JsMap.has. now rewrite get_set_same. Qed.

Lemma has_set_kept {V : Type} (k k0 : string) (v : V) (m : JsMap.t V) :
  JsMap.has k0 m = true -> JsMap.has k0 (JsMap.set k v m) = true.
Proof.
  unfold JsMap.has. intros H.
  destruct (String.eqb k0 k) eqn:E.
  - apply String.eqb_eq in E. subst. now rewrite get_set_same.
  - rewrite get_set_other; [exact H |]. intros ->. now rewrite String.eqb_refl in E.
Qed.

Lemma has_setIfAbsent_kept {V : Type} (k k0 : string) (v : V) (m : JsMap.t V) :
  JsMap.has k0 m = true -> JsMap.has k0 (setIfAbsent k v m) = true.
Proof.
  intros H. unfold setIfAbsent. destruct (JsMap.has k m); [exact H |].
  now apply has_set_kept.
Qed.

Lemma has_setIfAbsent_same {V : Type} (k : string) (v : V) (m : JsMap.t V) :
  JsMap.has k (setIfAbsent k v m) = true.
Proof.
  unfold setIfAbsent. destruct (JsMap.has k m) eqn:E; [exact E | apply has_set_same].
Qed.

Lemma get_addAbsent_kept {V : Type} (entries : list (string * V)) (m : JsMap.t V)
  (k : string) (v : V) :
  JsMap.get k m = Some v -> JsMap.get k (addAbsent entries m) = Some v.
Proof.
  unfold addAbsent. revert m.
  induction entries as [| e entries IH]; intros m H; simpl; [exact H |].
  apply IH. now apply get_setIfAbsent_kept.
Qed.

Lemma has_addAbsent_kept {V : Type} (entries : list (string * V)) (m : JsMap.t V)
  (k : string) :
  JsMap.has k m = true -> JsMap.has k (addAbsent entries m) = true.
Proof.
  unfold addAbsent. revert m.
  induction entries as [| e entries IH]; intros m H; simpl; [exact H |].
  apply IH. now apply has_setIfAbsent_kept.
Qed.

Lemma addAbsent_app {V : Type} (a b : list (string * V)) (m : JsMap.t V) :
  addAbsent (a ++ b) m = addAbsent b (addAbsent a m).
Proof. unfold addAbsent. apply fold_left_app. Qed.

Lemma addAbsent_present {V : Type} (entries : list (string * V)) (m : JsMap.t V) :
  (forall e, In e entries -> JsMap.has (fst e) m = true) -> addAbsent entries m = m.
Proof.
  unfold addAbsent. induction entries as [| e entries IH]; intros H; simpl; [reflexivity |].
  unfold setIfAbsent at 2. rewrite (H e (or_introl eq_refl)).
  apply IH. intros e' He'. apply H. now right.
Qed.

Lemma has_addAbsent_entry {V : Type} (entries : list (string * V)) (m : JsMap.t V)
  (e : string * V) :
  In e entries -> JsMap.has (fst e) (addAbsent entries m) = true.
Proof.
  revert m. induction entries as [| e' entries IH]; intros m H; [destruct H |].
  destruct H as [-> | H]; simpl.
  - apply (has_addAbsent_kept entries). apply has_setIfAbsent_same.
  - now apply IH.
Qed.

(** Merging the same entries a second time changes nothing. *)
Lemma addAbsent_idempotent {V : Type} (entries : list (string * V)) (m : JsMap.t V) :
  addAbsent entries (addAbsent entries m) = addAbsent entries m.
Proof.
  apply addAbsent_present. intros e He. now apply has_addAbsent_entry.
Qed.

(** *** The steps of the per-file loop and the function table *)

Lemma setFunctionIndex_twice (F G : JsMap.t Position) (st : Index) :
  setFunctionIndex F (setFunctionIndex G st) = setFunctionIndex F st.
Proof. reflexivity. Qed.

Lemma ingestMacros_functions (uri : Uri) (defs : list MacroDef) (F : JsMap.t Position)
  (st : Index) :
  ingestMacros uri defs (setFunctionIndex F st) = setFunctionIndex F (ingestMacros uri defs st).
Proof. reflexivity. Qed.

Lemma ingestAtomMethods_functions (methods : list AtomMethod) (F : JsMap.t Position)
  (st : Index) :
  ingestAtomMethods methods (setFunctionIndex F st)
  = setFunctionIndex F (ingestAtomMethods methods st).
Proof. reflexivity. Qed.

Lemma ingestSrgSemantics_functions (decls : list SemanticDecl) (F : JsMap.t Position)
  (st : Index) :
  ingestSrgSemantics decls (setFunctionIndex F st)
  = setFunctionIndex F (ingestSrgSemantics decls st).
Proof. reflexivity. Qed.

Lemma ingestSrgs_functions (decls : SrgDecls) (F : JsMap.t Position) (st : Index) :
  ingestSrgs decls (setFunctionIndex F st) = setFunctionIndex F (ingestSrgs decls st).
Proof.
  unfold ingestSrgs.
  assert (H : forall l st,
             fold_left
               (fun acc entry =>
                  setSrgMembers
                    (addMembers (fst entry) (srg_members (snd entry)) (srgMembers acc))
                    (setSrgIndex
                       (setIfAbsent (fst entry)
                          (mkLocation (srg_uri (snd entry)) (srg_line (snd entry)))
                          (srgIndex acc)) acc))
               l (setFunctionIndex F st)
             = setFunctionIndex F
                 (fold_left
                    (fun acc entry =>
                       setSrgMembers
                         (addMembers (fst entry) (srg_members (snd entry)) (srgMembers acc))
                         (setSrgIndex
                            (setIfAbsent (fst entry)
                               (mkLocation (srg_uri (snd entry)) (srg_line (snd entry)))
                               (srgIndex acc)) acc))
                    l st)).
  { induction l as [| e l IH]; intros s; simpl; [reflexivity |]. now rewrite <- IH. }
  rewrite H. reflexivity.
Qed.

Lemma ingestStructs_functions (decls : StructDecls) (F : JsMap.t Position) (st : Index) :
  ingestStructs decls (setFunctionIndex F st) = setFunctionIndex F (ingestStructs decls st).
Proof.
  unfold ingestStructs. revert st.
  induction (sd_structs decls) as [| e l IH]; intros st; simpl; [reflexivity |].
  now rewrite <- IH.
Qed.

Lemma ingestFunctions_functions (decls : JsMap.t Position) (F : JsMap.t Position)
  (st : Index) :
  ingestFunctions decls (setFunctionIndex F st) = setFunctionIndex (addAbsent decls F) st.
Proof. reflexivity. Qed.

Lemma ingestFunctions_addAbsent (decls : JsMap.t Position) (st : Index) :
  ingestFunctions decls st = setFunctionIndex (addAbsent decls (functionIndex st)) st.
Proof. reflexivity. Qed.

Lemma ingestOptions_functions (decls : JsMap.t OptionDecl) (F : JsMap.t Position)
  (st : Index) :
  ingestOptions decls (setFunctionIndex F st) = setFunctionIndex F (ingestOptions decls st).
Proof. reflexivity. Qed.

Lemma recordPath_functions (h : Host) (root f : string) (F : JsMap.t Position) (st : Index) :
  recordPath h root f (setFunctionIndex F st) = setFunctionIndex F (recordPath h root f st).
Proof. reflexivity. Qed.

Lemma indexShaderQualityMacros_functions (h : Host) (F : JsMap.t Position) (st : Index) :
  indexShaderQualityMacros h (setFunctionIndex F st)
  = setFunctionIndex F (indexShaderQualityMacros h st).
Proof.
  unfold indexShaderQualityMacros.
  change (qualityMacroTarget (setFunctionIndex F st)) with (qualityMacroTarget st).
  destruct (qualityMacroTarget st); [| reflexivity].
  destruct (readFileSync h s); reflexivity.
Qed.

(** A file adds its functions to the function table where their names are
    absent; nothing else that it does reads that table. *)
Lemma ingestFile_functions (h : Host) (f : string) (F : JsMap.t Position) (st : Index) :
  ingestFile h f (setFunctionIndex F st)
  = setFunctionIndex (addAbsent (functionsOfFile h f) F) (ingestFile h f st).
Proof.
  unfold functionsOfFile.
  destruct (readFileSync h f) as [buf |] eqn:Hread.
  - rewrite !(ingestFile_unfold h f buf _ Hread). cbv zeta.
    change (indexedSymbols (setFunctionIndex F st)) with (indexedSymbols st).
    change (setIndexedSymbols ?v (setFunctionIndex F st))
      with (setFunctionIndex F (setIndexedSymbols v st)).
    rewrite ingestMacros_functions.
    set (st2 := ingestMacros (UriFile f) (extractMacrosWithComments buf)
                  (setIndexedSymbols
                     (JsSet.addAll (extractSymbolsFromText buf) (indexedSymbols st)) st)).
    change (fst (extractAtomMethods h buf f (setFunctionIndex F st2)))
      with (fst (extractAtomMethods h buf f st2)).
    change (snd (extractAtomMethods h buf f (setFunctionIndex F st2)))
      with (setFunctionIndex F (snd (extractAtomMethods h buf f st2))).
    rewrite ingestAtomMethods_functions, ingestSrgSemantics_functions, ingestSrgs_functions.
    destruct (extractStructDeclarations buf f) as [structDecls |].
    + rewrite ingestStructs_functions, ingestFunctions_functions, ingestOptions_functions.
      rewrite (ingestFunctions_addAbsent _ (ingestStructs _ _)).
      rewrite ingestOptions_functions, setFunctionIndex_twice. reflexivity.
    + reflexivity.
  - unfold ingestFile. rewrite Hread. reflexivity.
Qed.

Lemma ingestFiles_functions (h : Host) (root : string) (files : list string)
  (F : JsMap.t Position) (st : Index) :
  fold_left (fun acc f => recordPath h root f (ingestFile h f acc)) files
    (setFunctionIndex F st)
  = setFunctionIndex (addAbsent (flat_map (functionsOfFile h) files) F)
      (fold_left (fun acc f => recordPath h root f (ingestFile h f acc)) files st).
Proof.
  revert F st. induction files as [| f files IH]; intros F st; simpl; [reflexivity |].
  rewrite ingestFile_functions, recordPath_functions, IH, addAbsent_app. reflexivity.
Qed.

(** What a reindex does with the index it starts from: it keeps the function
    table and adds the functions of the corpus to it; everything else is
    built from the corpus. *)
Lemma indexHeaders_functions (h : Host) (rootPath : option string) (st : Index) :
  indexHeaders h rootPath st
  = setFunctionIndex (addAbsent (corpusFunctions h rootPath) (functionIndex st))
      (indexHeaders h rootPath initialIndex).
Proof.
  unfold indexHeaders, corpusFunctions.
  assert (Hseed : clearAndSeed st
                  = setFunctionIndex (functionIndex st) (clearAndSeed initialIndex))
    by reflexivity.
  destruct rootPath as [root |]; [| exact Hseed].
  destruct (negb (JS.truthy root) || negb (existsSync h root)); [exact Hseed |].
  rewrite Hseed, ingestFiles_functions, indexShaderQualityMacros_functions.
  reflexivity.
Qed.

(** X1: Every table except [functionIndex] is a function of the corpus alone:
    two runs of [indexHeaders] over the same files from different indexes
    agree on the other thirteen tables, and the function table of the result
    is the old one with the functions of the corpus added where their names
    were absent. *)
Theorem reindex_depends_on_corpus_only :
  forall (h : Host) (rootPath : option string) (st st' : Index),
    setFunctionIndex JsMap.empty (indexHeaders h rootPath st)
    = setFunctionIndex JsMap.empty (indexHeaders h rootPath st')
    /\ functionIndex (indexHeaders h rootPath st)
       = addAbsent (corpusFunctions h rootPath) (functionIndex st).
Proof.
  intros h rootPath st st'. split.
  - rewrite (indexHeaders_functions h rootPath st), (indexHeaders_functions h rootPath st').
    reflexivity.
  - rewrite (indexHeaders_functions h rootPath st). reflexivity.
Qed.

(** X2: Running [indexHeaders] a second time over the same files leaves the
    index exactly as the first run left it, the function table included. *)
Theorem reindex_is_idempotent :
  forall (h : Host) (rootPath : option string) (st : Index),
    indexHeaders h rootPath (indexHeaders h rootPath st) = indexHeaders h rootPath st.
Proof.
  intros h rootPath st.
  rewrite (indexHeaders_functions h rootPath (indexHeaders h rootPath st)).
  rewrite (indexHeaders_functions h rootPath st) at 1 2.
  change (functionIndex (setFunctionIndex ?F ?s)) with F.
  now rewrite addAbsent_idempotent.
Qed.

(** *** First declaration wins *)

Lemma ingestSrgs_shape (decls : SrgDecls) (st : Index) :
  exists a b c, ingestSrgs decls st = setSrgMemberIndex a (setSrgMembers b (setSrgIndex c st)).
Proof.
  unfold ingestSrgs.
  assert (H : forall l st,
             exists b c,
               fold_left
                 (fun acc entry =>
                    setSrgMembers
                      (addMembers (fst entry) (srg_members (snd entry)) (srgMembers acc))
                      (setSrgIndex
                         (setIfAbsent (fst entry)
                            (mkLocation (srg_uri (snd entry)) (srg_line (snd entry)))
                            (srgIndex acc)) acc))
                 l st
               = setSrgMembers b (setSrgIndex c st)).
  { induction l as [| e l IH]; intros s; simpl.
    - exists (srgMembers s), (srgIndex s). now destruct s.
    - destruct (IH (setSrgMembers
                      (addMembers (fst e) (srg_members (snd e)) (srgMembers s))
                      (setSrgIndex
                         (setIfAbsent (fst e)
                            (mkLocation (srg_uri (snd e)) (srg_line (snd e))) (srgIndex s)) s)))
        as (b & c & ->).
      exists b, c. reflexivity. }
  destruct (H (srgInfo decls) st) as (b & c & ->).
  eexists _, b, c. reflexivity.
Qed.

Lemma ingestStructs_shape (decls : StructDecls) (st : Index) :
  exists a b, ingestStructs decls st = setStructMembers a (setStructIndex b st).
Proof.
  unfold ingestStructs. revert st.
  induction (sd_structs decls) as [| e l IH]; intros st; simpl.
  - exists (structMembers st), (structIndex st). now destruct st.
  - destruct (IH (ingestStruct decls st e)) as (a & b & ->).
    exists a, b. reflexivity.
Qed.

Lemma get_structIndex_ingestStructs (decls : StructDecls) (st : Index) (name : string)
  (loc : Location) :
  JsMap.get name (structIndex st) = Some loc ->
  JsMap.get name (structIndex (ingestStructs decls st)) = Some loc.
Proof.
  unfold ingestStructs. revert st.
  induction (sd_structs decls) as [| e l IH]; intros st H; simpl; [exact H |].
  apply IH. simpl. now apply get_setIfAbsent_kept.
Qed.

Lemma get_srgIndex_ingestSrgs (decls : SrgDecls) (st : Index) (name : string)
  (loc : Location) :
  JsMap.get name (srgIndex st) = Some loc ->
  JsMap.get name (srgIndex (ingestSrgs decls st)) = Some loc.
Proof.
  unfold ingestSrgs. simpl. generalize (srgInfo decls). intros l. revert st.
  induction l as [| e l IH]; intros st H; simpl; [exact H |].
  apply IH. simpl. now apply get_setIfAbsent_kept.
Qed.

Lemma srgMemberIndex_srgLoop (l : list (string * SrgInfo)) (st : Index) :
  srgMemberIndex
    (fold_left
       (fun acc entry =>
          setSrgMembers (addMembers (fst entry) (srg_members (snd entry)) (srgMembers acc))
            (setSrgIndex
               (setIfAbsent (fst entry)
                  (mkLocation (srg_uri (snd entry)) (srg_line (snd entry))) (srgIndex acc))
               acc))
       l st)
  = srgMemberIndex st.
Proof.
  revert st. induction l as [| e l IH]; intros st; simpl; [reflexivity |]. now rewrite IH.
Qed.

Lemma get_srgMemberIndex_ingestSrgs (decls : SrgDecls) (st : Index) (name : string)
  (info : SrgMemberInfo) :
  JsMap.get name (srgMemberIndex st) = Some info ->
  JsMap.get name (srgMemberIndex (ingestSrgs decls st)) = Some info.
Proof.
  intros H. unfold ingestSrgs. simpl. rewrite srgMemberIndex_srgLoop.
  now apply (get_addAbsent_kept (memberLocations decls)).
Qed.

Lemma get_optionIndex_ingestOptions (decls : JsMap.t OptionDecl) (st : Index) (name : string)
  (entry : OptionEntry) :
  JsMap.get name (optionIndex st) = Some entry ->
  JsMap.get name (optionIndex (ingestOptions decls st)) = Some entry.
Proof.
  unfold ingestOptions. simpl. generalize (optionIndex st). clear st.
  induction decls as [| [k v] decls IH]; intros m H; simpl; [exact H |].
  apply IH. now apply get_setIfAbsent_kept.
Qed.

Ltac through_setters :=
  cbn [indexedSymbols headersPathIndex headersBasenameIndex macroIndex atomMethodIndex
       atomTypeMembers srgSemanticIndex srgMembers srgMemberIndex srgIndex structIndex
       structMembers functionIndex optionIndex
       ingestOptions ingestFunctions ingestSrgSemantics ingestAtomMethods ingestMacros
       extractAtomMethods recordPath seedKnownMembers snd fst
       setIndexedSymbols setHeadersPathIndex setHeadersBasenameIndex setMacroIndex
       setAtomMethodIndex setAtomTypeMembers setSrgSemanticIndex setSrgMembers
       setSrgMemberIndex setSrgIndex setStructIndex setStructMembers setFunctionIndex
       setOptionIndex].

(** X3: Within a run of [indexHeaders], the location recorded for a struct, an
    SRG, an SRG member, a function or an option is that of its first
    declaration: a file ingested later does not change it.  Validating a
    document does not change the location of an indexed struct either. *)
Theorem first_declaration_wins :
  forall (h : Host) (f : string) (st : Index) (name : string),
    (forall loc, JsMap.get name (structIndex st) = Some loc ->
                 JsMap.get name (structIndex (ingestFile h f st)) = Some loc)
    /\ (forall loc, JsMap.get name (srgIndex st) = Some loc ->
                    JsMap.get name (srgIndex (ingestFile h f st)) = Some loc)
    /\ (forall info, JsMap.get name (srgMemberIndex st) = Some info ->
                     JsMap.get name (srgMemberIndex (ingestFile h f st)) = Some info)
    /\ (forall pos, JsMap.get name (functionIndex st) = Some pos ->
                    JsMap.get name (functionIndex (ingestFile h f st)) = Some pos)
    /\ (forall entry, JsMap.get name (optionIndex st) = Some entry ->
                      JsMap.get name (optionIndex (ingestFile h f st)) = Some entry)
    /\ (forall document loc,
          JsMap.get name (structIndex st) = Some loc ->
          JsMap.get name (structIndex (fst (validateDocument st document))) = Some loc).
Proof.
  intros h f st name.
  assert (Hfile :
    (forall loc, JsMap.get name (structIndex st) = Some loc ->
                 JsMap.get name (structIndex (ingestFile h f st)) = Some loc)
    /\ (forall loc, JsMap.get name (srgIndex st) = Some loc ->
                    JsMap.get name (srgIndex (ingestFile h f st)) = Some loc)
    /\ (forall info, JsMap.get name (srgMemberIndex st) = Some info ->
                     JsMap.get name (srgMemberIndex (ingestFile h f st)) = Some info)
    /\ (forall entry, JsMap.get name (optionIndex st) = Some entry ->
                      JsMap.get name (optionIndex (ingestFile h f st)) = Some entry)).
  { destruct (readFileSync h f) as [buf |] eqn:Hread.
    2: { unfold ingestFile. rewrite Hread. repeat split; intros; assumption. }
    rewrite (ingestFile_unfold h f buf st Hread). cbv zeta.
    set (st5 := ingestSrgSemantics _ _).
    assert (H5 : structIndex st5 = structIndex st /\ srgIndex st5 = srgIndex st
                 /\ srgMemberIndex st5 = srgMemberIndex st
                 /\ optionIndex st5 = optionIndex st)
      by (subst st5; through_setters; repeat split; reflexivity).
    destruct H5 as (Hs5 & Hg5 & Hm5 & Ho5).
    destruct (ingestSrgs_shape (extractSrgDeclarations h buf f) st5) as (a & b & c & Hshape).
    assert (Hs6 : structIndex (ingestSrgs (extractSrgDeclarations h buf f) st5)
                  = structIndex st) by (rewrite Hshape; through_setters; exact Hs5).
    assert (Ho6 : optionIndex (ingestSrgs (extractSrgDeclarations h buf f) st5)
                  = optionIndex st) by (rewrite Hshape; through_setters; exact Ho5).
    assert (Hg6 : forall loc, JsMap.get name (srgIndex st) = Some loc ->
                    JsMap.get name (srgIndex (ingestSrgs (extractSrgDeclarations h buf f) st5))
                    = Some loc).
    { intros loc H. apply get_srgIndex_ingestSrgs. now rewrite Hg5. }
    assert (Hm6 : forall info, JsMap.get name (srgMemberIndex st) = Some info ->
                    JsMap.get name
                      (srgMemberIndex (ingestSrgs (extractSrgDeclarations h buf f) st5))
                    = Some info).
    { intros info H. apply get_srgMemberIndex_ingestSrgs. now rewrite Hm5. }
    clear Hshape. set (st6 := ingestSrgs _ st5) in *.
    destruct (extractStructDeclarations buf f) as [structDecls |].
    2: { repeat split; intros; [rewrite Hs6 | apply Hg6 | apply Hm6 | rewrite Ho6];
         assumption. }
    destruct (ingestStructs_shape structDecls st6) as (sm & si & Hshape).
    repeat split.
    - intros loc H. through_setters. apply get_structIndex_ingestStructs. now rewrite Hs6.
    - intros loc H. through_setters. rewrite Hshape. through_setters. now apply Hg6.
    - intros info H. through_setters. rewrite Hshape. through_setters. now apply Hm6.
    - intros entry H. apply get_optionIndex_ingestOptions. through_setters.
      rewrite Hshape. through_setters. now rewrite Ho6. }
  destruct Hfile as (Hs & Hg & Hm & Ho).
  split; [exact Hs |]. split; [exact Hg |]. split; [exact Hm |].
  split; [intros pos H; now apply get_ingestFile_kept |]. split; [exact Ho |].
  intros document loc H. unfold validateDocument.
  destruct (negb (String.eqb (doc_languageId document) "azsl")); [exact H |].
  destruct (extractStructDeclarations (doc_text document) (doc_fileName document))
    as [currentDocStructs |]; [| exact H].
  through_setters. unfold ingestDocumentStructs.
  now apply get_structIndex_ingestStructs.
Qed.

Lemma first_declaration_wins_witness :
  let h := hostOf structCorpus in
  let st := ingestFile h "/gem/ab.azsli" (clearAndSeed initialIndex) in
  JsMap.get "S" (structIndex st) = Some (mkLocation (UriFile "/gem/ab.azsli") 0)
  /\ JsMap.get "S" (structIndex (ingestFile h "/gem/bc.azsli" st))
     = Some (mkLocation (UriFile "/gem/ab.azsli") 0).
Proof.
  intros h st.
  assert (H : JsMap.get "S" (structIndex st) = Some (mkLocation (UriFile "/gem/ab.azsli") 0))
    by (vm_compute; reflexivity).
  split; [exact H |].
  exact (proj1 (first_declaration_wins h "/gem/bc.azsli" st "S") _ H).
Defined.

Lemma validateDocument_frame (st : Index) (document : Document) :
  let st' := fst (validateDocument st document) in
  indexedSymbols st' = indexedSymbols st
  /\ headersPathIndex st' = headersPathIndex st
  /\ headersBasenameIndex st' = headersBasenameIndex st
  /\ macroIndex st' = macroIndex st
  /\ atomMethodIndex st' = atomMethodIndex st
  /\ srgSemanticIndex st' = srgSemanticIndex st
  /\ srgMembers st' = srgMembers st
  /\ srgMemberIndex st' = srgMemberIndex st
  /\ srgIndex st' = srgIndex st
  /\ functionIndex st' = functionIndex st
  /\ optionIndex st' = optionIndex st.
Proof.
  unfold validateDocument.
  destruct (negb (String.eqb (doc_languageId document) "azsl"));
    [cbn [fst]; repeat split |].
  destruct (extractStructDeclarations (doc_text document) (doc_fileName document))
    as [currentDocStructs |]; [| cbn [fst]; repeat split].
  unfold ingestDocumentStructs.
  destruct (ingestStructs_shape currentDocStructs st) as (a & b & ->).
  through_setters. repeat split.
Qed.

(** X4: Validation writes to three tables only: [structIndex], [structMembers]
    and [atomTypeMembers].  The other eleven tables are after
    [validateDocument] what they were before it, for every document. *)
Theorem validation_writes_three_tables :
  forall (st : Index) (document : Document),
    let st' := fst (validateDocument st document) in
    indexedSymbols st' = indexedSymbols st
    /\ headersPathIndex st' = headersPathIndex st
    /\ headersBasenameIndex st' = headersBasenameIndex st
    /\ macroIndex st' = macroIndex st
    /\ atomMethodIndex st' = atomMethodIndex st
    /\ srgSemanticIndex st' = srgSemanticIndex st
    /\ srgMembers st' = srgMembers st
    /\ srgMemberIndex st' = srgMemberIndex st
    /\ srgIndex st' = srgIndex st
    /\ functionIndex st' = functionIndex st
    /\ optionIndex st' = optionIndex st.
Proof.
  intros st document. exact (validateDocument_frame st document).
Qed.

(** *** The built-in entries *)

Lemma holdsBuiltins_ext (a b : Index) :
  (forall k, JsMap.has k (srgSemanticIndex a) = true ->
             JsMap.has k (srgSemanticIndex b) = true) ->
  (forall S m, memberOf S m (atomTypeMembers a) = true ->
               memberOf S m (atomTypeMembers b) = true) ->
  holdsBuiltins a -> holdsBuiltins b.
Proof.
  intros Hsem Hmem (H1 & H2 & H3). repeat split.
  - eapply Forall_impl; [| exact H1]. intros k. apply Hsem.
  - eapply Forall_impl; [| exact H2]. intros m. apply Hmem.
  - eapply Forall_impl; [| exact H3]. intros m. apply Hmem.
Qed.

Lemma has_srgSemantics_kept (decls : list SemanticDecl) (m : JsMap.t Location) (k : string) :
  JsMap.has k m = true ->
  JsMap.has k
    (fold_left (fun m s => JsMap.set (sem_name s) (mkLocation (sem_uri s) (sem_line s)) m)
       decls m) = true.
Proof.
  revert m. induction decls as [| d decls IH]; intros m H; simpl; [exact H |].
  apply IH. now apply has_set_kept.
Qed.

Lemma memberOf_properties_kept (props : list (string * list string))
  (table : JsMap.t JsSet.t) (S m : string) :
  memberOf S m table = true ->
  memberOf S m (fold_left (fun t entry => addMembers (fst entry) (snd entry) t) props table)
  = true.
Proof.
  revert table. induction props as [| p props IH]; intros table H; simpl; [exact H |].
  apply IH. rewrite memberOf_addMembers, H. reflexivity.
Qed.

Lemma holdsBuiltins_ingestFile (h : Host) (f : string) (st : Index) :
  holdsBuiltins st -> holdsBuiltins (ingestFile h f st).
Proof.
  destruct (readFileSync h f) as [buf |] eqn:Hread.
  2: { unfold ingestFile. now rewrite Hread. }
  rewrite (ingestFile_unfold h f buf st Hread). cbv zeta.
  apply holdsBuiltins_ext.
  - intros k H.
    assert (H5 : JsMap.has k
                   (srgSemanticIndex
                      (ingestSrgSemantics (extractSrgSemantics buf f)
                         (ingestAtomMethods
                            (atom_methods (fst (extractAtomMethods h buf f
                               (ingestMacros (UriFile f) (extractMacrosWithComments buf)
                                  (setIndexedSymbols
                                     (JsSet.addAll (extractSymbolsFromText buf)
                                        (indexedSymbols st)) st)))))
                            (snd (extractAtomMethods h buf f
                               (ingestMacros (UriFile f) (extractMacrosWithComments buf)
                                  (setIndexedSymbols
                                     (JsSet.addAll (extractSymbolsFromText buf)
                                        (indexedSymbols st)) st))))))) = true).
    { through_setters. now apply has_srgSemantics_kept. }
    revert H5. set (st5 := ingestSrgSemantics _ _). intros H5.
    destruct (ingestSrgs_shape (extractSrgDeclarations h buf f) st5) as (a & b & c & ->).
    destruct (extractStructDeclarations buf f) as [structDecls |]; [| exact H5].
    through_setters.
    destruct (ingestStructs_shape structDecls
                (setSrgMemberIndex a (setSrgMembers b (setSrgIndex c st5)))) as (sm & si & ->).
    exact H5.
  - intros S m H.
    assert (H5 : memberOf S m
                   (atomTypeMembers
                      (ingestSrgSemantics (extractSrgSemantics buf f)
                         (ingestAtomMethods
                            (atom_methods (fst (extractAtomMethods h buf f
                               (ingestMacros (UriFile f) (extractMacrosWithComments buf)
                                  (setIndexedSymbols
                                     (JsSet.addAll (extractSymbolsFromText buf)
                                        (indexedSymbols st)) st)))))
                            (snd (extractAtomMethods h buf f
                               (ingestMacros (UriFile f) (extractMacrosWithComments buf)
                                  (setIndexedSymbols
                                     (JsSet.addAll (extractSymbolsFromText buf)
                                        (indexedSymbols st)) st))))))) = true).
    { through_setters. now apply memberOf_properties_kept. }
    revert H5. set (st5 := ingestSrgSemantics _ _). intros H5.
    destruct (ingestSrgs_shape (extractSrgDeclarations h buf f) st5) as (a & b & c & ->).
    destruct (extractStructDeclarations buf f) as [structDecls |]; [| exact H5].
    through_setters.
    destruct (ingestStructs_shape structDecls
                (setSrgMemberIndex a (setSrgMembers b (setSrgIndex c st5)))) as (sm & si & ->).
    exact H5.
Qed.

Lemma holdsBuiltins_indexHeaders (h : Host) (rootPath : option string) (st : Index) :
  holdsBuiltins (indexHeaders h rootPath st).
Proof.
  unfold indexHeaders.
  assert (H0 : holdsBuiltins (clearAndSeed st)).
  { unfold holdsBuiltins. repeat split; vm_compute; repeat constructor. }
  destruct rootPath as [root |]; [| exact H0].
  destruct (negb (JS.truthy root) || negb (existsSync h root)); [exact H0 |].
  assert (H1 : forall files acc,
             holdsBuiltins acc ->
             holdsBuiltins
               (fold_left (fun acc f => recordPath h root f (ingestFile h f acc)) files acc)).
  { induction files as [| f files IH]; intros acc Hacc; simpl; [exact Hacc |].
    apply IH. apply (holdsBuiltins_ingestFile h f) in Hacc.
    revert Hacc. apply holdsBuiltins_ext; intros; assumption. }
  specialize (H1 (walkDirCollect h root) _ H0).
  unfold indexShaderQualityMacros.
  destruct (qualityMacroTarget _); [| exact H1].
  destruct (readFileSync h _); exact H1.
Qed.

(** X5: Whatever the corpus and the index before, after [indexHeaders] every
    built-in SRG semantic is indexed and the Atom types [Surface] and
    [LightingData] have their baseline members: no file of the corpus removes
    them. *)
Theorem builtins_survive_reindex :
  forall (h : Host) (rootPath : option string) (st : Index),
    let st' := indexHeaders h rootPath st in
    Forall (fun semantic => JsMap.has semantic (srgSemanticIndex st') = true)
      builtinSrgSemantics
    /\ Forall (fun m => memberOf "Surface" m (atomTypeMembers st') = true) surfaceBaseline
    /\ Forall (fun m => memberOf "LightingData" m (atomTypeMembers st') = true)
         lightingDataBaseline.
Proof.
  intros h rootPath st. exact (holdsBuiltins_indexHeaders h rootPath st).
Qed.

Lemma setIfAbsent_present {V : Type} (k : string) (v : V) (m : JsMap.t V) :
  JsMap.has k m = true -> setIfAbsent k v m = m.
Proof. intros H. unfold setIfAbsent. now rewrite H. Qed.

(** X6: Once [indexHeaders] has run, [validateDocument] never installs its own
    member lists for [Surface] and [LightingData]: both keys are present, so
    the member sets that completion and validation read for these types are
    those of the index, for every document. *)
Theorem validation_keeps_indexed_atom_members :
  forall (h : Host) (rootPath : option string) (st0 : Index) (document : Document),
    let st := indexHeaders h rootPath st0 in
    let st' := fst (validateDocument st document) in
    JsMap.get "Surface" (atomTypeMembers st') = JsMap.get "Surface" (atomTypeMembers st)
    /\ JsMap.get "LightingData" (atomTypeMembers st')
       = JsMap.get "LightingData" (atomTypeMembers st)
    /\ JsMap.has "Surface" (atomTypeMembers st) = true
    /\ JsMap.has "LightingData" (atomTypeMembers st) = true.
Proof.
  intros h rootPath st0 document st st'.
  destruct (holdsBuiltins_indexHeaders h rootPath st0) as (_ & Hs & Hl).
  fold st in Hs, Hl.
  assert (HS : JsMap.has "Surface" (atomTypeMembers st) = true).
  { inversion Hs as [| x l Hx _]. unfold memberOf in Hx. unfold JsMap.has.
    now destruct (JsMap.get "Surface" (atomTypeMembers st)). }
  assert (HL : JsMap.has "LightingData" (atomTypeMembers st) = true).
  { inversion Hl as [| x l Hx _]. unfold memberOf in Hx. unfold JsMap.has.
    now destruct (JsMap.get "LightingData" (atomTypeMembers st)). }
  subst st'. unfold validateDocument.
  destruct (negb (String.eqb (doc_languageId document) "azsl")); [cbn [fst]; tauto |].
  destruct (extractStructDeclarations (doc_text document) (doc_fileName document))
    as [currentDocStructs |]; [| cbn [fst]; tauto].
  unfold ingestDocumentStructs.
  destruct (ingestStructs_shape currentDocStructs st) as (a & b & ->).
  through_setters.
  rewrite (setIfAbsent_present "Surface" _ _ HS).
  rewrite (setIfAbsent_present "LightingData" _ _ HL).
  assert (Hne1 : forall k v, k <> "ForwardPassOutput" ->
             JsMap.get k (setIfAbsent "ForwardPassOutput" v (atomTypeMembers st))
             = JsMap.get k (atomTypeMembers st)).
  { intros k v Hk. unfold setIfAbsent.
    destruct (JsMap.has "ForwardPassOutput" (atomTypeMembers st)); [reflexivity |].
    now apply get_set_other. }
  rewrite !Hne1 by discriminate. tauto.
Qed.
(* ===================================================================== *)
(** ** Further properties of the validation *)
(* ===================================================================== *)

Lemma onLine_diagnosticAt (i : nat) (a b : Z) (message : string) :
  onLine i (diagnosticAt i a b message).
Proof. split; reflexivity. Qed.

Lemma onLine_diagnosticOn (i pos : nat) (identifier message : string) :
  onLine i (diagnosticOn i pos identifier message).
Proof. split; reflexivity. Qed.

Ltac on_line :=
  split_conditionals;
  first [apply onLine_diagnosticOn | apply onLine_diagnosticAt].

Lemma checkMemberOfType_onLine (env : Scope) (i pos : nat) (identifier varType : string) :
  Forall (onLine i) (checkMemberOfType env i pos identifier varType).
Proof. unfold checkMemberOfType. on_line. Qed.

Lemma checkMemberAccess_onLine (env : Scope) (declarations : JsSet.t) (i pos : nat)
  (depth : Z) (line identifier beforeMatch : string) (ds : list Diagnostic) :
  checkMemberAccess env declarations i pos depth line identifier beforeMatch = Continue ds ->
  Forall (onLine i) ds.
Proof.
  unfold checkMemberAccess.
  destruct (checkSrgQualifier _ _ _ _ _ _) as [ds0 |] eqn:Eq.
  - intros H. injection H as <-. revert Eq. unfold checkSrgQualifier.
    destruct (Regex.exec reSrgQualifier _); [| discriminate].
    repeat match goal with
           | |- context [if ?c then _ else _] => destruct c
           end; intros H; try discriminate; injection H as <-; on_line.
  - destruct (Regex.exec reSrgMemberAccess _) as [m |].
    + unfold checkSrgMemberAccess.
      repeat match goal with
             | |- context [if ?c then _ else _] => destruct c
             end; intros H; injection H as <-;
        try apply checkMemberOfType_onLine; on_line.
    + repeat match goal with
             | |- context [match ?x with Some _ => _ | None => _ end] => destruct x
             | |- context [if ?c then _ else _] => destruct c
             end; intros H; try discriminate; injection H as <-;
        try apply checkMemberOfType_onLine; constructor.
Qed.

Lemma checkUndeclared_onLine (env : Scope) (declarations : JsSet.t) (i pos : nat)
  (line identifier beforeMatch afterMatch : string) :
  Forall (onLine i)
    (checkUndeclared env declarations i pos line identifier beforeMatch afterMatch).
Proof. unfold checkUndeclared. on_line. Qed.

Lemma checkIdentifier_onLine (env : Scope) (declarations : JsSet.t) (i : nat) (depth : Z)
  (line lineWithoutStrings : string) (m : Regex.rmatch) :
  Forall (onLine i) (checkIdentifier env declarations i depth line lineWithoutStrings m).
Proof.
  unfold checkIdentifier.
  destruct (isOneOf _ builtinIdentifiers); [constructor |].
  destruct (JsSet.has _ declarations); [constructor |].
  destruct (Regex.test reHasDot _ || Regex.test reHasScope _).
  - destruct (checkMemberAccess _ _ _ _ _ _ _ _) eqn:E.
    + exact (checkMemberAccess_onLine _ _ _ _ _ _ _ _ _ E).
    + apply checkUndeclared_onLine.
  - apply checkUndeclared_onLine.
Qed.

Lemma sweepStep_diagnostics (env : Scope) (i : nat) (line : string) (s : Sweep) :
  sw_diagnostics (sweepStep env i line s)
  = (sw_diagnostics s ++ sweepFound env i line s)%list.
Proof.
  unfold sweepFound, sweepStep.
  destruct (Regex.test reLineComment line || Regex.test reDirective line); cbn [sw_diagnostics].
  - now rewrite skipn_all, app_nil_r.
  - rewrite skipn_app, skipn_all, Nat.sub_diag. reflexivity.
Qed.

Lemma sweepFound_skipped (env : Scope) (i : nat) (line : string) (s : Sweep) :
  isCommentOrDirective line = true -> sweepFound env i line s = [].
Proof.
  unfold isCommentOrDirective, sweepFound, sweepStep. intros ->.
  cbn [sw_diagnostics]. apply skipn_all.
Qed.

Lemma sweepFound_onLine (env : Scope) (i : nat) (line : string) (s : Sweep) :
  Forall (onLine i) (sweepFound env i line s).
Proof.
  unfold sweepFound, sweepStep.
  destruct (Regex.test reLineComment line || Regex.test reDirective line); cbn [sw_diagnostics].
  - rewrite skipn_all. constructor.
  - rewrite skipn_app, skipn_all, Nat.sub_diag. cbn [skipn app].
    apply Forall_app. split.
    + unfold syntaxDiagnostics, incompleteAccessDiagnostic. on_line.
    + apply Forall_app. split.
      * unfold incompleteDeclarationDiagnostics. on_line.
      * apply Forall_flat_map. intros m. apply checkIdentifier_onLine.
Qed.

(** Every diagnostic of the sweep was found in a step on some line of the
    document. *)
Lemma sweepDiagnostics_found (env : Scope) (declarations : JsSet.t) (d : Diagnostic) :
  In d (sweepDiagnostics env declarations) ->
  exists i line s,
    nth_error (env_lines env) i = Some line
    /\ (forall x, JsSet.has x declarations = true -> JsSet.has x (sw_declarations s) = true)
    /\ In d (sweepFound env i line s).
Proof.
  unfold sweepDiagnostics, foldLines.
  assert (H : forall ls pre s,
             env_lines env = (pre ++ ls)%list ->
             (forall x, JsSet.has x declarations = true ->
                        JsSet.has x (sw_declarations s) = true) ->
             In d (sw_diagnostics (foldLinesFrom (List.length pre) ls (sweepStep env) s)) ->
             In d (sw_diagnostics s)
             \/ exists i line s',
                  nth_error (env_lines env) i = Some line
                  /\ (forall x, JsSet.has x declarations = true ->
                                JsSet.has x (sw_declarations s') = true)
                  /\ In d (sweepFound env i line s')).
  { induction ls as [| l ls IH]; intros pre s Hlines Hdecl Hd; simpl in Hd; [now left |].
    specialize (IH (pre ++ [l])%list (sweepStep env (List.length pre) l s)).
    rewrite length_app, Nat.add_1_r in IH.
    destruct IH as [Hin | Hex].
    - now rewrite <- app_assoc.
    - intros x Hx. specialize (Hdecl x Hx). unfold sweepStep.
      destruct (Regex.test reLineComment l || Regex.test reDirective l);
        cbn [sw_declarations]; [exact Hdecl |].
      destruct (contextAt _ _); [| exact Hdecl].
      destruct (JsMap.get _ _); [| exact Hdecl].
      rewrite has_addAll, Hdecl. reflexivity.
    - exact Hd.
    - rewrite sweepStep_diagnostics in Hin. apply in_app_or in Hin.
      destruct Hin as [Hin | Hin]; [now left |].
      right. exists (List.length pre), l, s. split; [| now split].
      rewrite Hlines, nth_error_app2, Nat.sub_diag; [reflexivity | lia].
    - now right. }
  intros Hd.
  destruct (H (env_lines env) [] (mkSweep 0 false declarations []) eq_refl
              (fun x Hx => Hx) Hd) as [[] | Hex].
  exact Hex.
Qed.

Lemma splitLines_nonempty (s : string) : exists l ls, JS.splitLines s = l :: ls.
Proof.
  destruct s as [| c s']; [now exists "", [] |].
  cbn [JS.splitLines].
  destruct (Ascii.eqb c JS.lf); [now eexists _, _ |].
  destruct s' as [| d s'']; [now eexists _, _ |].
  destruct (Ascii.eqb c JS.cr && Ascii.eqb d JS.lf); [now eexists _, _ |].
  destruct (JS.splitLines (String d s'')); now eexists _, _.
Qed.

(** Every diagnostic of the option and SRG loop spans a line of the document
    whose text without comments declares an SRG with a semantic that is not
    in [srgSemanticIndex]. *)
Lemma scanOptions_found_semantic (st : Index) (fileName : string) (lines : list string)
  (d : Diagnostic) :
  In d (os_diagnostics (scanOptions st fileName lines)) ->
  exists i line inComment processedLine m,
    nth_error lines i = Some line
    /\ snd (stripComments inComment line) = Some processedLine
    /\ Regex.exec reSrgWithSemantic processedLine = Some m
    /\ JsMap.has (Regex.grp 2 m) (srgSemanticIndex st) = false
    /\ d = diagnosticAt i 0 (JS.len line)
             (semanticMessage (Regex.grp 2 m) (Regex.grp 1 m)).
Proof.
  unfold scanOptions, foldLines.
  remember (mkOptionScan false
              (if isAzslFile fileName then indexedNonStaticOptions st else []) false [])
    as s0 eqn:Hs0.
  assert (H : forall ls pre s,
             lines = (pre ++ ls)%list ->
             In d (os_diagnostics
                     (foldLinesFrom (List.length pre) ls (optionScanStep st) s)) ->
             In d (os_diagnostics s)
             \/ exists i line inComment processedLine m,
                  nth_error lines i = Some line
                  /\ snd (stripComments inComment line) = Some processedLine
                  /\ Regex.exec reSrgWithSemantic processedLine = Some m
                  /\ JsMap.has (Regex.grp 2 m) (srgSemanticIndex st) = false
                  /\ d = diagnosticAt i 0 (JS.len line)
                           (semanticMessage (Regex.grp 2 m) (Regex.grp 1 m))).
  { induction ls as [| l ls IH]; intros pre s Hlines Hd; simpl in Hd; [now left |].
    specialize (IH (pre ++ [l])%list (optionScanStep st (List.length pre) l s)).
    rewrite length_app, Nat.add_1_r in IH.
    destruct IH as [Hin | Hex]; [now rewrite <- app_assoc | exact Hd | | now right].
    revert Hin. unfold optionScanStep.
    destruct (stripComments _ l) as [inComment [processedLine |]] eqn:Es; [| now left].
    destruct (negb (JS.truthy processedLine)); [now left |].
    destruct (Regex.exec reSrgWithSemantic processedLine) as [m |] eqn:Em; [| now left].
    cbn [os_diagnostics].
    destruct (JsMap.has (Regex.grp 2 m) (srgSemanticIndex st)) eqn:Ehas; cbn [negb];
      [now left |].
    intros Hin. apply in_app_or in Hin. destruct Hin as [Hin | [<- | []]]; [now left |].
    right. exists (List.length pre), l, (os_inMultiLineComment s), processedLine, m.
    repeat split; try assumption.
    - rewrite Hlines, nth_error_app2, Nat.sub_diag; [reflexivity | lia].
    - now rewrite Es. }
  intros Hd. destruct (H lines [] s0 eq_refl Hd) as [Hin | Hex]; [| exact Hex].
  subst s0. destruct Hin.
Qed.

Lemma lastLoopStep_onLine (lines : list string) (i : nat) (line : string) :
  Forall (onLine i) (lastLoopStep lines i line).
Proof.
  unfold lastLoopStep.
  destruct (Regex.test reLineComment line || Regex.test reDirective line); [constructor |].
  cbv zeta. unfold incompleteAtEnd, strayDiagnostics.
  repeat (apply Forall_app; split);
    try (apply Forall_forall; intros d Hd; apply in_map_iff in Hd;
         destruct Hd as (m & <- & _); apply onLine_diagnosticAt);
    on_line.
Qed.

Lemma lastLoopStep_skipped (lines : list string) (i : nat) (line : string) :
  isCommentOrDirective line = true -> lastLoopStep lines i line = [].
Proof. unfold isCommentOrDirective, lastLoopStep. now intros ->. Qed.

(** The diagnostics that [validateDocument] publishes, with the declarations
    of the document named. *)
Lemma published_from_passes (st : Index) (document : Document) (ds : list Diagnostic) :
  snd (validateDocument st document) = Published ds ->
  let st' := fst (validateDocument st document) in
  let info := extractDeclarations (doc_text document) in
  let env := buildScope st' document info in
  ds = (optionDiagnostics st' (fileNameOf document) (JS.splitLines (doc_text document))
        ++ sweepDiagnostics env (initialDeclarations st' info (env_pascalCaseTypes env))
        ++ lastLoopDiagnostics (JS.splitLines (doc_text document)))%list.
Proof.
  unfold validateDocument.
  destruct (negb (String.eqb (doc_languageId document) "azsl")); [discriminate |].
  destruct (extractStructDeclarations _ _) as [decls |]; [| discriminate].
  cbn [fst snd]. intros H. injection H as <-. reflexivity.
Qed.

(** Where a published diagnostic comes from: the option and SRG loop, the
    fallback rule, a step of the sweep or a step of the last loop. *)
Lemma published_origin (st : Index) (document : Document) (ds : list Diagnostic)
  (d : Diagnostic) :
  snd (validateDocument st document) = Published ds ->
  In d ds ->
  let st' := fst (validateDocument st document) in
  let lines := JS.splitLines (doc_text document) in
  let info := extractDeclarations (doc_text document) in
  let env := buildScope st' document info in
  let declarations := initialDeclarations st' info (env_pascalCaseTypes env) in
  In d (os_diagnostics (scanOptions st' (fileNameOf document) lines))
  \/ d = fallbackDiagnostic lines
  \/ (exists i line s,
        nth_error lines i = Some line
        /\ (forall x, JsSet.has x declarations = true ->
                      JsSet.has x (sw_declarations s) = true)
        /\ In d (sweepFound env i line s))
  \/ (exists i line, nth_error lines i = Some line /\ In d (lastLoopStep lines i line)).
Proof.
  intros Hpublished Hd st' lines info env declarations.
  rewrite (published_from_passes st document ds Hpublished) in Hd.
  apply in_app_or in Hd. destruct Hd as [Hd | Hd].
  - unfold optionDiagnostics in Hd. fold st' lines in Hd.
    destruct (isAzslFile (fileNameOf document) && _ && _); [| now left].
    apply in_app_or in Hd. destruct Hd as [Hd | [<- | []]]; [now left | right; now left].
  - apply in_app_or in Hd. destruct Hd as [Hd | Hd].
    + right. right. left. exact (sweepDiagnostics_found _ _ d Hd).
    + right. right. right. rewrite lastLoopDiagnostics_collect in Hd.
      apply in_collectFrom in Hd. destruct Hd as (k & line & Hk & Hd).
      exists k, line. now split.
Qed.

(** X7: Every published diagnostic lies on one line of the document: its range
    starts and ends on the same line, and that line exists. *)
Theorem diagnostics_lie_on_document_lines :
  forall (st : Index) (document : Document) (ds : list Diagnostic) (d : Diagnostic),
    snd (validateDocument st document) = Published ds ->
    In d ds ->
    range_endLine (diag_range d) = range_startLine (diag_range d)
    /\ range_startLine (diag_range d) < List.length (JS.splitLines (doc_text document)).
Proof.
  intros st document ds d Hpublished Hd.
  assert (Hline : forall i line,
             nth_error (JS.splitLines (doc_text document)) i = Some line ->
             onLine i d ->
             range_endLine (diag_range d) = range_startLine (diag_range d)
             /\ range_startLine (diag_range d)
                < List.length (JS.splitLines (doc_text document))).
  { intros i line Hi [Hs He]. rewrite Hs, He. split; [reflexivity |].
    apply nth_error_Some. now rewrite Hi. }
  destruct (published_origin st document ds d Hpublished Hd) as [H | [H | [H | H]]].
  - apply scanOptions_found_semantic in H.
    destruct H as (i & line & c & p & m & Hi & _ & _ & _ & ->).
    apply (Hline i line Hi). apply onLine_diagnosticAt.
  - destruct (splitLines_nonempty (doc_text document)) as (l & ls & Hl).
    apply (Hline 0 l); [now rewrite Hl |]. rewrite H. apply onLine_diagnosticAt.
  - destruct H as (i & line & s & Hi & _ & H).
    apply (Hline i line Hi).
    pose proof (sweepFound_onLine (buildScope (fst (validateDocument st document)) document
                                     (extractDeclarations (doc_text document))) i line s) as Hon.
    rewrite Forall_forall in Hon. now apply Hon.
  - destruct H as (i & line & Hi & H).
    apply (Hline i line Hi).
    pose proof (lastLoopStep_onLine (JS.splitLines (doc_text document)) i line) as Hon.
    rewrite Forall_forall in Hon. now apply Hon.
Qed.

(** X8: On a line that starts with a line comment or a preprocessor directive,
    [validateDocument] places no syntax error, no member error and no
    undeclared identifier: the only diagnostics that can lie on such a line
    are those of the option and SRG loop and of the fallback rule. *)
Theorem comment_and_directive_lines_are_not_checked :
  forall (st : Index) (document : Document) (ds : list Diagnostic) (d : Diagnostic)
         (line : string),
    let lines := JS.splitLines (doc_text document) in
    snd (validateDocument st document) = Published ds ->
    In d ds ->
    nth_error lines (range_startLine (diag_range d)) = Some line ->
    isCommentOrDirective line = true ->
    messageHead d = "Dec" \/ d = fallbackDiagnostic lines.
Proof.
  intros st document ds d line lines Hpublished Hd Hline Hskip.
  destruct (published_origin st document ds d Hpublished Hd) as [H | [H | [H | H]]].
  - left. pose proof (scanOptions_heads (fst (validateDocument st document))
                        (fileNameOf document) lines) as Hheads.
    rewrite Forall_forall in Hheads. now apply Hheads.
  - now right.
  - exfalso. destruct H as (i & line' & s & Hi & _ & H).
    pose proof (sweepFound_onLine (buildScope (fst (validateDocument st document)) document
                                     (extractDeclarations (doc_text document))) i line' s) as Hon.
    rewrite Forall_forall in Hon. destruct (Hon d H) as [Hs _].
    fold lines in Hi. rewrite Hs, Hi in Hline. injection Hline as ->.
    now rewrite (sweepFound_skipped _ i line s Hskip) in H.
  - exfalso. destruct H as (i & line' & Hi & H).
    pose proof (lastLoopStep_onLine lines i line') as Hon.
    rewrite Forall_forall in Hon. destruct (Hon d H) as [Hs _].
    fold lines in Hi. rewrite Hs, Hi in Hline. injection Hline as ->.
    now rewrite (lastLoopStep_skipped (JS.splitLines (doc_text document)) i line Hskip) in H.
Qed.

(** *** Identifiers that are known *)

Lemma append_cancel_quote (a b : string) : a ++ "'" = b ++ "'" -> a = b.
Proof.
  revert b. induction a as [| c a IH]; intros [| d b] H; simpl in H.
  - reflexivity.
  - injection H as _ H. destruct b; discriminate.
  - injection H as _ H. destruct a; discriminate.
  - injection H as -> H. f_equal. now apply IH.
Qed.

Lemma undeclaredMessage_inj (a b : string) :
  undeclaredMessage a = undeclaredMessage b -> a = b.
Proof.
  unfold undeclaredMessage. intros H. simpl in H.
  repeat (injection H as H). now apply append_cancel_quote.
Qed.

Lemma undeclaredMessage_head (name : string) : JS.take 3 (undeclaredMessage name) = "use".
Proof. reflexivity. Qed.

Lemma checkMemberOfType_accessHeads (env : Scope) (i pos : nat)
  (identifier varType : string) :
  Forall (fun d => In (messageHead d) accessHeads)
    (checkMemberOfType env i pos identifier varType).
Proof.
  unfold checkMemberOfType. split_conditionals; unfold messageHead; simpl; tauto.
Qed.

Lemma checkMemberAccess_accessHeads (env : Scope) (declarations : JsSet.t) (i pos : nat)
  (depth : Z) (line identifier beforeMatch : string) (ds : list Diagnostic) :
  checkMemberAccess env declarations i pos depth line identifier beforeMatch = Continue ds ->
  Forall (fun d => In (messageHead d) accessHeads) ds.
Proof.
  unfold checkMemberAccess.
  destruct (checkSrgQualifier _ _ _ _ _ _) as [ds0 |] eqn:Eq.
  - intros H. injection H as <-. revert Eq. unfold checkSrgQualifier.
    destruct (Regex.exec reSrgQualifier _); [| discriminate].
    repeat match goal with
           | |- context [if ?c then _ else _] => destruct c
           end; intros H; try discriminate; injection H as <-;
      split_conditionals; unfold messageHead; simpl; tauto.
  - destruct (Regex.exec reSrgMemberAccess _) as [m |].
    + unfold checkSrgMemberAccess.
      repeat match goal with
             | |- context [if ?c then _ else _] => destruct c
             end; intros H; injection H as <-;
        try apply checkMemberOfType_accessHeads;
        split_conditionals; unfold messageHead; simpl; tauto.
    + repeat match goal with
             | |- context [match ?x with Some _ => _ | None => _ end] => destruct x
             | |- context [if ?c then _ else _] => destruct c
             end; intros H; try discriminate; injection H as <-;
        try apply checkMemberOfType_accessHeads; constructor.
Qed.

Lemma checkUndeclared_only (env : Scope) (declarations : JsSet.t) (i pos : nat)
  (line identifier beforeMatch afterMatch : string) (d : Diagnostic) :
  In d (checkUndeclared env declarations i pos line identifier beforeMatch afterMatch) ->
  d = diagnosticOn i pos identifier (undeclaredMessage identifier).
Proof.
  unfold checkUndeclared.
  repeat match goal with
         | |- context [if ?c then _ else _] => destruct c
         end; simpl; intros H; try contradiction.
  destruct H as [<- | []]. reflexivity.
Qed.

(** An identifier that the identifier loop reports as undeclared is neither
    a built-in identifier nor in the set of declarations of the step. *)
Lemma checkIdentifier_undeclared (env : Scope) (declarations : JsSet.t) (i : nat) (depth : Z)
  (line lineWithoutStrings : string) (m : Regex.rmatch) (d : Diagnostic) (name : string) :
  In d (checkIdentifier env declarations i depth line lineWithoutStrings m) ->
  diag_message d = undeclaredMessage name ->
  isOneOf name builtinIdentifiers = false /\ JsSet.has name declarations = false.
Proof.
  unfold checkIdentifier.
  destruct (isOneOf (Regex.grp 1 m) builtinIdentifiers) eqn:Eb; [intros [] |].
  destruct (JsSet.has (Regex.grp 1 m) declarations) eqn:Ed; [intros [] |].
  assert (Hund : forall beforeMatch afterMatch,
             In d (checkUndeclared env declarations i (Regex.m_index m) line (Regex.grp 1 m)
                     beforeMatch afterMatch) ->
             diag_message d = undeclaredMessage name ->
             isOneOf name builtinIdentifiers = false /\ JsSet.has name declarations = false).
  { intros b a Hin Hmsg. apply checkUndeclared_only in Hin. subst d.
    apply undeclaredMessage_inj in Hmsg. subst name. now split. }
  destruct (Regex.test reHasDot _ || Regex.test reHasScope _); [| apply Hund].
  destruct (checkMemberAccess _ _ _ _ _ _ _ _) as [ds |] eqn:E; [| apply Hund].
  intros Hin Hmsg. exfalso.
  pose proof (checkMemberAccess_accessHeads _ _ _ _ _ _ _ _ _ E) as Hheads.
  rewrite Forall_forall in Hheads. specialize (Hheads d Hin).
  unfold messageHead in Hheads. rewrite Hmsg, undeclaredMessage_head in Hheads.
  simpl in Hheads. intuition discriminate.
Qed.

Lemma sweepFound_undeclared (env : Scope) (i : nat) (line : string) (s : Sweep)
  (d : Diagnostic) (name : string) :
  In d (sweepFound env i line s) ->
  diag_message d = undeclaredMessage name ->
  isOneOf name builtinIdentifiers = false /\ JsSet.has name (sw_declarations s) = false.
Proof.
  unfold sweepFound, sweepStep.
  destruct (Regex.test reLineComment line || Regex.test reDirective line); cbn [sw_diagnostics].
  - rewrite skipn_all. intros [].
  - rewrite skipn_app, skipn_all, Nat.sub_diag. cbn [skipn app].
    intros Hin Hmsg.
    assert (Hsyn : forall l, Forall (fun d => messageHead d = "syn") l -> In d l -> False).
    { intros l Hl Hd. rewrite Forall_forall in Hl. specialize (Hl d Hd).
      unfold messageHead in Hl. rewrite Hmsg, undeclaredMessage_head in Hl. discriminate. }
    apply in_app_or in Hin. destruct Hin as [Hin | Hin].
    { exfalso. revert Hin. apply Hsyn.
      unfold syntaxDiagnostics, incompleteAccessDiagnostic. split_conditionals; reflexivity. }
    apply in_app_or in Hin. destruct Hin as [Hin | Hin].
    { exfalso. revert Hin. apply Hsyn.
      unfold incompleteDeclarationDiagnostics. split_conditionals; reflexivity. }
    apply in_flat_map in Hin. destruct Hin as (m & _ & Hin).
    destruct (checkIdentifier_undeclared _ _ _ _ _ _ _ _ _ Hin Hmsg) as [Hb Hdecl].
    split; [exact Hb |].
    destruct (contextAt i (env_methodClassContext env)); [| exact Hdecl].
    destruct (JsMap.get _ (env_classMembers env)); [| exact Hdecl].
    rewrite has_addAll in Hdecl. now apply orb_false_iff in Hdecl.
Qed.

Lemma has_keys {V : Type} (k : string) (m : JsMap.t V) :
  existsb (String.eqb k) (JsMap.keys m) = JsMap.has k m.
Proof.
  unfold JsMap.keys, JsMap.has. induction m as [| [k' v] m IH]; simpl; [reflexivity |].
  destruct (String.eqb k k'); [reflexivity | exact IH].
Qed.

(** X9: An identifier is never reported as undeclared when it is a built-in
    identifier, an Atom type, a symbol or a macro of the index, or a
    declaration that [extractDeclarations] finds in the document. *)
Theorem known_identifiers_are_not_reported :
  forall (st : Index) (document : Document) (ds : list Diagnostic) (d : Diagnostic)
         (name : string),
    snd (validateDocument st document) = Published ds ->
    isOneOf name builtinIdentifiers = true
    \/ isOneOf name atomTypes = true
    \/ JsSet.has name (indexedSymbols st) = true
    \/ JsMap.has name (macroIndex st) = true
    \/ JsSet.has name (di_declarations (extractDeclarations (doc_text document))) = true ->
    In d ds ->
    diag_message d <> undeclaredMessage name.
Proof.
  intros st document ds d name Hpublished Hknown Hd Hmsg.
  assert (Hhead : messageHead d = "use")
    by (unfold messageHead; now rewrite Hmsg, undeclaredMessage_head).
  destruct (published_origin st document ds d Hpublished Hd) as [H | [H | [H | H]]].
  - pose proof (scanOptions_heads (fst (validateDocument st document))
                  (fileNameOf document) (JS.splitLines (doc_text document))) as Hheads.
    rewrite Forall_forall in Hheads. rewrite (Hheads d H) in Hhead. discriminate.
  - rewrite H in Hhead. discriminate.
  - destruct H as (i & line & s & _ & Hdecl & H).
    destruct (sweepFound_undeclared _ i line s d name H Hmsg) as [Hb Hs].
    assert (Hinit : JsSet.has name
                      (initialDeclarations (fst (validateDocument st document))
                         (extractDeclarations (doc_text document))
                         (env_pascalCaseTypes
                            (buildScope (fst (validateDocument st document)) document
                               (extractDeclarations (doc_text document))))) = true).
    { unfold initialDeclarations. rewrite !has_addAll, has_keys.
      destruct (validateDocument_frame st document) as (Hsym & _ & _ & Hmac & _).
      cbv zeta in Hsym, Hmac. rewrite Hsym, Hmac.
      unfold isOneOf, JsSet.has in *.
      destruct Hknown as [K | [K | [K | [K | K]]]]; rewrite K;
        rewrite ?orb_true_r; reflexivity. }
    rewrite (Hdecl name Hinit) in Hs. discriminate.
  - destruct H as (i & line & _ & H).
    pose proof (lastLoopStep_heads (JS.splitLines (doc_text document)) i line) as Hheads.
    rewrite Forall_forall in Hheads. specialize (Hheads d H).
    rewrite Hhead in Hheads. simpl in Hheads. intuition discriminate.
Qed.

Lemma isOneOf_In (x : string) (l : list string) : isOneOf x l = true -> In x l.
Proof.
  unfold isOneOf. intros H. apply existsb_exists in H. destruct H as (y & Hy & E).
  apply String.eqb_eq in E. now subst.
Qed.

Lemma sweepFound_heads (env : Scope) (i : nat) (line : string) (s : Sweep) :
  Forall (fun d => In (messageHead d) sweepHeads) (sweepFound env i line s).
Proof.
  unfold sweepFound, sweepStep.
  destruct (Regex.test reLineComment line || Regex.test reDirective line); cbn [sw_diagnostics].
  - rewrite skipn_all. constructor.
  - rewrite skipn_app, skipn_all, Nat.sub_diag. cbn [skipn app].
    apply Forall_app. split.
    + unfold syntaxDiagnostics, incompleteAccessDiagnostic.
      split_conditionals; unfold messageHead; simpl; tauto.
    + apply Forall_app. split.
      * unfold incompleteDeclarationDiagnostics.
        split_conditionals; unfold messageHead; simpl; tauto.
      * apply Forall_flat_map. intros m. apply checkIdentifier_heads.
Qed.

(** X10: A diagnostic [Declaration for semantic ... was not found] spans a whole
    line of the document, from column 0 to the length of the line; the line,
    once its comments are stripped, declares an SRG with the semantic of the
    message, and that semantic is not in [srgSemanticIndex].  After
    [indexHeaders] it is therefore never one of the built-in semantics. *)
Theorem semantic_diagnostics_name_unindexed_semantics :
  forall (st : Index) (document : Document) (ds : list Diagnostic) (d : Diagnostic),
    snd (validateDocument st document) = Published ds ->
    In d ds ->
    messageHead d = "Dec" ->
    exists i line inComment processedLine m,
      nth_error (JS.splitLines (doc_text document)) i = Some line
      /\ snd (stripComments inComment line) = Some processedLine
      /\ Regex.exec reSrgWithSemantic processedLine = Some m
      /\ JsMap.has (Regex.grp 2 m) (srgSemanticIndex st) = false
      /\ d = diagnosticAt i 0 (JS.len line)
               (semanticMessage (Regex.grp 2 m) (Regex.grp 1 m))
      /\ (forall h rootPath st0,
            st = indexHeaders h rootPath st0 ->
            isOneOf (Regex.grp 2 m) builtinSrgSemantics = false).
Proof.
  intros st document ds d Hpublished Hd Hhead.
  destruct (published_origin st document ds d Hpublished Hd) as [H | [H | [H | H]]].
  - apply scanOptions_found_semantic in H.
    destruct H as (i & line & c & p & m & Hi & Hp & Hm & Hhas & ->).
    destruct (validateDocument_frame st document) as (_ & _ & _ & _ & _ & Hsem & _).
    cbv zeta in Hsem. rewrite Hsem in Hhas.
    exists i, line, c, p, m. repeat split; try assumption.
    intros h rootPath st0 ->.
    destruct (isOneOf (Regex.grp 2 m) builtinSrgSemantics) eqn:E; [| reflexivity].
    apply isOneOf_In in E.
    destruct (holdsBuiltins_indexHeaders h rootPath st0) as (Hb & _).
    rewrite Forall_forall in Hb. rewrite (Hb _ E) in Hhas. discriminate.
  - rewrite H in Hhead. discriminate.
  - exfalso. destruct H as (i & line & s & _ & _ & H).
    pose proof (sweepFound_heads
                  (buildScope (fst (validateDocument st document)) document
                     (extractDeclarations (doc_text document))) i line s) as Hheads.
    rewrite Forall_forall in Hheads. specialize (Hheads d H).
    rewrite Hhead in Hheads. simpl in Hheads. intuition discriminate.
  - exfalso. destruct H as (i & line & _ & H).
    pose proof (lastLoopStep_heads (JS.splitLines (doc_text document)) i line) as Hheads.
    rewrite Forall_forall in Hheads. specialize (Hheads d H).
    rewrite Hhead in Hheads. simpl in Hheads. intuition discriminate.
Qed.

Lemma semantic_diagnostics_witness :
  let d := diagnosticAt 0 0 37
             "Declaration for semantic SRG_Custom used in SRG X was not found" in
  snd (validateDocument freshIndex customSemanticShader) = Published [d]
  /\ messageHead d = "Dec"
  /\ exists i line inComment processedLine m,
       nth_error (JS.splitLines (doc_text customSemanticShader)) i = Some line
       /\ snd (stripComments inComment line) = Some processedLine
       /\ Regex.exec reSrgWithSemantic processedLine = Some m
       /\ JsMap.has (Regex.grp 2 m) (srgSemanticIndex freshIndex) = false
       /\ d = diagnosticAt i 0 (JS.len line)
                (semanticMessage (Regex.grp 2 m) (Regex.grp 1 m))
       /\ (forall h rootPath st0,
             freshIndex = indexHeaders h rootPath st0 ->
             isOneOf (Regex.grp 2 m) builtinSrgSemantics = false).
Proof.
  intros d.
  assert (Hpublished : snd (validateDocument freshIndex customSemanticShader) = Published [d])
    by (vm_compute; reflexivity).
  split; [exact Hpublished |]. split; [reflexivity |].
  exact (semantic_diagnostics_name_unindexed_semantics freshIndex customSemanticShader [d] d
           Hpublished (or_introl eq_refl) eq_refl).
Defined.

Lemma diagnostics_lie_on_document_lines_witness :
  let d := diagnosticAt 3 8 9 "use of undeclared identifier 'b'" in
  snd (validateDocument freshIndex undeclaredUseShader) = Published [d]
  /\ range_endLine (diag_range d) = range_startLine (diag_range d)
  /\ range_startLine (diag_range d)
     < List.length (JS.splitLines (doc_text undeclaredUseShader)).
Proof.
  intros d.
  assert (Hpublished : snd (validateDocument freshIndex undeclaredUseShader) = Published [d])
    by (vm_compute; reflexivity).
  split; [exact Hpublished |].
  exact (diagnostics_lie_on_document_lines freshIndex undeclaredUseShader [d] d
           Hpublished (or_introl eq_refl)).
Defined.

Lemma comment_and_directive_lines_witness :
  let d := diagnosticAt 0 0 22 fallbackMessage in
  let lines := JS.splitLines (doc_text commentedOptionShader) in
  snd (validateDocument freshIndex commentedOptionShader) = Published [d]
  /\ nth_error lines (range_startLine (diag_range d)) = Some "// options of the pass"
  /\ isCommentOrDirective "// options of the pass" = true
  /\ (messageHead d = "Dec" \/ d = fallbackDiagnostic lines).
Proof.
  intros d lines.
  assert (Hpublished : snd (validateDocument freshIndex commentedOptionShader) = Published [d])
    by (vm_compute; reflexivity).
  assert (Hline : nth_error lines (range_startLine (diag_range d))
                  = Some "// options of the pass") by (vm_compute; reflexivity).
  assert (Hskip : isCommentOrDirective "// options of the pass" = true)
    by (vm_compute; reflexivity).
  split; [exact Hpublished |]. split; [exact Hline |]. split; [exact Hskip |].
  exact (comment_and_directive_lines_are_not_checked freshIndex commentedOptionShader [d] d
           "// options of the pass" Hpublished (or_introl eq_refl) Hline Hskip).
Defined.

Lemma known_identifiers_witness :
  let d := diagnosticAt 3 8 9 "use of undeclared identifier 'b'" in
  snd (validateDocument freshIndex undeclaredUseShader) = Published [d]
  /\ JsSet.has "a" (di_declarations (extractDeclarations (doc_text undeclaredUseShader)))
     = true
  /\ diag_message d <> undeclaredMessage "a".
Proof.
  intros d.
  assert (Hpublished : snd (validateDocument freshIndex undeclaredUseShader) = Published [d])
    by (vm_compute; reflexivity).
  assert (Hknown : JsSet.has "a"
                     (di_declarations (extractDeclarations (doc_text undeclaredUseShader)))
                   = true) by (vm_compute; reflexivity).
  split; [exact Hpublished |]. split; [exact Hknown |].
  exact (known_identifiers_are_not_reported freshIndex undeclaredUseShader [d] d "a"
           Hpublished (or_intror (or_intror (or_intror (or_intror Hknown))))
           (or_introl eq_refl)).
Defined.

(* ===================================================================== *)
(** ** Further properties of the type and swizzle helpers *)
(* ===================================================================== *)

Lemma in_allAscii (c : ascii) : In c allAscii.
Proof.
  unfold allAscii. apply in_map_iff. exists (nat_of_ascii c).
  split; [apply ascii_nat_embedding |].
  apply in_seq. pose proof (nat_ascii_bounded c). lia.
Qed.

(** A match of an expression without a quantifier consumes one of its
    finitely many texts; when every way through the expression ends with
    [$], the match ends at the end of the input. *)
Lemma run_finiteWords (r : Regex.re) :
  forall (ws : list string) (R : Type) (st : Regex.mstate)
         (k : Regex.mstate -> option R) (x : R),
    finiteWords r = Some ws ->
    Regex.run r R st k = Some x ->
    exists w st',
      In w ws /\ Regex.ms_rest st = w ++ Regex.ms_rest st' /\ k st' = Some x
      /\ (endsAtEol r = true -> Regex.ms_rest st' = "").
Proof.
  induction r as [| c | | negated items | a IHa b IHb | a IHa b IHb | greedy a IHa
                  | n a IHa | | | | a IHa];
    intros ws R st k x Hws Hrun;
    cbn [finiteWords] in Hws; cbn [Regex.run] in Hrun; cbn [endsAtEol].
  - injection Hws as <-. exists "", st.
    repeat split; [now left | exact Hrun | discriminate].
  - injection Hws as <-. destruct (Regex.ms_rest st) as [| d rest] eqn:E; [discriminate |].
    destruct (Ascii.eqb c d) eqn:Ec; [| discriminate].
    apply Ascii.eqb_eq in Ec. subst d.
    exists (String c ""), (Regex.advance st c rest).
    repeat split; [now left | exact Hrun | discriminate].
  - remember (filter (fun c => negb (JS.isLineTerminator c)) allAscii) as l eqn:Hl.
    injection Hws as <-. destruct (Regex.ms_rest st) as [| d rest] eqn:E; [discriminate |].
    destruct (JS.isLineTerminator d) eqn:Ed; [discriminate |].
    exists (String d ""), (Regex.advance st d rest).
    split; [| split; [reflexivity | split; [exact Hrun | discriminate]]].
    apply (in_map (fun c => String c "")). rewrite Hl. apply filter_In.
    split; [apply in_allAscii | now rewrite Ed].
  - remember (filter (Regex.classMatches negated items) allAscii) as l eqn:Hl.
    injection Hws as <-. destruct (Regex.ms_rest st) as [| d rest] eqn:E; [discriminate |].
    destruct (Regex.classMatches negated items d) eqn:Ed; [| discriminate].
    exists (String d ""), (Regex.advance st d rest).
    split; [| split; [reflexivity | split; [exact Hrun | discriminate]]].
    apply (in_map (fun c => String c "")). rewrite Hl. apply filter_In.
    split; [apply in_allAscii | exact Ed].
  - destruct (finiteWords a) as [wa |]; [| discriminate].
    destruct (finiteWords b) as [wb |]; [| discriminate].
    injection Hws as <-.
    destruct (IHa wa R st _ x eq_refl Hrun) as (w1 & st1 & Hw1 & Hr1 & Hk1 & _).
    destruct (IHb wb R st1 k x eq_refl Hk1) as (w2 & st2 & Hw2 & Hr2 & Hk2 & Hend).
    exists (w1 ++ w2), st2. repeat split; try assumption.
    + apply in_flat_map. exists w1. split; [exact Hw1 |].
      now apply (in_map (fun y => w1 ++ y)).
    + rewrite Hr1, Hr2. symmetry. apply append_assoc.
  - destruct (finiteWords a) as [wa |]; [| discriminate].
    destruct (finiteWords b) as [wb |]; [| discriminate].
    injection Hws as <-. unfold Regex.orElse in Hrun.
    destruct (Regex.run a R st k) as [y |] eqn:Ea.
    + injection Hrun as ->.
      destruct (IHa wa R st k x eq_refl Ea) as (w & st' & Hw & Hr & Hk & Hend).
      exists w, st'. repeat split; try assumption.
      * apply in_or_app. now left.
      * intros H. apply andb_true_iff in H. now apply Hend.
    + destruct (IHb wb R st k x eq_refl Hrun) as (w & st' & Hw & Hr & Hk & Hend).
      exists w, st'. repeat split; try assumption.
      * apply in_or_app. now right.
      * intros H. apply andb_true_iff in H. now apply Hend.
  - discriminate.
  - destruct (IHa ws R st _ x Hws Hrun) as (w & st' & Hw & Hr & Hk & Hend).
    eexists w, _. repeat split; [exact Hw | | exact Hk | exact Hend]. exact Hr.
  - injection Hws as <-. destruct (Regex.ms_prev st); [discriminate |].
    exists "", st. repeat split; [now left | exact Hrun | discriminate].
  - injection Hws as <-. destruct (Regex.ms_rest st) eqn:E; [| discriminate].
    exists "", st. repeat split; [now left | now rewrite E | exact Hrun | now rewrite E].
  - injection Hws as <-.
    destruct (xorb _ _); [| discriminate].
    exists "", st. repeat split; [now left | exact Hrun | discriminate].
  - injection Hws as <-.
    destruct (Regex.run a unit st _); [discriminate |].
    exists "", st. repeat split; [now left | exact Hrun | discriminate].
Qed.

Lemma run_startsAtBol (r : Regex.re) :
  forall (R : Type) (st : Regex.mstate) (k : Regex.mstate -> option R) (prev : ascii),
    startsAtBol r = true -> Regex.ms_prev st = Some prev -> Regex.run r R st k = None.
Proof.
  induction r as [| c | | negated items | a IHa b IHb | a IHa b IHb | greedy a IHa
                  | n a IHa | | | | a IHa];
    intros R st k prev Hbol Hprev; cbn [startsAtBol] in Hbol; try discriminate;
    cbn [Regex.run].
  - now apply (IHa R st _ prev).
  - apply andb_true_iff in Hbol. destruct Hbol as [H1 H2].
    unfold Regex.orElse. rewrite (IHa R st k prev H1 Hprev). now apply (IHb R st k prev).
  - now apply (IHa R st _ prev).
  - now rewrite Hprev.
Qed.

Lemma matchAt_startsAtBol (r : Regex.re) (s : string) (c : ascii) (pos : nat) :
  startsAtBol r = true -> Regex.matchAt r (Some c) s pos = None.
Proof.
  intros Hbol. unfold Regex.matchAt.
  now rewrite (run_startsAtBol r Regex.mstate (Regex.MState (Some c) s pos [])
                 (fun st' => Some st') c Hbol eq_refl).
Qed.

Lemma execAt_startsAtBol (r : Regex.re) (s : string) (c : ascii) (pos : nat) :
  startsAtBol r = true -> Regex.execAt r (Some c) s pos = None.
Proof.
  intros Hbol. revert c pos.
  induction s as [| d s IH]; intros c pos; cbn [Regex.execAt];
    rewrite (matchAt_startsAtBol r _ c pos Hbol); [reflexivity | apply IH].
Qed.

(** An expression between [^] and [$] without a quantifier accepts only its
    finitely many texts. *)
Lemma test_finiteWords (r : Regex.re) (ws : list string) (s : string) :
  startsAtBol r = true -> endsAtEol r = true -> finiteWords r = Some ws ->
  Regex.test r s = true -> In s ws.
Proof.
  intros Hbol Heol Hws Htest. unfold Regex.test, Regex.exec in Htest.
  assert (Hat : Regex.matchAt r None s 0 <> None).
  { destruct s as [| c s']; cbn [Regex.execAt] in Htest.
    - destruct (Regex.matchAt r None "" 0); [discriminate | discriminate].
    - destruct (Regex.matchAt r None (String c s') 0); [discriminate |].
      now rewrite (execAt_startsAtBol r s' c 1 Hbol) in Htest. }
  unfold Regex.matchAt in Hat.
  destruct (Regex.run r Regex.mstate (Regex.MState None s 0 []) (fun st' => Some st'))
    as [st' |] eqn:Hrun; [| contradiction].
  destruct (run_finiteWords r ws _ _ _ _ Hws Hrun) as (w & st'' & Hw & Hr & _ & Hend).
  cbn [Regex.ms_rest] in Hr. rewrite (Hend Heol) in Hr.
  assert (Hnil : forall t : string, t ++ "" = t)
    by (induction t as [| a t IHt]; simpl; [reflexivity | now rewrite IHt]).
  rewrite Hnil in Hr. now subst.
Qed.

(** [isVectorType] accepts the eighteen vector type names and nothing else. *)
Lemma isVectorType_names (type : string) :
  isVectorType type = true <-> In type vectorTypeNames.
Proof.
  split.
  - apply test_finiteWords; vm_compute; reflexivity.
  - intros H. repeat (destruct H as [<- | H]; [vm_compute; reflexivity |]). destruct H.
Qed.

Lemma in_wordsUpTo (A : list ascii) (n : nat) (s : string) :
  String.length s <= n ->
  forallb (fun c => existsb (Ascii.eqb c) A) (units s) = true ->
  In s (wordsUpTo A n).
Proof.
  revert s. induction n as [| n IH]; intros s Hlen Hall.
  - destruct s; [now left | simpl in Hlen; lia].
  - destruct s as [| c s]; [now left |]. right.
    simpl in Hlen, Hall. apply andb_true_iff in Hall. destruct Hall as [Hc Hs].
    apply in_flat_map. apply existsb_exists in Hc. destruct Hc as (a & Ha & Eca).
    apply Ascii.eqb_eq in Eca. subst a.
    exists c. split; [exact Ha |]. apply in_map. apply IH; [lia | exact Hs].
Qed.

(** The candidates for an accessor of dimension [dim]. *)
Lemma accessor_candidates (dim : nat) (s : string) :
  isAccessorOf dim s = true ->
  In s (wordsUpTo (units (JS.take dim "xyzw")) dim ++
        wordsUpTo (units (JS.take dim "rgba")) dim)%list.
Proof.
  unfold isAccessorOf. intros H.
  apply andb_true_iff in H. destruct H as [H Hfrom].
  apply andb_true_iff in H. destruct H as [H _].
  apply andb_true_iff in H. destruct H as [_ Hlen].
  apply Nat.leb_le in Hlen. apply orb_true_iff in Hfrom. apply in_or_app.
  destruct Hfrom as [Hf | Hf]; [left | right]; now apply in_wordsUpTo.
Qed.

Lemma swizzles_are_accessors :
  forallb (fun t => forallb (isAccessorOf (dimensionOf t)) (getSwizzleProperties t))
    vectorTypeNames = true.
Proof. vm_compute. reflexivity. Qed.

Lemma accessors_are_swizzles :
  forallb (fun t =>
             let props := getSwizzleProperties t in
             let dim := dimensionOf t in
             forallb (fun c => implb (isAccessorOf dim c) (existsb (String.eqb c) props))
               (wordsUpTo (units (JS.take dim "xyzw")) dim ++
                wordsUpTo (units (JS.take dim "rgba")) dim))
    vectorTypeNames = true.
Proof. vm_compute. reflexivity. Qed.

(** X11: For every vector type, [getSwizzleProperties] lists exactly the
    accessors of its dimension: one to [dim] distinct components, all from
    the first [dim] letters of [xyzw] or all from the first [dim] letters of
    [rgba]. *)
Theorem swizzle_properties_are_the_accessors :
  forall (type s : string),
    isVectorType type = true ->
    (In s (getSwizzleProperties type) <-> isAccessorOf (dimensionOf type) s = true).
Proof.
  intros type s Hvec. apply isVectorType_names in Hvec.
  pose proof swizzles_are_accessors as Hsound.
  pose proof accessors_are_swizzles as Hcomplete.
  rewrite forallb_forall in Hsound.
  rewrite forallb_forall in Hcomplete.
  specialize (Hsound type Hvec). specialize (Hcomplete type Hvec).
  cbv zeta in Hcomplete.
  rewrite forallb_forall in Hsound.
  rewrite forallb_forall in Hcomplete. split.
  - apply Hsound.
  - intros Hacc. specialize (Hcomplete s (accessor_candidates _ s Hacc)).
    rewrite Hacc in Hcomplete. cbn [implb] in Hcomplete.
    apply existsb_exists in Hcomplete. destruct Hcomplete as (y & Hy & E).
    apply String.eqb_eq in E. now subst.
Qed.

Lemma swizzle_properties_witness :
  isVectorType "float3" = true
  /\ (In "zyx" (getSwizzleProperties "float3")
      <-> isAccessorOf (dimensionOf "float3") "zyx" = true).
Proof.
  assert (H : isVectorType "float3" = true) by (vm_compute; reflexivity).
  split; [exact H |]. exact (swizzle_properties_are_the_accessors "float3" "zyx" H).
Defined.

(** X12: Every accessor that completion offers for a vector type is accepted by
    the member check of the validation sweep: it passes the test
    [/^[xyzwrgba]{1,4}$/] and yields no diagnostic. *)
Theorem offered_swizzles_pass_validation :
  forall (env : Scope) (i pos : nat) (type s : string),
    isVectorType type = true ->
    In s (getSwizzleProperties type) ->
    Regex.test reSwizzle s = true /\ checkMemberOfType env i pos s type = [].
Proof.
  intros env i pos type s Hvec Hin.
  assert (Htest : Regex.test reSwizzle s = true).
  { apply isVectorType_names in Hvec.
    assert (Hall : forallb (fun t => forallb (Regex.test reSwizzle) (getSwizzleProperties t))
                     vectorTypeNames = true) by (vm_compute; reflexivity).
    rewrite forallb_forall in Hall. specialize (Hall type Hvec).
    rewrite forallb_forall in Hall. now apply Hall. }
  split; [exact Htest |].
  unfold checkMemberOfType. rewrite Hvec, Htest. reflexivity.
Qed.

Lemma offered_swizzles_witness :
  let env := buildScope freshIndex swizzleDocument
               (extractDeclarations (doc_text swizzleDocument)) in
  isVectorType "float3" = true
  /\ In "rgb" (getSwizzleProperties "float3")
  /\ Regex.test reSwizzle "rgb" = true
  /\ checkMemberOfType env 2 12 "rgb" "float3" = [].
Proof.
  intros env.
  assert (Hvec : isVectorType "float3" = true) by (vm_compute; reflexivity).
  assert (Hin : In "rgb" (getSwizzleProperties "float3")) by (vm_compute; tauto).
  split; [exact Hvec |]. split; [exact Hin |].
  exact (offered_swizzles_pass_validation env 2 12 "float3" "rgb" Hvec Hin).
Defined.

(* ===================================================================== *)
(** ** Further properties of the scanners *)
(* ===================================================================== *)

Lemma Forall_add (P : string -> Prop) (x : string) (s : JsSet.t) :
  P x -> Forall P s -> Forall P (JsSet.add x s).
Proof.
  intros Hx Hs. unfold JsSet.add. destruct (JsSet.has x s); [exact Hs |].
  apply Forall_app. split; [exact Hs | now constructor].
Qed.

Lemma Forall_addAll (P : string -> Prop) (xs : list string) (s : JsSet.t) :
  Forall P xs -> Forall P s -> Forall P (JsSet.addAll xs s).
Proof.
  unfold JsSet.addAll. revert s.
  induction xs as [| x xs IH]; intros s Hxs Hs; simpl; [exact Hs |].
  inversion Hxs as [| ? ? Hx Hrest]; subst.
  apply IH; [exact Hrest | now apply Forall_add].
Qed.

(** No symbol that [extractSymbolsFromText] returns is longer than 64 code
    units. *)
Lemma extractSymbolsFromText_bound (text : string) :
  Forall (fun sym => String.length sym <= 64) (extractSymbolsFromText text).
Proof.
  unfold extractSymbolsFromText. generalize symbolRegexes.
  assert (H : forall (res : list Regex.re) (found : JsSet.t),
             Forall (fun sym => String.length sym <= 64) found ->
             Forall (fun sym => String.length sym <= 64)
               (fold_left
                  (fun found re =>
                     fold_left
                       (fun found' m =>
                          let val := firstGroupOrWhole m in
                          if String.length val <=? 64 then JsSet.add val found' else found')
                       (Regex.execAll re text) found)
                  res found)).
  { induction res as [| re res IH]; intros found Hfound; simpl; [exact Hfound |].
    apply IH. generalize (Regex.execAll re text). intros ms. revert found Hfound.
    induction ms as [| m ms IHm]; intros found Hfound; simpl; [exact Hfound |].
    apply IHm. destruct (String.length (firstGroupOrWhole m) <=? 64) eqn:E; [| exact Hfound].
    apply Forall_add; [now apply Nat.leb_le | exact Hfound]. }
  intros res. apply H. constructor.
Qed.

Lemma indexedSymbols_ingestFile (h : Host) (f : string) (st : Index) :
  indexedSymbols (ingestFile h f st)
  = match readFileSync h f with
    | Some buf => JsSet.addAll (extractSymbolsFromText buf) (indexedSymbols st)
    | None => indexedSymbols st
    end.
Proof.
  destruct (readFileSync h f) as [buf |] eqn:Hread.
  2: { unfold ingestFile. now rewrite Hread. }
  rewrite (ingestFile_unfold h f buf st Hread). cbv zeta.
  set (st5 := ingestSrgSemantics _ _).
  assert (H5 : indexedSymbols st5
               = JsSet.addAll (extractSymbolsFromText buf) (indexedSymbols st))
    by (subst st5; through_setters; reflexivity).
  destruct (ingestSrgs_shape (extractSrgDeclarations h buf f) st5) as (a & b & c & ->).
  destruct (extractStructDeclarations buf f) as [structDecls |]; [| exact H5].
  through_setters.
  destruct (ingestStructs_shape structDecls
              (setSrgMemberIndex a (setSrgMembers b (setSrgIndex c st5)))) as (sm & si & ->).
  exact H5.
Qed.

(** X13: Whatever the corpus, no symbol that [indexHeaders] leaves in
    [indexedSymbols], and that completion then offers, is longer than 64
    code units. *)
Theorem indexed_symbols_are_short :
  forall (h : Host) (rootPath : option string) (st : Index),
    Forall (fun sym => String.length sym <= 64)
      (indexedSymbols (indexHeaders h rootPath st)).
Proof.
  intros h rootPath st. unfold indexHeaders.
  assert (H0 : Forall (fun sym => String.length sym <= 64)
                 (indexedSymbols (clearAndSeed st))) by constructor.
  destruct rootPath as [root |]; [| exact H0].
  destruct (negb (JS.truthy root) || negb (existsSync h root)); [exact H0 |].
  assert (H1 : forall files acc,
             Forall (fun sym => String.length sym <= 64) (indexedSymbols acc) ->
             Forall (fun sym => String.length sym <= 64)
               (indexedSymbols
                  (fold_left (fun acc f => recordPath h root f (ingestFile h f acc))
                     files acc))).
  { induction files as [| f files IH]; intros acc Hacc; simpl; [exact Hacc |].
    apply IH. through_setters. rewrite indexedSymbols_ingestFile.
    destruct (readFileSync h f) as [buf |]; [| exact Hacc].
    apply Forall_addAll; [apply extractSymbolsFromText_bound | exact Hacc]. }
  specialize (H1 (walkDirCollect h root) _ H0).
  unfold indexShaderQualityMacros.
  destruct (qualityMacroTarget _); [| exact H1].
  destruct (readFileSync h _); exact H1.
Qed.

(** X14: [getVariableTypeAtPosition] on a name with a declaration that is in scope
    at the query line and was recorded at brace depth [-1] or above: it
    returns the type of a declaration in scope that no declaration in scope
    exceeds in depth, and that none of the same depth follows. *)
Theorem deepest_latest_declaration_is_chosen :
  forall (st : Index) (document : Document) (varName : string) (lineNum : nat)
         (d0 : VarDecl),
    let decls := recordedDeclarations st document varName in
    let depth := braceDepthAt (JS.splitLines (doc_text document)) lineNum in
    In d0 decls ->
    inScope lineNum depth d0 = true ->
    (-1 <= vd_braceDepth d0)%Z ->
    exists best,
      getVariableTypeAtPosition st document varName lineNum = Some (vd_type best)
      /\ In best decls
      /\ inScope lineNum depth best = true
      /\ forall d, In d decls -> inScope lineNum depth d = true ->
                   (vd_braceDepth d < vd_braceDepth best)%Z
                   \/ (vd_braceDepth d = vd_braceDepth best /\ vd_line d <= vd_line best).
Proof.
  intros st document varName lineNum d0 decls depth Hin Hscope Hdepth.
  subst decls depth. unfold recordedDeclarations in *.
  unfold getVariableTypeAtPosition. cbv zeta in *.
  destruct (JsMap.get varName
              (ds_declarations
                 (foldLines (JS.splitLines (doc_text document)) (declScanStep st)
                    (mkDeclScan JsMap.empty JsMap.empty 0)))) as [decls |];
    [| destruct Hin].
  destruct (selectDeclaration decls lineNum
              (braceDepthAt (JS.splitLines (doc_text document)) lineNum)) as [best |] eqn:E.
  - exists best. split; [reflexivity |]. now apply selectDeclaration_some.
  - exfalso. pose proof (proj1 (selectDeclaration_none decls lineNum _) E d0 Hin Hscope).
    lia.
Qed.

Lemma deepest_latest_declaration_witness :
  let d0 := mkVarDecl "Bar" 3 1 in
  In d0 (recordedDeclarations freshIndex nestedDocument "x")
  /\ inScope 4 (braceDepthAt (JS.splitLines (doc_text nestedDocument)) 4) d0 = true
  /\ (-1 <= vd_braceDepth d0)%Z
  /\ exists best,
       getVariableTypeAtPosition freshIndex nestedDocument "x" 4 = Some (vd_type best)
       /\ In best (recordedDeclarations freshIndex nestedDocument "x")
       /\ inScope 4 (braceDepthAt (JS.splitLines (doc_text nestedDocument)) 4) best = true
       /\ forall d, In d (recordedDeclarations freshIndex nestedDocument "x") ->
                    inScope 4 (braceDepthAt (JS.splitLines (doc_text nestedDocument)) 4) d
                    = true ->
                    (vd_braceDepth d < vd_braceDepth best)%Z
                    \/ (vd_braceDepth d = vd_braceDepth best /\ vd_line d <= vd_line best).
Proof.
  intros d0.
  assert (Hin : In d0 (recordedDeclarations freshIndex nestedDocument "x"))
    by (vm_compute; tauto).
  assert (Hscope : inScope 4 (braceDepthAt (JS.splitLines (doc_text nestedDocument)) 4) d0
                   = true) by (vm_compute; reflexivity).
  assert (Hdepth : (-1 <= vd_braceDepth d0)%Z) by (simpl; lia).
  split; [exact Hin |]. split; [exact Hscope |]. split; [exact Hdepth |].
  exact (deepest_latest_declaration_is_chosen freshIndex nestedDocument "x" 4 d0
           Hin Hscope Hdepth).
Defined.

(** *** Locations reported by the scanners *)

(** An invariant of a loop over the lines holds after the loop when it holds
    before it and every iteration on a line of the text keeps it. *)
Lemma foldLines_invariant {S : Type} (P : S -> Prop) (lines : list string)
  (f : nat -> string -> S -> S) (s0 : S) :
  P s0 ->
  (forall i line s, nth_error lines i = Some line -> P s -> P (f i line s)) ->
  P (foldLines lines f s0).
Proof.
  intros H0 Hstep. unfold foldLines.
  assert (H : forall ls pre s,
             lines = (pre ++ ls)%list -> P s -> P (foldLinesFrom (List.length pre) ls f s)).
  { induction ls as [| l ls IH]; intros pre s Hlines Hs; simpl; [exact Hs |].
    specialize (IH (pre ++ [l])%list (f (List.length pre) l s)).
    rewrite length_app, Nat.add_1_r in IH. apply IH.
    - now rewrite <- app_assoc.
    - apply Hstep; [| exact Hs].
      rewrite Hlines, nth_error_app2, Nat.sub_diag; [reflexivity | lia]. }
  exact (H lines [] s0 eq_refl H0).
Qed.

Lemma get_setIfAbsent_inv {V : Type} (k k0 : string) (v v0 : V) (m : JsMap.t V) :
  JsMap.get k0 (setIfAbsent k v m) = Some v0 ->
  JsMap.get k0 m = Some v0 \/ (k0 = k /\ v0 = v).
Proof.
  unfold setIfAbsent. destruct (JsMap.has k m); [now left |].
  destruct (String.eqb k0 k) eqn:E.
  - apply String.eqb_eq in E. subst. rewrite get_set_same. intros H. injection H as <-.
    now right.
  - apply String.eqb_neq in E. rewrite get_set_other by exact E. now left.
Qed.

Lemma nth_error_length {A : Type} (l : list A) (i : nat) (x : A) :
  nth_error l i = Some x -> i < List.length l.
Proof. intros H. apply nth_error_Some. now rewrite H. Qed.

Lemma findGuardedDefine_line (name : string) (k : nat) (ls : list string) (count : nat)
  (defLine : nat) (m : Regex.rmatch) :
  findGuardedDefine name k ls count = Some (defLine, m) ->
  k <= defLine /\ defLine < k + List.length ls /\ defLine < k + count.
Proof.
  revert k ls. induction count as [| count IH]; intros k ls H;
    [destruct ls; discriminate |].
  destruct ls as [| l ls]; [discriminate |]. cbn [findGuardedDefine] in H.
  assert (Hrec : findGuardedDefine name (S k) ls count = Some (defLine, m) ->
                 k <= defLine /\ defLine < k + List.length (l :: ls)
                 /\ defLine < k + S count).
  { intros Hr. apply IH in Hr. simpl. lia. }
  destruct (Regex.exec reDefineValue l) as [dm |]; [| now apply Hrec].
  destruct (String.eqb (Regex.grp 1 dm) name); [| now apply Hrec].
  injection H as <- _. simpl. lia.
Qed.

(** X15: Every location that a scanner reports lies in the scanned text: the
    position of a function is the first occurrence of its name in a line of
    the text, and the lines of the options, the SRG semantics and the macros
    are lines of the text; the file is the scanned file. *)
Theorem scanned_locations_are_lines_of_the_text :
  forall (text filePath : string),
    let lines := JS.splitLines text in
    (forall name p,
        JsMap.get name (extractFunctionDeclarations text filePath) = Some p ->
        pos_uri p = UriFile filePath
        /\ exists line, nth_error lines (pos_line p) = Some line
                        /\ JS.indexOf line name = Z.of_nat (pos_column p))
    /\ (forall name o,
          JsMap.get name (extractOptionDeclarations text filePath) = Some o ->
          opt_name o = name /\ opt_uri o = UriFile filePath
          /\ opt_line o < List.length lines)
    /\ (forall s, In s (extractSrgSemantics text filePath) ->
                  sem_uri s = UriFile filePath /\ sem_line s < List.length lines)
    /\ (forall d, In d (extractMacrosWithComments text) -> def_line d < List.length lines).
Proof.
  intros text filePath lines. repeat split.
  - revert name p H. unfold extractFunctionDeclarations. fold lines.
    apply (foldLines_invariant
             (fun s => forall name p, JsMap.get name (fs_results s) = Some p ->
                                      pos_uri p = UriFile filePath)).
    + intros name p H. discriminate.
    + intros i line s Hi Hs name p. unfold functionDeclStep.
      repeat match goal with
             | |- context [if ?c then _ else _] => destruct c
             | |- context [match ?x with Some _ => _ | None => _ end] => destruct x
             | |- context [let '(_, _) := ?x in _] => destruct x
             end; cbn [fs_results]; try apply Hs.
      all: intros H; apply get_setIfAbsent_inv in H; destruct H as [H | [_ ->]];
        [now apply (Hs name) | reflexivity].
  - revert name p H. unfold extractFunctionDeclarations. fold lines.
    apply (foldLines_invariant
             (fun s => forall name p, JsMap.get name (fs_results s) = Some p ->
                         exists line, nth_error lines (pos_line p) = Some line
                                      /\ JS.indexOf line name = Z.of_nat (pos_column p))).
    + intros name p H. discriminate.
    + intros i line s Hi Hs name p. unfold functionDeclStep.
      destruct (JS.startsWith "//" (JS.trim line) || JS.startsWith "/*" (JS.trim line));
        [apply Hs |].
      destruct (Regex.exec reStructOrClass line); cbv zeta iota beta.
      all: repeat match goal with
                  | |- context [if ?c then _ else _] => destruct c eqn:?
                  | |- context [match ?x with Some _ => _ | None => _ end] => destruct x
                  end; cbn [fs_results]; try apply Hs.
      all: intros H; apply get_setIfAbsent_inv in H; destruct H as [H | [-> ->]];
        [now apply (Hs name) |].
      all: exists line; split; [exact Hi |]; cbn [pos_column];
        match goal with
        | Hpos : (0 <=? ?z)%Z = true |- _ => apply Z.leb_le in Hpos; now rewrite Z2Nat.id
        end.
  - revert name o H. unfold extractOptionDeclarations. fold lines.
    apply (foldLines_invariant
             (fun s : bool * JsMap.t OptionDecl =>
                forall name o, JsMap.get name (snd s) = Some o -> opt_name o = name)).
    + intros name o H. discriminate.
    + intros i line [c results] Hi Hs name o. unfold optionDeclStep.
      destruct (stripComments c line) as [inComment [p |]]; [| apply Hs].
      destruct (negb (JS.truthy p)); [apply Hs |].
      destruct (Regex.exec reOptionDecl p); [| apply Hs]. cbn [snd].
      intros H. apply get_setIfAbsent_inv in H. destruct H as [H | [-> ->]];
        [now apply (Hs name) | reflexivity].
  - revert name o H. unfold extractOptionDeclarations. fold lines.
    apply (foldLines_invariant
             (fun s : bool * JsMap.t OptionDecl =>
                forall name o, JsMap.get name (snd s) = Some o ->
                               opt_uri o = UriFile filePath)).
    + intros name o H. discriminate.
    + intros i line [c results] Hi Hs name o. unfold optionDeclStep.
      destruct (stripComments c line) as [inComment [p |]]; [| apply Hs].
      destruct (negb (JS.truthy p)); [apply Hs |].
      destruct (Regex.exec reOptionDecl p); [| apply Hs]. cbn [snd].
      intros H. apply get_setIfAbsent_inv in H. destruct H as [H | [_ ->]];
        [now apply (Hs name) | reflexivity].
  - revert name o H. unfold extractOptionDeclarations. fold lines.
    apply (foldLines_invariant
             (fun s : bool * JsMap.t OptionDecl =>
                forall name o, JsMap.get name (snd s) = Some o ->
                               opt_line o < List.length lines)).
    + intros name o H. discriminate.
    + intros i line [c results] Hi Hs name o. unfold optionDeclStep.
      destruct (stripComments c line) as [inComment [p |]]; [| apply Hs].
      destruct (negb (JS.truthy p)); [apply Hs |].
      destruct (Regex.exec reOptionDecl p); [| apply Hs]. cbn [snd].
      intros H. apply get_setIfAbsent_inv in H. destruct H as [H | [_ ->]];
        [now apply (Hs name) | exact (nth_error_length _ _ _ Hi)].
  - revert s H. unfold extractSrgSemantics. fold lines.
    apply (foldLines_invariant
             (fun results => forall s, In s results -> sem_uri s = UriFile filePath)).
    + intros s [].
    + intros i line results Hi Hs s.
      destruct (Regex.exec reSrgSemantic line); [| apply Hs].
      intros H. apply in_app_or in H. destruct H as [H | [<- | []]];
        [now apply Hs | reflexivity].
  - revert s H. unfold extractSrgSemantics. fold lines.
    apply (foldLines_invariant
             (fun results => forall s, In s results -> sem_line s < List.length lines)).
    + intros s [].
    + intros i line results Hi Hs s.
      destruct (Regex.exec reSrgSemantic line); [| apply Hs].
      intros H. apply in_app_or in H. destruct H as [H | [<- | []]];
        [now apply Hs | exact (nth_error_length _ _ _ Hi)].
  - unfold extractMacrosWithComments. fold lines.
    apply (foldLines_invariant
             (fun results => forall d, In d results -> def_line d < List.length lines)).
    + apply (foldLines_invariant
               (fun results => forall d, In d results -> def_line d < List.length lines)).
      * intros d [].
      * intros i line results Hi Hs d.
        destruct (Regex.exec reDefineOptValue line); [| apply Hs].
        intros H. apply in_app_or in H. destruct H as [H | [<- | []]];
          [now apply Hs | exact (nth_error_length _ _ _ Hi)].
    + intros i line results Hi Hs d.
      destruct (Regex.exec reIfndef line); [| apply Hs].
      destruct (findGuardedDefine _ _ _ _) as [[defLine dm] |] eqn:E; [| apply Hs].
      intros H. apply in_app_or in H. destruct H as [H | [<- | []]]; [now apply Hs |].
      apply findGuardedDefine_line in E. cbn [def_line].
      rewrite length_skipn in E. pose proof (nth_error_length _ _ _ Hi). lia.
Qed.

Lemma scanned_locations_witness :
  let text := textOf ["float4 helper(float x)"; "{"; "    return x;"; "}"] in
  let p := mkPosition (UriFile "/gem/lib.azsli") 0 7 in
  JsMap.get "helper" (extractFunctionDeclarations text "/gem/lib.azsli") = Some p
  /\ pos_uri p = UriFile "/gem/lib.azsli"
  /\ exists line, nth_error (JS.splitLines text) (pos_line p) = Some line
                  /\ JS.indexOf line "helper" = Z.of_nat (pos_column p).
Proof.
  intros text p.
  assert (H : JsMap.get "helper" (extractFunctionDeclarations text "/gem/lib.azsli") = Some p)
    by (vm_compute; reflexivity).
  split; [exact H |].
  exact (proj1 (scanned_locations_are_lines_of_the_text text "/gem/lib.azsli") "helper" p H).
Defined.

(* ===================================================================== *)
(** ** Properties of the include resolution *)
(* ===================================================================== *)

Lemma paths_ingestFile (h : Host) (f : string) (st : Index) :
  headersPathIndex (ingestFile h f st) = headersPathIndex st
  /\ headersBasenameIndex (ingestFile h f st) = headersBasenameIndex st.
Proof.
  destruct (readFileSync h f) as [buf |] eqn:Hread.
  2: { unfold ingestFile. now rewrite Hread. }
  rewrite (ingestFile_unfold h f buf st Hread). cbv zeta.
  set (st5 := ingestSrgSemantics _ _).
  assert (H5 : headersPathIndex st5 = headersPathIndex st
               /\ headersBasenameIndex st5 = headersBasenameIndex st)
    by (subst st5; through_setters; split; reflexivity).
  destruct (ingestSrgs_shape (extractSrgDeclarations h buf f) st5) as (a & b & c & ->).
  destruct (extractStructDeclarations buf f) as [structDecls |]; [| exact H5].
  through_setters.
  destruct (ingestStructs_shape structDecls
              (setSrgMemberIndex a (setSrgMembers b (setSrgIndex c st5)))) as (sm & si & ->).
  exact H5.
Qed.

Lemma paths_ingestFiles (h : Host) (root : string) (files : list string) (st : Index) :
  let st' := fold_left (fun acc f => recordPath h root f (ingestFile h f acc)) files st in
  (headersPathIndex st', headersBasenameIndex st')
  = recordPaths h root files (headersPathIndex st, headersBasenameIndex st).
Proof.
  unfold recordPaths. revert st.
  induction files as [| f files IH]; intros st; simpl; [reflexivity |].
  rewrite IH. unfold recordPath. through_setters.
  destruct (paths_ingestFile h f st) as [-> ->]. reflexivity.
Qed.

Lemma paths_indexHeaders (h : Host) (rootPath : option string) (st : Index) :
  (headersPathIndex (indexHeaders h rootPath st),
   headersBasenameIndex (indexHeaders h rootPath st))
  = match rootPath with
    | Some root => recordPaths h root (corpusFiles h rootPath) ([], [])
    | None => ([], [])
    end.
Proof.
  unfold indexHeaders, corpusFiles.
  destruct rootPath as [root |]; [| reflexivity].
  destruct (negb (JS.truthy root) || negb (existsSync h root)); [reflexivity |].
  pose proof (paths_ingestFiles h root (walkDirCollect h root) (clearAndSeed st)) as H.
  cbv zeta in H.
  change (headersPathIndex (clearAndSeed st), headersBasenameIndex (clearAndSeed st))
    with (@nil (string * string), @nil (string * list string)) in H.
  rewrite <- H. unfold indexShaderQualityMacros.
  destruct (qualityMacroTarget _); [| reflexivity].
  destruct (readFileSync h _); reflexivity.
Qed.

Lemma in_set {V : Type} (k k0 : string) (v v0 : V) (m : JsMap.t V) :
  In (k0, v0) (JsMap.set k v m) -> In (k0, v0) m \/ (k0 = k /\ v0 = v).
Proof.
  induction m as [| [k' v'] m IH]; simpl.
  - intros [H | []]. injection H as <- <-. now right.
  - destruct (String.eqb k k') eqn:E; simpl.
    + apply String.eqb_eq in E. subst k'.
      intros [H | H]; [injection H as <- <-; now right | left; now right].
    + intros [H | H]; [left; now left |].
      destruct (IH H) as [H' | H']; [left; now right | now right].
Qed.

Lemma get_in {V : Type} (k : string) (v : V) (m : JsMap.t V) :
  JsMap.get k m = Some v -> In (k, v) m.
Proof.
  induction m as [| [k' v'] m IH]; simpl; [discriminate |].
  destruct (String.eqb k k') eqn:E.
  - apply String.eqb_eq in E. subst k'. intros H. injection H as ->. now left.
  - intros H. right. now apply IH.
Qed.

Lemma findBySuffix_in (entries : JsMap.t string) (suffix found : string) :
  findBySuffix entries suffix = Some found -> exists rel, In (rel, found) entries.
Proof.
  induction entries as [| [rel abs] entries IH]; cbn [findBySuffix]; [discriminate |].
  destruct (JS.endsWith rel ("/" ++ suffix) || String.eqb rel suffix).
  - intros H. injection H as ->. exists rel. now left.
  - intros H. destruct (IH H) as (rel' & Hin). exists rel'. now right.
Qed.

Lemma findByRelativePath_in (h : Host) (root normalized : string) (byBase : list string)
  (found : string) :
  findByRelativePath h root normalized byBase = Some found -> In found byBase.
Proof.
  induction byBase as [| c byBase IH]; cbn [findByRelativePath]; [discriminate |].
  cbv zeta.
  destruct (JS.endsWith _ normalized || String.eqb _ normalized).
  - intros H. injection H as ->. now left.
  - destruct (JS.startsWith "Atom/" normalized && _).
    + intros H. injection H as ->. now left.
    + intros H. right. now apply IH.
Qed.

(** The path tables hold files of the corpus only. *)
Lemma recordPaths_files (h : Host) (root : string) (files : list string) :
  forall (t : JsMap.t string * JsMap.t (list string)) (all : list string),
    (forall f, In f files -> In f all) ->
    (forall rel abs, In (rel, abs) (fst t) -> In abs all) ->
    (forall base l f, In (base, l) (snd t) -> In f l -> In f all) ->
    (forall rel abs, In (rel, abs) (fst (recordPaths h root files t)) -> In abs all)
    /\ (forall base l f, In (base, l) (snd (recordPaths h root files t)) -> In f l ->
                         In f all).
Proof.
  unfold recordPaths.
  induction files as [| f files IH]; intros t all Hfiles Hfst Hsnd; simpl; [now split |].
  apply IH.
  - intros f' Hf'. apply Hfiles. now right.
  - cbn [fst]. intros rel abs H. apply in_set in H. destruct H as [H | [_ ->]].
    + now apply (Hfst rel).
    + apply Hfiles. now left.
  - cbn [snd]. intros base l f' H Hf'. apply in_set in H. destruct H as [H | [_ ->]].
    + now apply (Hsnd base l).
    + apply in_app_or in Hf'. destruct Hf' as [Hf' | [<- | []]].
      * destruct (JsMap.get (pathBasename h f) (snd t)) as [l0 |] eqn:E; [| destruct Hf'].
        apply (Hsnd (pathBasename h f) l0); [now apply get_in | exact Hf'].
      * apply Hfiles. now left.
Qed.

(** X16: After [indexHeaders], whatever an include resolves to is a file that
    exists or a file of the indexed corpus; without a configured root
    nothing resolves. *)
Theorem includes_resolve_to_known_files :
  forall (h : Host) (pathJoin : string -> string -> string) (root rootPath : option string)
         (st0 : Index) (includeText found : string),
    resolveIncludeTarget h pathJoin root (indexHeaders h rootPath st0) includeText
    = Some found ->
    (exists r, root = Some r /\ JS.truthy r = true)
    /\ (existsSync h found = true \/ In found (corpusFiles h rootPath)).
Proof.
  intros h pathJoin root rootPath st0 includeText found.
  pose proof (paths_indexHeaders h rootPath st0) as Hpaths.
  assert (Hall : (forall rel abs,
                     In (rel, abs) (headersPathIndex (indexHeaders h rootPath st0)) ->
                     In abs (corpusFiles h rootPath))
                 /\ (forall base l f,
                       In (base, l) (headersBasenameIndex (indexHeaders h rootPath st0)) ->
                       In f l -> In f (corpusFiles h rootPath))).
  { pose proof (f_equal fst Hpaths) as H1. pose proof (f_equal snd Hpaths) as H2.
    cbn [fst snd] in H1, H2. rewrite H1, H2. destruct rootPath as [r |].
    - apply recordPaths_files; [auto | intros ? ? [] | intros ? ? ? []].
    - split; [intros ? ? [] | intros ? ? ? []]. }
  destruct Hall as [Hfst Hsnd]. clear Hpaths.
  set (st := indexHeaders h rootPath st0) in *.
  unfold resolveIncludeTarget.
  destruct root as [r |]; [| discriminate].
  destruct (JS.truthy r) eqn:Er; cbn [negb]; [| discriminate].
  cbv zeta. intros H. split; [now exists r |].
  set (normalized := normalizeSlashes includeText) in *.
  assert (Hget : forall k v, JsMap.get k (headersPathIndex st) = Some v ->
                             In v (corpusFiles h rootPath)).
  { intros k v Hk. apply (Hfst k). now apply get_in. }
  assert (Hsuffix : forall s v, findBySuffix (headersPathIndex st) s = Some v ->
                                In v (corpusFiles h rootPath)).
  { intros s v Hs. apply findBySuffix_in in Hs. destruct Hs as (rel & Hrel).
    now apply (Hfst rel). }
  assert (Hbase : forall byBase,
             JsMap.get (pathBasename h normalized) (headersBasenameIndex st) = Some byBase ->
             match byBase with
             | [only] => Some only
             | _ => findByRelativePath h r normalized byBase
             end = Some found ->
             In found (corpusFiles h rootPath)).
  { intros byBase E5 Hf. apply get_in in E5.
    destruct byBase as [| only [| second rest]].
    - discriminate.
    - injection Hf as Hf. apply (Hsnd _ _ found E5). now left.
    - apply findByRelativePath_in in Hf. now apply (Hsnd _ _ found E5). }
  assert (Hrest : match JsMap.get normalized (headersPathIndex st) with
                  | Some f => Some f
                  | None =>
                      match findBySuffix (headersPathIndex st) normalized with
                      | Some f => Some f
                      | None =>
                          match JsMap.get (pathBasename h normalized)
                                  (headersBasenameIndex st) with
                          | Some [only] => Some only
                          | Some byBase => findByRelativePath h r normalized byBase
                          | None => None
                          end
                      end
                  end = Some found ->
                  In found (corpusFiles h rootPath)).
  { destruct (JsMap.get normalized (headersPathIndex st)) eqn:E3.
    { intros Hf. injection Hf as Hf. rewrite <- Hf. now apply (Hget _ _ E3). }
    destruct (findBySuffix (headersPathIndex st) normalized) eqn:E4.
    { intros Hf. injection Hf as Hf. rewrite <- Hf. now apply (Hsuffix _ _ E4). }
    destruct (JsMap.get (pathBasename h normalized) (headersBasenameIndex st))
      as [byBase |] eqn:E5; [| discriminate].
    apply (Hbase byBase eq_refl). }
  destruct (JS.startsWith "Atom/" normalized); [| right; now apply Hrest].
  destruct (existsSync h (pathJoin r (JS.substringFrom normalized 5))) eqn:Eexists.
  { injection H as Hf. rewrite <- Hf. now left. }
  destruct (JsMap.get (JS.substringFrom normalized 5) (headersPathIndex st)) eqn:E1.
  { injection H as Hf. rewrite <- Hf. right. now apply (Hget _ _ E1). }
  destruct (findBySuffix (headersPathIndex st) (JS.substringFrom normalized 5)) eqn:E2.
  { injection H as Hf. rewrite <- Hf. right. now apply (Hsuffix _ _ E2). }
  right. now apply Hrest.
Qed.

Lemma recordPaths_kept (h : Host) (root : string) (files : list string) :
  forall (t : JsMap.t string * JsMap.t (list string)) (k v : string),
    JsMap.get k (fst t) = Some v ->
    exists v', JsMap.get k (fst (recordPaths h root files t)) = Some v'
               /\ (v' = v \/ (In v' files /\ pathRelative h root v' = k)).
Proof.
  unfold recordPaths.
  induction files as [| f files IH]; intros t k v H; simpl; [exists v; now split; [| left] |].
  destruct (String.eqb k (pathRelative h root f)) eqn:E.
  - apply String.eqb_eq in E. subst k.
    destruct (IH (JsMap.set (pathRelative h root f) f (fst t),
                  JsMap.set (pathBasename h f)
                    (match JsMap.get (pathBasename h f) (snd t) with
                     | Some l => l
                     | None => []
                     end ++ [f])%list (snd t))
                 (pathRelative h root f) f) as (v' & Hv' & Hor).
    { cbn [fst]. apply get_set_same. }
    exists v'. split; [exact Hv' |]. right.
    destruct Hor as [-> | [Hin Hrel]]; [split; [now left | reflexivity] |].
    split; [now right | exact Hrel].
  - apply String.eqb_neq in E.
    destruct (IH (JsMap.set (pathRelative h root f) f (fst t),
                  JsMap.set (pathBasename h f)
                    (match JsMap.get (pathBasename h f) (snd t) with
                     | Some l => l
                     | None => []
                     end ++ [f])%list (snd t))
                 k v) as (v' & Hv' & Hor).
    { cbn [fst]. now rewrite get_set_other. }
    exists v'. split; [exact Hv' |].
    destruct Hor as [-> | [Hin Hrel]]; [now left |]. right. split; [now right | exact Hrel].
Qed.

(** Every file of the corpus has an entry under its relative path. *)
Lemma recordPaths_indexed (h : Host) (root : string) (files : list string) :
  forall (t : JsMap.t string * JsMap.t (list string)) (f : string),
    In f files ->
    exists f', JsMap.get (pathRelative h root f) (fst (recordPaths h root files t)) = Some f'
               /\ In f' files /\ pathRelative h root f' = pathRelative h root f.
Proof.
  induction files as [| f0 files IH]; intros t f Hin; [destruct Hin |].
  destruct Hin as [-> | Hin].
  - destruct (recordPaths_kept h root files
                (JsMap.set (pathRelative h root f) f (fst t),
                 JsMap.set (pathBasename h f)
                   (match JsMap.get (pathBasename h f) (snd t) with
                    | Some l => l
                    | None => []
                    end ++ [f])%list (snd t))
                (pathRelative h root f) f) as (v' & Hv' & Hor).
    { cbn [fst]. apply get_set_same. }
    exists v'. split; [exact Hv' |].
    destruct Hor as [-> | [Hin Hrel]]; [split; [now left | reflexivity] |].
    split; [now right | exact Hrel].
  - destruct (IH (JsMap.set (pathRelative h root f0) f0 (fst t),
                  JsMap.set (pathBasename h f0)
                    (match JsMap.get (pathBasename h f0) (snd t) with
                     | Some l => l
                     | None => []
                     end ++ [f0])%list (snd t)) f Hin) as (f' & Hf' & Hin' & Hrel).
    exists f'. split; [exact Hf' |]. split; [now right | exact Hrel].
Qed.

(** X17: After [indexHeaders] over a root, an include whose text, with its
    backslashes turned into slashes, is the relative path of a file of the
    corpus, and does not start with [Atom/], resolves to the file recorded
    under that relative path. *)
Theorem indexed_files_resolve_by_relative_path :
  forall (h : Host) (pathJoin : string -> string -> string) (root : string) (st0 : Index)
         (f includeText : string),
    JS.truthy root = true ->
    existsSync h root = true ->
    In f (walkDirCollect h root) ->
    normalizeSlashes includeText = pathRelative h root f ->
    JS.startsWith "Atom/" (pathRelative h root f) = false ->
    exists f',
      resolveIncludeTarget h pathJoin (Some root) (indexHeaders h (Some root) st0) includeText
      = Some f'
      /\ In f' (walkDirCollect h root)
      /\ pathRelative h root f' = pathRelative h root f.
Proof.
  intros h pathJoin root st0 f includeText Hroot Hexists Hin Hnorm Hatom.
  pose proof (f_equal fst (paths_indexHeaders h (Some root) st0)) as Hpaths.
  cbn [fst] in Hpaths.
  assert (Hfiles : corpusFiles h (Some root) = walkDirCollect h root).
  { unfold corpusFiles. now rewrite Hroot, Hexists. }
  rewrite Hfiles in Hpaths.
  destruct (recordPaths_indexed h root (walkDirCollect h root) ([], []) f Hin)
    as (f' & Hget & Hin' & Hrel).
  exists f'. split; [| now split].
  unfold resolveIncludeTarget. rewrite Hroot. cbn [negb]. cbv zeta.
  rewrite Hnorm, Hatom, Hpaths, Hget. reflexivity.
Qed.

Lemma indexed_files_resolve_witness :
  let h := hostOf includeCorpus in
  let pathJoin := fun a b : string => a ++ "/" ++ b in
  JS.truthy "/gem" = true
  /\ existsSync h "/gem" = true
  /\ In "Features/PBR.azsli" (walkDirCollect h "/gem")
  /\ normalizeSlashes "Features\PBR.azsli" = pathRelative h "/gem" "Features/PBR.azsli"
  /\ JS.startsWith "Atom/" (pathRelative h "/gem" "Features/PBR.azsli") = false
  /\ exists f',
       resolveIncludeTarget h pathJoin (Some "/gem") (indexHeaders h (Some "/gem") initialIndex)
         "Features\PBR.azsli" = Some f'
       /\ In f' (walkDirCollect h "/gem")
       /\ pathRelative h "/gem" f' = pathRelative h "/gem" "Features/PBR.azsli".
Proof.
  intros h pathJoin.
  assert (H1 : JS.truthy "/gem" = true) by reflexivity.
  assert (H2 : existsSync h "/gem" = true) by reflexivity.
  assert (H3 : In "Features/PBR.azsli" (walkDirCollect h "/gem")) by (simpl; tauto).
  assert (H4 : normalizeSlashes "Features\PBR.azsli"
               = pathRelative h "/gem" "Features/PBR.azsli") by (vm_compute; reflexivity).
  assert (H5 : JS.startsWith "Atom/" (pathRelative h "/gem" "Features/PBR.azsli") = false)
    by (vm_compute; reflexivity).
  do 5 (split; [assumption |]).
  exact (indexed_files_resolve_by_relative_path h pathJoin "/gem" initialIndex
           "Features/PBR.azsli" "Features\PBR.azsli" H1 H2 H3 H4 H5).
Defined.

Lemma includes_resolve_witness :
  let h := hostOf includeCorpus in
  let pathJoin := fun a b : string => a ++ "/" ++ b in
  let st := indexHeaders h (Some "/gem") initialIndex in
  resolveIncludeTarget h pathJoin (Some "/gem") st "Atom/Features/PBR.azsli"
  = Some "/gem/Features/PBR.azsli"
  /\ (exists r, Some "/gem" = Some r /\ JS.truthy r = true)
  /\ (existsSync h "/gem/Features/PBR.azsli" = true
      \/ In "/gem/Features/PBR.azsli" (corpusFiles h (Some "/gem"))).
Proof.
  intros h pathJoin st.
  assert (H : resolveIncludeTarget h pathJoin (Some "/gem") st "Atom/Features/PBR.azsli"
              = Some "/gem/Features/PBR.azsli") by (vm_compute; reflexivity).
  split; [exact H |].
  exact (includes_resolve_to_known_files h pathJoin (Some "/gem") (Some "/gem") initialIndex
           "Atom/Features/PBR.azsli" "/gem/Features/PBR.azsli" H).
Defined.

(* ===================================================================== *)
(** ** Completeness of the index *)
(* ===================================================================== *)

Lemma structIndex_ingestStructs (decls : StructDecls) (st : Index) :
  structIndex (ingestStructs decls st)
  = fold_left
      (fun m entry =>
         setIfAbsent (fst entry)
           (mkLocation (struct_uri (snd entry)) (struct_line (snd entry))) m)
      (sd_structs decls) (structIndex st).
Proof.
  unfold ingestStructs. revert st.
  induction (sd_structs decls) as [| e l IH]; intros st; simpl; [reflexivity |].
  rewrite IH. reflexivity.
Qed.

Lemma ingestFile_tables (h : Host) (f buf : string) (st : Index) :
  readFileSync h f = Some buf ->
  let st' := ingestFile h f st in
  indexedSymbols st' = JsSet.addAll (extractSymbolsFromText buf) (indexedSymbols st)
  /\ macroIndex st'
     = fold_left (fun m d => mergeMacro (UriFile f) d m) (extractMacrosWithComments buf)
         (macroIndex st)
  /\ srgSemanticIndex st'
     = fold_left (fun m s => JsMap.set (sem_name s) (mkLocation (sem_uri s) (sem_line s)) m)
         (extractSrgSemantics buf f) (srgSemanticIndex st)
  /\ match extractStructDeclarations buf f with
     | None =>
         structIndex st' = structIndex st
         /\ functionIndex st' = functionIndex st
         /\ optionIndex st' = optionIndex st
     | Some decls =>
         structIndex st'
         = fold_left
             (fun m entry =>
                setIfAbsent (fst entry)
                  (mkLocation (struct_uri (snd entry)) (struct_line (snd entry))) m)
             (sd_structs decls) (structIndex st)
         /\ functionIndex st'
            = addAbsent (extractFunctionDeclarations buf f) (functionIndex st)
         /\ optionIndex st'
            = fold_left
                (fun m entry =>
                   setIfAbsent (fst entry)
                     (mkOptionEntry (opt_uri (snd entry)) (opt_line (snd entry))
                        (opt_isStatic (snd entry))) m)
                (extractOptionDeclarations buf f) (optionIndex st)
     end.
Proof.
  intros Hread. cbv zeta.
  rewrite (ingestFile_unfold h f buf st Hread). cbv zeta.
  set (st5 := ingestSrgSemantics _ _).
  assert (H5 : indexedSymbols st5
               = JsSet.addAll (extractSymbolsFromText buf) (indexedSymbols st)
               /\ macroIndex st5
                  = fold_left (fun m d => mergeMacro (UriFile f) d m)
                      (extractMacrosWithComments buf) (macroIndex st)
               /\ srgSemanticIndex st5
                  = fold_left
                      (fun m s =>
                         JsMap.set (sem_name s) (mkLocation (sem_uri s) (sem_line s)) m)
                      (extractSrgSemantics buf f) (srgSemanticIndex st)
               /\ structIndex st5 = structIndex st
               /\ functionIndex st5 = functionIndex st
               /\ optionIndex st5 = optionIndex st)
    by (subst st5; through_setters; repeat split; reflexivity).
  destruct H5 as (Hsym & Hmac & Hsem & Hstruct & Hfun & Hopt).
  destruct (ingestSrgs_shape (extractSrgDeclarations h buf f) st5) as (a & b & c & ->).
  destruct (extractStructDeclarations buf f) as [structDecls |].
  2: { through_setters. repeat split; assumption. }
  through_setters.
  pose proof (structIndex_ingestStructs structDecls
                (setSrgMemberIndex a (setSrgMembers b (setSrgIndex c st5)))) as Hs.
  destruct (ingestStructs_shape structDecls
              (setSrgMemberIndex a (setSrgMembers b (setSrgIndex c st5)))) as (sm & si & E).
  rewrite E in Hs |- *. through_setters. cbn [structIndex setStructMembers setStructIndex] in Hs.
  rewrite Hsym, Hmac, Hsem, Hfun, Hopt, Hs.
  change (structIndex (setSrgMemberIndex a (setSrgMembers b (setSrgIndex c st5))))
    with (structIndex st5).
  rewrite Hstruct. repeat split; reflexivity.
Qed.

Lemma keepsNames_refl (a : Index) : keepsNames a a.
Proof. intros name. repeat split; trivial. Qed.

Lemma keepsNames_trans (a b c : Index) : keepsNames a b -> keepsNames b c -> keepsNames a c.
Proof.
  intros Hab Hbc name.
  destruct (Hab name) as (H1 & H2 & H3 & H4 & H5 & H6).
  destruct (Hbc name) as (K1 & K2 & K3 & K4 & K5 & K6).
  repeat split; auto.
Qed.

(** A fold of a merge step that never removes a key, and that leaves the key
    of the entry it merges present. *)
Lemma has_fold_left {V E : Type} (g : JsMap.t V -> E -> JsMap.t V) (key : E -> string) :
  (forall m e k, JsMap.has k m = true -> JsMap.has k (g m e) = true) ->
  (forall m e, JsMap.has (key e) (g m e) = true) ->
  forall (l : list E) (m : JsMap.t V),
    (forall k, JsMap.has k m = true -> JsMap.has k (fold_left g l m) = true)
    /\ (forall e, In e l -> JsMap.has (key e) (fold_left g l m) = true).
Proof.
  intros Hkept Hsame.
  induction l as [| e0 l IH]; intros m; simpl.
  - split; [trivial | intros e []].
  - destruct (IH (g m e0)) as [IHk IHs]. split.
    + intros k Hk. apply IHk, Hkept, Hk.
    + intros e [-> | Hin]; [apply IHk, Hsame | apply IHs, Hin].
Qed.

Lemma has_mergeMacro_kept (uri : Uri) (d : MacroDef) (m : JsMap.t MacroEntry) (k : string) :
  JsMap.has k m = true -> JsMap.has k (mergeMacro uri d m) = true.
Proof.
  intros H. unfold mergeMacro.
  destruct (match JsMap.get (def_name d) m with
            | Some existing => richerDoc (def_doc d) existing
            | None => true
            end); [now apply has_set_kept | exact H].
Qed.

Lemma has_mergeMacro_same (uri : Uri) (d : MacroDef) (m : JsMap.t MacroEntry) :
  JsMap.has (def_name d) (mergeMacro uri d m) = true.
Proof.
  unfold mergeMacro.
  destruct (JsMap.get (def_name d) m) as [existing |] eqn:E.
  - destruct (richerDoc (def_doc d) existing); [apply has_set_same |].
    unfold JsMap.has. now rewrite E.
  - apply has_set_same.
Qed.

Lemma has_mergeGuardedQualityMacro_kept (uri : Uri) (name value doc : string) (line : nat)
  (m : JsMap.t MacroEntry) (k : string) :
  JsMap.has k m = true ->
  JsMap.has k (mergeGuardedQualityMacro uri name value doc line m) = true.
Proof.
  intros H. unfold mergeGuardedQualityMacro.
  destruct (match JsMap.get name m with
            | Some existing => JS.truthy doc && (String.length (macro_doc existing) =? 0)
            | None => true
            end); [now apply has_set_kept | exact H].
Qed.

(** A file that is read leaves every name of the six tables in place and
    adds what its scans find. *)
Lemma keepsNames_ingestFile (h : Host) (f : string) (st : Index) :
  keepsNames st (ingestFile h f st).
Proof.
  destruct (readFileSync h f) as [buf |] eqn:Hread.
  2: { unfold ingestFile. rewrite Hread. apply keepsNames_refl. }
  destruct (ingestFile_tables h f buf st Hread) as (Hsym & Hmac & Hsem & Hrest).
  intros name. rewrite Hsym, Hmac, Hsem.
  split; [| split; [| split]].
  - intros H. rewrite has_addAll, H. reflexivity.
  - apply (has_fold_left (fun m d => mergeMacro (UriFile f) d m) def_name).
    + intros m e k. apply has_mergeMacro_kept.
    + intros m e. apply has_mergeMacro_same.
  - apply (has_fold_left
             (fun m s => JsMap.set (sem_name s) (mkLocation (sem_uri s) (sem_line s)) m)
             sem_name).
    + intros m e k. apply has_set_kept.
    + intros m e. apply has_set_same.
  - destruct (extractStructDeclarations buf f) as [decls |].
    + destruct Hrest as (Hs & Hf & Ho). rewrite Hs, Hf, Ho.
      split; [| split].
      * apply (has_fold_left
                 (fun m entry =>
                    setIfAbsent (fst entry)
                      (mkLocation (struct_uri (snd entry)) (struct_line (snd entry))) m)
                 fst).
        -- intros m e k. apply has_setIfAbsent_kept.
        -- intros m e. apply has_setIfAbsent_same.
      * apply has_addAbsent_kept.
      * apply (has_fold_left
                 (fun m entry =>
                    setIfAbsent (fst entry)
                      (mkOptionEntry (opt_uri (snd entry)) (opt_line (snd entry))
                         (opt_isStatic (snd entry))) m)
                 fst).
        -- intros m e k. apply has_setIfAbsent_kept.
        -- intros m e. apply has_setIfAbsent_same.
    + destruct Hrest as (Hs & Hf & Ho). rewrite Hs, Hf, Ho. repeat split; trivial.
Qed.

Lemma keepsNames_recordPath (h : Host) (root f : string) (st : Index) :
  keepsNames st (recordPath h root f st).
Proof. intros name. through_setters. repeat split; trivial. Qed.

Lemma keepsNames_ingestFiles (h : Host) (root : string) (files : list string) (st : Index) :
  keepsNames st (fold_left (fun acc f => recordPath h root f (ingestFile h f acc)) files st).
Proof.
  revert st. induction files as [| f files IH]; intros st; simpl; [apply keepsNames_refl |].
  eapply keepsNames_trans; [| apply IH].
  eapply keepsNames_trans; [apply keepsNames_ingestFile | apply keepsNames_recordPath].
Qed.

Lemma keepsNames_indexShaderQualityMacros (h : Host) (st : Index) :
  keepsNames st (indexShaderQualityMacros h st).
Proof.
  unfold indexShaderQualityMacros.
  destruct (qualityMacroTarget st) as [target |]; [| apply keepsNames_refl].
  destruct (readFileSync h target) as [text |]; [| apply keepsNames_refl].
  cbv zeta. intros name. through_setters.
  split; [trivial | split; [| repeat split; trivial]].
  intros H.
  apply (foldLines_invariant (fun m => JsMap.has name m = true)).
  - apply (foldLines_invariant (fun m => JsMap.has name m = true)); [exact H |].
    intros i line m _ Hm.
    destruct (Regex.exec reDefineValue line); [now apply has_mergeMacro_kept | exact Hm].
  - intros i line m _ Hm.
    destruct (Regex.exec reIfndef line) as [ifndef |]; [| exact Hm].
    destruct (findGuardedDefine _ _ _ _) as [[defLine dm] |]; [| exact Hm].
    now apply has_mergeGuardedQualityMacro_kept.
Qed.

(** X18: Completeness of the index: after [indexHeaders], every symbol, macro and
    SRG semantic that the scanners find in a readable file of the corpus is
    in its table, and so is every struct, function and option of a file
    whose struct scan completes. *)
Theorem corpus_declarations_are_indexed :
  forall (h : Host) (root : string) (st0 : Index) (f buf : string),
    JS.truthy root = true ->
    existsSync h root = true ->
    In f (walkDirCollect h root) ->
    readFileSync h f = Some buf ->
    let st := indexHeaders h (Some root) st0 in
    (forall sym, JsSet.has sym (extractSymbolsFromText buf) = true ->
                 JsSet.has sym (indexedSymbols st) = true)
    /\ (forall d, In d (extractMacrosWithComments buf) ->
                  JsMap.has (def_name d) (macroIndex st) = true)
    /\ (forall s, In s (extractSrgSemantics buf f) ->
                  JsMap.has (sem_name s) (srgSemanticIndex st) = true)
    /\ (forall decls, extractStructDeclarations buf f = Some decls ->
          (forall entry, In entry (sd_structs decls) ->
                         JsMap.has (fst entry) (structIndex st) = true)
          /\ (forall name, JsMap.has name (extractFunctionDeclarations buf f) = true ->
                           JsMap.has name (functionIndex st) = true)
          /\ (forall name, JsMap.has name (extractOptionDeclarations buf f) = true ->
                           JsMap.has name (optionIndex st) = true)).
Proof.
  intros h root st0 f buf Htruthy Hexists Hin Hread. cbv zeta.
  unfold indexHeaders. rewrite Htruthy, Hexists. cbn [negb orb]. cbv zeta.
  destruct (in_split _ _ Hin) as (pre & post & ->).
  rewrite fold_left_app. cbn [fold_left].
  set (before := fold_left _ pre _).
  set (after := indexShaderQualityMacros _ _).
  assert (Hkeep : keepsNames (ingestFile h f before) after).
  { subst after.
    eapply keepsNames_trans; [| apply keepsNames_indexShaderQualityMacros].
    eapply keepsNames_trans; [apply keepsNames_recordPath | apply keepsNames_ingestFiles]. }
  destruct (ingestFile_tables h f buf before Hread) as (Hsym & Hmac & Hsem & Hrest).
  split; [| split; [| split]].
  - intros sym Hs. apply (Hkeep sym). rewrite Hsym, has_addAll.
    unfold JsSet.has in Hs. rewrite Hs. apply orb_true_r.
  - intros d Hd. apply (Hkeep (def_name d)). rewrite Hmac.
    apply (has_fold_left (fun m d => mergeMacro (UriFile f) d m) def_name); [| | exact Hd].
    + intros m e k. apply has_mergeMacro_kept.
    + intros m e. apply has_mergeMacro_same.
  - intros s Hs. apply (Hkeep (sem_name s)). rewrite Hsem.
    apply (has_fold_left
             (fun m s => JsMap.set (sem_name s) (mkLocation (sem_uri s) (sem_line s)) m)
             sem_name); [| | exact Hs].
    + intros m e k. apply has_set_kept.
    + intros m e. apply has_set_same.
  - intros decls Hdecls. rewrite Hdecls in Hrest. destruct Hrest as (Hs & Hf & Ho).
    split; [| split].
    + intros entry He. apply (Hkeep (fst entry)). rewrite Hs.
      apply (has_fold_left
               (fun m entry =>
                  setIfAbsent (fst entry)
                    (mkLocation (struct_uri (snd entry)) (struct_line (snd entry))) m)
               fst); [| | exact He].
      * intros m e k. apply has_setIfAbsent_kept.
      * intros m e. apply has_setIfAbsent_same.
    + intros name Hn. apply (Hkeep name). rewrite Hf.
      unfold JsMap.has in Hn.
      destruct (JsMap.get name (extractFunctionDeclarations buf f)) as [p |] eqn:E;
        [| discriminate].
      apply (has_addAbsent_entry _ _ (name, p)), get_in, E.
    + intros name Hn. apply (Hkeep name). rewrite Ho.
      unfold JsMap.has in Hn.
      destruct (JsMap.get name (extractOptionDeclarations buf f)) as [o |] eqn:E;
        [| discriminate].
      change name with (fst (name, o)).
      apply (has_fold_left
               (fun m entry =>
                  setIfAbsent (fst entry)
                    (mkOptionEntry (opt_uri (snd entry)) (opt_line (snd entry))
                       (opt_isStatic (snd entry))) m)
               fst); [| | apply get_in, E].
      * intros m e k. apply has_setIfAbsent_kept.
      * intros m e. apply has_setIfAbsent_same.
Qed.

Lemma corpus_declarations_witness :
  let h := hostOf structCorpus in
  let st := indexHeaders h (Some "/gem") initialIndex in
  JS.truthy "/gem" = true
  /\ existsSync h "/gem" = true
  /\ In "/gem/bc.azsli" (walkDirCollect h "/gem")
  /\ readFileSync h "/gem/bc.azsli" = Some structFileBC
  /\ (forall sym, JsSet.has sym (extractSymbolsFromText structFileBC) = true ->
                  JsSet.has sym (indexedSymbols st) = true)
  /\ JsMap.has "S" (structIndex st) = true.
Proof.
  intros h st.
  assert (H1 : JS.truthy "/gem" = true) by reflexivity.
  assert (H2 : existsSync h "/gem" = true) by reflexivity.
  assert (H3 : In "/gem/bc.azsli" (walkDirCollect h "/gem")) by (simpl; auto).
  assert (H4 : readFileSync h "/gem/bc.azsli" = Some structFileBC) by reflexivity.
  pose proof (corpus_declarations_are_indexed h "/gem" initialIndex "/gem/bc.azsli"
                structFileBC H1 H2 H3 H4) as (Hsym & _ & _ & Hdecls).
  repeat (split; [assumption |]).
  destruct (extractStructDeclarations structFileBC "/gem/bc.azsli") as [decls |] eqn:Hd;
    [| vm_compute in Hd; discriminate].
  assert (Hin : In "S" (map fst (sd_structs decls))).
  { vm_compute in Hd. injection Hd as <-. simpl. auto. }
  apply in_map_iff in Hin. destruct Hin as (entry & <- & Hin).
  exact (proj1 (Hdecls decls eq_refl) entry Hin).
Defined.

(* ===================================================================== *)
(** ** Properties of the expression types *)
(* ===================================================================== *)

Lemma take_append (w rest : string) : JS.take (String.length w) (w ++ rest) = w.
Proof. induction w as [| c w IH]; simpl; [now destruct rest | now rewrite IH]. Qed.

Lemma length_append (a b : string) :
  String.length (a ++ b) = String.length a + String.length b.
Proof. induction a as [| c a IH]; simpl; [reflexivity | now rewrite IH]. Qed.

(** A match of an expression without groups leaves the captures alone. *)
Lemma run_noGroups (r : Regex.re) :
  forall (R : Type) (st : Regex.mstate) (k : Regex.mstate -> option R) (x : R),
    noGroups r = true ->
    Regex.run r R st k = Some x ->
    exists st', Regex.ms_caps st' = Regex.ms_caps st /\ k st' = Some x.
Proof.
  induction r as [| c | | negated items | a IHa b IHb | a IHa b IHb | greedy a IHa
                  | n a IHa | | | | a IHa];
    intros R st k x Hng Hrun; cbn [noGroups] in Hng.
  - exists st. split; [reflexivity | exact Hrun].
  - cbn [Regex.run] in Hrun.
    destruct (Regex.ms_rest st) as [| d rest]; [discriminate |].
    destruct (Ascii.eqb c d); [| discriminate].
    exists (Regex.advance st d rest). split; [reflexivity | exact Hrun].
  - cbn [Regex.run] in Hrun.
    destruct (Regex.ms_rest st) as [| d rest]; [discriminate |].
    destruct (JS.isLineTerminator d); [discriminate |].
    exists (Regex.advance st d rest). split; [reflexivity | exact Hrun].
  - cbn [Regex.run] in Hrun.
    destruct (Regex.ms_rest st) as [| d rest]; [discriminate |].
    destruct (Regex.classMatches negated items d); [| discriminate].
    exists (Regex.advance st d rest). split; [reflexivity | exact Hrun].
  - cbn [Regex.run] in Hrun.
    apply andb_true_iff in Hng. destruct Hng as [Ha Hb].
    destruct (IHa R st _ x Ha Hrun) as (st1 & Hc1 & Hk1).
    destruct (IHb R st1 k x Hb Hk1) as (st2 & Hc2 & Hk2).
    exists st2. split; [congruence | exact Hk2].
  - cbn [Regex.run] in Hrun.
    apply andb_true_iff in Hng. destruct Hng as [Ha Hb].
    unfold Regex.orElse in Hrun.
    destruct (Regex.run a R st k) as [y |] eqn:Ea.
    + injection Hrun as ->. apply (IHa R st k x Ha Ea).
    + apply (IHb R st k x Hb Hrun).
  - pose (loop :=
            fix loop (n : nat) (st0 : Regex.mstate) {struct n} : option R :=
              match n with
              | O => k st0
              | S n' =>
                  let again :=
                    Regex.run a R st0
                      (fun st' =>
                         if Regex.ms_pos st0 <? Regex.ms_pos st' then loop n' st' else None) in
                  if greedy then Regex.orElse again (k st0) else Regex.orElse (k st0) again
              end).
    change (loop (S (String.length (Regex.ms_rest st))) st = Some x) in Hrun.
    revert Hrun. generalize (S (String.length (Regex.ms_rest st))). intros fuel.
    revert st. induction fuel as [| fuel IHf]; intros st Hrun.
    + exists st. split; [reflexivity | exact Hrun].
    + assert (Hagain :
                Regex.run a R st
                  (fun st' =>
                     if Regex.ms_pos st <? Regex.ms_pos st' then loop fuel st' else None)
                = Some x ->
                exists st', Regex.ms_caps st' = Regex.ms_caps st /\ k st' = Some x).
      { intros H. destruct (IHa R st _ x Hng H) as (st1 & Hc1 & Hk1).
        destruct (Regex.ms_pos st <? Regex.ms_pos st1); [| discriminate].
        destruct (IHf st1 Hk1) as (st2 & Hc2 & Hk2).
        exists st2. split; [congruence | exact Hk2]. }
      cbn [loop] in Hrun. fold loop in Hrun. cbv zeta in Hrun. unfold Regex.orElse in Hrun.
      destruct greedy.
      * destruct (Regex.run a R st _) as [y |] eqn:E in Hrun.
        -- injection Hrun as ->. apply Hagain, E.
        -- exists st. split; [reflexivity | exact Hrun].
      * destruct (k st) as [y |] eqn:E.
        -- injection Hrun as ->. exists st. split; [reflexivity | exact E].
        -- apply Hagain, Hrun.
  - discriminate.
  - cbn [Regex.run] in Hrun. destruct (Regex.ms_prev st); [discriminate |].
    exists st. split; [reflexivity | exact Hrun].
  - cbn [Regex.run] in Hrun. destruct (Regex.ms_rest st); [| discriminate].
    exists st. split; [reflexivity | exact Hrun].
  - cbn [Regex.run] in Hrun. destruct (xorb _ _); [| discriminate].
    exists st. split; [reflexivity | exact Hrun].
  - cbn [Regex.run] in Hrun. destruct (Regex.run a unit st _); [discriminate |].
    exists st. split; [reflexivity | exact Hrun].
Qed.

(** A match of an expression without quantifier and without group consumes
    one of its finitely many texts, advances by its length and leaves the
    captures alone. *)
Lemma run_finiteWords_plain (r : Regex.re) :
  forall (ws : list string) (R : Type) (st : Regex.mstate)
         (k : Regex.mstate -> option R) (x : R),
    finiteWords r = Some ws ->
    noGroups r = true ->
    Regex.run r R st k = Some x ->
    exists w st',
      In w ws /\ Regex.ms_rest st = w ++ Regex.ms_rest st'
      /\ Regex.ms_pos st' = Regex.ms_pos st + String.length w
      /\ Regex.ms_caps st' = Regex.ms_caps st
      /\ k st' = Some x.
Proof.
  induction r as [| c | | negated items | a IHa b IHb | a IHa b IHb | greedy a IHa
                  | n a IHa | | | | a IHa];
    intros ws R st k x Hws Hng Hrun;
    cbn [finiteWords] in Hws; cbn [noGroups] in Hng; cbn [Regex.run] in Hrun.
  - injection Hws as <-. exists "", st.
    split; [now left | split; [reflexivity | split; [simpl; lia | split; [reflexivity | exact Hrun]]]].
  - injection Hws as <-. destruct (Regex.ms_rest st) as [| d rest] eqn:E; [discriminate |].
    destruct (Ascii.eqb c d) eqn:Ec; [| discriminate].
    apply Ascii.eqb_eq in Ec. subst d.
    exists (String c ""), (Regex.advance st c rest).
    split; [now left | split; [reflexivity | split; [simpl; lia | split; [reflexivity | exact Hrun]]]].
  - remember (filter (fun c => negb (JS.isLineTerminator c)) allAscii) as l eqn:Hl.
    injection Hws as <-. destruct (Regex.ms_rest st) as [| d rest] eqn:E; [discriminate |].
    destruct (JS.isLineTerminator d) eqn:Ed; [discriminate |].
    exists (String d ""), (Regex.advance st d rest).
    split; [| split; [reflexivity | split; [simpl; lia | split; [reflexivity | exact Hrun]]]].
    apply (in_map (fun c => String c "")). rewrite Hl. apply filter_In.
    split; [apply in_allAscii | now rewrite Ed].
  - remember (filter (Regex.classMatches negated items) allAscii) as l eqn:Hl.
    injection Hws as <-. destruct (Regex.ms_rest st) as [| d rest] eqn:E; [discriminate |].
    destruct (Regex.classMatches negated items d) eqn:Ed; [| discriminate].
    exists (String d ""), (Regex.advance st d rest).
    split; [| split; [reflexivity | split; [simpl; lia | split; [reflexivity | exact Hrun]]]].
    apply (in_map (fun c => String c "")). rewrite Hl. apply filter_In.
    split; [apply in_allAscii | exact Ed].
  - apply andb_true_iff in Hng. destruct Hng as [Hna Hnb].
    destruct (finiteWords a) as [wa |]; [| discriminate].
    destruct (finiteWords b) as [wb |]; [| discriminate].
    injection Hws as <-.
    destruct (IHa wa R st _ x eq_refl Hna Hrun) as (w1 & st1 & Hw1 & Hr1 & Hp1 & Hc1 & Hk1).
    destruct (IHb wb R st1 k x eq_refl Hnb Hk1) as (w2 & st2 & Hw2 & Hr2 & Hp2 & Hc2 & Hk2).
    exists (w1 ++ w2), st2.
    split; [| split; [| split; [| split; [congruence | exact Hk2]]]].
    + apply in_flat_map. exists w1. split; [exact Hw1 |].
      now apply (in_map (fun y => w1 ++ y)).
    + rewrite Hr1, Hr2. symmetry. apply append_assoc.
    + rewrite Hp2, Hp1, length_append. lia.
  - apply andb_true_iff in Hng. destruct Hng as [Hna Hnb].
    destruct (finiteWords a) as [wa |]; [| discriminate].
    destruct (finiteWords b) as [wb |]; [| discriminate].
    injection Hws as <-. unfold Regex.orElse in Hrun.
    destruct (Regex.run a R st k) as [y |] eqn:Ea.
    + injection Hrun as ->.
      destruct (IHa wa R st k x eq_refl Hna Ea) as (w & st' & Hw & Hrest).
      exists w, st'. split; [apply in_or_app; now left | exact Hrest].
    + destruct (IHb wb R st k x eq_refl Hnb Hrun) as (w & st' & Hw & Hrest).
      exists w, st'. split; [apply in_or_app; now right | exact Hrest].
  - discriminate.
  - discriminate.
  - injection Hws as <-. destruct (Regex.ms_prev st); [discriminate |].
    exists "", st.
    split; [now left | split; [reflexivity | split; [simpl; lia | split; [reflexivity | exact Hrun]]]].
  - injection Hws as <-. destruct (Regex.ms_rest st) eqn:E; [| discriminate].
    exists "", st.
    split; [now left | split; [now rewrite E | split; [simpl; lia | split; [reflexivity | exact Hrun]]]].
  - injection Hws as <-. destruct (xorb _ _); [| discriminate].
    exists "", st.
    split; [now left | split; [reflexivity | split; [simpl; lia | split; [reflexivity | exact Hrun]]]].
  - injection Hws as <-. destruct (Regex.run a unit st _); [discriminate |].
    exists "", st.
    split; [now left | split; [reflexivity | split; [simpl; lia | split; [reflexivity | exact Hrun]]]].
Qed.

(** What a group around such an expression captures. *)
Lemma run_group_capture (n : nat) (a : Regex.re) (ws : list string) (R : Type)
  (st : Regex.mstate) (k : Regex.mstate -> option R) (x : R) :
  finiteWords a = Some ws ->
  noGroups a = true ->
  Regex.run (Regex.Grp n a) R st k = Some x ->
  exists w st',
    In w ws /\ Regex.ms_caps st' = (n, w) :: Regex.ms_caps st /\ k st' = Some x.
Proof.
  intros Hws Hng Hrun. cbn [Regex.run] in Hrun.
  destruct (run_finiteWords_plain a ws R st _ x Hws Hng Hrun)
    as (w & st1 & Hw & Hr & Hp & Hc & Hk).
  exists w, (Regex.setCapture n w st1).
  split; [exact Hw | split].
  - cbn [Regex.setCapture Regex.ms_caps]. now rewrite Hc.
  - replace (Regex.ms_pos st1 - Regex.ms_pos st) with (String.length w) in Hk by lia.
    rewrite Hr, take_append in Hk. exact Hk.
Qed.

(** The captures of a match of [(a)(b)t] where [a] and [b] are finite and
    [t] has no group. *)
Lemma matchAt_two_groups (a b t : Regex.re) (wa wb : list string) (prev : option ascii)
  (s : string) (pos : nat) (m : Regex.rmatch) :
  finiteWords a = Some wa -> noGroups a = true ->
  finiteWords b = Some wb -> noGroups b = true ->
  noGroups t = true ->
  Regex.matchAt (Regex.Cat (Regex.Grp 1 a) (Regex.Cat (Regex.Grp 2 b) t)) prev s pos = Some m ->
  exists w1 w2, In w1 wa /\ In w2 wb /\ Regex.grp 1 m = w1 /\ Regex.grp 2 m = w2.
Proof.
  intros Hwa Hna Hwb Hnb Hnt Hat. unfold Regex.matchAt in Hat.
  destruct (Regex.run _ Regex.mstate _ _) as [st' |] eqn:Hrun in Hat; [| discriminate].
  injection Hat as <-.
  change (Regex.run (Regex.Grp 1 a) Regex.mstate (Regex.MState prev s pos [])
            (fun st1 =>
               Regex.run (Regex.Grp 2 b) Regex.mstate st1
                 (fun st2 => Regex.run t Regex.mstate st2 (fun st3 => Some st3)))
          = Some st') in Hrun.
  destruct (run_group_capture 1 a wa _ _ _ _ Hwa Hna Hrun) as (w1 & st1 & Hw1 & Hc1 & Hk1).
  destruct (run_group_capture 2 b wb _ _ _ _ Hwb Hnb Hk1) as (w2 & st2 & Hw2 & Hc2 & Hk2).
  destruct (run_noGroups t _ _ _ _ Hnt Hk2) as (st3 & Hc3 & Hk3).
  injection Hk3 as Hk3. subst st3.
  exists w1, w2. unfold Regex.grp, Regex.group. cbn [Regex.m_caps].
  rewrite Hc3, Hc2, Hc1. repeat split; assumption.
Qed.

Lemma exec_two_groups (r a b t : Regex.re) (wa wb : list string) (s : string)
  (m : Regex.rmatch) :
  r = Regex.Cat (Regex.Grp 1 a) (Regex.Cat (Regex.Grp 2 b) t) ->
  finiteWords a = Some wa -> noGroups a = true ->
  finiteWords b = Some wb -> noGroups b = true ->
  noGroups t = true ->
  Regex.exec r s = Some m ->
  exists w1 w2, In w1 wa /\ In w2 wb /\ Regex.grp 1 m = w1 /\ Regex.grp 2 m = w2.
Proof.
  intros -> Hwa Hna Hwb Hnb Hnt. unfold Regex.exec.
  assert (H : forall prev pos,
             Regex.execAt (Regex.Cat (Regex.Grp 1 a) (Regex.Cat (Regex.Grp 2 b) t))
               prev s pos = Some m ->
             exists w1 w2,
               In w1 wa /\ In w2 wb /\ Regex.grp 1 m = w1 /\ Regex.grp 2 m = w2);
    [| apply H].
  induction s as [| c s IH]; intros prev pos Hexec; rewrite execAt_unfold in Hexec.
  - destruct (Regex.matchAt _ prev _ pos) as [m0 |] eqn:Hat; [| discriminate].
    injection Hexec as Hm. subst m0.
    apply (matchAt_two_groups a b t wa wb prev _ pos m Hwa Hna Hwb Hnb Hnt Hat).
  - destruct (Regex.matchAt _ prev _ pos) as [m0 |] eqn:Hat.
    + injection Hexec as Hm. subst m0.
      apply (matchAt_two_groups a b t wa wb prev _ pos m Hwa Hna Hwb Hnb Hnt Hat).
    + apply (IH _ _ Hexec).
Qed.

Lemma vectorConstructorType_names (s t : string) :
  vectorConstructorType s = Some t -> In t vectorTypeNames.
Proof.
  unfold vectorConstructorType.
  destruct (Regex.exec reVectorConstructor s) as [m |] eqn:Hexec; [| discriminate].
  intros H. injection H as <-.
  assert (Hall : forallb
                   (fun w1 =>
                      forallb (fun w2 => isOneOf (w1 ++ w2) vectorTypeNames) ["2"; "3"; "4"])
                   ["float"; "int"; "uint"; "bool"; "real"; "half"] = true)
    by (vm_compute; reflexivity).
  destruct (exec_two_groups reVectorConstructor _ _ _
              ["float"; "int"; "uint"; "bool"; "real"; "half"] ["2"; "3"; "4"] s m
              ltac:(cbv; reflexivity) ltac:(vm_compute; reflexivity) eq_refl
              ltac:(vm_compute; reflexivity) eq_refl eq_refl Hexec)
    as (w1 & w2 & Hw1 & Hw2 & -> & ->).
  rewrite forallb_forall in Hall. specialize (Hall w1 Hw1).
  rewrite forallb_forall in Hall. apply isOneOf_In, Hall, Hw2.
Qed.

(** X19: Whatever the index, the document and the expression, a type that
    [getExpressionType] returns is one that [isVectorType] accepts: the
    vector constructor it read in the expression, or the type of a variable
    that [isVectorType] accepted. *)
Theorem expression_types_are_vector_types :
  forall (st : Index) (document : Document) (expression : string) (lineNum : nat)
         (t : string),
    getExpressionType st document expression lineNum = Some t ->
    isVectorType t = true.
Proof.
  intros st document expression lineNum t. unfold getExpressionType.
  destruct (negb (JS.truthy expression)); [discriminate |]. cbv zeta.
  destruct (mulResultType st document (JS.trim expression) lineNum) as [t0 |] eqn:Hmul.
  - intros H. injection H as <-. unfold mulResultType in Hmul.
    destruct (Regex.test reMulCall (JS.trim expression)); [| discriminate].
    destruct (extractFunctionCallArgs (JS.trim expression) "mul")
      as [[| arg1 [| arg2 rest]] |]; try discriminate.
    cbv zeta in Hmul.
    destruct (vectorConstructorType (JS.trim arg2)) as [t1 |] eqn:Hvec.
    + injection Hmul as <-. apply isVectorType_names.
      apply (vectorConstructorType_names _ _ Hvec).
    + destruct (Regex.exec reLeadingIdentifier (JS.trim arg2)) as [varMatch |];
        [| discriminate].
      destruct (getVariableTypeAtPosition st document (Regex.grp 1 varMatch) lineNum)
        as [varType |]; [| discriminate].
      destruct (JS.truthy varType && isVectorType varType) eqn:E; [| discriminate].
      injection Hmul as <-. apply andb_true_iff in E. apply E.
  - intros H. apply isVectorType_names. apply (vectorConstructorType_names _ _ H).
Qed.

Lemma expression_types_witness :
  let document := azslDocument "/shaders/mul.azsl" ["float4 p = mul(m, float4(v, 1.0)).xyzw;"] in
  getExpressionType freshIndex document "mul(m, float4(v, 1.0))" 0 = Some "float4"
  /\ isVectorType "float4" = true.
Proof.
  intros document.
  assert (H : getExpressionType freshIndex document "mul(m, float4(v, 1.0))" 0
              = Some "float4") by (vm_compute; reflexivity).
  split; [exact H |].
  exact (expression_types_are_vector_types freshIndex document "mul(m, float4(v, 1.0))" 0
           "float4" H).
Defined.

(* ===================================================================== *)
(** ** The struct scan on plain texts *)
(* ===================================================================== *)

Lemma test_false_exec (r : Regex.re) (s : string) :
  Regex.test r s = false -> Regex.exec r s = None.
Proof. unfold Regex.test. destruct (Regex.exec r s); [discriminate | reflexivity]. Qed.

Lemma isPlainStructLine_inv (line : string) :
  isPlainStructLine line = true ->
  JS.includes line "typedef" = false /\ Regex.exec reTypedefAlias line = None.
Proof.
  unfold isPlainStructLine. intros H. apply andb_true_iff in H. destruct H as [H1 H2].
  apply negb_true_iff in H1, H2. split; [exact H1 | now apply test_false_exec].
Qed.

Lemma addStructMember_present (structName memberName : string) (members : JsMap.t JsSet.t) :
  JsMap.has structName members = true ->
  exists members',
    addStructMember structName memberName members = Some members'
    /\ (forall k, JsMap.has k members = true -> JsMap.has k members' = true).
Proof.
  unfold addStructMember, JsMap.has. intros H.
  destruct (JsMap.get structName members) as [s |] eqn:E; [| discriminate].
  eexists. split; [reflexivity |]. intros k Hk. now apply has_set_kept.
Qed.

Lemma Forall_skipn_sub {A : Type} (P : A -> Prop) (n : nat) (l : list A) :
  Forall P l -> Forall P (skipn n l).
Proof.
  revert l. induction n as [| n IH]; intros l H; [exact H |].
  destruct l as [| x l]; [constructor |]. inversion H; subst. now apply IH.
Qed.

(** The body of a struct outside a [typedef]: on plain lines the scan adds
    members to the set of the struct and nothing else, and does not throw. *)
Lemma scanStructBody_plain (uri : Uri) (declLine : nat) (structName : string)
  (ls : list string) :
  Forall (fun l => isPlainStructLine l = true) ls ->
  forall (braceDepth : Z) (results : JsMap.t StructInfo) (members : JsMap.t JsSet.t),
    JsMap.has structName members = true ->
    exists members',
      scanStructBody uri declLine false structName ls braceDepth results members
      = Some (results, members')
      /\ (forall k, JsMap.has k members = true -> JsMap.has k members' = true).
Proof.
  induction 1 as [| structLine ls Hplain _ IH]; intros braceDepth results members Hhas;
    cbn [scanStructBody].
  - exists members. split; [reflexivity | trivial].
  - destruct (braceDepth <=? 0)%Z; [exists members; split; [reflexivity | trivial] |].
    destruct (isPlainStructLine_inv structLine Hplain) as [_ Halias].
    rewrite Halias. cbv zeta.
    replace (if (braceDepth =? 1)%Z && JS.includes structLine "}" then results else results)
      with results by (now destruct ((braceDepth =? 1)%Z && JS.includes structLine "}")).
    rewrite andb_false_r.
    assert (Hm : exists members1,
               (if (0 <? braceDepth + scanBraces structLine)%Z
                then match structLineMember structLine with
                     | Some memberName => addStructMember structName memberName members
                     | None => Some members
                     end
                else Some members) = Some members1
               /\ (forall k, JsMap.has k members = true -> JsMap.has k members1 = true)).
    { destruct (0 <? braceDepth + scanBraces structLine)%Z;
        [| exists members; split; [reflexivity | trivial]].
      destruct (structLineMember structLine) as [memberName |];
        [| exists members; split; [reflexivity | trivial]].
      now apply addStructMember_present. }
    destruct Hm as (members1 & -> & Hkept).
    destruct (IH (braceDepth + scanBraces structLine)%Z results members1 (Hkept _ Hhas))
      as (members' & -> & Hkept').
    exists members'. split; [reflexivity | auto].
Qed.

Lemma structDeclStep_plain (lines : list string) (uri : Uri) (i : nat) (line : string)
  (st : JsMap.t StructInfo * JsMap.t JsSet.t) :
  Forall (fun l => isPlainStructLine l = true) lines ->
  isPlainStructLine line = true ->
  structsHaveMembers st ->
  exists st',
    structDeclStep lines uri i line (Some st) = Some st' /\ structsHaveMembers st'.
Proof.
  intros Hlines Hplain Hinv. destruct st as [results members].
  destruct (isPlainStructLine_inv line Hplain) as [Htypedef _].
  unfold structDeclStep.
  destruct (matchStructDecl line) as [m |]; [| exists (results, members); now split].
  rewrite Htypedef. cbv zeta. cbn [andb].
  destruct (JS.includes line "{" || nextLineOpensBrace lines i);
    [| exists (results, members); now split].
  set (structName := Regex.grp 1 m).
  assert (H1 : exists results1 members1,
             (if JsMap.has structName results then (results, members)
              else (JsMap.set structName (mkStructInfo structName uri i) results,
                    JsMap.set structName JsSet.empty members)) = (results1, members1)
             /\ structsHaveMembers (results1, members1)
             /\ JsMap.has structName members1 = true).
  { destruct (JsMap.has structName results) eqn:E.
    - exists results, members. split; [reflexivity | split; [exact Hinv | apply (Hinv _ E)]].
    - eexists _, _. split; [reflexivity | split; [| apply has_set_same]].
      intros name Hname. cbn [fst snd] in *.
      destruct (String.eqb name structName) eqn:En.
      + apply String.eqb_eq in En. subst name. apply has_set_same.
      + apply has_set_kept, (Hinv name).
        unfold JsMap.has in Hname |- *. rewrite get_set_other in Hname; [exact Hname |].
        intros ->. now rewrite String.eqb_refl in En. }
  destruct H1 as (results1 & members1 & -> & Hinv1 & Hhas1).
  destruct (JS.includes line "{" && JS.includes line "}" && JS.includes line ";").
  - assert (H2 : forall names members0,
               JsMap.has structName members0 = true ->
               (forall k, JsMap.has k members1 = true -> JsMap.has k members0 = true) ->
               exists members2,
                 fold_left
                   (fun acc memberName =>
                      match acc with
                      | Some ms => addStructMember structName memberName ms
                      | None => None
                      end) names (Some members0) = Some members2
                 /\ (forall k, JsMap.has k members1 = true -> JsMap.has k members2 = true)).
    { induction names as [| n names IH]; intros members0 Hh Hk; cbn [fold_left].
      - exists members0. now split.
      - destruct (addStructMember_present structName n members0 Hh) as (ms & -> & Hms).
        apply IH; auto. }
    destruct (H2 (singleLineMembers line) members1 Hhas1 (fun k H => H))
      as (members2 & -> & Hkept).
    exists (results1, members2). split; [reflexivity |].
    intros name Hname. apply Hkept, (Hinv1 name Hname).
  - destruct (scanStructBody_plain uri i structName
                (skipn (S (if JS.includes line "{" then i else S i)) lines)
                (Forall_skipn_sub _ _ _ Hlines) (1 + scanBraces line)%Z results1 members1 Hhas1)
      as (members' & -> & Hkept).
    exists (results1, members'). split; [reflexivity |].
    intros name Hname. apply Hkept, (Hinv1 name Hname).
Qed.

(** X20: On a text without [typedef] and without an alias after a closing brace
    the struct scan does not throw, and every struct it returns has a member
    set.  A readable file of the corpus with such a text therefore passes
    the whole [try] block of [indexHeaders]: its functions and its options
    reach the index. *)
Theorem plain_struct_scan_completes :
  forall (text filePath : string),
    forallb isPlainStructLine (JS.splitLines text) = true ->
    (exists decls,
       extractStructDeclarations text filePath = Some decls
       /\ forall name, JsMap.has name (sd_structs decls) = true ->
                       JsMap.has name (sd_members decls) = true)
    /\ (forall (h : Host) (st : Index),
          readFileSync h filePath = Some text ->
          (forall name, JsMap.has name (extractFunctionDeclarations text filePath) = true ->
                        JsMap.has name (functionIndex (ingestFile h filePath st)) = true)
          /\ (forall name, JsMap.has name (extractOptionDeclarations text filePath) = true ->
                           JsMap.has name (optionIndex (ingestFile h filePath st)) = true)).
Proof.
  intros text filePath Hplain.
  rewrite forallb_forall in Hplain.
  assert (Hlines : Forall (fun l => isPlainStructLine l = true) (JS.splitLines text))
    by (apply Forall_forall; exact Hplain).
  assert (Hscan : exists st',
             foldLines (JS.splitLines text)
               (structDeclStep (JS.splitLines text) (UriFile filePath))
               (Some (JsMap.empty, JsMap.empty)) = Some st'
             /\ structsHaveMembers st').
  { apply (foldLines_invariant
             (fun s => exists st', s = Some st' /\ structsHaveMembers st')).
    - exists (JsMap.empty, JsMap.empty). split; [reflexivity |]. intros name H. discriminate.
    - intros i line s Hnth (st' & -> & Hinv).
      apply structDeclStep_plain; [exact Hlines | | exact Hinv].
      apply Hplain. apply (nth_error_In _ _ Hnth). }
  assert (Hdecls : exists decls,
             extractStructDeclarations text filePath = Some decls
             /\ forall name, JsMap.has name (sd_structs decls) = true ->
                             JsMap.has name (sd_members decls) = true).
  { unfold extractStructDeclarations. cbv zeta.
    destruct Hscan as ([results members] & -> & Hinv).
    eexists. split; [reflexivity | exact Hinv]. }
  split; [exact Hdecls |].
  intros h st Hread. destruct Hdecls as (decls & Hdecls & _).
  destruct (ingestFile_tables h filePath text st Hread) as (_ & _ & _ & Hrest).
  rewrite Hdecls in Hrest. destruct Hrest as (_ & Hf & Ho). split.
  - intros name Hn. rewrite Hf. unfold JsMap.has in Hn.
    destruct (JsMap.get name (extractFunctionDeclarations text filePath)) as [p |] eqn:E;
      [| discriminate].
    apply (has_addAbsent_entry _ _ (name, p)), get_in, E.
  - intros name Hn. rewrite Ho. unfold JsMap.has in Hn.
    destruct (JsMap.get name (extractOptionDeclarations text filePath)) as [o |] eqn:E;
      [| discriminate].
    change name with (fst (name, o)).
    apply (has_fold_left
             (fun m entry =>
                setIfAbsent (fst entry)
                  (mkOptionEntry (opt_uri (snd entry)) (opt_line (snd entry))
                     (opt_isStatic (snd entry))) m)
             fst); [| | apply get_in, E].
    + intros m e k. apply has_setIfAbsent_kept.
    + intros m e. apply has_setIfAbsent_same.
Qed.

Lemma plain_struct_scan_witness :
  forallb isPlainStructLine (JS.splitLines structFileAB) = true
  /\ (exists decls,
        extractStructDeclarations structFileAB "/gem/ab.azsli" = Some decls
        /\ forall name, JsMap.has name (sd_structs decls) = true ->
                        JsMap.has name (sd_members decls) = true).
Proof.
  assert (H : forallb isPlainStructLine (JS.splitLines structFileAB) = true)
    by (vm_compute; reflexivity).
  split; [exact H |].
  exact (proj1 (plain_struct_scan_completes structFileAB "/gem/ab.azsli" H)).
Defined.

(* ===================================================================== *)
(** ** The tables that the validation does not read *)
(* ===================================================================== *)

Lemma structMembers_ingestStructs_fold (decls : StructDecls) (st : Index) :
  structMembers (ingestStructs decls st)
  = fold_left
      (fun m entry =>
         addMembers (fst entry)
           (match JsMap.get (fst entry) (sd_members decls) with
            | Some ms => ms
            | None => []
            end) m)
      (sd_structs decls) (structMembers st).
Proof.
  unfold ingestStructs. revert st.
  induction (sd_structs decls) as [| e l IH]; intros st; simpl; [reflexivity |].
  rewrite IH. reflexivity.
Qed.

Lemma ingestStructs_tables (decls : StructDecls) (st : Index) :
  ingestStructs decls st
  = setStructMembers (structMembers (ingestStructs decls st))
      (setStructIndex (structIndex (ingestStructs decls st)) st).
Proof.
  destruct (ingestStructs_shape decls st) as (a & b & ->). reflexivity.
Qed.

(** X21: The diagnostics of a document are computed without the function index,
    the Atom method index, the SRG index and the two path indexes: whatever
    these tables hold, the outcome of the validation is the same. *)
Theorem diagnostics_ignore_function_index :
  forall (st : Index) (document : Document)
         (functions : JsMap.t Position) (atomMethods : JsMap.t Position)
         (srgs : JsMap.t Location) (paths : JsMap.t string)
         (basenames : JsMap.t (list string)),
    snd (validateDocument
           (setFunctionIndex functions
              (setAtomMethodIndex atomMethods
                 (setSrgIndex srgs
                    (setHeadersPathIndex paths
                       (setHeadersBasenameIndex basenames st)))))
           document)
    = snd (validateDocument st document).
Proof.
  intros st document functions atomMethods srgs paths basenames.
  unfold validateDocument.
  destruct (negb (String.eqb (doc_languageId document) "azsl")); [reflexivity |]. cbv zeta.
  destruct (extractStructDeclarations (doc_text document) (doc_fileName document))
    as [currentDocStructs |]; [| reflexivity].
  cbn [snd]. f_equal. unfold ingestDocumentStructs.
  rewrite (ingestStructs_tables currentDocStructs st).
  rewrite (ingestStructs_tables currentDocStructs (setFunctionIndex _ _)).
  rewrite !structMembers_ingestStructs_fold, !structIndex_ingestStructs.
  through_setters.
  generalize (fold_left
                (fun m entry =>
                   addMembers (fst entry)
                     (match JsMap.get (fst entry) (sd_members currentDocStructs) with
                      | Some ms => ms
                      | None => []
                      end) m)
                (sd_structs currentDocStructs) (structMembers st)) as members.
  generalize (fold_left
                (fun m entry =>
                   setIfAbsent (fst entry)
                     (mkLocation (struct_uri (snd entry)) (struct_line (snd entry))) m)
                (sd_structs currentDocStructs) (structIndex st)) as structs.
  intros structs members.
  reflexivity.
Qed.

(* ===================================================================== *)
(** ** The live-document macro scan *)
(* ===================================================================== *)

Lemma mergeDocumentMacro_other (uri : Uri) (d : MacroDef) (m : JsMap.t MacroEntry)
  (name : string) :
  name <> def_name d -> JsMap.get name (mergeDocumentMacro uri d m) = JsMap.get name m.
Proof.
  intros H. unfold mergeDocumentMacro.
  destruct (match JsMap.get (def_name d) m with
            | Some existing => Uri_eqb uri (macro_uri existing) || richerDoc (def_doc d) existing
            | None => true
            end); [now apply get_set_other | reflexivity].
Qed.

(** A definition of the document replaces an entry that is absent or that
    the document produced. *)
Lemma mergeDocumentMacro_own (uri : Uri) (d : MacroDef) (m : JsMap.t MacroEntry) :
  match JsMap.get (def_name d) m with
  | Some e => macro_uri e = uri
  | None => True
  end ->
  JsMap.get (def_name d) (mergeDocumentMacro uri d m) = Some (entryOf uri d).
Proof.
  intros H. unfold mergeDocumentMacro.
  destruct (JsMap.get (def_name d) m) as [e |].
  - subst uri. rewrite (proj2 (Uri_eqb_eq _ _) eq_refl). cbn [orb]. apply get_set_same.
  - apply get_set_same.
Qed.

(** X22: The live-document scan refreshes the document's own macros: when the
    index has no entry for a name, or an entry that came from this document,
    the entry after [indexDocumentMacros] is the last definition of the name
    in the document, whatever the documentation of the earlier ones. *)
Theorem document_macros_are_refreshed :
  forall (st : Index) (document : Document) (pre post : list MacroDef) (d : MacroDef),
    doc_languageId document = "azsl" ->
    extractMacrosWithComments (doc_text document) = (pre ++ d :: post)%list ->
    Forall (fun d' => def_name d' <> def_name d) post ->
    match JsMap.get (def_name d) (macroIndex st) with
    | Some e => macro_uri e = doc_uri document
    | None => True
    end ->
    JsMap.get (def_name d) (macroIndex (indexDocumentMacros document st))
    = Some (entryOf (doc_uri document) d).
Proof.
  intros st document pre post d Hlang Hdefs Hpost Hown.
  unfold indexDocumentMacros. rewrite Hlang.
  change (negb ("azsl" =? "azsl")%string) with false. cbv iota.
  rewrite Hdefs. through_setters. rewrite fold_left_app. cbn [fold_left].
  set (uri := doc_uri document) in *.
  assert (Hpre : match JsMap.get (def_name d)
                         (fold_left (fun m d0 => mergeDocumentMacro uri d0 m) pre
                            (macroIndex st)) with
                 | Some e => macro_uri e = uri
                 | None => True
                 end).
  { revert Hown. generalize (macroIndex st) as m. clear Hdefs.
    induction pre as [| d0 pre IH]; intros m Hm; cbn [fold_left]; [exact Hm |].
    apply IH.
    destruct (String.eqb (def_name d) (def_name d0)) eqn:E.
    - apply String.eqb_eq in E. rewrite E in Hm |- *.
      now rewrite (mergeDocumentMacro_own uri d0 m Hm).
    - rewrite mergeDocumentMacro_other; [exact Hm |].
      intros Heq. rewrite Heq, String.eqb_refl in E. discriminate. }
  pose proof (mergeDocumentMacro_own uri d _ Hpre) as Hd.
  revert Hd. clear Hdefs.
  generalize (mergeDocumentMacro uri d
                (fold_left (fun m d0 => mergeDocumentMacro uri d0 m) pre (macroIndex st)))
    as m.
  induction Hpost as [| d0 post Hne _ IH]; intros m Hm; cbn [fold_left]; [exact Hm |].
  apply IH. rewrite mergeDocumentMacro_other; [exact Hm |].
  intros Heq. apply Hne. now rewrite Heq.
Qed.

Lemma document_macros_witness :
  let d1 := mkMacroDef "FOO" "4" 0 "lights" in
  let d2 := mkMacroDef "FOO" "8" 2 "" in
  let st := indexDocumentMacros redefiningDocument freshIndex in
  extractMacrosWithComments (doc_text redefiningDocument) = [d1; d2]
  /\ JsMap.get "FOO" (macroIndex st) = Some (entryOf (doc_uri redefiningDocument) d2)
  /\ JsMap.get "FOO" (macroIndex (indexDocumentMacros redefiningDocument st))
     = Some (entryOf (doc_uri redefiningDocument) d2).
Proof.
  intros d1 d2 st.
  assert (Hdefs : extractMacrosWithComments (doc_text redefiningDocument)
                  = ([d1] ++ d2 :: [])%list) by (vm_compute; reflexivity).
  split; [exact Hdefs | split].
  - exact (document_macros_are_refreshed freshIndex redefiningDocument [d1] [] d2
             eq_refl Hdefs (Forall_nil _) I).
  - assert (Hown : match JsMap.get (def_name d2) (macroIndex st) with
                   | Some e => macro_uri e = doc_uri redefiningDocument
                   | None => True
                   end) by (vm_compute; reflexivity).
    exact (document_macros_are_refreshed st redefiningDocument [d1] [] d2
             eq_refl Hdefs (Forall_nil _) Hown).
Defined.
